(** * The remote-instance connection subsystem of ralph-tui

    A shallow embedding of [src/remote/client.ts] (the [RemoteClient]
    connection state machine and the tab constructors) and of the
    [InstanceManager] coordinator, followed by the properties of the
    subsystem's specification.

    JavaScript objects that are shared by reference are kept in explicit
    stores: tab objects, arrays of tab references, clients, sockets, interval
    timers and promises are addressed by their index in the store, and a
    reference is a [nat].  Every method is a function on the whole [state];
    asynchronous methods are cut at their [await]s, and what runs after an
    [await] is a separate transition of [step]. *)

From Stdlib Require Import ZArith String List Bool Lia.
From stdpp Require Import base option list strings gmap.

(** ** Data model of [client.ts] *)

Inductive ConnectionStatus := disconnected | connecting | connected.

#[global] Instance ConnectionStatus_eq_dec : EqDecision ConnectionStatus.
Proof. solve_decision. Defined.

(** [InstanceTab]; the optional fields are [None] when the property is
    [undefined]. *)
Record InstanceTab := mkTab {
  id : string;
  label : string;
  isLocal : bool;
  status : ConnectionStatus;
  alias : option string;
  host : option string;
  port : option Z;
  lastError : option string
}.

#[global] Instance InstanceTab_eq_dec : EqDecision InstanceTab.
Proof. solve_decision. Defined.

(** A parsed wire message.  Only the fields the client reads or writes are
    kept: [type], the [token] of an [auth] message, and [success] and [error]
    of an [auth_response] ([success] is the truthiness of the field).  The
    envelope's [id] (a random UUID) and [timestamp] are not modelled. *)
Record WSMessage := mkMsg {
  type : string;
  msg_token : option string;
  success : bool;
  error : option string
}.

#[global] Instance WSMessage_eq_dec : EqDecision WSMessage.
Proof. solve_decision. Defined.

Inductive RemoteClientEvent :=
| ev_connecting
| ev_connected
| ev_disconnected (err : option string)
| ev_message (message : WSMessage).

#[global] Instance RemoteClientEvent_eq_dec : EqDecision RemoteClientEvent.
Proof. solve_decision. Defined.

(** Modelled from the spec: the type [RemoteServerConfig] of [./config.js],
    which is not part of the sources; the specification gives a stored remote
    as [{alias, host, port, token}], keyed by its alias. *)
Record RemoteServerConfig := mkConfig {
  cfg_host : string;
  cfg_port : Z;
  cfg_token : string
}.

(** [RemoteClient].  The field [eventHandler] is the closure
    [(event) => this.handleClientEvent(tab.alias!, event)] that the manager
    passes to the constructor, represented by the alias it captured. *)
Record RemoteClient := mkClient {
  ws : option nat;
  c_host : string;
  c_port : Z;
  token : string;
  eventHandler : string;
  pingInterval : option nat;
  _status : ConnectionStatus
}.

Definition with_ws (v : option nat) (c : RemoteClient) : RemoteClient :=
  mkClient v (c_host c) (c_port c) (token c) (eventHandler c) (pingInterval c) (_status c).
Definition with_pingInterval (v : option nat) (c : RemoteClient) : RemoteClient :=
  mkClient (ws c) (c_host c) (c_port c) (token c) (eventHandler c) v (_status c).
Definition with_status (v : ConnectionStatus) (c : RemoteClient) : RemoteClient :=
  mkClient (ws c) (c_host c) (c_port c) (token c) (eventHandler c) (pingInterval c) v.

(** The platform's [WebSocket] object, as far as the client uses it.  The
    four callbacks are closures of one [connect()] call: each is represented
    by the client it closes over, and [onmessage] and [onerror] also by the
    promise whose [resolve] and [reject] they hold.  [sent] lists the
    arguments of the calls of [ws.send].  [closeFired] records that the
    [close] event was dispatched, which happens at most once. *)
Inductive ReadyState := CONNECTING | OPEN | CLOSING | CLOSED.

#[global] Instance ReadyState_eq_dec : EqDecision ReadyState.
Proof. solve_decision. Defined.

Record WebSocket := mkSocket {
  url : string * Z;
  onopen : option nat;
  onmessage : option (nat * nat);
  onerror : option (nat * nat);
  onclose : option nat;
  readyState : ReadyState;
  closeFired : bool;
  sent : list WSMessage
}.

(** A timer made by [setInterval]: the client whose heartbeat callback it
    runs, its delay in milliseconds, and whether [clearInterval] was called
    on it. *)
Record Timer := mkTimer {
  callback : nat;
  delay : Z;
  cleared : bool
}.

(** The promise returned by one [connect()] call, and the caller suspended
    on it: the alias of the [connectToRemote] call that awaits it, once that
    call has reached its [await]. *)
Inductive Settlement := pending | resolved | rejected (reason : string).

Record ConnectPromise := mkPromise {
  settled : Settlement;
  awaiter : option string
}.

Definition createLocalTab : InstanceTab :=
  mkTab "local" "Local" true connected None None None None.

Definition createRemoteTab (a h : string) (p : Z) : InstanceTab :=
  mkTab ("remote-" +:+ a) a false disconnected (Some a) (Some h) (Some p) None.

Definition authMessage (tok : string) : WSMessage :=
  mkMsg "auth" (Some tok) false None.

Definition pingMessage : WSMessage :=
  mkMsg "ping" None false None.

(** ** The state: object stores, the manager's fields, and what the
    environment observes *)

(** The first six fields are the stores.  [tabs], [selectedIndex], [clients],
    [stateChangeHandler] and [remoteConfigs] are the fields of the one
    [InstanceManager]: [tabs] is a reference into [arrays], [clients] is the
    JavaScript [Map] from alias to client in insertion order, and
    [stateChangeHandler] tells whether a handler is registered.  [notified]
    lists the calls of that handler (the array it was given and the selected
    index), [emitted] the calls of the clients' event handlers,
    [lastConnected] the calls of [updateLastConnected], and [suspended]
    counts the [selectTab] calls waiting for [updateLastConnected] to
    return. *)
Record state := State {
  tabObjs : list InstanceTab;
  arrays : list (list nat);
  clientObjs : list RemoteClient;
  sockets : list WebSocket;
  timers : list Timer;
  promises : list ConnectPromise;
  tabs : nat;
  selectedIndex : Z;
  clients : list (string * nat);
  stateChangeHandler : bool;
  remoteConfigs : gmap string RemoteServerConfig;
  notified : list (nat * Z);
  emitted : list (nat * RemoteClientEvent);
  lastConnected : list string;
  suspended : nat
}.

Definition set_tabObjs (v : list InstanceTab) (s : state) : state :=
  State v (arrays s) (clientObjs s) (sockets s) (timers s) (promises s)
    (tabs s) (selectedIndex s) (clients s) (stateChangeHandler s) (remoteConfigs s)
    (notified s) (emitted s) (lastConnected s) (suspended s).
Definition set_arrays (v : list (list nat)) (s : state) : state :=
  State (tabObjs s) v (clientObjs s) (sockets s) (timers s) (promises s)
    (tabs s) (selectedIndex s) (clients s) (stateChangeHandler s) (remoteConfigs s)
    (notified s) (emitted s) (lastConnected s) (suspended s).
Definition set_clientObjs (v : list RemoteClient) (s : state) : state :=
  State (tabObjs s) (arrays s) v (sockets s) (timers s) (promises s)
    (tabs s) (selectedIndex s) (clients s) (stateChangeHandler s) (remoteConfigs s)
    (notified s) (emitted s) (lastConnected s) (suspended s).
Definition set_sockets (v : list WebSocket) (s : state) : state :=
  State (tabObjs s) (arrays s) (clientObjs s) v (timers s) (promises s)
    (tabs s) (selectedIndex s) (clients s) (stateChangeHandler s) (remoteConfigs s)
    (notified s) (emitted s) (lastConnected s) (suspended s).
Definition set_timers (v : list Timer) (s : state) : state :=
  State (tabObjs s) (arrays s) (clientObjs s) (sockets s) v (promises s)
    (tabs s) (selectedIndex s) (clients s) (stateChangeHandler s) (remoteConfigs s)
    (notified s) (emitted s) (lastConnected s) (suspended s).
Definition set_promises (v : list ConnectPromise) (s : state) : state :=
  State (tabObjs s) (arrays s) (clientObjs s) (sockets s) (timers s) v
    (tabs s) (selectedIndex s) (clients s) (stateChangeHandler s) (remoteConfigs s)
    (notified s) (emitted s) (lastConnected s) (suspended s).
Definition set_tabs (v : nat) (s : state) : state :=
  State (tabObjs s) (arrays s) (clientObjs s) (sockets s) (timers s) (promises s)
    v (selectedIndex s) (clients s) (stateChangeHandler s) (remoteConfigs s)
    (notified s) (emitted s) (lastConnected s) (suspended s).
Definition set_selectedIndex (v : Z) (s : state) : state :=
  State (tabObjs s) (arrays s) (clientObjs s) (sockets s) (timers s) (promises s)
    (tabs s) v (clients s) (stateChangeHandler s) (remoteConfigs s)
    (notified s) (emitted s) (lastConnected s) (suspended s).
Definition set_clients (v : list (string * nat)) (s : state) : state :=
  State (tabObjs s) (arrays s) (clientObjs s) (sockets s) (timers s) (promises s)
    (tabs s) (selectedIndex s) v (stateChangeHandler s) (remoteConfigs s)
    (notified s) (emitted s) (lastConnected s) (suspended s).
Definition set_stateChangeHandler (v : bool) (s : state) : state :=
  State (tabObjs s) (arrays s) (clientObjs s) (sockets s) (timers s) (promises s)
    (tabs s) (selectedIndex s) (clients s) v (remoteConfigs s)
    (notified s) (emitted s) (lastConnected s) (suspended s).
Definition set_remoteConfigs (v : gmap string RemoteServerConfig) (s : state) : state :=
  State (tabObjs s) (arrays s) (clientObjs s) (sockets s) (timers s) (promises s)
    (tabs s) (selectedIndex s) (clients s) (stateChangeHandler s) v
    (notified s) (emitted s) (lastConnected s) (suspended s).
Definition set_notified (v : list (nat * Z)) (s : state) : state :=
  State (tabObjs s) (arrays s) (clientObjs s) (sockets s) (timers s) (promises s)
    (tabs s) (selectedIndex s) (clients s) (stateChangeHandler s) (remoteConfigs s)
    v (emitted s) (lastConnected s) (suspended s).
Definition set_emitted (v : list (nat * RemoteClientEvent)) (s : state) : state :=
  State (tabObjs s) (arrays s) (clientObjs s) (sockets s) (timers s) (promises s)
    (tabs s) (selectedIndex s) (clients s) (stateChangeHandler s) (remoteConfigs s)
    (notified s) v (lastConnected s) (suspended s).
Definition set_lastConnected (v : list string) (s : state) : state :=
  State (tabObjs s) (arrays s) (clientObjs s) (sockets s) (timers s) (promises s)
    (tabs s) (selectedIndex s) (clients s) (stateChangeHandler s) (remoteConfigs s)
    (notified s) (emitted s) v (suspended s).
Definition set_suspended (v : nat) (s : state) : state :=
  State (tabObjs s) (arrays s) (clientObjs s) (sockets s) (timers s) (promises s)
    (tabs s) (selectedIndex s) (clients s) (stateChangeHandler s) (remoteConfigs s)
    (notified s) (emitted s) (lastConnected s) v.

(** The state of a freshly constructed manager: [tabs = []], no client, no
    handler. *)
Definition init : state :=
  State [] [[]] [] [] [] [] 0 0%Z [] false ∅ [] [] [] 0.

(** The contents of [this.tabs], and the tab object behind a reference. *)
Definition tabList (s : state) : list nat :=
  default [] (arrays s !! tabs s).

Definition tabAt (s : state) (l : nat) : option InstanceTab :=
  tabObjs s !! l.

(** [this.tabs.find(pred)]: the first reference whose object satisfies
    [pred]. *)
Definition findTab (pred : InstanceTab -> bool) (s : state) : option nat :=
  List.find (fun l => from_option pred false (tabAt s l)) (tabList s).

(** [this.tabs.push(tab)] for a new object [tab]. *)
Definition pushTab (tab : InstanceTab) (s : state) : state :=
  let l := length (tabObjs s) in
  set_arrays (alter (fun a => a ++ [l]) (tabs s) (arrays s))
    (set_tabObjs (tabObjs s ++ [tab]) s).

(** The [Map] operations used on [clients]. *)
Fixpoint clients_get (k : string) (m : list (string * nat)) : option nat :=
  match m with
  | [] => None
  | (k', v) :: m' => if bool_decide (k' = k) then Some v else clients_get k m'
  end.

Fixpoint clients_set (k : string) (v : nat) (m : list (string * nat)) : list (string * nat) :=
  match m with
  | [] => [(k, v)]
  | (k', v') :: m' =>
      if bool_decide (k' = k) then (k', v) :: m' else (k', v') :: clients_set k v m'
  end.

Definition clients_delete (k : string) (m : list (string * nat)) : list (string * nat) :=
  List.filter (fun kv => negb (bool_decide (kv.1 = k))) m.

(** ** [InstanceManager]: notification and tab status *)

(** [notifyStateChange]: the handler receives [[...this.tabs]], a new array
    with the same tab references, and the selected index. *)
Definition notifyStateChange (s : state) : state :=
  if stateChangeHandler s then
    set_notified (notified s ++ [(length (arrays s), selectedIndex s)])
      (set_arrays (arrays s ++ [tabList s]) s)
  else s.

Definition setStatus (st : ConnectionStatus) (t : InstanceTab) : InstanceTab :=
  mkTab (id t) (label t) (isLocal t) st (alias t) (host t) (port t) (lastError t).

Definition setLastError (e : option string) (t : InstanceTab) : InstanceTab :=
  mkTab (id t) (label t) (isLocal t) (status t) (alias t) (host t) (port t) e.

Definition updateTabStatus (tabId : string) (st : ConnectionStatus)
    (err : option string) (s : state) : state :=
  match findTab (fun t => bool_decide (id t = tabId)) s with
  | Some l =>
      notifyStateChange
        (set_tabObjs (alter (fun t => setLastError err (setStatus st t)) l (tabObjs s)) s)
  | None => s
  end.

Definition handleClientEvent (a : string) (ev : RemoteClientEvent) (s : state) : state :=
  match findTab (fun t => bool_decide (alias t = Some a)) s with
  | None => s
  | Some l =>
      match tabAt s l with
      | None => s
      | Some tab =>
          match ev with
          | ev_connecting => updateTabStatus (id tab) connecting None s
          | ev_connected => updateTabStatus (id tab) connected None s
          | ev_disconnected e => updateTabStatus (id tab) disconnected e s
          | ev_message _ => s
          end
      end
  end.

(** ** [RemoteClient] *)

Definition updClient (c : nat) (f : RemoteClient -> RemoteClient) (s : state) : state :=
  set_clientObjs (alter f c (clientObjs s)) s.

Definition updSocket (w : nat) (f : WebSocket -> WebSocket) (s : state) : state :=
  set_sockets (alter f w (sockets s)) s.

Definition statusOf (c : nat) (s : state) : ConnectionStatus :=
  from_option _status disconnected (clientObjs s !! c).

(** [this.eventHandler(ev)]: the call is recorded, and the manager's closure
    runs [handleClientEvent] with the alias it captured. *)
Definition callEventHandler (c : nat) (ev : RemoteClientEvent) (s : state) : state :=
  match clientObjs s !! c with
  | Some cl => handleClientEvent (eventHandler cl) ev (set_emitted (emitted s ++ [(c, ev)]) s)
  | None => s
  end.

(** [clearInterval(t)] of the platform. *)
Definition clearInterval (tm : Timer) : Timer :=
  mkTimer (callback tm) (delay tm) true.

Definition stopPingInterval (c : nat) (s : state) : state :=
  match clientObjs s !! c with
  | Some cl =>
      match pingInterval cl with
      | Some t =>
          updClient c (with_pingInterval None)
            (set_timers (alter clearInterval t (timers s)) s)
      | None => s
      end
  | None => s
  end.

Definition startPingInterval (c : nat) (s : state) : state :=
  let s1 := stopPingInterval c s in
  updClient c (with_pingInterval (Some (length (timers s1))))
    (set_timers (timers s1 ++ [mkTimer c 30000 false]) s1).

(** [ws.close()] of the platform socket. *)
Definition ws_close (k : WebSocket) : WebSocket :=
  mkSocket (url k) (onopen k) (onmessage k) (onerror k) (onclose k)
    (match readyState k with CLOSED => CLOSED | _ => CLOSING end) (closeFired k) (sent k).

Definition detach (k : WebSocket) : WebSocket :=
  mkSocket (url k) None None None None (readyState k) (closeFired k) (sent k).

Definition ws_send (m : WSMessage) (k : WebSocket) : WebSocket :=
  mkSocket (url k) (onopen k) (onmessage k) (onerror k) (onclose k)
    (readyState k) (closeFired k) (sent k ++ [m]).

Definition cleanup (c : nat) (s : state) : state :=
  let s1 := stopPingInterval c s in
  match clientObjs s1 !! c with
  | Some cl =>
      match ws cl with
      | Some w => updClient c (with_ws None) (updSocket w (fun k => ws_close (detach k)) s1)
      | None => s1
      end
  | None => s1
  end.

Definition disconnect (c : nat) (s : state) : state :=
  let s1 := cleanup c s in
  let s2 := updClient c (with_status disconnected) s1 in
  callEventHandler c (ev_disconnected None) s2.

Definition send (c : nat) (m : WSMessage) (s : state) : state :=
  match clientObjs s !! c with
  | Some cl =>
      match ws cl with
      | Some w => if bool_decide (_status cl = connected) then updSocket w (ws_send m) s else s
      | None => s
      end
  | None => s
  end.

Definition authenticate (c : nat) (s : state) : state :=
  match clientObjs s !! c with
  | Some cl =>
      match ws cl with
      | Some w => updSocket w (ws_send (authMessage (token cl))) s
      | None => s
      end
  | None => s
  end.

(** What runs when an awaited [connect()] promise is settled.  After
    [resolve], [connectToRemote] calls [updateLastConnected(tab.alias)] and
    waits for it; after [reject], its empty [catch] returns to [selectTab],
    which ends with [notifyStateChange]. *)
Definition resumeConnected (a : string) (s : state) : state :=
  set_suspended (S (suspended s)) (set_lastConnected (lastConnected s ++ [a]) s).

Definition resumeSelectTab (s : state) : state :=
  notifyStateChange s.

Definition settle (p : nat) (v : Settlement) (s : state) : state :=
  set_promises (alter (fun q => mkPromise v (awaiter q)) p (promises s)) s.

Definition resolveConnect (p : nat) (s : state) : state :=
  match promises s !! p with
  | Some (mkPromise pending aw) =>
      let s1 := settle p resolved s in
      match aw with Some a => resumeConnected a s1 | None => s1 end
  | _ => s
  end.

Definition rejectConnect (p : nat) (reason : string) (s : state) : state :=
  match promises s !! p with
  | Some (mkPromise pending aw) =>
      let s1 := settle p (rejected reason) s in
      match aw with Some _ => resumeSelectTab s1 | None => s1 end
  | _ => s
  end.

Definition handleMessage (c p : nat) (m : WSMessage) (s : state) : state :=
  if bool_decide (type m = "auth_response") then
    if success m then
      let s1 := updClient c (with_status connected) s in
      let s2 := callEventHandler c ev_connected s1 in
      let s3 := startPingInterval c s2 in
      resolveConnect p s3
    else
      let s1 := updClient c (with_status disconnected) s in
      let e := default "Authentication failed" (error m) in
      let s2 := callEventHandler c (ev_disconnected (Some e)) s1 in
      let s3 := cleanup c s2 in
      rejectConnect p e s3
  else if bool_decide (type m = "pong") then s
  else callEventHandler c (ev_message m) s.

(** The callbacks that [connect()] installs on its socket. *)
Definition on_open (c : nat) (s : state) : state :=
  authenticate c s.

Definition on_message (c p : nat) (data : option WSMessage) (s : state) : state :=
  match data with
  | Some m => handleMessage c p m s
  | None => s
  end.

Definition on_error (c p : nat) (s : state) : state :=
  let s1 := updClient c (with_status disconnected) s in
  let s2 := callEventHandler c (ev_disconnected (Some "Connection error")) s1 in
  rejectConnect p "Connection error" s2.

Definition on_close (c : nat) (s : state) : state :=
  let s1 := cleanup c s in
  if bool_decide (statusOf c s1 = connected) then
    let s2 := updClient c (with_status disconnected) s1 in
    callEventHandler c (ev_disconnected (Some "Connection closed")) s2
  else s1.

(** [connect()].  [ctor] is what [new WebSocket(url)] does at this call:
    [Some msg] when it throws an error with message [msg], [None] when it
    returns a socket.  The result is the promise the caller awaits: [None]
    for the early [return], whose promise is already resolved. *)
Definition connect (c : nat) (ctor : option string) (s : state) : state * option nat :=
  match clientObjs s !! c with
  | None => (s, None)
  | Some cl =>
      match _status cl with
      | connecting | connected => (s, None)
      | disconnected =>
          let s1 := updClient c (with_status connecting) s in
          let s2 := callEventHandler c ev_connecting s1 in
          let p := length (promises s2) in
          let s3 := set_promises (promises s2 ++ [mkPromise pending None]) s2 in
          match ctor with
          | None =>
              let w := length (sockets s3) in
              let k := mkSocket (c_host cl, c_port cl) (Some c) (Some (c, p)) (Some (c, p))
                         (Some c) CONNECTING false [] in
              (updClient c (with_ws (Some w)) (set_sockets (sockets s3 ++ [k]) s3), Some p)
          | Some msg =>
              let s4 := updClient c (with_status disconnected) s3 in
              let s5 := callEventHandler c (ev_disconnected (Some msg)) s4 in
              (rejectConnect p msg s5, Some p)
          end
      end
  end.

(** ** [InstanceManager]: the public operations *)

(** [initialize()] up to [await listRemotes()], and the rest of it once the
    list of remotes has arrived. *)
Definition initialize (s : state) : state :=
  set_tabs (length (arrays s))
    (set_arrays (arrays s ++ [[length (tabObjs s)]])
      (set_tabObjs (tabObjs s ++ [createLocalTab]) s)).

Definition loadRemote (s : state) (r : string * RemoteServerConfig) : state :=
  pushTab (createRemoteTab r.1 (cfg_host r.2) (cfg_port r.2))
    (set_remoteConfigs (<[r.1 := r.2]> (remoteConfigs s)) s).

Definition initializeLoaded (remotes : list (string * RemoteServerConfig)) (s : state) : state :=
  notifyStateChange (fold_left loadRemote remotes s).

Definition onStateChange (s : state) : state :=
  set_stateChangeHandler true s.


Definition getSelectedIndex (s : state) : Z :=
  selectedIndex s.

Definition getSelectedTab (s : state) : option nat :=
  if (selectedIndex s <? 0)%Z then None else tabList s !! Z.to_nat (selectedIndex s).

(** [await p] in [connectToRemote], for the promise of a [connect()] call:
    the caller runs on when the promise is settled. *)
Definition awaitConnect (a : string) (p : option nat) (s : state) : state :=
  match p with
  | None => resumeConnected a s
  | Some p =>
      match promises s !! p with
      | Some (mkPromise pending _) =>
          set_promises (alter (fun q => mkPromise (settled q) (Some a)) p (promises s)) s
      | Some (mkPromise resolved _) => resumeConnected a s
      | Some (mkPromise (rejected _) _) => resumeSelectTab s
      | None => s
      end
  end.

(** [connectToRemote(tab)] for the tab object at [l].  The boolean tells
    whether the call returned before its [await]; otherwise the caller is
    suspended and is resumed by [resumeConnected] or [resumeSelectTab]. *)
Definition connectToRemote (l : nat) (ctor : option string) (s : state) : state * bool :=
  match tabAt s l with
  | None => (s, true)
  | Some tab =>
      match alias tab, host tab, port tab with
      | Some a, Some h, Some p =>
          if bool_decide (a = "") || bool_decide (h = "") || (p =? 0)%Z then (s, true)
          else
            match remoteConfigs s !! a with
            | None =>
                (updateTabStatus (id tab) disconnected
                   (Some "Remote configuration not found") s, true)
            | Some config =>
                let existing := clients_get a (clients s) in
                if from_option (fun c => bool_decide (statusOf c s = connected)) false existing
                then (s, true)
                else
                  let '(c, s1) :=
                    match existing with
                    | Some c => (c, s)
                    | None =>
                        let c := length (clientObjs s) in
                        (c, set_clients (clients_set a c (clients s))
                              (set_clientObjs
                                 (clientObjs s ++
                                    [mkClient None h p (cfg_token config) a None disconnected])
                                 s))
                    end in
                  let s2 := updateTabStatus (id tab) connecting None s1 in
                  let '(s3, pr) := connect c ctor s2 in
                  (awaitConnect a pr s3, false)
            end
      | _, _, _ => (s, true)
      end
  end.

Definition selectTab (index : Z) (ctor : option string) (s : state) : state :=
  if (index <? 0)%Z || (Z.of_nat (length (tabList s)) <=? index)%Z then s
  else
    let s1 := set_selectedIndex index s in
    match tabList s1 !! Z.to_nat index with
    | None => s1
    | Some l =>
        match tabAt s1 l with
        | None => s1
        | Some tab =>
            if negb (isLocal tab) && bool_decide (status tab = disconnected) then
              let '(s2, returned) := connectToRemote l ctor s1 in
              if returned then notifyStateChange s2 else s2
            else notifyStateChange s1
        end
    end.

(** JavaScript's [%] on integers is the remainder that takes the sign of the
    dividend, [Z.rem].  On an empty tab list JavaScript computes [NaN] and
    [selectTab] fails on the missing tab; the model leaves the state as it
    is there ([Z.rem x 0 = x], which [selectTab] rejects).  The list of an
    initialized manager is never empty. *)
Definition selectNextTab (ctor : option string) (s : state) : state :=
  selectTab (Z.rem (selectedIndex s + 1) (Z.of_nat (length (tabList s)))) ctor s.

Definition selectPreviousTab (ctor : option string) (s : state) : state :=
  selectTab
    (Z.rem (selectedIndex s - 1 + Z.of_nat (length (tabList s)))
       (Z.of_nat (length (tabList s)))) ctor s.

Definition disconnectAll (s : state) : state :=
  let s1 := fold_left (fun s kv => disconnect kv.2 s) (clients s) s in
  let s2 := set_clients [] s1 in
  let s3 :=
    fold_left
      (fun s l =>
         set_tabObjs
           (alter (fun t => if isLocal t then t else setStatus disconnected t) l (tabObjs s)) s)
      (tabList s2) s2 in
  notifyStateChange s3.

(** The callback of [this.tabs.filter] in [refresh()], for the tab at [l]:
    whether the tab is kept, and the state after the callback's effects. *)
Definition refreshKeep (newAliases : list string) (l : nat) (s : state) : bool * state :=
  match tabAt s l with
  | None => (false, s)
  | Some tab =>
      if isLocal tab then (true, s)
      else
        match alias tab with
        | None => (false, s)
        | Some a =>
            if bool_decide (a = "") then (false, s)
            else if bool_decide (a ∈ newAliases) then (true, s)
            else
              match clients_get a (clients s) with
              | Some c => (false, set_clients (clients_delete a (clients (disconnect c s))) (disconnect c s))
              | None => (false, s)
              end
        end
  end.

Fixpoint filterTabs (newAliases : list string) (ls : list nat) (s : state) : list nat * state :=
  match ls with
  | [] => ([], s)
  | l :: ls' =>
      let '(keep, s1) := refreshKeep newAliases l s in
      let '(kept, s2) := filterTabs newAliases ls' s1 in
      (if keep then l :: kept else kept, s2)
  end.

(** The body of the loop "Add tabs for new remotes". *)
Definition addRemote (s : state) (r : string * RemoteServerConfig) : state :=
  let s1 := set_remoteConfigs (<[r.1 := r.2]> (remoteConfigs s)) s in
  match findTab (fun t => bool_decide (alias t = Some r.1)) s1 with
  | Some _ => s1
  | None => pushTab (createRemoteTab r.1 (cfg_host r.2) (cfg_port r.2)) s1
  end.

(** [refresh()], from the point where [listRemotes()] has returned
    [remotes]. *)
Definition refresh (remotes : list (string * RemoteServerConfig)) (s : state) : state :=
  let newAliases := remotes.*1 in
  let '(kept, s1) := filterTabs newAliases (tabList s) s in
  let s2 := set_tabs (length (arrays s1)) (set_arrays (arrays s1 ++ [kept]) s1) in
  let s3 := fold_left addRemote remotes s2 in
  let s4 :=
    if (Z.of_nat (length (tabList s3)) <=? selectedIndex s3)%Z
    then set_selectedIndex (Z.max 0 (Z.of_nat (length (tabList s3)) - 1)) s3
    else s3 in
  notifyStateChange s4.

(** ** Transitions *)

(** What the platform does with a socket before it runs a callback. *)
Definition setReadyState (r : ReadyState) (k : WebSocket) : WebSocket :=
  mkSocket (url k) (onopen k) (onmessage k) (onerror k) (onclose k) r (closeFired k) (sent k).

Definition setCloseFired (k : WebSocket) : WebSocket :=
  mkSocket (url k) (onopen k) (onmessage k) (onerror k) (onclose k) CLOSED true (sent k).

(** The events of the system: the calls of the user interface, the returns
    of the two calls into the configuration store, and the events of the
    platform's sockets and timers.  A socket delivers [open] once and only
    while it is connecting, messages only while it is open, [error] only
    before it is closed (and is closed from then on), and [close] once. *)
Inductive event :=
| Initialize
| InitializeLoaded (remotes : list (string * RemoteServerConfig))
| OnStateChange
| SelectTab (index : Z) (ctor : option string)
| SelectNextTab (ctor : option string)
| SelectPreviousTab (ctor : option string)
| DisconnectAll
| Refresh (remotes : list (string * RemoteServerConfig))
| LastConnectedReturned
| WsOpen (w : nat)
| WsMessage (w : nat) (data : option WSMessage)
| WsError (w : nat)
| WsClose (w : nat)
| TimerTick (t : nat).

(** The callback of [setInterval] in [startPingInterval]. *)
Definition on_tick (c : nat) (s : state) : state :=
  match clientObjs s !! c with
  | Some cl =>
      match ws cl with
      | Some w =>
          if bool_decide (_status cl = connected) then updSocket w (ws_send pingMessage) s
          else s
      | None => s
      end
  | None => s
  end.

Definition step (e : event) (s : state) : state :=
  match e with
  | Initialize => initialize s
  | InitializeLoaded remotes => initializeLoaded remotes s
  | OnStateChange => onStateChange s
  | SelectTab index ctor => selectTab index ctor s
  | SelectNextTab ctor => selectNextTab ctor s
  | SelectPreviousTab ctor => selectPreviousTab ctor s
  | DisconnectAll => disconnectAll s
  | Refresh remotes => refresh remotes s
  | LastConnectedReturned =>
      match suspended s with
      | O => s
      | S n => resumeSelectTab (set_suspended n s)
      end
  | WsOpen w =>
      match sockets s !! w with
      | Some k =>
          if bool_decide (readyState k = CONNECTING) then
            let s1 := updSocket w (setReadyState OPEN) s in
            match onopen k with Some c => on_open c s1 | None => s1 end
          else s
      | None => s
      end
  | WsMessage w data =>
      match sockets s !! w with
      | Some k =>
          if bool_decide (readyState k = OPEN) then
            match onmessage k with Some (c, p) => on_message c p data s | None => s end
          else s
      | None => s
      end
  | WsError w =>
      match sockets s !! w with
      | Some k =>
          if bool_decide (readyState k = CLOSED) then s
          else
            let s1 := updSocket w (setReadyState CLOSED) s in
            match onerror k with Some (c, p) => on_error c p s1 | None => s1 end
      | None => s
      end
  | WsClose w =>
      match sockets s !! w with
      | Some k =>
          if closeFired k then s
          else
            let s1 := updSocket w setCloseFired s in
            match onclose k with Some c => on_close c s1 | None => s1 end
      | None => s
      end
  | TimerTick t =>
      match timers s !! t with
      | Some tm => if cleared tm then s else on_tick (callback tm) s
      | None => s
      end
  end.

Definition run (es : list event) (s : state) : state :=
  fold_left (fun s e => step e s) es s.

(** * Auxiliary definitions of the properties *)

(** The part of the state that belongs to the manager: its tabs, its
    fields, and for every client the event handler it was constructed with.
    The code of [RemoteClient] reaches it only by calling the event
    handler. *)
Definition mgrView (s : state) :=
  (tabObjs s, arrays s, tabs s, selectedIndex s, stateChangeHandler s, notified s,
   clients s, remoteConfigs s, eventHandler <$> clientObjs s).

Definition remoteShaped (t : InstanceTab) : Prop :=
  isLocal t = false /\ exists a, alias t = Some a /\ id t = "remote-" +:+ a.

Definition remoteAt (s : state) (l : nat) : Prop :=
  exists t, tabAt s l = Some t /\ remoteShaped t.

(** [tabsInv b s]: [this.tabs] is an allocated array, every entry after the
    first is a remote tab whose id is derived from its alias, and the first
    entry is the local tab; with [b = false], which describes a manager on
    which [initialize()] has not been called, the list may also be empty or
    start with a remote tab. *)
Record tabsInv (b : bool) (s : state) : Prop := {
  inv_ref : tabs s < length (arrays s);
  inv_head : forall l, head (tabList s) = Some l ->
    exists t, tabAt s l = Some t /\ (t = createLocalTab \/ b = false /\ remoteShaped t);
  inv_nonempty : b = true -> tabList s <> [];
  inv_tail : Forall (remoteAt s) (tail (tabList s))
}.

(** Writing the mutable fields of the tab object at [l]. *)
Definition alterTab (f : InstanceTab -> InstanceTab) (l : nat) (s : state) : state :=
  set_tabObjs (alter f l (tabObjs s)) s.

Definition keepsShape (f : InstanceTab -> InstanceTab) : Prop :=
  forall t, id (f t) = id t /\ isLocal (f t) = isLocal t /\ alias (f t) = alias t.

(** The tabs that [refresh()] keeps, by the fields of a tab that never
    change. *)
Definition keeps (newAliases : list string) (t : InstanceTab) : bool :=
  isLocal t ||
  match alias t with
  | Some a => negb (bool_decide (a = "")) && bool_decide (a ∈ newAliases)
  | None => false
  end.

Definition static (t : InstanceTab) :=
  (id t, label t, isLocal t, alias t, host t, port t).

(** [sameTabs s0 s]: [s] has the tab list of [s0], and the same tab objects
    up to their [status] and [lastError]. *)
Record sameTabs (s0 s : state) : Prop := {
  same_ref : tabs s < length (arrays s);
  same_list : tabList s = tabList s0;
  same_static : forall l, static <$> tabAt s l = static <$> tabAt s0 l
}.

(** The state in which [refresh()] assigns the filtered array to
    [this.tabs]. *)
Definition refreshFiltered (nA : list string) (s : state) : state :=
  let '(kept, s1) := filterTabs nA (tabList s) s in
  set_tabs (length (arrays s1)) (set_arrays (arrays s1 ++ [kept]) s1).




(** A manager with a registered handler and one configured remote ["a"];
    the same after the tab of ["a"] was selected and its socket opened; and
    after the peer accepted the token. *)
Definition oneRemote : list (string * RemoteServerConfig) :=
  [("a", mkConfig "h1" 8080 "tok")].

Definition ready : state :=
  run [OnStateChange; Initialize; InitializeLoaded oneRemote] init.

Definition handshaking : state :=
  run [SelectTab 1 None; WsOpen 0] ready.

Definition established : state :=
  run [WsMessage 0 (Some (mkMsg "auth_response" None true None)); LastConnectedReturned]
    handshaking.

(** The stores of the connection layer, which the manager's tab handling
    never writes. *)
Definition netView (s : state) :=
  (clientObjs s, sockets s, timers s, promises s, clients s, lastConnected s, suspended s).

(** The [auth] messages handed to a socket. *)
Definition authsSent (k : WebSocket) : list WSMessage :=
  List.filter (fun m => bool_decide (type m = "auth")) (sent k).

(** Every entry of the [clients] map has a non-empty alias as its key, and
    its client was constructed with the event handler of that alias. *)
Definition clientsInv (s : state) : Prop :=
  forall a c, clients_get a (clients s) = Some c ->
    a <> "" /\ eventHandler <$> clientObjs s !! c = Some a.

(** A client that was disconnected and holds no socket and no timer. *)
Definition released (c : nat) (s : state) : Prop :=
  exists cl, clientObjs s !! c = Some cl /\
    _status cl = disconnected /\ ws cl = None /\ pingInterval cl = None.

(** The aliases of the tabs in the list, in order. *)
Definition aliasesOf (s : state) : list string :=
  omap (fun l => tabAt s l ≫= alias) (tabList s).

(** The remotes for which the loop "Add tabs for new remotes" appends a tab:
    those whose alias is carried neither by a tab of the list ([seen]) nor
    by an earlier remote. *)
Fixpoint newRemotes (seen : list string) (rs : list (string * RemoteServerConfig))
    : list (string * RemoteServerConfig) :=
  match rs with
  | [] => []
  | r :: rs' =>
      if bool_decide (r.1 ∈ seen) then newRemotes seen rs'
      else r :: newRemotes (seen ++ [r.1]) rs'
  end.

Definition remoteTabOf (r : string * RemoteServerConfig) : InstanceTab :=
  createRemoteTab r.1 (cfg_host r.2) (cfg_port r.2).

Definition refreshInv (s0 s : state) : Prop :=
  tabsInv false s /\ clientsInv s /\ sameTabs s0 s.

(** What [refresh()] leaves alone: the tab of an alias that is still
    configured, its entry in [clients], and its client. *)
Definition keptIntact (a0 : string) (l0 : nat) (t0 : InstanceTab) (s0 s : state) : Prop :=
  tabAt s l0 = Some t0 /\
  clients_get a0 (clients s) = clients_get a0 (clients s0) /\
  forall c0, clients_get a0 (clients s0) = Some c0 -> clientObjs s !! c0 = clientObjs s0 !! c0.

(** What [refresh()] does for an alias that is no longer configured: its
    entry is gone from [clients], and the client the entry held is
    released. *)
Definition evicted (a : string) (s0 s : state) : Prop :=
  clients_get a (clients s) = None /\
  forall c, clients_get a (clients s0) = Some c -> released c s.

(** Until the tab of [a] is reached, the entry of [a] is as it was. *)
Definition untouched (a : string) (s0 s : state) : Prop :=
  clients_get a (clients s) = clients_get a (clients s0).

(** The tab list is made of allocated references. *)
Definition tabsValid (s : state) : Prop :=
  tabs s < length (arrays s) /\ Forall (fun l => l < length (tabObjs s)) (tabList s).

Definition notifiedOnce (s s' : state) : Prop :=
  exists a, notified s' = notified s ++ [(a, selectedIndex s')] /\
            arrays s' !! a = Some (tabList s').

Definition notifiedLast (s s' : state) : Prop :=
  exists mid a, notified s' = notified s ++ mid ++ [(a, selectedIndex s')] /\
                arrays s' !! a = Some (tabList s').


(** [s] was reached from [s0] with the handler registered: the
    notifications of [s0] are a prefix of those of [s]. *)
Definition notifying (s0 s : state) : Prop :=
  stateChangeHandler s = true /\ tabs s < length (arrays s) /\
  exists mid, notified s = notified s0 ++ mid.




(** ** The connection layer: timers, sockets and the heartbeat *)

(** The timers after [stopPingInterval] on a client whose field is [o]. *)
Definition stopped (o : option nat) (T : list Timer) : list Timer :=
  match o with Some t => alter clearInterval t T | None => T end.

(** The heartbeat timers: the timer a client holds is its own, runs every
    30 seconds and is not cleared; a timer that is not cleared is held by
    the client it belongs to; and a connected client holds a timer. *)
Record timerInv (C : list RemoteClient) (T : list Timer) : Prop := {
  ti_held : forall c cl t, C !! c = Some cl -> pingInterval cl = Some t ->
    T !! t = Some (mkTimer c 30000 false);
  ti_owner : forall t tm, T !! t = Some tm -> cleared tm = false ->
    exists cl, C !! callback tm = Some cl /\ pingInterval cl = Some t;
  ti_connected : forall c cl, C !! c = Some cl -> _status cl = connected ->
    is_Some (pingInterval cl)
}.

(** All four callbacks of the socket are the closures of [connect()] of the
    client [c] (with the promise [p] in [onmessage] and [onerror]). *)
Definition attached (k : WebSocket) (c : nat) : Prop :=
  onopen k = Some c /\ onclose k = Some c /\
  exists p, onmessage k = Some (c, p) /\ onerror k = Some (c, p).

(** All four callbacks were set to [null] by [cleanup()]. *)
Definition detached (k : WebSocket) : Prop :=
  onopen k = None /\ onmessage k = None /\ onerror k = None /\ onclose k = None.

(** The socket can still deliver [open] or a message. *)
Definition live (k : WebSocket) : Prop :=
  readyState k = CONNECTING \/ readyState k = OPEN.

(** The sockets after [cleanup] on a client whose field [ws] is [o]. *)
Definition closedBy (o : option nat) (K : list WebSocket) : list WebSocket :=
  match o with Some w => alter (fun k => ws_close (detach k)) w K | None => K end.

(** The sockets.  The callbacks of a socket are all attached, to one
    client, or all detached, and [close()] is called only on a detached
    socket.  A socket that is attached and can still deliver [open] or a
    message is the socket its client holds, and that client is not
    [disconnected].  The socket a client holds is attached to it.  A
    connected client holds an open socket.  No [auth] was sent on a socket
    that is still connecting, and exactly one on an attached open socket. *)
Record sockInv (C : list RemoteClient) (K : list WebSocket) : Prop := {
  si_handlers : forall w k, K !! w = Some k ->
    detached k \/ exists c, attached k c /\ readyState k <> CLOSING /\ is_Some (C !! c);
  si_live : forall w k c cl, K !! w = Some k -> attached k c -> live k -> C !! c = Some cl ->
    ws cl = Some w /\ _status cl <> disconnected;
  si_ws : forall c cl w, C !! c = Some cl -> ws cl = Some w ->
    exists k, K !! w = Some k /\ attached k c;
  si_connected : forall c cl, C !! c = Some cl -> _status cl = connected ->
    exists w k, ws cl = Some w /\ K !! w = Some k /\ readyState k = OPEN;
  si_auth : forall w k, K !! w = Some k ->
    (readyState k = CONNECTING -> authsSent k = []) /\
    (forall c, attached k c -> readyState k = OPEN -> length (authsSent k) = 1)
}.

(** The stores of the connection layer. *)
Definition net (s : state) := (clientObjs s, sockets s, timers s).

(** The invariant of the connection layer. *)
Definition netInv (s : state) : Prop :=
  timerInv (clientObjs s) (timers s) /\ sockInv (clientObjs s) (sockets s).

(** The [ping] messages handed to a socket. *)
Definition pingsSent (k : WebSocket) : list WSMessage :=
  List.filter (fun m => bool_decide (type m = "ping")) (sent k).

(** The [ping] messages handed to the socket [w], if there is one. *)
Definition pingLog (s : state) (w : nat) : list WSMessage :=
  from_option pingsSent [] (sockets s !! w).

(** The [ping] logs of all sockets are given by [L]. *)
Definition pingsAre (L : nat -> list WSMessage) (s : state) : Prop :=
  forall w, pingLog s w = L w.

(** The events that lead from [init] to [established]. *)
Definition handshake : list event :=
  [OnStateChange; Initialize; InitializeLoaded oneRemote; SelectTab 1 None; WsOpen 0;
   WsMessage 0 (Some (mkMsg "auth_response" None true None)); LastConnectedReturned].

(** * [truncateText] of the epic loader overlay *)

(** A JavaScript string as its sequence of UTF-16 code units; [length] and
    [slice] count code units. *)
Definition jsString := list N.

(** The ellipsis character U+2026, one code unit. *)
Definition ellipsis : N := 8230.

(** [text.slice(0, e)] for an integer [e]: a negative [e] counts from the
    end, and the bounds are clamped to the string. *)
Definition slice0 (text : jsString) (e : Z) : jsString :=
  let len := Z.of_nat (length text) in
  let to := if (e <? 0)%Z then Z.max (len + e) 0 else Z.min e len in
  take (Z.to_nat (Z.max to 0)) text.

(** [truncateText(text, maxWidth)] for an integer [maxWidth]. *)
Definition truncateText (text : jsString) (maxWidth : Z) : jsString :=
  if (Z.of_nat (length text) <=? maxWidth)%Z then text
  else slice0 text (maxWidth - 1) ++ [ellipsis].

(** * Auxiliary definitions of the further properties *)

(** A client object that is disconnected and holds no socket and no timer. *)
Definition idle (cl : RemoteClient) : Prop :=
  _status cl = disconnected /\ ws cl = None /\ pingInterval cl = None.

(** Every client object is an entry of the [clients] map or is idle: a
    client the manager has dropped holds nothing. *)
Definition ownedInv (s : state) : Prop :=
  forall c cl, clientObjs s !! c = Some cl ->
    (exists a, clients_get a (clients s) = Some c) \/ idle cl.

(** [s'] differs from [s], in the clients and the [clients] map, at most in
    the client object [c]. *)
Definition touches (c : nat) (s s' : state) : Prop :=
  clients s' = clients s /\
  forall c', c' <> c -> clientObjs s' !! c' = clientObjs s !! c'.

(** Every tab object that carries an alias has a stored configuration. *)
Definition configured (s : state) : Prop :=
  forall l t a, tabAt s l = Some t -> alias t = Some a -> is_Some (remoteConfigs s !! a).

(** [this.tabs] is allocated, holds the list [L], and the selected index is
    [i]. *)
Definition keepsSel (i : Z) (L : list nat) (s : state) : Prop :=
  tabs s < length (arrays s) /\ selectedIndex s = i /\ tabList s = L.

(** The selected index is an index of the tab list. *)
Definition selValid (s : state) : Prop :=
  tabs s < length (arrays s) /\
  (0 <= selectedIndex s < Z.of_nat (length (tabList s)))%Z.

(** The configurations after the loop of [initialize()] over [rs]. *)
Definition storeConfigs (rs : list (string * RemoteServerConfig))
    (m : gmap string RemoteServerConfig) : gmap string RemoteServerConfig :=
  fold_left (fun m r => <[r.1 := r.2]> m) rs m.

(** What [updateTabStatus] does once it has found the tab at [l]. *)
Definition markTab (st : ConnectionStatus) (e : option string) (l : nat) (s : state) : state :=
  notifyStateChange (alterTab (fun t => setLastError e (setStatus st t)) l s).

(** The socket that [connect()] creates for client [c] with promise [p]. *)
Definition newSocket (c p : nat) (cl : RemoteClient) : WebSocket :=
  mkSocket (c_host cl, c_port cl) (Some c) (Some (c, p)) (Some (c, p)) (Some c)
    CONNECTING false [].

(** The client that [connectToRemote] uses for the alias [a] of a tab with
    host [h] and port [p]: the entry of [clients], or a new client object. *)
Definition clientFor (a : string) (s : state) : nat :=
  default (length (clientObjs s)) (clients_get a (clients s)).

(** The object of that client: the one in the store, or the new client made
    from the tab's host and port and the token of the stored configuration. *)
Definition clientObjFor (a h : string) (p : Z) (cfg : RemoteServerConfig) (s : state)
    : RemoteClient :=
  default (mkClient None h p (cfg_token cfg) a None disconnected)
    (clientObjs s !! clientFor a s).

(** ** Eviction, notifications, and time *)

(** What [disconnect()] leaves of the socket and the timer that the client
    [c] held when its object was [cl]: the socket has no callbacks and is
    closing or closed, and the timer is cleared. *)
Definition shutDown (c : nat) (cl : RemoteClient) (s : state) : Prop :=
  (forall w, ws cl = Some w ->
     exists k, sockets s !! w = Some k /\ detached k /\
               (readyState k = CLOSING \/ readyState k = CLOSED)) /\
  (forall t, pingInterval cl = Some t -> timers s !! t = Some (mkTimer c 30000 true)).

(** The handler received the value [p]: the index [i] and an array, other
    than [this.tabs], that holds the references [ls]. *)
Definition delivered (s : state) (ls : list nat) (i : Z) (p : nat * Z) : Prop :=
  p.2 = i /\ p.1 <> tabs s /\ arrays s !! p.1 = Some ls.

(** From [s] to [s'] the handler was called exactly [n] times, each time
    with an array that holds the tab list of [s'] and with the selected
    index of [s']. *)
Definition notifiedTimes (n : nat) (s s' : state) : Prop :=
  exists mid, notified s' = notified s ++ mid /\ length mid = n /\
    Forall (delivered s' (tabList s') (selectedIndex s')) mid.







(** From [s] to [s'] the client object [c] is unchanged, or the client is
    not connected in [s']. *)
Definition keptOrDown (c : nat) (s s' : state) : Prop :=
  clientObjs s' !! c = clientObjs s !! c \/ statusOf c s' <> connected.

(** ** Time *)

(** The clock of the platform's interval timers is a map [D] from a timer
    to the time, in milliseconds, of the next call of its callback.
    [setInterval] at time [now]: a timer created by the transition from [s]
    to [s'] is due one period later. *)
Definition arm (now : Z) (s s' : state) (D : gmap nat Z) : gmap nat Z :=
  fold_left
    (fun D t => match timers s' !! t with
                | Some tm => <[t := (now + delay tm)%Z]> D
                | None => D
                end)
    (seq (length (timers s)) (length (timers s') - length (timers s))) D.

(** After a call of its callback, an interval timer is due one period after
    the time it was due. *)
Definition rearm (t : nat) (s : state) (D : gmap nat Z) : gmap nat Z :=
  match timers s !! t, D !! t with
  | Some tm, Some d => if cleared tm then D else <[t := (d + delay tm)%Z]> D
  | _, _ => D
  end.

(** One event [te.2] at the time [te.1]. *)
Definition tstep (te : Z * event) (cfg : state * gmap nat Z) : state * gmap nat Z :=
  let s' := step te.2 cfg.1 in
  (s', arm te.1 cfg.1 s'
         match te.2 with TimerTick t => rearm t cfg.1 cfg.2 | _ => cfg.2 end).

(** No timer that is not cleared is overdue at the time [now]. *)
Definition punctual (now : Z) (s : state) (D : gmap nat Z) : bool :=
  forallb
    (fun t => match timers s !! t, D !! t with
              | Some tm, Some d => cleared tm || (now <=? d)%Z
              | _, _ => true
              end)
    (seq 0 (length (timers s))).

(** A tick is the call of a timer that is not cleared, at the time it is
    due (at any time when the clock does not know the timer). *)
Definition due (now : Z) (e : event) (s : state) (D : gmap nat Z) : bool :=
  match e with
  | TimerTick t =>
      match timers s !! t, D !! t with
      | Some tm, Some d => negb (cleared tm) && (d =? now)%Z
      | Some tm, None => negb (cleared tm)
      | None, _ => false
      end
  | _ => true
  end.

(** The contract of [setInterval] along a run that starts at the time
    [now]: time does not go back, a callback runs exactly when its timer is
    due, and no event occurs after the due time of a timer whose callback
    has not run. *)
Fixpoint onTime (now : Z) (tr : list (Z * event)) (cfg : state * gmap nat Z) : bool :=
  match tr with
  | [] => true
  | te :: tr' =>
      (now <=? te.1)%Z && punctual te.1 cfg.1 cfg.2 && due te.1 te.2 cfg.1 cfg.2 &&
      onTime te.1 tr' (tstep te cfg)
  end.

(** The times at which a [ping] was handed to the socket [w] during the
    run. *)
Fixpoint pingTimes (w : nat) (tr : list (Z * event)) (s : state) : list Z :=
  match tr with
  | [] => []
  | te :: tr' =>
      replicate (length (pingLog (step te.2 s) w) - length (pingLog s w)) te.1 ++
      pingTimes w tr' (step te.2 s)
  end.

(** The client [c] is connected after every event of the run. *)
Fixpoint staysConnected (c : nat) (tr : list (Z * event)) (s : state) : bool :=
  match tr with
  | [] => true
  | te :: tr' =>
      bool_decide (statusOf c (step te.2 s) = connected) &&
      staysConnected c tr' (step te.2 s)
  end.

(** The event is an [auth_response] with [success: true] on the socket
    [w]. *)
Definition reauth (w : nat) (e : event) : bool :=
  match e with
  | WsMessage w' (Some m) =>
      bool_decide (w' = w) && bool_decide (type m = "auth_response") && success m
  | _ => false
  end.

(** The time of the last event of the run, which starts at [now]. *)
Definition lastTime (now : Z) (tr : list (Z * event)) : Z :=
  List.last (map fst tr) now.

(** The times [start + period * j] for the [n] numbers [j] from [first]
    on. *)
Definition everyPeriod (start period : Z) (first n : nat) : list Z :=
  map (fun j => (start + period * Z.of_nat j)%Z) (seq first n).


(** * Properties *)

(** ** Stores and views *)

Lemma tabList_view s s' :
  arrays s' = arrays s -> tabs s' = tabs s -> tabList s' = tabList s.
Proof. unfold tabList. intros -> ->. reflexivity. Qed.

Lemma tabList_notify s :
  tabs s < length (arrays s) -> tabList (notifyStateChange s) = tabList s.
Proof.
  intros Hlt. unfold notifyStateChange. destruct (stateChangeHandler s); [|done].
  unfold tabList. simpl. by rewrite lookup_app_l.
Qed.

Lemma fmap_alter_same {A B} (g : A -> B) (f : A -> A) (i : nat) (l : list A) :
  (forall x, g (f x) = g x) -> g <$> alter f i l = g <$> l.
Proof.
  intros H. revert i. induction l as [|x l IH]; intros [|i]; simpl; try done.
  - by rewrite H.
  - f_equal. apply IH.
Qed.

(** Preservation, by the code of [RemoteClient], of any property of the
    manager's view that [handleClientEvent] and [notifyStateChange]
    preserve. *)
Section ClientLayer.
Variable P : state -> Prop.
Hypothesis P_frame : forall s s', mgrView s' = mgrView s -> P s -> P s'.
Hypothesis P_event : forall a ev s, P s -> P (handleClientEvent a ev s).
Hypothesis P_notify : forall s, P s -> P (notifyStateChange s).

Lemma P_updClient c f s :
  (forall cl, eventHandler (f cl) = eventHandler cl) -> P s -> P (updClient c f s).
Proof.
  intros Hf. apply P_frame. unfold mgrView, updClient. simpl.
  by rewrite (fmap_alter_same eventHandler f) by done.
Qed.

Lemma P_updSocket w f s : P s -> P (updSocket w f s).
Proof. apply P_frame. reflexivity. Qed.

Lemma P_callEventHandler c ev s : P s -> P (callEventHandler c ev s).
Proof.
  intros H. unfold callEventHandler. destruct (clientObjs s !! c); [|done].
  apply P_event. revert H. apply P_frame. reflexivity.
Qed.

Lemma P_stopPingInterval c s : P s -> P (stopPingInterval c s).
Proof.
  intros H. unfold stopPingInterval. repeat case_match; try done.
  apply P_updClient; [done|]. revert H. apply P_frame. reflexivity.
Qed.

Lemma P_startPingInterval c s : P s -> P (startPingInterval c s).
Proof.
  intros H. unfold startPingInterval. apply P_updClient; [done|].
  apply (P_frame (stopPingInterval c s)); [reflexivity|].
  by apply P_stopPingInterval.
Qed.

Lemma P_cleanup c s : P s -> P (cleanup c s).
Proof.
  intros H. unfold cleanup. pose proof (P_stopPingInterval c s H).
  repeat case_match; try done. apply P_updClient; [done|]. by apply P_updSocket.
Qed.

Lemma P_disconnect c s : P s -> P (disconnect c s).
Proof.
  intros H. unfold disconnect. apply P_callEventHandler, P_updClient; [done|]. by apply P_cleanup.
Qed.

Lemma P_authenticate c s : P s -> P (authenticate c s).
Proof. intros H. unfold authenticate. repeat case_match; try done. by apply P_updSocket. Qed.

Lemma P_send c m s : P s -> P (send c m s).
Proof. intros H. unfold send. repeat case_match; try done. by apply P_updSocket. Qed.

Lemma P_on_tick c s : P s -> P (on_tick c s).
Proof. intros H. unfold on_tick. repeat case_match; try done. by apply P_updSocket. Qed.

Lemma P_settle p v s : P s -> P (settle p v s).
Proof. apply P_frame. reflexivity. Qed.

Lemma P_resumeConnected a s : P s -> P (resumeConnected a s).
Proof. apply P_frame. reflexivity. Qed.

Lemma P_resolveConnect p s : P s -> P (resolveConnect p s).
Proof.
  intros H. unfold resolveConnect. repeat case_match; try done.
  - by apply P_resumeConnected, P_settle.
  - by apply P_settle.
Qed.

Lemma P_rejectConnect p r s : P s -> P (rejectConnect p r s).
Proof.
  intros H. unfold rejectConnect, resumeSelectTab. repeat case_match; try done.
  - by apply P_notify, P_settle.
  - by apply P_settle.
Qed.

Lemma P_handleMessage c p m s : P s -> P (handleMessage c p m s).
Proof.
  intros H. unfold handleMessage. repeat case_match; try done.
  - apply P_resolveConnect, P_startPingInterval, P_callEventHandler, P_updClient; done.
  - apply P_rejectConnect, P_cleanup, P_callEventHandler, P_updClient; done.
  - by apply P_callEventHandler.
Qed.

Lemma P_on_message c p d s : P s -> P (on_message c p d s).
Proof. intros H. unfold on_message. destruct d; [|done]. by apply P_handleMessage. Qed.

Lemma P_on_error c p s : P s -> P (on_error c p s).
Proof.
  intros H. unfold on_error. apply P_rejectConnect, P_callEventHandler, P_updClient; done.
Qed.

Lemma P_on_close c s : P s -> P (on_close c s).
Proof.
  intros H. unfold on_close. case_match.
  - apply P_callEventHandler, P_updClient; [done|]. by apply P_cleanup.
  - by apply P_cleanup.
Qed.

Lemma P_connect c ctor s : P s -> P (connect c ctor s).1.
Proof.
  intros H. unfold connect. repeat case_match; simpl; try done.
  - apply P_rejectConnect, P_callEventHandler, P_updClient; [done|].
    apply (P_frame (callEventHandler c ev_connecting (updClient c (with_status connecting) s)));
      [reflexivity|].
    apply P_callEventHandler, P_updClient; done.
  - apply P_updClient; [done|].
    apply (P_frame (callEventHandler c ev_connecting (updClient c (with_status connecting) s)));
      [reflexivity|].
    apply P_callEventHandler, P_updClient; done.
Qed.

Lemma P_awaitConnect a p s : P s -> P (awaitConnect a p s).
Proof.
  intros H. unfold awaitConnect, resumeSelectTab. repeat case_match; try done;
    try (by apply P_resumeConnected); try (by apply P_notify).
  revert H. apply P_frame. reflexivity.
Qed.

(** The transitions made by the platform's sockets and timers. *)
Lemma P_step_transport e s :
  match e with
  | WsOpen _ | WsMessage _ _ | WsError _ | WsClose _ | TimerTick _ => True
  | _ => False
  end ->
  P s -> P (step e s).
Proof.
  intros He H. destruct e; try done; simpl; repeat case_match; try done.
  - by apply P_authenticate, P_updSocket.
  - by apply P_updSocket.
  - by apply P_on_message.
  - by apply P_on_error, P_updSocket.
  - by apply P_updSocket.
  - by apply P_on_close, P_updSocket.
  - by apply P_updSocket.
  - by apply P_on_tick.
Qed.
End ClientLayer.

(** ** The shape of the tab list *)

Lemma remote_id_not_local a : "remote-" +:+ a <> "local".
Proof. discriminate. Qed.

Lemma remoteShaped_not_local t : remoteShaped t -> t <> createLocalTab.
Proof. intros [H _] ->. discriminate. Qed.

Lemma elem_of_head_tail {A} (l : list A) x :
  x ∈ l -> head l = Some x \/ x ∈ tail l.
Proof. destruct l; simpl; [by intros ?%elem_of_nil|]. intros [->|?]%elem_of_cons; auto. Qed.

Lemma tabsInv_elem b s l :
  tabsInv b s -> l ∈ tabList s ->
  exists t, tabAt s l = Some t /\ (t = createLocalTab \/ remoteShaped t).
Proof.
  intros [_ Hh _ Ht] [Hl|Hl]%elem_of_head_tail.
  - destruct (Hh _ Hl) as (t & ? & [?|[_ ?]]); eauto.
  - rewrite Forall_forall in Ht. destruct (Ht _ Hl) as (t & ? & ?). eauto.
Qed.

Lemma tabsInv_frame b s s' :
  mgrView s' = mgrView s -> tabsInv b s -> tabsInv b s'.
Proof.
  unfold mgrView. intros [= Ho Ha Ht _ _ _ _ _ _] [H1 H2 H3 H4].
  assert (tabList s' = tabList s) as Hl by by apply tabList_view.
  split.
  - by rewrite Ha, Ht.
  - rewrite Hl. unfold tabAt. by rewrite Ho.
  - by rewrite Hl.
  - rewrite Hl. unfold remoteAt, tabAt in *. by rewrite Ho.
Qed.

Lemma tabsInv_notify b s : tabsInv b s -> tabsInv b (notifyStateChange s).
Proof.
  intros H. pose proof (tabList_notify s (inv_ref _ _ H)) as Hl.
  destruct H as [H1 H2 H3 H4].
  assert (tabObjs (notifyStateChange s) = tabObjs s) as Ho.
  { unfold notifyStateChange. by destruct (stateChangeHandler s). }
  split.
  - unfold notifyStateChange. destruct (stateChangeHandler s); simpl; [|done].
    rewrite length_app. lia.
  - rewrite Hl. unfold tabAt. by rewrite Ho.
  - by rewrite Hl.
  - rewrite Hl. unfold remoteAt, tabAt in *. by rewrite Ho.
Qed.

Lemma remoteShaped_keeps f t : keepsShape f -> remoteShaped t -> remoteShaped (f t).
Proof.
  intros Hf (Hl & a & Ha & Hi). destruct (Hf t) as (H1 & H2 & H3).
  split; [congruence|]. exists a. split; congruence.
Qed.

Lemma remoteAt_alterTab f l s l' :
  keepsShape f -> remoteAt s l' -> remoteAt (alterTab f l s) l'.
Proof.
  intros Hf (t & Ht & Hs). unfold remoteAt, tabAt, alterTab in *. simpl.
  destruct (decide (l = l')) as [->|Hne].
  - rewrite list_lookup_alter_eq, Ht. simpl. eexists; split; [done|].
    by apply remoteShaped_keeps.
  - rewrite list_lookup_alter_ne by done. by exists t.
Qed.

Lemma tabsInv_alterTab b f l s :
  keepsShape f ->
  (tabAt s l = Some createLocalTab -> f createLocalTab = createLocalTab) ->
  tabsInv b s -> tabsInv b (alterTab f l s).
Proof.
  intros Hf Hloc [H1 H2 H3 H4]. split; try done.
  - intros l0 Hl0. destruct (H2 _ Hl0) as (t & Ht & Hs).
    unfold tabAt, alterTab in *. simpl.
    destruct (decide (l = l0)) as [->|Hne].
    + rewrite list_lookup_alter_eq, Ht. simpl. eexists; split; [done|].
      destruct Hs as [->|[-> Hs]].
      * left. by apply Hloc.
      * right. split; [done|]. by apply remoteShaped_keeps.
    + rewrite list_lookup_alter_ne by done. eauto.
  - eapply Forall_impl; [exact H4|]. intros l'. by apply remoteAt_alterTab.
Qed.

Lemma keepsShape_status st e : keepsShape (fun t => setLastError e (setStatus st t)).
Proof. by intros []. Qed.

Lemma find_tab_Some pred s l :
  findTab pred s = Some l ->
  l ∈ tabList s /\ exists t, tabAt s l = Some t /\ pred t = true.
Proof.
  unfold findTab. intros [Hin Hp]%find_some. split; [by apply list_elem_of_In|].
  destruct (tabAt s l); simpl in *; eauto. discriminate.
Qed.

Lemma tabsInv_updateTabStatus b tabId st e s :
  tabId <> "local" -> tabsInv b s -> tabsInv b (updateTabStatus tabId st e s).
Proof.
  intros Hid H. unfold updateTabStatus.
  destruct (findTab _ s) as [l|] eqn:Hf; [|done].
  apply tabsInv_notify. apply (tabsInv_alterTab b _ l s); [apply keepsShape_status| |done].
  intros Hl. apply find_tab_Some in Hf as (_ & t & Ht & Hp).
  rewrite Ht in Hl. injection Hl as ->. apply bool_decide_eq_true in Hp. by destruct Hid.
Qed.

Lemma tabsInv_handleClientEvent b a ev s :
  tabsInv b s -> tabsInv b (handleClientEvent a ev s).
Proof.
  intros H. unfold handleClientEvent.
  destruct (findTab _ s) as [l|] eqn:Hf; [|done].
  apply find_tab_Some in Hf as (Hin & t & Ht & Hp). rewrite Ht.
  apply bool_decide_eq_true in Hp.
  assert (id t <> "local") as Hid.
  { destruct (tabsInv_elem _ _ _ H Hin) as (t' & Ht' & Hs).
    rewrite Ht in Ht'. injection Ht' as <-.
    destruct Hs as [->|(_ & a' & _ & ->)]; [discriminate|apply remote_id_not_local]. }
  destruct ev; try done; by apply tabsInv_updateTabStatus.
Qed.

Lemma tabAt_pushTab tab s l t :
  tabAt s l = Some t -> tabAt (pushTab tab s) l = Some t.
Proof. unfold tabAt, pushTab. simpl. apply lookup_app_l_Some. Qed.

Lemma tabList_pushTab tab s :
  tabs s < length (arrays s) ->
  tabList (pushTab tab s) = tabList s ++ [length (tabObjs s)].
Proof.
  intros Hlt. unfold tabList, pushTab. simpl. rewrite list_lookup_alter_eq.
  apply lookup_lt_is_Some_2 in Hlt as [x ->]. done.
Qed.

Lemma remoteAt_pushTab tab s l : remoteAt s l -> remoteAt (pushTab tab s) l.
Proof. intros (t & Ht & Hs). exists t. split; [by apply tabAt_pushTab|done]. Qed.

Lemma remoteShaped_createRemoteTab a h p : remoteShaped (createRemoteTab a h p).
Proof. split; [done|]. by exists a. Qed.

Lemma tabsInv_pushTab b a h p s :
  tabsInv b s -> tabsInv b (pushTab (createRemoteTab a h p) s).
Proof.
  intros [H1 H2 H3 H4].
  pose proof (tabList_pushTab (createRemoteTab a h p) s H1) as Hl.
  assert (remoteAt (pushTab (createRemoteTab a h p) s) (length (tabObjs s))) as Hnew.
  { exists (createRemoteTab a h p). split; [|apply remoteShaped_createRemoteTab].
    unfold tabAt, pushTab. simpl. by rewrite lookup_app_r, Nat.sub_diag by lia. }
  split.
  - unfold pushTab. simpl. by rewrite length_alter.
  - rewrite Hl. destruct (tabList s) as [|l0 rest] eqn:Hs; simpl.
    + intros l [= <-]. destruct Hnew as (t & Ht & Hr). exists t. split; [done|].
      right. split; [|done]. destruct b; [|done]. by destruct H3.
    + intros l [= <-]. destruct (H2 l0 eq_refl) as (t & Ht & Hr).
      exists t. split; [by apply tabAt_pushTab|done].
  - rewrite Hl. intros _. by destruct (tabList s).
  - rewrite Hl. destruct (tabList s) as [|l0 rest]; simpl in *; [done|].
    apply Forall_app. split; [|by apply Forall_singleton].
    eapply Forall_impl; [exact H4|]. intros l'. apply remoteAt_pushTab.
Qed.

Lemma tabsInv_initialize s : tabsInv true (initialize s).
Proof.
  assert (tabList (initialize s) = [length (tabObjs s)]) as Hl.
  { unfold tabList, initialize. simpl. by rewrite lookup_app_r, Nat.sub_diag by lia. }
  split; rewrite ?Hl; simpl; try done.
  - rewrite length_app. simpl. lia.
  - intros l [= <-]. exists createLocalTab. split; [|by left].
    unfold tabAt. simpl. by rewrite lookup_app_r, Nat.sub_diag by lia.
Qed.

Lemma tabsInv_weaken b s : tabsInv b s -> tabsInv false s.
Proof.
  intros [H1 H2 H3 H4]. split; try done.
  intros l Hl. destruct (H2 l Hl) as (t & Ht & [->|[_ Hr]]); eauto.
Qed.

(** The invariant through the code of [RemoteClient]. *)
Section TabsInvClient.
Variable b : bool.

Let Pf := tabsInv_frame b.
Let Pe := tabsInv_handleClientEvent b.
Let Pn := tabsInv_notify b.

Lemma tabsInv_disconnect c s : tabsInv b s -> tabsInv b (disconnect c s).
Proof. apply (P_disconnect _ Pf Pe). Qed.

Lemma tabsInv_connect c ctor s : tabsInv b s -> tabsInv b (connect c ctor s).1.
Proof. apply (P_connect _ Pf Pe Pn). Qed.

Lemma tabsInv_awaitConnect a p s : tabsInv b s -> tabsInv b (awaitConnect a p s).
Proof. apply (P_awaitConnect _ Pf Pn). Qed.

Lemma tabsInv_transport e s :
  match e with
  | WsOpen _ | WsMessage _ _ | WsError _ | WsClose _ | TimerTick _ => True
  | _ => False
  end ->
  tabsInv b s -> tabsInv b (step e s).
Proof. apply (P_step_transport _ Pf Pe Pn). Qed.
End TabsInvClient.

Lemma sameTabs_refl s : tabs s < length (arrays s) -> sameTabs s s.
Proof. by split. Qed.

Lemma sameTabs_frame s0 s s' : mgrView s' = mgrView s -> sameTabs s0 s -> sameTabs s0 s'.
Proof.
  unfold mgrView. intros [= Ho Ha Ht _ _ _ _ _ _] [H1 H2 H3]. split.
  - by rewrite Ha, Ht.
  - rewrite <- H2. by apply tabList_view.
  - intros l. rewrite <- H3. unfold tabAt. by rewrite Ho.
Qed.

Lemma sameTabs_notify s0 s : sameTabs s0 s -> sameTabs s0 (notifyStateChange s).
Proof.
  intros [H1 H2 H3]. split.
  - unfold notifyStateChange. destruct (stateChangeHandler s); simpl; [|done].
    rewrite length_app. lia.
  - by rewrite tabList_notify.
  - intros l. rewrite <- H3. unfold notifyStateChange, tabAt.
    by destruct (stateChangeHandler s).
Qed.

Lemma sameTabs_alterTab s0 f l s :
  (forall t, static (f t) = static t) -> sameTabs s0 s -> sameTabs s0 (alterTab f l s).
Proof.
  intros Hf [H1 H2 H3]. split; try done.
  intros l'. rewrite <- H3. unfold tabAt, alterTab. simpl.
  destruct (decide (l = l')) as [->|Hne].
  - rewrite list_lookup_alter_eq. destruct (tabObjs s !! l'); simpl; [|done]. by rewrite Hf.
  - by rewrite list_lookup_alter_ne.
Qed.

Lemma sameTabs_updateTabStatus s0 tabId st e s :
  sameTabs s0 s -> sameTabs s0 (updateTabStatus tabId st e s).
Proof.
  intros H. unfold updateTabStatus. destruct (findTab _ s); [|done].
  apply sameTabs_notify. by apply (sameTabs_alterTab s0 _ n s).
Qed.

Lemma sameTabs_handleClientEvent s0 a ev s :
  sameTabs s0 s -> sameTabs s0 (handleClientEvent a ev s).
Proof.
  intros H. unfold handleClientEvent. repeat case_match; try done;
    by apply sameTabs_updateTabStatus.
Qed.

Lemma sameTabs_disconnect s0 c s : sameTabs s0 s -> sameTabs s0 (disconnect c s).
Proof.
  apply (P_disconnect _ (sameTabs_frame s0) (sameTabs_handleClientEvent s0)).
Qed.

Lemma sameTabs_keeps s0 s nA l :
  sameTabs s0 s ->
  from_option (keeps nA) false (tabAt s l) = from_option (keeps nA) false (tabAt s0 l).
Proof.
  intros [_ _ H]. specialize (H l).
  destruct (tabAt s l) as [t|], (tabAt s0 l) as [t0|]; simpl in *; try done.
  injection H as _ _ Hl Ha _ _. unfold keeps. by rewrite Hl, Ha.
Qed.

Lemma refreshKeep_keeps nA l s :
  (refreshKeep nA l s).1 = from_option (keeps nA) false (tabAt s l).
Proof.
  unfold refreshKeep, keeps. destruct (tabAt s l) as [t|]; simpl; [|done].
  destruct (isLocal t); simpl; [done|]. destruct (alias t) as [a|]; [|done].
  repeat case_bool_decide; simpl; try done; by destruct (clients_get a (clients s)).
Qed.

Section RefreshFilter.
Variable P : state -> Prop.
Hypothesis P_frame : forall s s', mgrView s' = mgrView s -> P s -> P s'.
Hypothesis P_event : forall a ev s, P s -> P (handleClientEvent a ev s).
Hypothesis P_clients : forall m s, P s -> P (set_clients m s).

Lemma P_refreshKeep nA l s : P s -> P (refreshKeep nA l s).2.
Proof.
  intros H. unfold refreshKeep. repeat case_match; simpl; try done.
  by apply P_clients, P_disconnect.
Qed.

Lemma P_filterTabs nA ls s : P s -> P (filterTabs nA ls s).2.
Proof.
  revert s. induction ls as [|l ls IH]; intros s H; simpl; [done|].
  pose proof (P_refreshKeep nA l s H) as H1.
  destruct (refreshKeep nA l s) as [keep s1]. simpl in H1.
  specialize (IH s1 H1). by destruct (filterTabs nA ls s1).
Qed.
End RefreshFilter.

Lemma sameTabs_clients s0 m s : sameTabs s0 s -> sameTabs s0 (set_clients m s).
Proof. intros [H1 H2 H3]. by split. Qed.

Lemma tabsInv_clients b m s : tabsInv b s -> tabsInv b (set_clients m s).
Proof. intros [H1 H2 H3 H4]. by split. Qed.

Lemma filterTabs_kept nA ls s0 s :
  sameTabs s0 s ->
  (filterTabs nA ls s).1 = List.filter (fun l => from_option (keeps nA) false (tabAt s0 l)) ls.
Proof.
  revert s. induction ls as [|l ls IH]; intros s H; simpl; [done|].
  pose proof (refreshKeep_keeps nA l s) as Hk.
  pose proof (P_refreshKeep _ (sameTabs_frame s0) (sameTabs_handleClientEvent s0)
                (sameTabs_clients s0) nA l s H) as H1.
  destruct (refreshKeep nA l s) as [keep s1]. simpl in *.
  specialize (IH s1 H1). destruct (filterTabs nA ls s1) as [kept s2]. simpl in *.
  rewrite Hk, (sameTabs_keeps s0 s nA l H), IH. by case_match.
Qed.

(** The invariant through the operations of the manager. *)
Lemma tabsInv_ext b s s' :
  tabObjs s' = tabObjs s -> arrays s' = arrays s -> tabs s' = tabs s ->
  tabsInv b s -> tabsInv b s'.
Proof.
  intros Ho Ha Ht [H1 H2 H3 H4].
  assert (tabList s' = tabList s) as Hl by by apply tabList_view.
  split.
  - by rewrite Ha, Ht.
  - rewrite Hl. unfold tabAt. by rewrite Ho.
  - by rewrite Hl.
  - rewrite Hl. unfold remoteAt, tabAt in *. by rewrite Ho.
Qed.

Lemma fold_left_preserves {A} (P : state -> Prop) (f : state -> A -> state) xs s :
  (forall s x, P s -> P (f s x)) -> P s -> P (fold_left f xs s).
Proof. intros Hf. revert s. induction xs as [|x xs IH]; simpl; auto. Qed.

Lemma tabsInv_loadRemote b s r : tabsInv b s -> tabsInv b (loadRemote s r).
Proof.
  intros H. unfold loadRemote. apply tabsInv_pushTab. revert H. by apply tabsInv_ext.
Qed.

Lemma tabsInv_initializeLoaded b remotes s :
  tabsInv b s -> tabsInv b (initializeLoaded remotes s).
Proof.
  intros H. apply tabsInv_notify, fold_left_preserves; [|done].
  intros. by apply tabsInv_loadRemote.
Qed.

Lemma tabsInv_connectToRemote b l ctor s :
  l ∈ tabList s -> tabsInv b s -> tabsInv b (connectToRemote l ctor s).1.
Proof.
  intros Hin H. unfold connectToRemote.
  destruct (tabsInv_elem _ _ _ H Hin) as (t & Ht & Hs). rewrite Ht.
  destruct Hs as [->|Hs]; [done|].
  assert (id t <> "local") as Hid.
  { destruct Hs as (_ & a & _ & ->). apply remote_id_not_local. }
  destruct (alias t) as [a|]; [|done]. destruct (host t) as [h|]; [|done].
  destruct (port t) as [p|]; [|done]. case_match; [done|].
  destruct (remoteConfigs s !! a) as [config|]; simpl; [|by apply tabsInv_updateTabStatus].
  destruct (clients_get a (clients s)) as [c|]; simpl.
  - case_match; [done|].
    pose proof (tabsInv_connect b c ctor _ (tabsInv_updateTabStatus b _ connecting None _ Hid H))
      as H2.
    destruct (connect c ctor _) as [s3 pr]. by apply tabsInv_awaitConnect.
  - match goal with |- context [updateTabStatus _ _ _ ?s1] =>
      assert (tabsInv b s1) as H1 by (revert H; by apply tabsInv_ext) end.
    pose proof (tabsInv_connect b (length (clientObjs s)) ctor _
                  (tabsInv_updateTabStatus b _ connecting None _ Hid H1)) as H2.
    destruct (connect _ ctor _) as [s3 pr]. by apply tabsInv_awaitConnect.
Qed.

Lemma tabsInv_selectTab b index ctor s : tabsInv b s -> tabsInv b (selectTab index ctor s).
Proof.
  intros H. unfold selectTab. case_match; [done|].
  assert (tabsInv b (set_selectedIndex index s)) as H1 by (revert H; by apply tabsInv_ext).
  destruct (tabList _ !! Z.to_nat index) as [l|] eqn:Hl; [|done].
  destruct (tabAt _ l) as [tab|]; [|done].
  case_match; [|by apply tabsInv_notify].
  pose proof (tabsInv_connectToRemote b l ctor _ (list_elem_of_lookup_2 _ _ _ Hl) H1) as Hc.
  destruct (connectToRemote l ctor _) as [s2 []]; [by apply tabsInv_notify|done].
Qed.

Lemma tabsInv_disconnectAll b s : tabsInv b s -> tabsInv b (disconnectAll s).
Proof.
  intros H. unfold disconnectAll. apply tabsInv_notify.
  apply fold_left_preserves.
  - intros s' l H'. apply (tabsInv_alterTab b _ l s'); [| |done].
    + by intros [? ? [] ? ? ? ? ?].
    + done.
  - apply tabsInv_clients, fold_left_preserves; [|done].
    intros s' kv. apply tabsInv_disconnect.
Qed.

Lemma tabsInv_addRemote b s r : tabsInv b s -> tabsInv b (addRemote s r).
Proof.
  intros H. unfold addRemote.
  assert (tabsInv b (set_remoteConfigs (<[r.1:=r.2]> (remoteConfigs s)) s)) as H1
    by (revert H; by apply tabsInv_ext).
  case_match; [done|]. by apply tabsInv_pushTab.
Qed.

Lemma Forall_filter_bool {A} (P : A -> Prop) f (l : list A) :
  Forall P l -> Forall P (List.filter f l).
Proof.
  induction 1 as [|x l Hx Hl IH]; simpl; [done|]. destruct (f x); [by constructor|done].
Qed.

Lemma Forall_tail_filter {A} (P : A -> Prop) f (l : list A) :
  Forall P (tail l) -> Forall P (tail (List.filter f l)).
Proof.
  destruct l as [|x l]; simpl; [done|]. intros H.
  pose proof (Forall_filter_bool P f l H) as H'.
  destruct (f x); simpl; [done|]. destruct (List.filter f l); simpl; [done|].
  by inversion H'.
Qed.

Lemma refreshFiltered_tabList nA s :
  tabs s < length (arrays s) ->
  tabList (refreshFiltered nA s) =
    List.filter (fun l => from_option (keeps nA) false (tabAt s l)) (tabList s).
Proof.
  intros Hlt. unfold refreshFiltered.
  pose proof (filterTabs_kept nA (tabList s) s s (sameTabs_refl s Hlt)) as Hk.
  destruct (filterTabs nA (tabList s) s) as [kept s1]. simpl in Hk. subst kept.
  unfold tabList at 1. simpl. by rewrite lookup_app_r, Nat.sub_diag by lia.
Qed.

Lemma sameTabs_filterTabs nA ls s : 
  tabs s < length (arrays s) -> sameTabs s (filterTabs nA ls s).2.
Proof.
  intros Hlt.
  apply (P_filterTabs _ (sameTabs_frame s) (sameTabs_handleClientEvent s) (sameTabs_clients s)).
  by apply sameTabs_refl.
Qed.

Lemma tabsInv_refreshFiltered b nA s : tabsInv b s -> tabsInv b (refreshFiltered nA s).
Proof.
  intros H. pose proof (refreshFiltered_tabList nA s (inv_ref _ _ H)) as Hl.
  pose proof (P_filterTabs _ (tabsInv_frame b) (tabsInv_handleClientEvent b)
                (tabsInv_clients b) nA (tabList s) s H) as H1.
  pose proof (sameTabs_filterTabs nA (tabList s) s (inv_ref _ _ H)) as Hsame.
  unfold refreshFiltered in *.
  destruct (filterTabs nA (tabList s) s) as [kept s1]. simpl in *.
  destruct H1 as [R1 R2 R3 R4]. destruct Hsame as [S1 S2 S3].
  assert (forall l0, head (tabList s) = Some l0 -> tabAt s1 l0 = Some createLocalTab ->
            from_option (keeps nA) false (tabAt s l0) = true) as Hkeep.
  { intros l0 _ Hloc. specialize (S3 l0). rewrite Hloc in S3.
    destruct (tabAt s l0) as [t|]; [|done]. simpl in *. injection S3 as _ _ S3 _ _ _.
    unfold keeps. by rewrite <- S3. }
  rewrite S2 in *. split.
  - simpl. rewrite length_app. simpl. lia.
  - rewrite Hl. destruct (tabList s) as [|l0 rest] eqn:Hs; simpl; [done|].
    destruct (from_option _ _ (tabAt s l0)) eqn:Hk0; simpl.
    + intros l [= <-]. apply (R2 l0 eq_refl).
    + intros l Hh. destruct (R2 l0 eq_refl) as (t0 & Ht0 & [->|[-> _]]).
      { rewrite (Hkeep l0 eq_refl Ht0) in Hk0. done. }
      simpl in R4.
      assert (l ∈ rest) as Hin.
      { destruct (List.filter _ rest) as [|x xs] eqn:Hf; [done|]. injection Hh as ->.
        assert (In l (List.filter (fun l => from_option (keeps nA) false (tabAt s l)) rest))
          as Hin by (rewrite Hf; by left).
        apply filter_In in Hin as [Hin _]. by apply list_elem_of_In. }
      rewrite Forall_forall in R4. destruct (R4 l Hin) as (t & Ht & Hr). eauto.
  - rewrite Hl. intros Hb. destruct (tabList s) as [|l0 rest] eqn:Hs; [by destruct R3|].
    simpl. destruct (R2 l0 eq_refl) as (t0 & Ht0 & [->|[-> _]]); [|done].
    by rewrite (Hkeep l0 eq_refl Ht0).
  - rewrite Hl. by apply Forall_tail_filter.
Qed.

Lemma refresh_unfold remotes s :
  refresh remotes s =
    let s3 := fold_left addRemote remotes (refreshFiltered remotes.*1 s) in
    notifyStateChange
      (if (Z.of_nat (length (tabList s3)) <=? selectedIndex s3)%Z
       then set_selectedIndex (Z.max 0 (Z.of_nat (length (tabList s3)) - 1)) s3
       else s3).
Proof.
  unfold refresh, refreshFiltered. by destruct (filterTabs _ _ s).
Qed.

Lemma tabsInv_refresh b remotes s : tabsInv b s -> tabsInv b (refresh remotes s).
Proof.
  intros H. rewrite refresh_unfold. cbv zeta. apply tabsInv_notify.
  assert (tabsInv b (fold_left addRemote remotes (refreshFiltered remotes.*1 s))) as H3.
  { apply fold_left_preserves; [intros; by apply tabsInv_addRemote|].
    by apply tabsInv_refreshFiltered. }
  case_match; [|done]. revert H3. by apply tabsInv_ext.
Qed.

Lemma tabsInv_step b e s : tabsInv b s -> tabsInv b (step e s).
Proof.
  intros H. destruct e; try (by apply tabsInv_transport).
  - simpl. destruct b; [apply tabsInv_initialize|].
    apply (tabsInv_weaken true), tabsInv_initialize.
  - by apply tabsInv_initializeLoaded.
  - revert H. by apply tabsInv_ext.
  - by apply tabsInv_selectTab.
  - by apply tabsInv_selectTab.
  - by apply tabsInv_selectTab.
  - by apply tabsInv_disconnectAll.
  - by apply tabsInv_refresh.
  - simpl. destruct (suspended s); [done|]. apply tabsInv_notify.
    revert H. by apply tabsInv_ext.
Qed.

Lemma tabsInv_run b es s : tabsInv b s -> tabsInv b (run es s).
Proof. revert s. induction es as [|e es IH]; simpl; intros s H; [done|]. by apply IH, tabsInv_step. Qed.

Lemma tabsInv_init : tabsInv false init.
Proof. split; simpl; try done. lia. Qed.

(** ** The local tab *)

(** C1: in every state reached after [initialize()] by any sequence of
    operations and events, the first entry of the tab list is a tab with id
    ["local"], label ["Local"], [isLocal = true] and status [connected], and
    no other entry of the list has [isLocal = true]. *)
Theorem C1_local_tab_first (es : list event) :
  let s := run (Initialize :: es) init in
  exists l0 rest t0,
    tabList s = l0 :: rest /\
    tabAt s l0 = Some t0 /\
    id t0 = "local" /\ label t0 = "Local" /\ isLocal t0 = true /\ status t0 = connected /\
    Forall (fun l => exists t, tabAt s l = Some t /\ isLocal t = false) rest.
Proof.
  simpl. pose proof (tabsInv_run true es (initialize init) (tabsInv_initialize init)) as H.
  unfold run in *. simpl in H. destruct H as [H1 H2 H3 H4].
  destruct (tabList _) as [|l0 rest] eqn:Hl; [by destruct H3|].
  destruct (H2 l0 eq_refl) as (t0 & Ht0 & [->|[? _]]); [|done].
  exists l0, rest, createLocalTab. repeat split; try done.
  simpl in H4. eapply Forall_impl; [exact H4|].
  intros l (t & Ht & Hr & _). eauto.
Qed.

(** ** Transport close and error *)

(** When the socket of a client that is still [connecting] delivers [close],
    [on_close] runs [cleanup] and nothing else: no event is emitted, no
    promise is settled, and the client stays [connecting]. *)
Lemma cleanup_emitted c s : emitted (cleanup c s) = emitted s.
Proof.
  unfold cleanup, stopPingInterval. by repeat (case_match; simpl in *; simplify_eq).
Qed.

Lemma cleanup_promises c s : promises (cleanup c s) = promises s.
Proof.
  unfold cleanup, stopPingInterval. by repeat (case_match; simpl in *; simplify_eq).
Qed.

Lemma cleanup_statusOf c c' s : statusOf c' (cleanup c s) = statusOf c' s.
Proof.
  unfold cleanup, stopPingInterval, statusOf, updClient, updSocket.
  repeat (case_match; simpl in *; simplify_eq); try done;
    rewrite ?list_lookup_alter; repeat case_decide; simplify_eq;
    repeat (match goal with |- context [clientObjs s !! ?x] =>
              destruct (clientObjs s !! x) as [[]|] eqn:? end);
    simpl in *; simplify_eq; done.
Qed.

Lemma on_close_while_connecting c s :
  statusOf c s = connecting ->
  emitted (on_close c s) = emitted s /\
  promises (on_close c s) = promises s /\
  statusOf c (on_close c s) = connecting.
Proof.
  intros H. unfold on_close. rewrite cleanup_statusOf, H.
  rewrite bool_decide_eq_false_2 by done.
  by rewrite cleanup_emitted, cleanup_promises, cleanup_statusOf.
Qed.

(** C2: the code at the failing input.  The tab of remote ["a"] is selected,
    the socket opens and the [auth] message is sent; the socket then closes
    before any [auth_response].  The promise of [connect()] was pending and
    is still pending, no event was emitted, and the client and its tab
    remain [connecting]. *)
Theorem C2_close_before_auth_leaves_connect_pending :
  let s := handshaking in
  let s' := step (WsClose 0) s in
  settled <$> promises s !! 0 = Some pending /\
  settled <$> promises s' !! 0 = Some pending /\
  emitted s' = emitted s /\
  statusOf 0 s' = connecting /\
  (status <$> tabAt s' 1) = Some connecting.
Proof. vm_compute. done. Qed.

(** The sibling path: a transport error before authentication rejects the
    promise and emits [disconnected] with a reason. *)
Lemma error_before_auth_rejects :
  let s' := step (WsError 0) handshaking in
  settled <$> promises s' !! 0 = Some (rejected "Connection error") /\
  last (emitted s') = Some (0, ev_disconnected (Some "Connection error")) /\
  statusOf 0 s' = disconnected.
Proof. vm_compute. done. Qed.

(** C3: the code at the failing input.  An established connection receives
    a transport error.  [on_error] does not run [cleanup]: the heartbeat
    timer is still registered and not cleared, the four callbacks are still
    attached, and the client still holds the socket.  When the tab is then
    selected again, [connect()] opens a second socket, and the [close] of the
    first socket, whose callback survived, tears the second one down. *)
Theorem C3_error_path_skips_cleanup :
  let s' := step (WsError 0) established in
  (pingInterval <$> clientObjs s' !! 0) = Some (Some 0) /\
  (cleared <$> timers s' !! 0) = Some false /\
  (ws <$> clientObjs s' !! 0) = Some (Some 0) /\
  (onclose <$> sockets s' !! 0) = Some (Some 0) /\
  (onmessage <$> sockets s' !! 0) = Some (Some (0, 0)) /\
  let s'' := run [SelectTab 1 None; WsClose 0] s' in
  (ws <$> clientObjs s'' !! 0) = Some None /\
  (readyState <$> sockets s'' !! 1) = Some CLOSING /\
  statusOf 0 s'' = connecting /\
  settled <$> promises s'' !! 1 = Some pending.
Proof. vm_compute. done. Qed.

(** [cleanup] itself releases the timer and the socket of the client, and
    is idempotent. *)
Lemma cleanup_client c s cl :
  clientObjs s !! c = Some cl ->
  clientObjs (cleanup c s) !! c = Some (with_ws None (with_pingInterval None cl)).
Proof.
  intros Hc. unfold cleanup, stopPingInterval. rewrite Hc.
  destruct cl as [w h p tk eh [t|] st]; simpl.
  - unfold updClient at 2. simpl. rewrite list_lookup_alter_eq, Hc. simpl.
    destruct w as [w|]; simpl.
    + unfold updClient, updSocket. simpl.
      by rewrite list_lookup_alter_eq, list_lookup_alter_eq, Hc.
    + unfold updClient. simpl. by rewrite list_lookup_alter_eq, Hc.
  - rewrite Hc. simpl. destruct w as [w|]; simpl; [|done].
    unfold updClient, updSocket. simpl. by rewrite list_lookup_alter_eq, Hc.
Qed.

Lemma cleanup_idempotent c s : cleanup c (cleanup c s) = cleanup c s.
Proof.
  destruct (clientObjs s !! c) as [cl|] eqn:Hc.
  - pose proof (cleanup_client c s cl Hc) as H.
    unfold cleanup at 1. unfold stopPingInterval. rewrite H. simpl. by rewrite H.
  - assert (cleanup c s = s) as ->; unfold cleanup, stopPingInterval; by rewrite ?Hc.
Qed.

(** ** Notifications *)


(** ** Delivered values *)


(** ** Refresh *)

(** C10, counterexample: a remote stored under the empty alias is present
    before and after [refresh()], yet its tab is not kept: the filter drops
    every tab whose alias is falsy, and the loop over the remotes appends a
    new tab with the host and port of the new configuration. *)
Lemma C10_counterexample :
  let s := run [Initialize; InitializeLoaded [("", mkConfig "h1" 8080 "tok")]] init in
  let s' := refresh [("", mkConfig "h2" 9090 "tok")] s in
  (tabList s !! 1 ≫= tabAt s) = Some (createRemoteTab "" "h1" 8080) /\
  (tabList s' !! 1 ≫= tabAt s') = Some (createRemoteTab "" "h2" 9090) /\
  length (tabList s') = 2 /\
  tabList s !! 1 <> tabList s' !! 1.
Proof. vm_compute. repeat split; congruence. Qed.

(** ** Selecting a connected tab *)

Lemma netView_notify s : netView (notifyStateChange s) = netView s.
Proof. unfold notifyStateChange. by destruct (stateChangeHandler s). Qed.

Lemma netView_updateTabStatus tabId st e s : netView (updateTabStatus tabId st e s) = netView s.
Proof. unfold updateTabStatus. destruct (findTab _ s); [|done]. by rewrite netView_notify. Qed.

Lemma netView_handleClientEvent a ev s : netView (handleClientEvent a ev s) = netView s.
Proof.
  unfold handleClientEvent. repeat case_match; try done; by rewrite netView_updateTabStatus.
Qed.

Lemma netView_callEventHandler c ev s : netView (callEventHandler c ev s) = netView s.
Proof.
  unfold callEventHandler. destruct (clientObjs s !! c); [|done].
  by rewrite netView_handleClientEvent.
Qed.

Lemma statusOf_netView s s' c : netView s' = netView s -> statusOf c s' = statusOf c s.
Proof. unfold netView, statusOf. by intros [= -> _ _ _ _ _ _]. Qed.

Lemma tabList_updateTabStatus tabId st e s :
  tabs s < length (arrays s) -> tabList (updateTabStatus tabId st e s) = tabList s.
Proof.
  intros H. unfold updateTabStatus. destruct (findTab _ s); [|done].
  by rewrite tabList_notify.
Qed.

Lemma tabList_valid s i l : tabList s !! i = Some l -> tabs s < length (arrays s).
Proof.
  unfold tabList. intros H. apply lookup_lt_is_Some.
  destruct (arrays s !! tabs s); [eauto|]. simpl in H. by rewrite lookup_nil in H.
Qed.

Lemma tabAt_notify s l : tabAt (notifyStateChange s) l = tabAt s l.
Proof. unfold notifyStateChange, tabAt. by destruct (stateChangeHandler s). Qed.

Lemma alias_updateTabStatus tabId st e s l :
  alias <$> tabAt (updateTabStatus tabId st e s) l = alias <$> tabAt s l.
Proof.
  unfold updateTabStatus. destruct (findTab _ s) as [l'|]; [|done].
  rewrite tabAt_notify. unfold tabAt. simpl.
  destruct (decide (l' = l)) as [->|].
  - rewrite list_lookup_alter_eq. by destruct (tabObjs s !! l).
  - by rewrite list_lookup_alter_ne.
Qed.

(** One selection of a tab whose client is connected: no client, socket,
    timer or promise is created or changed, and the selection leaves the tab
    selectable in the same way. *)
Lemma selectTab_connected i l a c ctor s :
  tabList s !! i = Some l ->
  alias <$> tabAt s l = Some (Some a) ->
  clients_get a (clients s) = Some c ->
  statusOf c s = connected ->
  let s' := selectTab (Z.of_nat i) ctor s in
  netView s' = netView s /\
  tabList s' !! i = Some l /\
  alias <$> tabAt s' l = Some (Some a).
Proof.
  intros Hl Ha Hc Hst. pose proof (tabList_valid _ _ _ Hl) as Hv.
  simpl. unfold selectTab.
  rewrite (proj2 (Z.ltb_ge _ _)) by lia. simpl.
  pose proof (lookup_lt_Some _ _ _ Hl) as Hlt.
  rewrite (proj2 (Z.leb_gt _ _)) by lia.
  rewrite Nat2Z.id.
  set (s1 := set_selectedIndex (Z.of_nat i) s).
  assert (tabList s1 = tabList s) as Hl1 by done. rewrite Hl1, Hl.
  assert (tabAt s1 l = tabAt s l) as Ht1 by done. rewrite Ht1.
  destruct (tabAt s l) as [t|] eqn:Ht; [|done]. simpl in Ha. injection Ha as Ha.
  assert (forall s2, netView s2 = netView s -> tabList s2 = tabList s ->
            alias <$> tabAt s2 l = Some (Some a) -> tabs s2 < length (arrays s2) ->
            netView (notifyStateChange s2) = netView s /\
            tabList (notifyStateChange s2) !! i = Some l /\
            alias <$> tabAt (notifyStateChange s2) l = Some (Some a)) as Hfin.
  { intros s2 Hn Hl2 Ha2 Hv2. rewrite netView_notify, tabList_notify, Hl2 by done.
    repeat split; try done. by rewrite tabAt_notify. }
  assert (alias <$> tabAt s1 l = Some (Some a)) as Ha1 by (rewrite Ht1; simpl; by rewrite Ha).
  destruct (negb (isLocal t) && bool_decide (status t = disconnected)); [|by apply Hfin].
  unfold connectToRemote. rewrite Ht1, Ha.
  destruct (host t) as [h|]; [|by apply Hfin]. destruct (port t) as [p|]; [|by apply Hfin].
  destruct (bool_decide (a = "") || bool_decide (h = "") || (p =? 0)%Z); [by apply Hfin|].
  destruct (remoteConfigs s1 !! a) as [cfg|].
  - assert (clients_get a (clients s1) = Some c) as -> by done. simpl.
    assert (statusOf c s1 = connected) as -> by done.
    rewrite bool_decide_eq_true_2 by done. by apply Hfin.
  - apply Hfin.
    + by rewrite netView_updateTabStatus.
    + by rewrite tabList_updateTabStatus.
    + by rewrite alias_updateTabStatus.
    + unfold updateTabStatus. destruct (findTab _ s1); [|done].
      unfold notifyStateChange. destruct (stateChangeHandler _); simpl; [|done].
      rewrite length_app. simpl in *. lia.
Qed.

Lemma selectTab_connected_many i l a c ctors s :
  tabList s !! i = Some l ->
  alias <$> tabAt s l = Some (Some a) ->
  clients_get a (clients s) = Some c ->
  statusOf c s = connected ->
  netView (fold_left (fun s ctor => selectTab (Z.of_nat i) ctor s) ctors s) = netView s.
Proof.
  revert s. induction ctors as [|ctor ctors IH]; intros s Hl Ha Hc Hst; simpl; [done|].
  destruct (selectTab_connected i l a c ctor s Hl Ha Hc Hst) as (Hn & Hl' & Ha').
  rewrite IH; try done.
  - revert Hc. unfold netView in Hn. by injection Hn as _ _ _ _ -> _ _.
  - by rewrite (statusOf_netView _ _ c Hn).
Qed.

(** ** The [clients] map *)

Lemma clients_get_set_eq a c m : clients_get a (clients_set a c m) = Some c.
Proof.
  induction m as [|[k v] m IH]; simpl.
  - by rewrite bool_decide_eq_true_2.
  - case_bool_decide as Hk; simpl; [by rewrite bool_decide_eq_true_2|].
    by rewrite bool_decide_eq_false_2.
Qed.

Lemma clients_get_set_ne a b c m : a <> b -> clients_get b (clients_set a c m) = clients_get b m.
Proof.
  intros Hne. induction m as [|[k v] m IH]; simpl.
  - by rewrite bool_decide_eq_false_2.
  - case_bool_decide as Hk; simpl.
    + subst k. by rewrite !bool_decide_eq_false_2.
    + by rewrite IH.
Qed.

Lemma clients_get_delete_eq a m : clients_get a (clients_delete a m) = None.
Proof.
  induction m as [|[k v] m IH]; simpl; [done|].
  case_bool_decide as Hk; simpl; [done|]. by rewrite bool_decide_eq_false_2.
Qed.

Lemma clients_get_delete_ne a b m : a <> b -> clients_get b (clients_delete a m) = clients_get b m.
Proof.
  intros Hne. induction m as [|[k v] m IH]; simpl; [done|].
  case_bool_decide as Hk; simpl.
  - subst k. by rewrite bool_decide_eq_false_2.
  - by rewrite IH.
Qed.

Lemma clients_get_delete_Some a b c m : clients_get b (clients_delete a m) = Some c -> clients_get b m = Some c.
Proof.
  destruct (decide (a = b)) as [->|Hne]; [by rewrite clients_get_delete_eq|].
  by rewrite clients_get_delete_ne.
Qed.

Lemma clientsInv_ext s s' :
  clients s' = clients s -> eventHandler <$> clientObjs s' = eventHandler <$> clientObjs s ->
  clientsInv s -> clientsInv s'.
Proof.
  intros Hc Ho H a c. rewrite Hc. intros Ha. destruct (H a c Ha) as [? Hh].
  split; [done|]. by rewrite <- list_lookup_fmap, Ho, list_lookup_fmap.
Qed.

Lemma clientsInv_frame s s' : mgrView s' = mgrView s -> clientsInv s -> clientsInv s'.
Proof. unfold mgrView. intros [= _ _ _ _ _ _ Hc _ Ho]. by apply clientsInv_ext. Qed.

Lemma netView_fields s s' :
  netView s' = netView s ->
  clientObjs s' = clientObjs s /\ sockets s' = sockets s /\ timers s' = timers s /\
  promises s' = promises s /\ clients s' = clients s.
Proof. unfold netView. intros [= ? ? ? ? ? ? ?]. done. Qed.

Lemma clientsInv_netView s s' : netView s' = netView s -> clientsInv s -> clientsInv s'.
Proof.
  intros (Ho & _ & _ & _ & Hc)%netView_fields. apply clientsInv_ext; [done|]. by rewrite Ho.
Qed.

Lemma clientsInv_handleClientEvent a ev s :
  clientsInv s -> clientsInv (handleClientEvent a ev s).
Proof. apply clientsInv_netView, netView_handleClientEvent. Qed.

Lemma clientsInv_notify s : clientsInv s -> clientsInv (notifyStateChange s).
Proof. apply clientsInv_netView, netView_notify. Qed.

Lemma clientsInv_updateTabStatus tabId st e s :
  clientsInv s -> clientsInv (updateTabStatus tabId st e s).
Proof. apply clientsInv_netView, netView_updateTabStatus. Qed.

Lemma clientsInv_delete a s : clientsInv s -> clientsInv (set_clients (clients_delete a (clients s)) s).
Proof. intros H b c Hb. simpl in *. apply clients_get_delete_Some in Hb. by apply H. Qed.

Lemma clientsInv_connectToRemote l ctor s :
  clientsInv s -> clientsInv (connectToRemote l ctor s).1.
Proof.
  intros H. unfold connectToRemote.
  destruct (tabAt s l) as [t|]; [|done].
  destruct (alias t) as [a|]; [|done]. destruct (host t) as [h|]; [|done].
  destruct (port t) as [p|]; [|done].
  destruct (bool_decide (a = "")) eqn:Hne; simpl; [done|].
  apply bool_decide_eq_false in Hne. case_match; [done|].
  destruct (remoteConfigs s !! a) as [config|]; simpl; [|by apply clientsInv_updateTabStatus].
  destruct (clients_get a (clients s)) as [c|] eqn:Hg; simpl.
  - case_match; [done|].
    pose proof (P_connect _ clientsInv_frame clientsInv_handleClientEvent clientsInv_notify
                  c ctor _ (clientsInv_updateTabStatus (id t) connecting None _ H)) as H2.
    destruct (connect c ctor _) as [s3 pr].
    by apply (P_awaitConnect _ clientsInv_frame clientsInv_notify).
  - match goal with |- context [updateTabStatus _ _ _ ?s1] =>
      assert (clientsInv s1) as H1 end.
    { intros b c Hb. simpl in *. destruct (decide (a = b)) as [<-|Hab].
      - rewrite clients_get_set_eq in Hb. injection Hb as <-. split; [done|].
        by rewrite lookup_app_r, Nat.sub_diag by lia.
      - rewrite clients_get_set_ne in Hb by done. destruct (H b c Hb) as [? Hh]. split; [done|].
        destruct (clientObjs s !! c) as [cl|] eqn:Hc; [|done].
        by rewrite (lookup_app_l_Some _ _ _ _ Hc). }
    pose proof (P_connect _ clientsInv_frame clientsInv_handleClientEvent clientsInv_notify
                  (length (clientObjs s)) ctor _
                  (clientsInv_updateTabStatus (id t) connecting None _ H1)) as H2.
    destruct (connect _ ctor _) as [s3 pr].
    by apply (P_awaitConnect _ clientsInv_frame clientsInv_notify).
Qed.

Lemma clientsInv_selectTab index ctor s : clientsInv s -> clientsInv (selectTab index ctor s).
Proof.
  intros H. unfold selectTab. case_match; [done|].
  assert (clientsInv (set_selectedIndex index s)) as H1 by done.
  destruct (tabList _ !! Z.to_nat index) as [l|]; [|done].
  destruct (tabAt _ l) as [tab|]; [|done].
  case_match; [|by apply clientsInv_notify].
  pose proof (clientsInv_connectToRemote l ctor _ H1) as Hc.
  destruct (connectToRemote l ctor _) as [s2 []]; [by apply clientsInv_notify|done].
Qed.

Lemma clientsInv_pushTab tab s : clientsInv s -> clientsInv (pushTab tab s).
Proof. by apply clientsInv_ext. Qed.

Lemma clientsInv_addRemote s r : clientsInv s -> clientsInv (addRemote s r).
Proof. intros H. unfold addRemote. case_match; [done|]. by apply clientsInv_pushTab. Qed.

Lemma clientsInv_set_clients m s :
  (forall a c, clients_get a m = Some c -> clients_get a (clients s) = Some c) ->
  clientsInv s -> clientsInv (set_clients m s).
Proof. intros Hm H a c Ha. by apply H, Hm. Qed.

Lemma clientsInv_refreshFiltered nA s : clientsInv s -> clientsInv (refreshFiltered nA s).
Proof.
  intros H. unfold refreshFiltered.
  assert (forall P : state -> Prop,
            (forall s s', mgrView s' = mgrView s -> P s -> P s') ->
            (forall a ev s, P s -> P (handleClientEvent a ev s)) ->
            (forall a s, P s -> P (set_clients (clients_delete a (clients s)) s)) ->
            forall l s, P s -> P (refreshKeep nA l s).2) as Hkeep.
  { intros P Pf Pe Pd l s0 H0. unfold refreshKeep. repeat case_match; simpl; try done.
    apply (Pd _ (disconnect _ s0)). by apply P_disconnect. }
  assert (forall ls s0, clientsInv s0 -> clientsInv (filterTabs nA ls s0).2) as Hfilter.
  { induction ls as [|l ls IH]; intros s0 H0; simpl; [done|].
    pose proof (Hkeep clientsInv clientsInv_frame clientsInv_handleClientEvent
                  clientsInv_delete l s0 H0) as H1.
    destruct (refreshKeep nA l s0) as [keep s1]. simpl in H1.
    specialize (IH s1 H1). by destruct (filterTabs nA ls s1). }
  specialize (Hfilter (tabList s) s H).
  destruct (filterTabs nA (tabList s) s) as [kept s1]. done.
Qed.

Lemma clientsInv_step e s : clientsInv s -> clientsInv (step e s).
Proof.
  intros H. destruct e;
    try (by apply (P_step_transport _ clientsInv_frame clientsInv_handleClientEvent
                     clientsInv_notify)).
  - done.
  - unfold step, initializeLoaded. apply clientsInv_notify, fold_left_preserves; [|done].
    intros s' r H'. by apply clientsInv_pushTab.
  - done.
  - by apply clientsInv_selectTab.
  - by apply clientsInv_selectTab.
  - by apply clientsInv_selectTab.
  - unfold step, disconnectAll. apply clientsInv_notify, fold_left_preserves.
    + intros s' l H'. revert H'. by apply clientsInv_ext.
    + by intros a c.
  - simpl. rewrite refresh_unfold. cbv zeta. apply clientsInv_notify.
    assert (clientsInv (fold_left addRemote remotes (refreshFiltered remotes.*1 s))) as H3.
    { apply fold_left_preserves; [intros; by apply clientsInv_addRemote|].
      by apply clientsInv_refreshFiltered. }
    by case_match.
  - simpl. destruct (suspended s); [done|]. by apply clientsInv_notify.
Qed.

Lemma clientsInv_run es s : clientsInv s -> clientsInv (run es s).
Proof.
  revert s. induction es as [|e es IH]; simpl; intros s H; [done|].
  by apply IH, clientsInv_step.
Qed.

Lemma clientsInv_init : clientsInv init.
Proof. by intros a c. Qed.

(** ** Authentication failure *)

Lemma mgrView_updClient c f s :
  (forall cl, eventHandler (f cl) = eventHandler cl) -> mgrView (updClient c f s) = mgrView s.
Proof.
  intros Hf. unfold mgrView, updClient. simpl.
  by rewrite (fmap_alter_same eventHandler f) by done.
Qed.

Lemma mgrView_stopPingInterval c s : mgrView (stopPingInterval c s) = mgrView s.
Proof.
  unfold stopPingInterval. repeat case_match; try done. by rewrite mgrView_updClient.
Qed.

Lemma mgrView_cleanup c s : mgrView (cleanup c s) = mgrView s.
Proof.
  unfold cleanup. pose proof (mgrView_stopPingInterval c s).
  repeat case_match; try done. by rewrite mgrView_updClient.
Qed.

Lemma tabAt_mgrView s s' l : mgrView s' = mgrView s -> tabAt s' l = tabAt s l.
Proof. unfold mgrView, tabAt. by intros [= -> _ _ _ _ _ _ _ _]. Qed.

Lemma tabList_mgrView s s' : mgrView s' = mgrView s -> tabList s' = tabList s.
Proof. unfold mgrView. intros [= _ Ha Ht _ _ _ _ _ _]. by apply tabList_view. Qed.

Lemma sockets_stopPingInterval c s : sockets (stopPingInterval c s) = sockets s.
Proof. unfold stopPingInterval. by repeat case_match. Qed.

Lemma promises_stopPingInterval c s : promises (stopPingInterval c s) = promises s.
Proof. unfold stopPingInterval. by repeat case_match. Qed.

Lemma stopPingInterval_client c s cl :
  clientObjs s !! c = Some cl ->
  clientObjs (stopPingInterval c s) !! c = Some (with_pingInterval None cl).
Proof.
  intros Hc. unfold stopPingInterval. rewrite Hc.
  destruct cl as [w h p tk eh [t|] st]; simpl; [|done].
  unfold updClient. simpl. by rewrite list_lookup_alter_eq, Hc.
Qed.

(** [cleanup] on a client that holds socket [w]: the callbacks of [w] are
    detached and [close()] was called on it. *)
Lemma cleanup_socket c s cl w k :
  clientObjs s !! c = Some cl -> ws cl = Some w -> sockets s !! w = Some k ->
  sockets (cleanup c s) !! w = Some (ws_close (detach k)).
Proof.
  intros Hc Hw Hk. unfold cleanup.
  rewrite (stopPingInterval_client c s cl Hc). simpl. rewrite Hw.
  unfold updClient, updSocket. simpl.
  by rewrite sockets_stopPingInterval, list_lookup_alter_eq, Hk.
Qed.

Lemma find_ext_in {A} (f g : A -> bool) (l : list A) :
  (forall x, x ∈ l -> f x = g x) -> List.find f l = List.find g l.
Proof.
  induction l as [|x l IH]; simpl; [done|]. intros H.
  rewrite (H x) by apply list_elem_of_here.
  rewrite IH; [done|]. intros y Hy. apply H. by apply list_elem_of_further.
Qed.

(** In a well-formed tab list, the tab found by an alias is the tab found by
    its own id. *)
Lemma findTab_by_id b s a l t :
  tabsInv b s ->
  findTab (fun t => bool_decide (alias t = Some a)) s = Some l ->
  tabAt s l = Some t ->
  findTab (fun t' => bool_decide (id t' = id t)) s = Some l.
Proof.
  intros Hinv Hf Ht. rewrite <- Hf. unfold findTab. apply find_ext_in.
  intros l' Hl'. destruct (tabsInv_elem _ _ _ Hinv Hl') as (t' & Ht' & Hs').
  apply find_tab_Some in Hf as (Hin & t0 & Ht0 & Hp). rewrite Ht in Ht0. injection Ht0 as <-.
  apply bool_decide_eq_true in Hp.
  destruct (tabsInv_elem _ _ _ Hinv Hin) as (t0 & Ht0 & Hs). rewrite Ht in Ht0.
  injection Ht0 as <-. destruct Hs as [->|(_ & a0 & Ha0 & Hid)]; [done|].
  rewrite Hp in Ha0. injection Ha0 as <-. rewrite Ht'. simpl. rewrite Hid.
  destruct Hs' as [->|(_ & a' & Ha' & Hid')]; [done|]. rewrite Ha', Hid'.
  apply bool_decide_ext. split.
  - intros ->%(inj (String.append "remote-")). done.
  - by intros [= ->].
Qed.

Lemma handleClientEvent_disconnected b s a e l t :
  tabsInv b s ->
  findTab (fun t => bool_decide (alias t = Some a)) s = Some l ->
  tabAt s l = Some t ->
  handleClientEvent a (ev_disconnected e) s =
    notifyStateChange (alterTab (fun t => setLastError e (setStatus disconnected t)) l s).
Proof.
  intros Hinv Hf Ht. unfold handleClientEvent. rewrite Hf, Ht.
  unfold updateTabStatus. by rewrite (findTab_by_id b s a l t Hinv Hf Ht).
Qed.

Lemma rejectConnect_pending p r s :
  settled <$> promises s !! p = Some pending ->
  settled <$> promises (rejectConnect p r s) !! p = Some (rejected r) /\
  tabObjs (rejectConnect p r s) = tabObjs s /\
  netView (rejectConnect p r s) = netView (settle p (rejected r) s).
Proof.
  intros Hp. unfold rejectConnect.
  destruct (promises s !! p) as [[st aw]|] eqn:Hq; simpl in Hp; [|done].
  injection Hp as ->.
  assert (settled <$> promises (settle p (rejected r) s) !! p = Some (rejected r)) as Hs.
  { unfold settle. simpl. by rewrite list_lookup_alter_eq, Hq. }
  destruct aw; [|done]. unfold resumeSelectTab.
  rewrite netView_notify. repeat split; try done.
  - unfold notifyStateChange. by destruct (stateChangeHandler _).
  - unfold notifyStateChange. by destruct (stateChangeHandler _).
Qed.

(** C4: a client that is [connecting] on socket [w] receives
    [auth_response] with [success = false] and error [e].  The client ends
    [disconnected]; the callbacks of [w] are detached and [close()] was
    called on it; the pending promise of [connect()] is rejected with [e], or
    with ["Authentication failed"] when [e] is absent; and the tab of the
    client's alias ends [disconnected] with that reason as [lastError]. *)
Theorem C4_auth_failure (es : list event) (w c p l : nat) (k : WebSocket)
    (cl : RemoteClient) (tok e : option string) :
  let s := run es init in
  sockets s !! w = Some k -> readyState k = OPEN -> onmessage k = Some (c, p) ->
  clientObjs s !! c = Some cl -> _status cl = connecting -> ws cl = Some w ->
  settled <$> promises s !! p = Some pending ->
  findTab (fun t => bool_decide (alias t = Some (eventHandler cl))) s = Some l ->
  let reason := default "Authentication failed" e in
  let s' := step (WsMessage w (Some (mkMsg "auth_response" tok false e))) s in
  statusOf c s' = disconnected /\
  (sockets s' !! w = Some (ws_close (detach k)) /\ readyState (ws_close (detach k)) = CLOSING) /\
  settled <$> promises s' !! p = Some (rejected reason) /\
  exists t', tabAt s' l = Some t' /\ status t' = disconnected /\ lastError t' = Some reason.
Proof.
  intros s Hk Hr Hm Hc Hst Hw Hp Hf reason.
  pose proof (tabsInv_run false es init tabsInv_init) as Hinv. fold s in Hinv.
  simpl. rewrite Hk, Hr. rewrite bool_decide_eq_true_2 by done. rewrite Hm.
  unfold on_message, handleMessage. simpl.
  set (s1 := updClient c (with_status disconnected) s).
  assert (clientObjs s1 !! c = Some (with_status disconnected cl)) as Hc1.
  { unfold s1, updClient. simpl. by rewrite list_lookup_alter_eq, Hc. }
  destruct (find_tab_Some _ _ _ Hf) as (Hin & t & Ht & _).
  set (f := fun t => setLastError (Some reason) (setStatus disconnected t)).
  assert (callEventHandler c (ev_disconnected (Some reason)) s1 =
          notifyStateChange (alterTab f l (set_emitted (emitted s1 ++ [(c, ev_disconnected (Some reason))]) s1)))
    as Hev.
  { unfold callEventHandler. rewrite Hc1. simpl.
    apply (handleClientEvent_disconnected false _ _ _ l t); [|done..].
    revert Hinv. by apply tabsInv_ext. }
  fold reason. rewrite Hev.
  set (s2 := notifyStateChange _).
  assert (netView s2 = netView s1) as Hn2 by (unfold s2; by rewrite netView_notify).
  assert (clientObjs s2 !! c = Some (with_status disconnected cl)) as Hc2.
  { destruct (netView_fields _ _ Hn2) as (-> & _). done. }
  assert (sockets s2 !! w = Some k) as Hk2.
  { destruct (netView_fields _ _ Hn2) as (_ & -> & _). done. }
  assert (tabAt s2 l = Some (f t)) as Ht2.
  { unfold s2. rewrite tabAt_notify. unfold tabAt, alterTab. simpl.
    rewrite list_lookup_alter_eq. unfold tabAt in Ht. by rewrite Ht. }
  assert (settled <$> promises (cleanup c s2) !! p = Some pending) as Hp3.
  { rewrite cleanup_promises. destruct (netView_fields _ _ Hn2) as (_ & _ & _ & -> & _). done. }
  destruct (rejectConnect_pending p reason _ Hp3) as (Hp4 & Ho4 & Hn4).
  repeat split.
  - rewrite (statusOf_netView _ _ c Hn4). unfold statusOf, settle. simpl.
    by rewrite (cleanup_client c s2 _ Hc2).
  - destruct (netView_fields _ _ Hn4) as (_ & -> & _). simpl.
    by apply (cleanup_socket c s2 (with_status disconnected cl)).
  - done.
  - exists (f t). split; [|done]. unfold tabAt. rewrite Ho4.
    rewrite <- Ht2. apply (tabAt_mgrView s2), mgrView_cleanup.
Qed.

Lemma C4_auth_failure_witness :
  let s := run [OnStateChange; Initialize; InitializeLoaded oneRemote;
                SelectTab 1 None; WsOpen 0] init in
  let s' := step (WsMessage 0 (Some (mkMsg "auth_response" None false (Some "bad token")))) s in
  statusOf 0 s' = disconnected /\
  (sockets s' !! 0 =
     Some (ws_close (detach (mkSocket ("h1", 8080%Z) (Some 0) (Some (0, 0)) (Some (0, 0))
                               (Some 0) OPEN false [authMessage "tok"]))) /\
   readyState (ws_close (detach (mkSocket ("h1", 8080%Z) (Some 0) (Some (0, 0)) (Some (0, 0))
                               (Some 0) OPEN false [authMessage "tok"]))) = CLOSING) /\
  settled <$> promises s' !! 0 = Some (rejected "bad token") /\
  exists t', tabAt s' 1 = Some t' /\ status t' = disconnected /\ lastError t' = Some "bad token".
Proof.
  apply (C4_auth_failure
           [OnStateChange; Initialize; InitializeLoaded oneRemote; SelectTab 1 None; WsOpen 0]
           0 0 0 1
           (mkSocket ("h1", 8080%Z) (Some 0) (Some (0, 0)) (Some (0, 0)) (Some 0) OPEN false
              [authMessage "tok"])
           (mkClient (Some 0) "h1" 8080 "tok" "a" None connecting)
           None (Some "bad token")); vm_compute; reflexivity.
Defined.

(** ** Refresh: what is removed, what is appended, what is kept *)

Lemma clients_disconnect c s : clients (disconnect c s) = clients s.
Proof.
  apply (P_disconnect (fun s' => clients s' = clients s)); try done.
  - unfold mgrView. by intros s1 s2 [= _ _ _ _ _ _ -> _ _].
  - intros a ev s1 <-. by destruct (netView_fields _ _ (netView_handleClientEvent a ev s1)) as (_&_&_&_&?).
Qed.

Lemma clientObjs_callEventHandler c ev s : clientObjs (callEventHandler c ev s) = clientObjs s.
Proof. by destruct (netView_fields _ _ (netView_callEventHandler c ev s)) as (?&_). Qed.

Lemma disconnect_client c s cl :
  clientObjs s !! c = Some cl ->
  clientObjs (disconnect c s) !! c =
    Some (with_status disconnected (with_ws None (with_pingInterval None cl))).
Proof.
  intros Hc. unfold disconnect. rewrite clientObjs_callEventHandler.
  unfold updClient. simpl. by rewrite list_lookup_alter_eq, (cleanup_client c s cl Hc).
Qed.

Lemma disconnect_released c s cl : clientObjs s !! c = Some cl -> released c (disconnect c s).
Proof. intros Hc. eexists. split; [by apply disconnect_client|done]. Qed.

Lemma clientObjs_stopPingInterval_ne c c0 s :
  c0 <> c -> clientObjs (stopPingInterval c s) !! c0 = clientObjs s !! c0.
Proof.
  intros Hne. unfold stopPingInterval. repeat case_match; try done.
  unfold updClient. simpl. by rewrite list_lookup_alter_ne.
Qed.

Lemma clientObjs_cleanup_ne c c0 s :
  c0 <> c -> clientObjs (cleanup c s) !! c0 = clientObjs s !! c0.
Proof.
  intros Hne. unfold cleanup. pose proof (clientObjs_stopPingInterval_ne c c0 s Hne).
  repeat case_match; try done.
  unfold updClient, updSocket. simpl. by rewrite list_lookup_alter_ne.
Qed.

Lemma disconnect_other c c0 s :
  c0 <> c -> clientObjs (disconnect c s) !! c0 = clientObjs s !! c0.
Proof.
  intros Hne. unfold disconnect. rewrite clientObjs_callEventHandler.
  unfold updClient. simpl. rewrite list_lookup_alter_ne by done. by apply clientObjs_cleanup_ne.
Qed.

Lemma released_disconnect c c0 s : released c0 s -> released c0 (disconnect c s).
Proof.
  intros (cl & Hc & Hs). destruct (decide (c0 = c)) as [->|Hne].
  - by apply (disconnect_released c s cl).
  - exists cl. by rewrite disconnect_other.
Qed.

(** The event of a client whose handler belongs to alias [a] leaves the tab
    objects of other aliases as they are. *)
Lemma handleClientEvent_other_tab b a ev s l0 t0 a0 :
  tabsInv b s -> tabAt s l0 = Some t0 -> alias t0 = Some a0 -> a0 <> a ->
  tabAt (handleClientEvent a ev s) l0 = Some t0.
Proof.
  intros Hinv Ht0 Ha0 Hne. unfold handleClientEvent.
  destruct (findTab _ s) as [l|] eqn:Hf; [|done].
  destruct (find_tab_Some _ _ _ Hf) as (Hin & t & Ht & Hp). rewrite Ht.
  apply bool_decide_eq_true in Hp.
  assert (forall st e, tabAt (updateTabStatus (id t) st e s) l0 = Some t0) as Hupd.
  { intros st e. unfold updateTabStatus. rewrite (findTab_by_id b s a l t Hinv Hf Ht).
    rewrite tabAt_notify. unfold tabAt. simpl. rewrite list_lookup_alter_ne; [done|].
    intros ->. rewrite Ht in Ht0. injection Ht0 as ->. congruence. }
  by destruct ev.
Qed.

Lemma disconnect_other_tab b c a s l0 t0 a0 :
  tabsInv b s -> eventHandler <$> clientObjs s !! c = Some a ->
  tabAt s l0 = Some t0 -> alias t0 = Some a0 -> a0 <> a ->
  tabAt (disconnect c s) l0 = Some t0.
Proof.
  intros Hinv Hc Ht0 Ha0 Hne. unfold disconnect.
  destruct (clientObjs s !! c) as [cl|] eqn:Hcl; [|done]. simpl in Hc. injection Hc as Hc.
  set (s2 := updClient c (with_status disconnected) (cleanup c s)).
  assert (mgrView s2 = mgrView s) as Hv.
  { unfold s2. rewrite mgrView_updClient by done. apply mgrView_cleanup. }
  assert (clientObjs s2 !! c =
            Some (with_status disconnected (with_ws None (with_pingInterval None cl)))) as Hc2.
  { unfold s2, updClient. simpl. by rewrite list_lookup_alter_eq, (cleanup_client c s cl Hcl). }
  unfold callEventHandler. rewrite Hc2. simpl. rewrite Hc.
  apply (handleClientEvent_other_tab b _ _ _ _ _ a0); try done.
  - apply (tabsInv_frame b s2); [done|]. by apply (tabsInv_frame b s).
  - change (tabAt s2 l0 = Some t0). by rewrite (tabAt_mgrView _ _ _ Hv).
Qed.


Lemma refreshKeep_cases nA l s :
  (refreshKeep nA l s).2 = s \/
  exists t a c,
    tabAt s l = Some t /\ isLocal t = false /\ alias t = Some a /\ a <> "" /\ (a ∉ nA) /\
    clients_get a (clients s) = Some c /\
    (refreshKeep nA l s).2 = set_clients (clients_delete a (clients s)) (disconnect c s).
Proof.
  unfold refreshKeep. destruct (tabAt s l) as [t|] eqn:Ht; [|by left].
  destruct (isLocal t) eqn:Hl; [by left|]. destruct (alias t) as [a|] eqn:Ha; [|by left].
  case_bool_decide as Hne; [by left|]. case_bool_decide as Hin; [by left|].
  destruct (clients_get a (clients s)) as [c|] eqn:Hc; [|by left].
  right. exists t, a, c. rewrite clients_disconnect. done.
Qed.

Lemma refreshKeep_inv nA l s0 s : refreshInv s0 s -> refreshInv s0 (refreshKeep nA l s).2.
Proof.
  intros (H1 & H2 & H3). split; [|split].
  - by apply (P_refreshKeep _ (tabsInv_frame false) (tabsInv_handleClientEvent false)
                (tabsInv_clients false)).
  - destruct (refreshKeep_cases nA l s) as [Heq|(t & a & c & _ & _ & _ & _ & _ & _ & Heq)];
      rewrite Heq; [done|].
    rewrite <- (clients_disconnect c s). apply clientsInv_delete.
    by apply (P_disconnect _ clientsInv_frame clientsInv_handleClientEvent).
  - by apply (P_refreshKeep _ (sameTabs_frame s0) (sameTabs_handleClientEvent s0)
                (sameTabs_clients s0)).
Qed.

Lemma filterTabs_inv nA ls s0 s : refreshInv s0 s -> refreshInv s0 (filterTabs nA ls s).2.
Proof.
  revert s. induction ls as [|l ls IH]; intros s H; simpl; [done|].
  pose proof (refreshKeep_inv nA l s0 s H) as H1.
  destruct (refreshKeep nA l s) as [keep s1]. simpl in H1.
  specialize (IH s1 H1). by destruct (filterTabs nA ls s1).
Qed.

Lemma refreshKeep_intact nA l a0 l0 t0 s0 s :
  a0 ∈ nA -> alias t0 = Some a0 ->
  refreshInv s0 s -> keptIntact a0 l0 t0 s0 s ->
  keptIntact a0 l0 t0 s0 (refreshKeep nA l s).2.
Proof.
  intros Hin Ha0 (Hinv & Hcl & _) (Ht & Hm & Hc).
  destruct (refreshKeep_cases nA l s) as [Heq|(t & a & c & _ & _ & _ & _ & Hnin & Hg & Heq)];
    rewrite Heq; [done|].
  assert (a0 <> a) as Hne by (intros ->; done).
  destruct (Hcl a c Hg) as [_ Hh]. split; [|split].
  - by apply (disconnect_other_tab false c a s l0 t0 a0).
  - simpl. by rewrite clients_get_delete_ne.
  - intros c0 Hc0. simpl. rewrite <- (Hc c0 Hc0). apply disconnect_other.
    intros ->. rewrite <- Hm in Hc0. destruct (Hcl a0 c Hc0) as [_ Hh0]. congruence.
Qed.

Lemma filterTabs_intact nA ls a0 l0 t0 s0 s :
  a0 ∈ nA -> alias t0 = Some a0 ->
  refreshInv s0 s -> keptIntact a0 l0 t0 s0 s ->
  keptIntact a0 l0 t0 s0 (filterTabs nA ls s).2.
Proof.
  intros Hin Ha0. revert s. induction ls as [|l ls IH]; intros s Hinv H; simpl; [done|].
  pose proof (refreshKeep_inv nA l s0 s Hinv) as Hinv1.
  pose proof (refreshKeep_intact nA l a0 l0 t0 s0 s Hin Ha0 Hinv H) as H1.
  destruct (refreshKeep nA l s) as [keep s1]. simpl in *.
  specialize (IH s1 Hinv1 H1). by destruct (filterTabs nA ls s1).
Qed.

Lemma refreshKeep_evicted nA l a s0 s :
  evicted a s0 s -> evicted a s0 (refreshKeep nA l s).2.
Proof.
  intros (Hn & Hr).
  destruct (refreshKeep_cases nA l s) as [Heq|(t & a' & c & _ & _ & _ & _ & _ & _ & Heq)];
    rewrite Heq; [done|]. split.
  - simpl.
    destruct (clients_get a (clients_delete a' (clients s))) eqn:Hg; [|done].
    apply clients_get_delete_Some in Hg. congruence.
  - intros c0 Hc0. destruct (Hr c0 Hc0) as (cl & Hcl & Hs).
    destruct (released_disconnect c c0 s) as (cl' & Hcl' & Hs'); [by exists cl|].
    by exists cl'.
Qed.

Lemma filterTabs_evicted nA ls a s0 s :
  evicted a s0 s -> evicted a s0 (filterTabs nA ls s).2.
Proof.
  revert s. induction ls as [|l ls IH]; intros s H; simpl; [done|].
  pose proof (refreshKeep_evicted nA l a s0 s H) as H1.
  destruct (refreshKeep nA l s) as [keep s1]. simpl in *.
  specialize (IH s1 H1). by destruct (filterTabs nA ls s1).
Qed.

Lemma refreshKeep_step_removed nA l a s0 s :
  refreshInv s0 s -> untouched a s0 s ->
  untouched a s0 (refreshKeep nA l s).2 \/ evicted a s0 (refreshKeep nA l s).2.
Proof.
  intros (_ & Hcl & _) Hu.
  destruct (refreshKeep_cases nA l s) as [Heq|(t & a' & c & _ & _ & _ & _ & _ & Hg & Heq)];
    rewrite Heq; [by left|].
  destruct (decide (a' = a)) as [->|Hne].
  - right. split.
    + simpl. by rewrite clients_get_delete_eq.
    + intros c0 Hc0. unfold untouched in Hu. rewrite <- Hu, Hg in Hc0. injection Hc0 as <-.
      destruct (Hcl a c Hg) as [_ Hh]. destruct (clientObjs s !! c) as [cl|] eqn:Hc; [|done].
      destruct (disconnect_released c s cl Hc) as (cl' & Hcl' & Hs'). by exists cl'.
  - left. unfold untouched. simpl. by rewrite clients_get_delete_ne by done.
Qed.

Lemma refreshKeep_at_removed nA l a t s0 s :
  refreshInv s0 s -> untouched a s0 s ->
  tabAt s0 l = Some t -> isLocal t = false -> alias t = Some a -> a ∉ nA ->
  evicted a s0 (refreshKeep nA l s).2.
Proof.
  intros (Hinv & Hcl & Hsame) Hu Ht Hl Ha Hnin. unfold untouched in Hu.
  pose proof (same_static _ _ Hsame l) as Hst. rewrite Ht in Hst.
  destruct (tabAt s l) as [t'|] eqn:Ht'; [|done]. simpl in Hst.
  injection Hst as _ _ Hl' Ha' _ _. rewrite Hl in Hl'. rewrite Ha in Ha'.
  unfold refreshKeep. rewrite Ht', Hl', Ha'.
  assert (clients_get a (clients s) = None -> evicted a s0 s) as Hnone.
  { intros Hn. split; [done|]. intros c Hc. congruence. }
  case_bool_decide as Hne.
  { simpl. apply Hnone. destruct (clients_get a (clients s)) as [c|] eqn:Hg; [|done].
    by destruct (Hcl a c Hg). }
  rewrite bool_decide_eq_false_2 by done.
  destruct (clients_get a (clients s)) as [c|] eqn:Hg; simpl; [|by apply Hnone].
  split.
  - simpl. by rewrite clients_disconnect, clients_get_delete_eq.
  - intros c0 Hc0. rewrite <- Hu in Hc0. injection Hc0 as <-.
    destruct (Hcl a c Hg) as [_ Hh]. destruct (clientObjs s !! c) as [cl|] eqn:Hc; [|done].
    destruct (disconnect_released c s cl Hc) as (cl' & Hcl' & Hs'). by exists cl'.
Qed.

Lemma filterTabs_removed nA ls l a t s0 s :
  refreshInv s0 s -> untouched a s0 s -> l ∈ ls ->
  tabAt s0 l = Some t -> isLocal t = false -> alias t = Some a -> a ∉ nA ->
  evicted a s0 (filterTabs nA ls s).2.
Proof.
  intros Hinv Hu Hin Ht Hl Ha Hnin. revert s Hinv Hu.
  induction ls as [|l' ls IH]; intros s Hinv Hu; [by apply elem_of_nil in Hin|].
  simpl.
  pose proof (refreshKeep_inv nA l' s0 s Hinv) as Hinv1.
  pose proof (refreshKeep_step_removed nA l' a s0 s Hinv Hu) as Hstep.
  pose proof (fun H => refreshKeep_at_removed nA l' a t s0 s Hinv Hu H Hl Ha Hnin) as Hat.
  destruct (refreshKeep nA l' s) as [keep s1]. simpl in *.
  pose proof (filterTabs_evicted nA ls a s0 s1) as Hev.
  apply elem_of_cons in Hin as [<-|Hin].
  - specialize (Hev (Hat Ht)). by destruct (filterTabs nA ls s1).
  - destruct Hstep as [Hu1|He1].
    + specialize (IH Hin s1 Hinv1 Hu1). by destruct (filterTabs nA ls s1).
    + specialize (Hev He1). by destruct (filterTabs nA ls s1).
Qed.


Lemma findTab_alias_None a s :
  findTab (fun t => bool_decide (alias t = Some a)) s = None <-> a ∉ aliasesOf s.
Proof.
  unfold findTab, aliasesOf. induction (tabList s) as [|l ls IH]; simpl.
  - split; [intros _; apply not_elem_of_nil|done].
  - destruct (tabAt s l) as [t|]; simpl; [|done].
    case_bool_decide as Ha.
    + rewrite Ha. simpl. split; [done|]. intros []. apply list_elem_of_here.
    + destruct (alias t) as [a'|]; simpl; [|done].
      rewrite IH, not_elem_of_cons. split; [|tauto]. intros ?. split; [congruence|done].
Qed.

Lemma omap_ext_Forall {A B} (f g : A -> option B) (l : list A) :
  Forall (fun x => f x = g x) l -> omap f l = omap g l.
Proof.
  induction 1 as [|x l Hx _ IH]; [done|]. csimpl. rewrite Hx, IH. done.
Qed.

Lemma tabsInv_valid b s : tabsInv b s -> tabsValid s.
Proof.
  intros H. split; [by destruct H|]. apply Forall_forall. intros l Hl.
  destruct (tabsInv_elem _ _ _ H Hl) as (t & Ht & _). by apply lookup_lt_Some in Ht.
Qed.

Lemma aliasesOf_pushTab tab s :
  tabsValid s ->
  aliasesOf (pushTab tab s) = aliasesOf s ++ from_option (fun a => [a]) [] (alias tab).
Proof.
  intros [Hv Hl]. unfold aliasesOf. rewrite tabList_pushTab by done.
  rewrite omap_app. f_equal.
  - apply omap_ext_Forall. eapply Forall_impl; [exact Hl|]. intros l Hlt. simpl.
    unfold tabAt, pushTab. simpl. by rewrite lookup_app_l.
  - simpl. unfold tabAt, pushTab. simpl. rewrite lookup_app_r, Nat.sub_diag by lia. simpl.
    by destruct (alias tab).
Qed.

Lemma tabsValid_pushTab tab s : tabsValid s -> tabsValid (pushTab tab s).
Proof.
  intros [Hv Hl]. split.
  - unfold pushTab. simpl. by rewrite length_alter.
  - rewrite tabList_pushTab by done. unfold pushTab. simpl. rewrite length_app. simpl.
    apply Forall_app. split.
    + eapply Forall_impl; [exact Hl|]. intros; simpl in *; lia.
    + apply Forall_singleton. lia.
Qed.

(** The state after the loop "Add tabs for new remotes". *)
Lemma addRemote_fold rs s :
  tabsValid s ->
  let s' := fold_left addRemote rs s in
  let new := newRemotes (aliasesOf s) rs in
  tabObjs s' = tabObjs s ++ (remoteTabOf <$> new) /\
  tabList s' = tabList s ++ seq (length (tabObjs s)) (length new) /\
  tabsValid s' /\
  netView s' = netView s /\
  selectedIndex s' = selectedIndex s /\
  notified s' = notified s /\
  stateChangeHandler s' = stateChangeHandler s.
Proof.
  revert s. induction rs as [|r rs IH]; intros s Hv; simpl.
  { rewrite !app_nil_r. done. }
  set (s1 := set_remoteConfigs (<[r.1:=r.2]> (remoteConfigs s)) s).
  assert (aliasesOf s1 = aliasesOf s) as Ha1 by done.
  assert (tabsValid s1) as Hv1 by done.
  assert (tabObjs s1 = tabObjs s /\ tabList s1 = tabList s /\ netView s1 = netView s /\
          selectedIndex s1 = selectedIndex s /\ notified s1 = notified s /\
          stateChangeHandler s1 = stateChangeHandler s) as (E1 & E2 & E3 & E4 & E5 & E6) by done.
  destruct (decide (r.1 ∈ aliasesOf s)) as [Hin|Hin].
  - assert (addRemote s r = s1) as ->.
    { unfold addRemote. fold s1. destruct (findTab _ s1) eqn:Hf; [done|].
      apply findTab_alias_None in Hf. by rewrite Ha1 in Hf. }
    rewrite bool_decide_eq_true_2 by done.
    destruct (IH s1 Hv1) as (H1 & H2 & H3 & H4 & H5 & H6 & H7).
    rewrite Ha1, ?E1, ?E2, ?E3, ?E4, ?E5, ?E6 in *. done.
  - set (s2 := pushTab (createRemoteTab r.1 (cfg_host r.2) (cfg_port r.2)) s1).
    assert (addRemote s r = s2) as ->.
    { unfold addRemote. fold s1. destruct (findTab _ s1) eqn:Hf; [|done].
      destruct Hin. rewrite <- Ha1.
      destruct (decide (r.1 ∈ aliasesOf s1)) as [|Hn]; [done|].
      apply findTab_alias_None in Hn. congruence. }
    rewrite bool_decide_eq_false_2 by done.
    destruct (IH s2 (tabsValid_pushTab _ _ Hv1)) as (H1 & H2 & H3 & H4 & H5 & H6 & H7).
    assert (tabObjs s2 = tabObjs s ++ [remoteTabOf r]) as E7 by done.
    assert (aliasesOf s2 = aliasesOf s ++ [r.1]) as E8.
    { unfold s2. by rewrite aliasesOf_pushTab, Ha1. }
    assert (tabList s2 = tabList s ++ [length (tabObjs s)]) as E9.
    { unfold s2. rewrite tabList_pushTab by apply Hv1. by rewrite E2, E1. }
    rewrite E7, E8 in H1, H2. rewrite E9 in H2.
    rewrite length_app in H2. simpl in H1, H2. cbv zeta.
    split; [|split; [|split; [|split; [|split; [|split]]]]]; try done.
    + rewrite H1. by rewrite <- app_assoc.
    + rewrite H2, <- app_assoc. simpl. by rewrite Nat.add_1_r.
Qed.

Lemma newRemotes_elem seen rs r :
  r ∈ newRemotes seen rs -> r ∈ rs /\ r.1 ∉ seen.
Proof.
  revert seen. induction rs as [|r' rs IH]; intros seen; simpl; [by intros ?%elem_of_nil|].
  case_bool_decide as Hin.
  - intros [? ?]%IH. split; [by apply list_elem_of_further|done].
  - intros [->|[? Hn]%IH]%elem_of_cons.
    + split; [apply list_elem_of_here|done].
    + split; [by apply list_elem_of_further|]. intros ?. apply Hn, elem_of_app. by left.
Qed.

Lemma newRemotes_NoDup seen rs : NoDup (newRemotes seen rs).*1.
Proof.
  revert seen. induction rs as [|r rs IH]; intros seen; simpl; [constructor|].
  case_bool_decide as Hin; [apply IH|]. simpl. constructor; [|apply IH].
  intros (r' & Heq & [_ Hn]%newRemotes_elem)%list_elem_of_fmap.
  apply Hn, elem_of_app. right. rewrite Heq. apply list_elem_of_here.
Qed.

Lemma newRemotes_complete seen rs a :
  a ∈ rs.*1 -> a ∉ seen -> a ∈ (newRemotes seen rs).*1.
Proof.
  revert seen. induction rs as [|r rs IH]; intros seen; simpl; [by intros ?%elem_of_nil|].
  intros [->|Hin]%elem_of_cons Hn.
  - rewrite bool_decide_eq_false_2 by done. simpl. apply list_elem_of_here.
  - case_bool_decide as Hr; [by apply IH|]. simpl.
    destruct (decide (a = r.1)) as [->|Hne]; [apply list_elem_of_here|].
    apply list_elem_of_further, IH; [done|].
    rewrite elem_of_app, list_elem_of_singleton. tauto.
Qed.


Lemma lookup_seq_app {A} (xs ys : list A) :
  map (fun l => (xs ++ ys) !! l) (seq (length xs) (length ys)) = map Some ys.
Proof.
  revert xs. induction ys as [|y ys IH]; intros xs; simpl; [done|]. f_equal.
  - by rewrite list_lookup_middle.
  - specialize (IH (xs ++ [y])). rewrite length_app, Nat.add_1_r, <- app_assoc in IH. done.
Qed.

(** The stages of [refresh()] after the filter, in terms of the state [s1]
    the filter leaves. *)
Lemma refresh_stages remotes s :
  tabsInv false s ->
  let nA := remotes.*1 in
  let s1 := (filterTabs nA (tabList s) s).2 in
  let s' := refresh remotes s in
  let kept := List.filter (fun l => from_option (keeps nA) false (tabAt s l)) (tabList s) in
  let new := newRemotes (omap (fun l => tabAt s l ≫= alias) kept) remotes in
  netView s' = netView s1 /\
  tabObjs s' = tabObjs s1 ++ (remoteTabOf <$> new) /\
  tabList s' = kept ++ seq (length (tabObjs s1)) (length new) /\
  selectedIndex s' =
    (if (Z.of_nat (length (tabList s')) <=? selectedIndex s1)%Z
     then Z.max 0 (Z.of_nat (length (tabList s')) - 1) else selectedIndex s1).
Proof.
  intros Hinv nA s1 s' kept new.
  pose proof (refreshFiltered_tabList nA s (inv_ref _ _ Hinv)) as Hl2.
  pose proof (tabsInv_refreshFiltered false nA s Hinv) as Hinv2.
  pose proof (sameTabs_filterTabs nA (tabList s) s (inv_ref _ _ Hinv)) as Hsame.
  fold s1 in Hsame.
  assert (netView (refreshFiltered nA s) = netView s1 /\
          tabObjs (refreshFiltered nA s) = tabObjs s1 /\
          selectedIndex (refreshFiltered nA s) = selectedIndex s1) as (Hn2 & Ho2 & Hi2).
  { unfold refreshFiltered, s1. by destruct (filterTabs nA (tabList s) s). }
  assert (aliasesOf (refreshFiltered nA s) = omap (fun l => tabAt s l ≫= alias) kept) as Ha2.
  { unfold aliasesOf. rewrite Hl2. apply omap_ext_Forall, Forall_forall. intros l _.
    unfold tabAt at 1. rewrite Ho2. pose proof (same_static _ _ Hsame l) as Hst.
    unfold tabAt in *. destruct (tabObjs s1 !! l), (tabObjs s !! l); simpl in *; try done.
    by injection Hst as _ _ _ -> _ _. }
  destruct (addRemote_fold remotes _ (tabsInv_valid _ _ Hinv2)) as (H1 & H2 & H3 & H4 & H5 & H6 & H7).
  rewrite Ha2, Ho2, Hl2, Hn2, Hi2 in *. fold kept new in H1, H2.
  unfold s'. rewrite refresh_unfold. cbv zeta. fold nA.
  set (s3 := fold_left addRemote remotes (refreshFiltered nA s)) in *.
  set (s4 := if (Z.of_nat (length (tabList s3)) <=? selectedIndex s3)%Z then _ else s3).
  assert (netView s4 = netView s3 /\ tabObjs s4 = tabObjs s3 /\ tabList s4 = tabList s3 /\
          tabs s4 < length (arrays s4) /\
          selectedIndex s4 =
            (if (Z.of_nat (length (tabList s3)) <=? selectedIndex s3)%Z
             then Z.max 0 (Z.of_nat (length (tabList s3)) - 1) else selectedIndex s3))
    as (Hn4 & Ho4 & Hl4 & Hv4 & Hi4).
  { unfold s4. destruct H3 as [H3 _]. by case_match. }
  rewrite netView_notify, tabList_notify by done.
  assert (tabObjs (notifyStateChange s4) = tabObjs s4) as ->.
  { unfold notifyStateChange. by destruct (stateChangeHandler s4). }
  assert (selectedIndex (notifyStateChange s4) = selectedIndex s4) as ->.
  { unfold notifyStateChange. by destruct (stateChangeHandler s4). }
  rewrite Hn4, Ho4, Hl4, Hi4, H1, H2, H4, H5. done.
Qed.

Lemma refreshInv_refl s : tabsInv false s -> clientsInv s -> refreshInv s s.
Proof. intros H1 H2. split; [done|]. split; [done|]. apply sameTabs_refl, H1. Qed.

Lemma tabAt_app_l s s' l t ys :
  tabObjs s' = tabObjs s ++ ys -> tabAt s l = Some t -> tabAt s' l = Some t.
Proof. unfold tabAt. intros ->. apply lookup_app_l_Some. Qed.

Lemma selectedIndex_filterTabs nA ls s :
  selectedIndex (filterTabs nA ls s).2 = selectedIndex s.
Proof.
  apply (P_filterTabs (fun s' => selectedIndex s' = selectedIndex s)); try done.
  - unfold mgrView. by intros s1 s2 [= _ _ _ -> _ _ _ _ _].
  - intros a ev s1 <-. unfold handleClientEvent, updateTabStatus, notifyStateChange.
    by repeat case_match.
Qed.

Lemma tabsInv_strengthen s l0 :
  tabsInv false s -> head (tabList s) = Some l0 -> tabAt s l0 = Some createLocalTab ->
  tabsInv true s.
Proof.
  intros [H1 H2 H3 H4] Hh Ht. split; try done.
  - intros l Hl. rewrite Hh in Hl. injection Hl as <-. eauto.
  - intros _ Hn. by rewrite Hn in Hh.
Qed.


Lemma released_netView c s s' : netView s' = netView s -> released c s -> released c s'.
Proof. intros (Ho & _)%netView_fields (cl & Hc & Hs). exists cl. by rewrite Ho. Qed.

(** C10, amended: for every non-empty alias that is configured before and
    after [refresh()], the tab object of that alias is still in the list
    and unchanged in all its fields (host and port included, whatever the
    new configuration says), the alias has the same entry in [clients], and
    the client of that entry is unchanged. *)
Theorem C10_refresh_keeps_configured (es : list event)
    (remotes : list (string * RemoteServerConfig)) (l : nat) (t : InstanceTab) (a : string) :
  let s := run es init in
  let s' := refresh remotes s in
  l ∈ tabList s -> tabAt s l = Some t -> alias t = Some a -> a <> "" -> a ∈ remotes.*1 ->
  l ∈ tabList s' /\
  tabAt s' l = Some t /\
  clients_get a (clients s') = clients_get a (clients s) /\
  forall c, clients_get a (clients s) = Some c -> clientObjs s' !! c = clientObjs s !! c.
Proof.
  intros s s' Hin Ht Ha Hne Hcfg.
  pose proof (tabsInv_run false es init tabsInv_init) as Hinv. fold s in Hinv.
  pose proof (clientsInv_run es init clientsInv_init) as Hcl. fold s in Hcl.
  destruct (refresh_stages remotes s Hinv) as (Hn & Ho & Hl & _). fold s' in Hn, Ho, Hl.
  set (s1 := (filterTabs remotes.*1 (tabList s) s).2) in *.
  assert (keptIntact a l t s s) as H0 by done.
  pose proof (filterTabs_intact remotes.*1 (tabList s) a l t s s Hcfg Ha
                (refreshInv_refl s Hinv Hcl) H0) as (H1 & H2 & H3). fold s1 in H1, H2, H3.
  destruct (netView_fields _ _ Hn) as (Hco & _ & _ & _ & Hc).
  split; [|split; [|split]].
  - rewrite Hl, elem_of_app. left. apply list_elem_of_In, filter_In.
    split; [by apply list_elem_of_In|]. rewrite Ht. simpl. unfold keeps. rewrite Ha.
    rewrite (bool_decide_eq_false_2 (a = "")), (bool_decide_eq_true_2 (a ∈ remotes.*1)) by done.
    by rewrite orb_true_r.
  - by apply (tabAt_app_l s1 s' l t _ Ho).
  - by rewrite Hc.
  - intros c Hc0. rewrite Hco. by apply H3.
Qed.

Lemma C10_refresh_keeps_configured_witness :
  let s := run [OnStateChange; Initialize; InitializeLoaded oneRemote; SelectTab 1 None;
                WsOpen 0; WsMessage 0 (Some (mkMsg "auth_response" None true None))] init in
  let s' := refresh [("b", mkConfig "h2" 8081 "t2"); ("a", mkConfig "h9" 9090 "t9")] s in
  1 ∈ tabList s' /\
  tabAt s' 1 = Some (mkTab "remote-a" "a" false connected (Some "a") (Some "h1") (Some 8080%Z) None) /\
  clients_get "a" (clients s') = clients_get "a" (clients s) /\
  forall c, clients_get "a" (clients s) = Some c -> clientObjs s' !! c = clientObjs s !! c.
Proof.
  apply (C10_refresh_keeps_configured
           [OnStateChange; Initialize; InitializeLoaded oneRemote; SelectTab 1 None;
            WsOpen 0; WsMessage 0 (Some (mkMsg "auth_response" None true None))]
           [("b", mkConfig "h2" 8081 "t2"); ("a", mkConfig "h9" 9090 "t9")]
           1 (mkTab "remote-a" "a" false connected (Some "a") (Some "h1") (Some 8080%Z) None) "a").
  - vm_compute. apply list_elem_of_further, list_elem_of_here.
  - vm_compute. reflexivity.
  - reflexivity.
  - discriminate.
  - apply list_elem_of_further, list_elem_of_here.
Defined.

(** ** Notifications and delivered arrays *)

(** Preservation, by every transition, of a property of the arrays, of
    [this.tabs] and of the notifications that holds whatever the tab objects
    and the connection layer contain. *)
Section ArrayLayer.
Variable P : state -> Prop.
Hypothesis P_frame : forall s s',
  arrays s' = arrays s -> tabs s' = tabs s -> notified s' = notified s ->
  stateChangeHandler s' = stateChangeHandler s -> selectedIndex s' = selectedIndex s ->
  P s -> P s'.
Hypothesis P_index : forall i s, P s -> P (set_selectedIndex i s).
Hypothesis P_handler : forall s, P s -> P (set_stateChangeHandler true s).
Hypothesis P_notify : forall s, P s -> P (notifyStateChange s).
Hypothesis P_push : forall tab s, P s -> P (pushTab tab s).
Hypothesis P_fresh : forall ls s,
  P s -> P (set_tabs (length (arrays s)) (set_arrays (arrays s ++ [ls]) s)).

Lemma PA_mgrView s s' : mgrView s' = mgrView s -> P s -> P s'.
Proof. unfold mgrView. intros [= _ Ha Ht Hi Hh Hn _ _ _]. by apply P_frame. Qed.

Lemma PA_updateTabStatus tabId st e s : P s -> P (updateTabStatus tabId st e s).
Proof.
  intros H. unfold updateTabStatus. destruct (findTab _ s); [|done].
  apply P_notify. revert H. by apply P_frame.
Qed.

Lemma PA_handleClientEvent a ev s : P s -> P (handleClientEvent a ev s).
Proof.
  intros H. unfold handleClientEvent. repeat case_match; try done;
    by apply PA_updateTabStatus.
Qed.

Lemma PA_connectToRemote l ctor s : P s -> P (connectToRemote l ctor s).1.
Proof.
  intros H. unfold connectToRemote.
  destruct (tabAt s l) as [t|]; [|done].
  destruct (alias t) as [a|]; [|done]. destruct (host t) as [h|]; [|done].
  destruct (port t) as [p|]; [|done]. case_match; [done|].
  destruct (remoteConfigs s !! a) as [config|]; simpl; [|by apply PA_updateTabStatus].
  destruct (clients_get a (clients s)) as [c|]; simpl.
  - case_match; [done|].
    pose proof (P_connect _ PA_mgrView PA_handleClientEvent P_notify c ctor _
                  (PA_updateTabStatus (id t) connecting None _ H)) as H2.
    destruct (connect c ctor _) as [s3 pr].
    by apply (P_awaitConnect _ PA_mgrView P_notify).
  - match goal with |- context [updateTabStatus _ _ _ ?s1] =>
      assert (P s1) as H1 by (revert H; by apply P_frame) end.
    pose proof (P_connect _ PA_mgrView PA_handleClientEvent P_notify
                  (length (clientObjs s)) ctor _
                  (PA_updateTabStatus (id t) connecting None _ H1)) as H2.
    destruct (connect _ ctor _) as [s3 pr].
    by apply (P_awaitConnect _ PA_mgrView P_notify).
Qed.




Lemma PA_disconnectAll_last s :
  P s -> exists s3, disconnectAll s = notifyStateChange s3 /\ P s3.
Proof.
  intros H. unfold disconnectAll. eexists. split; [reflexivity|].
  apply fold_left_preserves.
  - intros s0 l H0. revert H0. by apply P_frame.
  - apply (P_frame (fold_left (fun s kv => disconnect kv.2 s) (clients s) s)); try done.
    apply fold_left_preserves; [|done].
    intros s0 kv. apply (P_disconnect _ PA_mgrView PA_handleClientEvent).
Qed.


End ArrayLayer.


Lemma notify_spec s :
  stateChangeHandler s = true -> tabs s < length (arrays s) ->
  let s' := notifyStateChange s in
  notified s' = notified s ++ [(length (arrays s), selectedIndex s')] /\
  arrays s' !! length (arrays s) = Some (tabList s') /\
  tabList s' = tabList s.
Proof.
  intros Hh Hv. pose proof (tabList_notify s Hv) as Hl. simpl. rewrite Hl.
  unfold notifyStateChange. rewrite Hh. simpl.
  by rewrite lookup_app_r, Nat.sub_diag by lia.
Qed.

Lemma notifying_last s0 s : notifying s0 s -> notifiedLast s0 (notifyStateChange s).
Proof.
  intros (Hh & Hv & mid & Hm). destruct (notify_spec s Hh Hv) as (Hn & Ha & _).
  exists mid, (length (arrays s)). split; [|done]. by rewrite Hn, Hm, <- app_assoc.
Qed.

Lemma notifying_once s0 s :
  notifying s0 s -> notified s = notified s0 -> notifiedOnce s0 (notifyStateChange s).
Proof.
  intros (Hh & Hv & _) Hm. destruct (notify_spec s Hh Hv) as (Hn & Ha & _).
  exists (length (arrays s)). split; [|done]. by rewrite Hn, Hm.
Qed.


Section Notifying.
Variable s0 : state.


Lemma notifying_notify s : notifying s0 s -> notifying s0 (notifyStateChange s).
Proof.
  intros (Hh & Hv & mid & Hm). destruct (notify_spec s Hh Hv) as (Hn & _ & _).
  unfold notifying. rewrite Hn, Hm, <- app_assoc.
  unfold notifyStateChange. rewrite Hh. simpl. rewrite length_app.
  split; [done|]. split; [lia|]. eauto.
Qed.


Lemma notifying_fresh ls s :
  notifying s0 s ->
  notifying s0 (set_tabs (length (arrays s)) (set_arrays (arrays s ++ [ls]) s)).
Proof.
  unfold notifying. simpl. rewrite length_app. simpl. intros (? & ? & ?).
  split; [done|]. split; [lia|done].
Qed.
End Notifying.









Lemma length_stopped o T : length (stopped o T) = length T.
Proof. destruct o; simpl; [apply length_alter|done]. Qed.

Lemma timerInv_keep C T c f :
  (forall cl, pingInterval (f cl) = pingInterval cl) ->
  (forall cl, _status (f cl) = connected -> _status cl = connected) ->
  timerInv C T -> timerInv (alter f c C) T.
Proof.
  intros Hp Hs [H1 H2 H3]. split.
  - intros c' cl' t. rewrite list_lookup_alter. case_decide as Hc.
    + subst c'. destruct (C !! c) as [cl|] eqn:Hcl; [|done]. intros [= <-]. rewrite Hp. eauto.
    + eauto.
  - intros t tm Ht Hcl. destruct (H2 t tm Ht Hcl) as (cl & Hc & Hpi).
    destruct (decide (c = callback tm)) as [Hcc|Hcc].
    + exists (f cl). rewrite <- Hcc, list_lookup_alter_eq. rewrite <- Hcc in Hc. rewrite Hc.
      split; [done|]. by rewrite Hp.
    + exists cl. by rewrite list_lookup_alter_ne.
  - intros c' cl'. rewrite list_lookup_alter. case_decide as Hc.
    + subst c'. destruct (C !! c) as [cl|] eqn:Hcl; [|done]. intros [= <-] Hst.
      rewrite Hp. eauto.
    + eauto.
Qed.

Lemma timerInv_release C T c cl f :
  C !! c = Some cl -> pingInterval (f cl) = None -> _status (f cl) <> connected ->
  timerInv C T -> timerInv (alter f c C) (stopped (pingInterval cl) T).
Proof.
  intros Hc Hp Hs [H1 H2 H3]. split.
  - intros c' cl' t. rewrite list_lookup_alter. case_decide as Hcc.
    + subst c'. rewrite Hc. intros [= <-]. by rewrite Hp.
    + intros Hc' Hp'. pose proof (H1 c' cl' t Hc' Hp') as Ht.
      destruct (pingInterval cl) as [t0|] eqn:Hp0; simpl; [|done].
      rewrite list_lookup_alter_ne; [done|]. intros ->.
      pose proof (H1 c cl t Hc Hp0). congruence.
  - intros t tm Ht Hcl.
    assert (T !! t = Some tm /\ pingInterval cl <> Some t) as [Ht' Hne].
    { destruct (pingInterval cl) as [t0|] eqn:Hp0; simpl in Ht; [|done].
      rewrite list_lookup_alter in Ht. case_decide as Ht0.
      - subst t0. destruct (T !! t); simpl in Ht; [|done]. injection Ht as <-. done.
      - split; [done|]. congruence. }
    destruct (H2 t tm Ht' Hcl) as (cl' & Hc' & Hp').
    destruct (decide (c = callback tm)) as [Hcc|Hcc].
    + rewrite <- Hcc, Hc in Hc'. injection Hc' as <-. done.
    + exists cl'. by rewrite list_lookup_alter_ne.
  - intros c' cl'. rewrite list_lookup_alter. case_decide as Hcc.
    + subst c'. rewrite Hc. intros [= <-] Hst. done.
    + eauto.
Qed.

Lemma timerInv_start C T c cl f :
  C !! c = Some cl -> pingInterval (f cl) = Some (length T) ->
  timerInv C T ->
  timerInv (alter f c C) (stopped (pingInterval cl) T ++ [mkTimer c 30000 false]).
Proof.
  intros Hc Hp [H1 H2 H3].
  pose proof (timerInv_release C T c cl (with_status disconnected ∘ with_pingInterval None) Hc
                eq_refl) as [R1 R2 R3]; [done|done|].
  pose proof (length_stopped (pingInterval cl) T) as Hlen.
  split.
  - intros c' cl' t. rewrite list_lookup_alter. case_decide as Hcc.
    + subst c'. rewrite Hc. intros [= <-]. rewrite Hp. intros [= <-].
      by rewrite lookup_app_r, Hlen, Nat.sub_diag by lia.
    + intros Hc' Hp'. apply lookup_app_l_Some. apply (R1 c' cl' t); [|done].
      by rewrite list_lookup_alter_ne.
  - intros t tm. rewrite lookup_app. destruct (stopped _ T !! t) as [tm'|] eqn:Ht.
    + intros [= <-] Hcl. destruct (R2 t tm' Ht Hcl) as (cl' & Hc' & Hp').
      destruct (decide (c = callback tm')) as [Hcc|Hcc].
      * rewrite <- Hcc, list_lookup_alter_eq, Hc in Hc'. by injection Hc' as <-.
      * rewrite list_lookup_alter_ne in Hc' by done.
        exists cl'. by rewrite list_lookup_alter_ne.
    + apply lookup_ge_None in Ht. rewrite Hlen in *.
      destruct (t - length T) as [|n] eqn:Hn; simpl; [|by rewrite lookup_nil].
      intros [= <-] _. simpl. rewrite list_lookup_alter_eq, Hc. simpl.
      eexists. split; [done|]. rewrite Hp. f_equal. lia.
  - intros c' cl'. rewrite list_lookup_alter. case_decide as Hcc.
    + subst c'. rewrite Hc. intros [= <-] _. rewrite Hp. eauto.
    + eauto.
Qed.

Lemma timerInv_newClient C T cl :
  pingInterval cl = None -> _status cl <> connected ->
  timerInv C T -> timerInv (C ++ [cl]) T.
Proof.
  intros Hp Hs [H1 H2 H3].
  assert (forall c cl', (C ++ [cl]) !! c = Some cl' -> C !! c = Some cl' \/ cl' = cl) as Hl.
  { intros c cl'. rewrite lookup_app. destruct (C !! c); [by left|].
    destruct (c - length C); simpl; [|by rewrite lookup_nil]. intros [= <-]. by right. }
  split.
  - intros c cl' t Hc. apply Hl in Hc as [Hc|Hc]; [eauto|]. subst cl'. congruence.
  - intros t tm Ht Hcl. destruct (H2 t tm Ht Hcl) as (cl' & Hc & Hpi).
    exists cl'. split; [by apply lookup_app_l_Some|done].
  - intros c cl' Hc. apply Hl in Hc as [Hc|Hc]; [eauto|]. by subst cl'.
Qed.

Lemma attached_inj k c c' : attached k c -> attached k c' -> c = c'.
Proof. intros [H _] [H' _]. congruence. Qed.

Lemma attached_detached k c : attached k c -> detached k -> False.
Proof. intros [H _] [H' _]. congruence. Qed.

Lemma attached_ext k k' c :
  onopen k' = onopen k -> onmessage k' = onmessage k -> onerror k' = onerror k ->
  onclose k' = onclose k -> attached k' c <-> attached k c.
Proof. unfold attached. by intros -> -> -> ->. Qed.

Lemma detached_ext k k' :
  onopen k' = onopen k -> onmessage k' = onmessage k -> onerror k' = onerror k ->
  onclose k' = onclose k -> detached k' <-> detached k.
Proof. unfold detached. by intros -> -> -> ->. Qed.

Lemma lookup_alter_Some {A} (f : A -> A) i j (l : list A) y :
  alter f i l !! j = Some y ->
  (j = i /\ exists x, l !! i = Some x /\ y = f x) \/ (i <> j /\ l !! j = Some y).
Proof.
  rewrite list_lookup_alter. case_decide as H; [|by right]. subst.
  destruct (l !! j) as [x|]; simpl; [|done]. intros [= <-]. left. eauto.
Qed.

Lemma is_Some_alter {A} (f : A -> A) i j (l : list A) :
  is_Some (l !! j) -> is_Some (alter f i l !! j).
Proof. rewrite !lookup_lt_is_Some, length_alter. done. Qed.

(** A change of a client that leaves its socket and status. *)
Lemma sockInv_keep C K c cl f :
  C !! c = Some cl -> ws (f cl) = ws cl -> _status (f cl) = _status cl ->
  sockInv C K -> sockInv (alter f c C) K.
Proof.
  intros Hc Hw Hs [H0 H1 H2 H3 H4]. split.
  - intros w k Hk. destruct (H0 w k Hk) as [?|(c' & ? & ? & ?)]; [by left|].
    right. exists c'. split; [done|]. split; [done|]. by apply is_Some_alter.
  - intros w k c' cl' Hk Ha Hl [[-> (x & Hx & ->)]|[_ Hc']]%lookup_alter_Some.
    + rewrite Hc in Hx. injection Hx as <-. rewrite Hw, Hs. eauto.
    + eauto.
  - intros c' cl' w [[-> (x & Hx & ->)]|[_ Hc']]%lookup_alter_Some.
    + rewrite Hc in Hx. injection Hx as <-. rewrite Hw. eauto.
    + eauto.
  - intros c' cl' [[-> (x & Hx & ->)]|[_ Hc']]%lookup_alter_Some.
    + rewrite Hc in Hx. injection Hx as <-. rewrite Hw, Hs. eauto.
    + eauto.
  - done.
Qed.

Lemma closedBy_lookup o K w k :
  closedBy o K !! w = Some k ->
  (o = Some w /\ exists k0, K !! w = Some k0 /\ k = ws_close (detach k0)) \/
  (o <> Some w /\ K !! w = Some k).
Proof.
  destruct o as [w0|]; simpl; [|by right].
  intros [[-> ?]|[? ?]]%lookup_alter_Some; [by left|]. right. split; [congruence|done].
Qed.

Lemma closedBy_other o K w k : o <> Some w -> K !! w = Some k -> closedBy o K !! w = Some k.
Proof.
  destruct o as [w0|]; simpl; [|done]. intros Hne Hk.
  rewrite list_lookup_alter_ne; [done|]. congruence.
Qed.

Lemma closed_detached_state k :
  detached (ws_close (detach k)) /\ readyState (ws_close (detach k)) <> CONNECTING /\
  readyState (ws_close (detach k)) <> OPEN.
Proof. split; [done|]. unfold ws_close, detach. simpl. by destruct (readyState k). Qed.

(** [cleanup], together with a status that is not [connected]. *)
Lemma sockInv_release C K c cl f :
  C !! c = Some cl -> ws (f cl) = None -> _status (f cl) <> connected ->
  sockInv C K -> sockInv (alter f c C) (closedBy (ws cl) K).
Proof.
  intros Hc Hw Hs [H0 H1 H2 H3 H4]. split.
  - intros w k [[_ (k0 & _ & ->)]|[_ Hk]]%closedBy_lookup; [left; apply closed_detached_state|].
    destruct (H0 w k Hk) as [?|(c' & ? & ? & ?)]; [by left|].
    right. exists c'. split; [done|]. split; [done|]. by apply is_Some_alter.
  - intros w k c' cl' [[_ (k0 & _ & ->)]|[Hne Hk]]%closedBy_lookup Ha Hl.
    { destruct (attached_detached _ _ Ha). apply closed_detached_state. }
    intros [[-> (x & Hx & ->)]|[_ Hc']]%lookup_alter_Some.
    + rewrite Hc in Hx. injection Hx as <-. destruct (H1 w k c cl Hk Ha Hl Hc) as [? _]. done.
    + eauto.
  - intros c' cl' w [[-> (x & Hx & ->)]|[Hcc Hc']]%lookup_alter_Some Hw'; [congruence|].
    destruct (H2 c' cl' w Hc' Hw') as (k & Hk & Ha). exists k. split; [|done].
    apply closedBy_other; [|done]. intros Heq.
    destruct (H2 c cl w Hc Heq) as (k' & Hk' & Ha'). rewrite Hk in Hk'. injection Hk' as <-.
    by destruct Hcc; apply (attached_inj k).
  - intros c' cl' [[-> (x & Hx & ->)]|[Hcc Hc']]%lookup_alter_Some Hst;
      [rewrite Hc in Hx; by injection Hx as <-|].
    destruct (H3 c' cl' Hc' Hst) as (w & k & Hw' & Hk & Hr). exists w, k.
    split; [done|]. split; [|done]. apply closedBy_other; [|done]. intros Heq.
    destruct (H2 c cl w Hc Heq) as (k1 & Hk1 & Ha1).
    destruct (H2 c' cl' w Hc' Hw') as (k2 & Hk2 & Ha2).
    rewrite Hk1 in Hk2. injection Hk2 as <-. by destruct Hcc; apply (attached_inj k1).
  - intros w k [[_ (k0 & _ & ->)]|[_ Hk]]%closedBy_lookup; [|by apply (H4 w)].
    destruct (closed_detached_state k0) as (Hd & ? & ?). split; [done|].
    intros c' Ha. destruct (attached_detached _ _ Ha Hd).
Qed.

(** Authentication succeeded on the open socket [w] attached to [c]. *)
Lemma sockInv_connected C K c cl f w k :
  C !! c = Some cl -> K !! w = Some k -> attached k c -> readyState k = OPEN ->
  ws (f cl) = ws cl -> _status (f cl) = connected ->
  sockInv C K -> sockInv (alter f c C) K.
Proof.
  intros Hc Hk Ha Hr Hw Hs [H0 H1 H2 H3 H4].
  destruct (H1 w k c cl Hk Ha (or_intror Hr) Hc) as [Hws _]. split.
  - intros w' k' Hk'. destruct (H0 w' k' Hk') as [?|(c' & ? & ? & ?)]; [by left|].
    right. exists c'. split; [done|]. split; [done|]. by apply is_Some_alter.
  - intros w' k' c' cl' Hk' Ha' Hl [[-> (x & Hx & ->)]|[_ Hc']]%lookup_alter_Some.
    + rewrite Hc in Hx. injection Hx as <-. rewrite Hw, Hs.
      destruct (H1 w' k' c cl Hk' Ha' Hl Hc) as [? _]. done.
    + eauto.
  - intros c' cl' w' [[-> (x & Hx & ->)]|[_ Hc']]%lookup_alter_Some.
    + rewrite Hc in Hx. injection Hx as <-. rewrite Hw. eauto.
    + eauto.
  - intros c' cl' [[-> (x & Hx & ->)]|[_ Hc']]%lookup_alter_Some.
    + rewrite Hc in Hx. injection Hx as <-. rewrite Hw. intros _. eauto.
    + eauto.
  - done.
Qed.

(** A change of a socket that leaves its callbacks, state and [auth]
    messages. *)
Lemma sockInv_socket_keep C K w g :
  (forall k, onopen (g k) = onopen k /\ onmessage (g k) = onmessage k /\
             onerror (g k) = onerror k /\ onclose (g k) = onclose k /\
             readyState (g k) = readyState k /\ authsSent (g k) = authsSent k) ->
  sockInv C K -> sockInv C (alter g w K).
Proof.
  intros Hg [H0 H1 H2 H3 H4].
  assert (forall w' k', alter g w K !! w' = Some k' ->
            exists k, K !! w' = Some k /\
              (forall c, attached k' c <-> attached k c) /\
              (detached k' <-> detached k) /\
              readyState k' = readyState k /\ authsSent k' = authsSent k) as Hl.
  { intros w' k' [[-> (k & Hk & ->)]|[_ Hk]]%lookup_alter_Some.
    - exists k. destruct (Hg k) as (? & ? & ? & ? & ? & ?). split; [done|].
      split; [intros c; by apply attached_ext|]. split; [by apply detached_ext|done].
    - exists k'. done. }
  assert (forall w' k, K !! w' = Some k ->
            exists k', alter g w K !! w' = Some k' /\
              (forall c, attached k' c <-> attached k c) /\
              readyState k' = readyState k) as Hr.
  { intros w' k Hk. destruct (decide (w = w')) as [->|Hne].
    - exists (g k). rewrite list_lookup_alter_eq, Hk. destruct (Hg k) as (? & ? & ? & ? & ? & ?).
      split; [done|]. split; [intros c; by apply attached_ext|done].
    - exists k. by rewrite list_lookup_alter_ne. }
  split.
  - intros w' k' (k & Hk & Ha & Hd & Hrs & _)%Hl.
    destruct (H0 w' k Hk) as [?|(c & ? & ? & ?)]; [left; by apply Hd|].
    right. exists c. rewrite Ha, Hrs. done.
  - intros w' k' c cl (k & Hk & Ha & _ & Hrs & _)%Hl Hat Hlv Hc.
    apply (H1 w' k c cl); try done; [by apply Ha|]. unfold live in *. by rewrite <- Hrs.
  - intros c cl w' Hc Hw. destruct (H2 c cl w' Hc Hw) as (k & Hk & Ha).
    destruct (Hr w' k Hk) as (k' & Hk' & Ha' & _). exists k'. split; [done|]. by apply Ha'.
  - intros c cl Hc Hs. destruct (H3 c cl Hc Hs) as (w' & k & Hw & Hk & Hrs).
    destruct (Hr w' k Hk) as (k' & Hk' & _ & Hrs'). exists w', k'. rewrite Hrs'. done.
  - intros w' k' (k & Hk & Ha & _ & Hrs & Hau)%Hl. rewrite Hrs, Hau.
    destruct (H4 w' k Hk) as [Ha1 Ha2]. split; [done|]. intros c Hc. apply (Ha2 c). by apply Ha.
Qed.

(** The transport error of socket [w]: the platform closes the socket, and
    [on_error], if it is attached, makes its client [disconnected]. *)
Lemma sockInv_error C K w k f :
  K !! w = Some k -> readyState k <> CLOSED ->
  (forall cl, ws (f cl) = ws cl /\ _status (f cl) = disconnected) ->
  sockInv C K ->
  sockInv (match onerror k with Some (c, _) => alter f c C | None => C end)
    (alter (setReadyState CLOSED) w K).
Proof.
  intros Hk Hr Hf [H0 H1 H2 H3 H4].
  assert (forall w' k', alter (setReadyState CLOSED) w K !! w' = Some k' ->
            (w' = w /\ k' = setReadyState CLOSED k) \/ (w' <> w /\ K !! w' = Some k')) as Hl.
  { intros w' k' [[-> (k0 & Hk0 & ->)]|[Hne Hk']]%lookup_alter_Some.
    - left. rewrite Hk in Hk0. by injection Hk0 as <-.
    - right. split; [congruence|done]. }
  assert (forall c, attached (setReadyState CLOSED k) c <-> attached k c) as Hat by done.
  destruct (H0 w k Hk) as [Hd|(c & Ha & Hnc & [cl Hc])].
  - (* detached: no client changes *)
    assert (onerror k = None) as -> by apply Hd.
    assert (forall c cl, C !! c = Some cl -> ws cl <> Some w) as Hfree.
    { intros c cl Hc Hw. destruct (H2 c cl w Hc Hw) as (k' & Hk' & Ha).
      rewrite Hk in Hk'. injection Hk' as <-. by destruct (attached_detached k c). }
    split.
    + intros w' k' [[-> ->]|[_ Hk']]%Hl; [by left|eauto].
    + intros w' k' c cl [[-> ->]|[_ Hk']]%Hl Ha;
        [by destruct (attached_detached k c)|eauto].
    + intros c cl w' Hc Hw. destruct (H2 c cl w' Hc Hw) as (k' & Hk' & Ha).
      exists k'. split; [|done]. rewrite list_lookup_alter_ne; [done|].
      intros ->. by apply (Hfree c cl).
    + intros c cl Hc Hs. destruct (H3 c cl Hc Hs) as (w' & k' & Hw & Hk' & Hrs).
      exists w', k'. split; [done|]. split; [|done]. rewrite list_lookup_alter_ne; [done|].
      intros ->. by apply (Hfree c cl).
    + intros w' k' [[-> ->]|[_ Hk']]%Hl; [|eauto]. split; [done|]. intros c _. done.
  - (* attached to [c] *)
    assert (onerror k = Some (c, (default (c, 0) (onerror k)).2)) as Hoe.
    { destruct Ha as (_ & _ & p & _ & ->). done. }
    rewrite Hoe.
    assert (live k) as Hlv.
    { unfold live. destruct (readyState k); [by left|by right|done|done]. }
    destruct (H1 w k c cl Hk Ha Hlv Hc) as [Hws _].
    destruct (Hf cl) as [Hfw Hfs].
    split.
    + intros w' k' [[-> ->]|[_ Hk']]%Hl.
      * right. exists c. split; [done|]. split; [done|]. apply is_Some_alter. eauto.
      * destruct (H0 w' k' Hk') as [?|(c' & ? & ? & ?)]; [by left|].
        right. exists c'. split; [done|]. split; [done|]. by apply is_Some_alter.
    + intros w' k' c' cl' [[-> ->]|[Hne Hk']]%Hl Ha' Hl';
        [destruct Hl' as [?|?]; done|].
      intros [[-> (x & Hx & ->)]|[_ Hc']]%lookup_alter_Some; [|eauto].
      rewrite Hc in Hx. injection Hx as <-.
      destruct (H1 w' k' c cl Hk' Ha' Hl' Hc) as [Hws' _]. congruence.
    + intros c' cl' w'. intros Hc' Hw'.
      assert (exists cl0, C !! c' = Some cl0 /\ ws cl0 = Some w') as (cl0 & Hc0 & Hw0).
      { apply lookup_alter_Some in Hc' as [[-> (x & Hx & ->)]|[_ Hc']]; [|eauto].
        exists x. split; [done|]. destruct (Hf x) as [<- _]. done. }
      destruct (H2 c' cl0 w' Hc0 Hw0) as (k' & Hk' & Ha').
      destruct (decide (w' = w)) as [->|Hne].
      * exists (setReadyState CLOSED k). rewrite list_lookup_alter_eq, Hk. split; [done|].
        rewrite Hk in Hk'. by injection Hk' as <-.
      * exists k'. by rewrite list_lookup_alter_ne.
    + intros c' cl' [[-> (x & Hx & ->)]|[Hcc Hc']]%lookup_alter_Some Hs.
      { destruct (Hf x) as [_ Hfx]. congruence. }
      destruct (H3 c' cl' Hc' Hs) as (w' & k' & Hw' & Hk' & Hrs).
      exists w', k'. split; [done|]. split; [|done]. rewrite list_lookup_alter_ne; [done|].
      intros ->. rewrite Hk in Hk'. injection Hk' as <-.
      destruct (H2 c' cl' w' Hc' Hw') as (k2 & Hk2 & Ha2). rewrite Hk in Hk2.
      injection Hk2 as <-. by destruct Hcc; apply (attached_inj k).
    + intros w' k' [[-> ->]|[_ Hk']]%Hl; [|eauto]. split; [done|]. intros c' _. done.
Qed.

(** The platform marks a socket closed that no client holds. *)
Lemma sockInv_closed C K w :
  (forall c cl, C !! c = Some cl -> ws cl <> Some w) ->
  sockInv C K -> sockInv C (alter setCloseFired w K).
Proof.
  intros Hfree [H0 H1 H2 H3 H4].
  assert (forall w' k', alter setCloseFired w K !! w' = Some k' ->
            (w' = w /\ exists k, K !! w = Some k /\ k' = setCloseFired k) \/
            (w' <> w /\ K !! w' = Some k')) as Hl.
  { intros w' k' [[-> ?]|[Hne Hk']]%lookup_alter_Some; [by left|].
    right. split; [congruence|done]. }
  split.
  - intros w' k' [[-> (k & Hk & ->)]|[_ Hk']]%Hl; [|eauto].
    destruct (H0 w k Hk) as [?|(c & ? & ? & ?)]; [by left|]. right. exists c. done.
  - intros w' k' c cl [[-> (k & Hk & ->)]|[_ Hk']]%Hl Ha Hlv; [|eauto].
    destruct Hlv as [?|?]; done.
  - intros c cl w' Hc Hw. destruct (H2 c cl w' Hc Hw) as (k' & Hk' & Ha).
    exists k'. split; [|done]. rewrite list_lookup_alter_ne; [done|].
    intros ->. by apply (Hfree c cl).
  - intros c cl Hc Hs. destruct (H3 c cl Hc Hs) as (w' & k' & Hw & Hk' & Hrs).
    exists w', k'. split; [done|]. split; [|done]. rewrite list_lookup_alter_ne; [done|].
    intros ->. by apply (Hfree c cl).
  - intros w' k' [[-> (k & Hk & ->)]|[_ Hk']]%Hl; [|eauto]. split; [done|]. intros c _. done.
Qed.

(** A connecting socket opens; if it is attached, [authenticate] sends one
    [auth] on it. *)
Lemma sockInv_open C K w k g :
  K !! w = Some k -> readyState k = CONNECTING ->
  (onopen (g k) = onopen k /\ onmessage (g k) = onmessage k /\
   onerror (g k) = onerror k /\ onclose (g k) = onclose k /\
   readyState (g k) = OPEN /\
   (is_Some (onopen k) -> length (authsSent (g k)) = S (length (authsSent k)))) ->
  sockInv C K -> sockInv C (alter g w K).
Proof.
  intros Hk Hr (G1 & G2 & G3 & G4 & G5 & G6) [H0 H1 H2 H3 H4].
  assert (forall c, attached (g k) c <-> attached k c) as Hat by (intros c; by apply attached_ext).
  assert (forall w' k', alter g w K !! w' = Some k' ->
            (w' = w /\ k' = g k) \/ (w' <> w /\ K !! w' = Some k')) as Hl.
  { intros w' k' [[-> (k0 & Hk0 & ->)]|[Hne Hk']]%lookup_alter_Some.
    - left. rewrite Hk in Hk0. by injection Hk0 as <-.
    - right. split; [congruence|done]. }
  assert (forall w' k', K !! w' = Some k' ->
            exists k'', alter g w K !! w' = Some k'' /\
              (forall c, attached k'' c <-> attached k' c) /\
              (readyState k' = OPEN -> readyState k'' = OPEN)) as Hrl.
  { intros w' k' Hk'. destruct (decide (w = w')) as [<-|Hne].
    - exists (g k). rewrite list_lookup_alter_eq, Hk. rewrite Hk in Hk'. injection Hk' as <-.
      done.
    - exists k'. by rewrite list_lookup_alter_ne. }
  split.
  - intros w' k' [[-> ->]|[_ Hk']]%Hl; [|eauto].
    destruct (H0 w k Hk) as [?|(c & ? & ? & ?)]; [left; by apply (detached_ext k)|].
    right. exists c. rewrite Hat, G5. done.
  - intros w' k' c cl [[-> ->]|[_ Hk']]%Hl Ha Hlv Hc; [|eauto].
    apply (H1 w k c cl); try done; [by apply Hat|by left].
  - intros c cl w' Hc Hw. destruct (H2 c cl w' Hc Hw) as (k' & Hk' & Ha).
    destruct (Hrl w' k' Hk') as (k'' & Hk'' & Ha'' & _). exists k''. split; [done|].
    by apply Ha''.
  - intros c cl Hc Hs. destruct (H3 c cl Hc Hs) as (w' & k' & Hw & Hk' & Hrs).
    destruct (Hrl w' k' Hk') as (k'' & Hk'' & _ & Ho). exists w', k''. eauto.
  - intros w' k' [[-> ->]|[_ Hk']]%Hl; [|eauto]. rewrite G5. split; [done|].
    intros c Ha _. destruct (H4 w k Hk) as [Hnil _]. rewrite G6, (Hnil Hr); [done|].
    apply Hat in Ha as [-> _]. eauto.
Qed.

(** [connect()] on a disconnected client makes a socket and holds it. *)
Lemma sockInv_connectNew C K c cl f u p :
  C !! c = Some cl -> _status cl = disconnected ->
  ws (f cl) = Some (length K) -> _status (f cl) = connecting ->
  sockInv C K ->
  sockInv (alter f c C)
    (K ++ [mkSocket u (Some c) (Some (c, p)) (Some (c, p)) (Some c) CONNECTING false []]).
Proof.
  intros Hc Hs Hw Hst [H0 H1 H2 H3 H4].
  set (kn := mkSocket u (Some c) (Some (c, p)) (Some (c, p)) (Some c) CONNECTING false []).
  assert (forall w k, (K ++ [kn]) !! w = Some k ->
            (K !! w = Some k) \/ (w = length K /\ k = kn)) as Hl.
  { intros w k. rewrite lookup_app. destruct (K !! w) eqn:Hk; [by left|].
    apply lookup_ge_None in Hk. destruct (w - length K) as [|n] eqn:Hn; simpl;
      [|by rewrite lookup_nil]. intros [= <-]. right. split; [lia|done]. }
  assert (attached kn c) as Hakn by (repeat split; eauto).
  split.
  - intros w k [Hk|[-> ->]]%Hl.
    + destruct (H0 w k Hk) as [?|(c' & ? & ? & ?)]; [by left|].
      right. exists c'. split; [done|]. split; [done|]. by apply is_Some_alter.
    + right. exists c. split; [done|]. split; [done|]. apply is_Some_alter. eauto.
  - intros w k c' cl' [Hk|[-> ->]]%Hl Ha Hlv.
    + intros [[-> (x & Hx & ->)]|[_ Hc']]%lookup_alter_Some; [|eauto].
      rewrite Hc in Hx. injection Hx as <-.
      destruct (H1 w k c cl Hk Ha Hlv Hc) as [_ ?]. done.
    + rewrite <- (attached_inj kn c c' Hakn Ha). rewrite list_lookup_alter_eq, Hc.
      intros [= <-]. rewrite Hw, Hst. done.
  - intros c' cl' w [[-> (x & Hx & ->)]|[_ Hc']]%lookup_alter_Some Hw'.
    + rewrite Hc in Hx. injection Hx as <-. rewrite Hw in Hw'. injection Hw' as <-.
      exists kn. split; [|done]. by rewrite lookup_app_r, Nat.sub_diag by lia.
    + destruct (H2 c' cl' w Hc' Hw') as (k & Hk & Ha). exists k.
      split; [by apply lookup_app_l_Some|done].
  - intros c' cl' [[-> (x & Hx & ->)]|[_ Hc']]%lookup_alter_Some Hs'.
    + rewrite Hc in Hx. injection Hx as <-. congruence.
    + destruct (H3 c' cl' Hc' Hs') as (w & k & Hw' & Hk & Hrs). exists w, k.
      split; [done|]. split; [by apply lookup_app_l_Some|done].
  - intros w k [Hk|[-> ->]]%Hl; [eauto|]. split; [done|]. intros c' _. done.
Qed.

Lemma sockInv_newClient C K cl :
  ws cl = None -> _status cl = disconnected -> sockInv C K -> sockInv (C ++ [cl]) K.
Proof.
  intros Hw Hs [H0 H1 H2 H3 H4].
  assert (forall c cl', (C ++ [cl]) !! c = Some cl' ->
            C !! c = Some cl' \/ (c = length C /\ cl' = cl)) as Hl.
  { intros c cl'. rewrite lookup_app. destruct (C !! c) eqn:Hc; [by left|].
    apply lookup_ge_None in Hc.
    destruct (c - length C) eqn:Hn; simpl; [|by rewrite lookup_nil].
    intros [= <-]. right. split; [lia|done]. }
  split.
  - intros w k Hk. destruct (H0 w k Hk) as [?|(c & ? & ? & [cl' Hc])]; [by left|].
    right. exists c. split; [done|]. split; [done|]. exists cl'. by apply lookup_app_l_Some.
  - intros w k c cl' Hk Ha Hlv Hc. apply Hl in Hc as [Hc|[-> ->]]; [eauto|].
    destruct (H0 w k Hk) as [Hd|(c' & Ha' & _ & [cl' Hc'])];
      [by destruct (attached_detached k (length C))|].
    rewrite <- (attached_inj k _ _ Ha Ha') in Hc'. apply lookup_lt_Some in Hc'. lia.
  - intros c cl' w Hc Hw'. apply Hl in Hc as [Hc|[-> ->]]; [eauto|]. congruence.
  - intros c cl' Hc Hs'. apply Hl in Hc as [Hc|[-> ->]]; [eauto|]. congruence.
  - done.
Qed.

Lemma netInv_net s s' : net s' = net s -> netInv s -> netInv s'.
Proof. unfold net, netInv. by intros [= -> -> ->]. Qed.

Lemma net_netView s s' : netView s' = netView s -> net s' = net s.
Proof. unfold net. by intros (-> & -> & -> & _)%netView_fields. Qed.

Lemma net_callEventHandler c ev s : net (callEventHandler c ev s) = net s.
Proof. apply net_netView, netView_callEventHandler. Qed.

Lemma net_notify s : net (notifyStateChange s) = net s.
Proof. apply net_netView, netView_notify. Qed.

Lemma net_updateTabStatus tabId st e s : net (updateTabStatus tabId st e s) = net s.
Proof. apply net_netView, netView_updateTabStatus. Qed.

Lemma net_resolveConnect p s : net (resolveConnect p s) = net s.
Proof. unfold resolveConnect. by repeat case_match. Qed.

Lemma net_rejectConnect p r s : net (rejectConnect p r s) = net s.
Proof.
  unfold rejectConnect, resumeSelectTab. repeat case_match; try done. by rewrite net_notify.
Qed.

Lemma net_awaitConnect a p s : net (awaitConnect a p s) = net s.
Proof.
  unfold awaitConnect, resumeSelectTab. repeat case_match; try done. by rewrite net_notify.
Qed.

Lemma net_fields {s C K T} :
  net s = (C, K, T) -> clientObjs s = C /\ sockets s = K /\ timers s = T.
Proof. unfold net. by intros [= -> -> ->]. Qed.

Lemma alter_id_at {A} (f : A -> A) i (l : list A) x :
  l !! i = Some x -> f x = x -> alter f i l = l.
Proof.
  intros Hl Hf. apply list_eq. intros j. rewrite list_lookup_alter. case_decide; [|done].
  subst. by rewrite Hl; simpl; rewrite Hf.
Qed.

(** The stores after the methods of [RemoteClient]. *)
Lemma stopPingInterval_stores c s cl :
  clientObjs s !! c = Some cl ->
  net (stopPingInterval c s) =
    (alter (with_pingInterval None) c (clientObjs s), sockets s,
     stopped (pingInterval cl) (timers s)).
Proof.
  intros Hc. unfold stopPingInterval. rewrite Hc.
  destruct (pingInterval cl) as [t|] eqn:Hp; [done|]. unfold net. simpl.
  rewrite (alter_id_at _ c _ cl); [done|done|]. destruct cl. simpl in *. by subst.
Qed.

Lemma cleanup_stores c s cl :
  clientObjs s !! c = Some cl ->
  net (cleanup c s) =
    (alter (with_ws None ∘ with_pingInterval None) c (clientObjs s),
     closedBy (ws cl) (sockets s), stopped (pingInterval cl) (timers s)).
Proof.
  intros Hc. unfold cleanup.
  destruct (net_fields (stopPingInterval_stores c s cl Hc)) as (Ho & Hk & Ht).
  rewrite Ho, list_lookup_alter_eq, Hc. simpl.
  unfold net. destruct (ws cl) as [w|] eqn:Hw; simpl.
  - by rewrite Ho, Hk, Ht, list_alter_alter_eq.
  - rewrite Ho, Hk, Ht. rewrite <- list_alter_alter_eq.
    rewrite (alter_id_at (with_ws None) c _ (with_pingInterval None cl)); [done| |].
    + by rewrite list_lookup_alter_eq, Hc.
    + destruct cl. simpl in *. by subst.
Qed.

Lemma disconnect_stores c s cl :
  clientObjs s !! c = Some cl ->
  net (disconnect c s) =
    (alter (with_status disconnected ∘ with_ws None ∘ with_pingInterval None) c (clientObjs s),
     closedBy (ws cl) (sockets s), stopped (pingInterval cl) (timers s)).
Proof.
  intros Hc. unfold disconnect. rewrite net_callEventHandler.
  destruct (net_fields (cleanup_stores c s cl Hc)) as (Ho & Hk & Ht).
  unfold net, updClient. simpl. rewrite Ho, Hk, Ht, list_alter_alter_eq. reflexivity.
Qed.

Lemma disconnect_invalid c s : clientObjs s !! c = None -> net (disconnect c s) = net s.
Proof.
  intros Hc. unfold disconnect. rewrite net_callEventHandler.
  assert (cleanup c s = s) as ->.
  { unfold cleanup, stopPingInterval. rewrite Hc. simpl. by rewrite Hc. }
  unfold net, updClient. simpl. f_equal. f_equal.
  apply list_eq. intros j. rewrite list_lookup_alter. case_decide; [|done]. subst.
  by rewrite Hc.
Qed.

Lemma startPingInterval_stores c s cl :
  clientObjs s !! c = Some cl ->
  net (startPingInterval c s) =
    (alter (with_pingInterval (Some (length (timers s))) ∘ with_pingInterval None) c
       (clientObjs s),
     sockets s, stopped (pingInterval cl) (timers s) ++ [mkTimer c 30000 false]).
Proof.
  intros Hc. unfold startPingInterval.
  destruct (net_fields (stopPingInterval_stores c s cl Hc)) as (Ho & Hk & Ht).
  unfold net, updClient. simpl. by rewrite Ho, Hk, Ht, length_stopped, list_alter_alter_eq.
Qed.

Lemma netInv_disconnect c s : netInv s -> netInv (disconnect c s).
Proof.
  intros [Ht Hs]. destruct (clientObjs s !! c) as [cl|] eqn:Hc.
  - destruct (net_fields (disconnect_stores c s cl Hc)) as (Eo & Ek & Et).
    unfold netInv. rewrite Eo, Ek, Et. split.
    + by apply timerInv_release.
    + by apply sockInv_release.
  - apply (netInv_net s); [by apply disconnect_invalid|done].
Qed.

Lemma sockInv_attached C K w k c :
  sockInv C K -> K !! w = Some k ->
  onopen k = Some c \/ onclose k = Some c \/
  (exists p, onmessage k = Some (c, p)) \/ (exists p, onerror k = Some (c, p)) ->
  attached k c /\ is_Some (C !! c).
Proof.
  intros Hs Hk Hh. destruct (si_handlers _ _ Hs w k Hk) as [Hd|(c' & Ha & _ & Hc)].
  - destruct Hd as (? & ? & ? & ?). destruct Hh as [?|[?|[[p ?]|[p ?]]]]; congruence.
  - assert (c' = c) as ->; [|done].
    destruct Ha as (? & ? & p' & ? & ?). destruct Hh as [?|[?|[[p ?]|[p ?]]]]; congruence.
Qed.

Lemma authsSent_send m k :
  authsSent (ws_send m k) = authsSent k ++ (if bool_decide (type m = "auth") then [m] else []).
Proof. unfold authsSent, ws_send. simpl. by rewrite List.filter_app. Qed.

Lemma netInv_handleMessage w k c p m s :
  sockets s !! w = Some k -> readyState k = OPEN -> onmessage k = Some (c, p) ->
  netInv s -> netInv (handleMessage c p m s).
Proof.
  intros Hk Hr Hm [Ht Hs].
  destruct (sockInv_attached _ _ w k c Hs Hk) as [Ha [cl Hc]]; [eauto|].
  unfold handleMessage. case_bool_decide; [|case_bool_decide].
  - destruct (success m).
    + apply (netInv_net (startPingInterval c (callEventHandler c ev_connected
               (updClient c (with_status connected) s)))); [apply net_resolveConnect|].
      set (s1 := updClient c (with_status connected) s).
      set (s2 := callEventHandler c ev_connected s1).
      destruct (@net_fields s2 _ _ _ (net_callEventHandler c ev_connected s1))
        as (Eo2 & Ek2 & Et2).
      assert (clientObjs s2 !! c = Some (with_status connected cl)) as Hc2.
      { rewrite Eo2. unfold s1, updClient. simpl. by rewrite list_lookup_alter_eq, Hc. }
      destruct (net_fields (startPingInterval_stores c s2 _ Hc2)) as (Eo & Ek & Et).
      unfold netInv. rewrite Eo, Ek, Et, Eo2, Ek2, Et2. unfold s1, updClient. simpl.
      rewrite list_alter_alter_eq. split.
      * by apply timerInv_start.
      * by apply (sockInv_connected _ _ c cl _ w k).
    + apply (netInv_net (cleanup c (callEventHandler c
               (ev_disconnected (Some (default "Authentication failed" (error m))))
               (updClient c (with_status disconnected) s)))); [apply net_rejectConnect|].
      set (s1 := updClient c (with_status disconnected) s).
      set (s2 := callEventHandler c _ s1).
      destruct (@net_fields s2 _ _ _ (net_callEventHandler c
                  (ev_disconnected (Some (default "Authentication failed" (error m)))) s1))
        as (Eo2 & Ek2 & Et2).
      assert (clientObjs s2 !! c = Some (with_status disconnected cl)) as Hc2.
      { rewrite Eo2. unfold s1, updClient. simpl. by rewrite list_lookup_alter_eq, Hc. }
      destruct (net_fields (cleanup_stores c s2 _ Hc2)) as (Eo & Ek & Et).
      unfold netInv. rewrite Eo, Ek, Et, Eo2, Ek2, Et2. unfold s1, updClient. simpl.
      rewrite list_alter_alter_eq. split.
      * by apply timerInv_release.
      * by apply sockInv_release.
  - done.
  - apply (netInv_net s); [apply net_callEventHandler|done].
Qed.

Lemma netInv_step_message w data s : netInv s -> netInv (step (WsMessage w data) s).
Proof.
  intros H. simpl. destruct (sockets s !! w) as [k|] eqn:Hk; [|done].
  case_bool_decide as Hr; [|done]. destruct (onmessage k) as [[c p]|] eqn:Hm; [|done].
  destruct data as [m|]; [|done]. by apply (netInv_handleMessage w k).
Qed.

Lemma netInv_step_error w s : netInv s -> netInv (step (WsError w) s).
Proof.
  intros [Ht Hs]. simpl. destruct (sockets s !! w) as [k|] eqn:Hk; [|done].
  case_bool_decide as Hr; [done|].
  pose proof (sockInv_error _ _ w k (with_status disconnected) Hk Hr
                (fun cl => conj eq_refl eq_refl) Hs) as Hs'.
  destruct (onerror k) as [[c p]|] eqn:He.
  - unfold on_error.
    apply (netInv_net (updClient c (with_status disconnected)
             (updSocket w (setReadyState CLOSED) s))).
    { by rewrite net_rejectConnect, net_callEventHandler. }
    split; [|done]. simpl. by apply timerInv_keep.
  - done.
Qed.

Lemma closedBy_setCloseFired o w K :
  closedBy o (alter setCloseFired w K) = alter setCloseFired w (closedBy o K).
Proof.
  destruct o as [w'|]; simpl; [|done]. destruct (decide (w' = w)) as [->|Hne].
  - by rewrite !list_alter_alter_eq.
  - by rewrite list_alter_alter_ne.
Qed.

Lemma netInv_step_close w s : netInv s -> netInv (step (WsClose w) s).
Proof.
  intros [Ht Hs]. simpl. destruct (sockets s !! w) as [k|] eqn:Hk; [|done].
  destruct (closeFired k); [done|].
  destruct (onclose k) as [c|] eqn:Hoc.
  - destruct (sockInv_attached _ _ w k c Hs Hk) as [Ha [cl Hc]]; [eauto|].
    set (s1 := updSocket w setCloseFired s).
    assert (clientObjs s1 !! c = Some cl) as Hc1 by done.
    destruct (net_fields (cleanup_stores c s1 cl Hc1)) as (Eo & Ek & Et).
    set (f := (fun cl0 => if bool_decide (_status cl = connected)
                          then with_status disconnected cl0 else cl0)
              ∘ (with_ws None ∘ with_pingInterval None)).
    assert (net (on_close c s1) =
              (alter f c (clientObjs s),
               alter setCloseFired w (closedBy (ws cl) (sockets s)),
               stopped (pingInterval cl) (timers s))) as Hnet.
    { unfold on_close.
      assert (statusOf c (cleanup c s1) = _status cl) as ->.
      { unfold statusOf. by rewrite Eo, list_lookup_alter_eq, Hc1. }
      unfold f. case_bool_decide.
      - rewrite net_callEventHandler. unfold net, updClient. simpl.
        rewrite Eo, Ek, Et. unfold s1. simpl.
        by rewrite list_alter_alter_eq, closedBy_setCloseFired.
      - unfold net. rewrite Eo, Ek, Et. unfold s1. simpl.
        by rewrite closedBy_setCloseFired. }
    change (netInv (on_close c s1)). unfold netInv.
    destruct (net_fields Hnet) as (-> & -> & ->).
    assert (ws (f cl) = None /\ pingInterval (f cl) = None /\ _status (f cl) <> connected)
      as (Hfw & Hfp & Hfs).
    { unfold f. simpl. case_bool_decide as Hst; simpl; [done|]. done. }
    split; [by apply timerInv_release|].
    pose proof (sockInv_release _ _ c cl f Hc Hfw Hfs Hs) as Hs'.
    apply sockInv_closed; [|done].
    intros c' cl' Hc' Hw'.
    destruct (si_ws _ _ Hs' c' cl' w Hc' Hw') as (k' & Hk' & Ha').
    apply closedBy_lookup in Hk' as [[_ (k0 & _ & ->)]|[_ Hk']].
    + destruct (attached_detached _ _ Ha'). apply closed_detached_state.
    + rewrite Hk in Hk'. injection Hk' as <-.
      rewrite (attached_inj k c' c Ha' Ha) in Hc'.
      rewrite list_lookup_alter_eq, Hc in Hc'. injection Hc' as <-. congruence.
  - split; [done|]. simpl. apply sockInv_closed; [|done].
    intros c cl Hc Hw. destruct (si_ws _ _ Hs c cl w Hc Hw) as (k' & Hk' & Ha).
    rewrite Hk in Hk'. injection Hk' as <-. destruct Ha as (_ & ? & _). congruence.
Qed.

Lemma netInv_step_open w s : netInv s -> netInv (step (WsOpen w) s).
Proof.
  intros [Ht Hs]. simpl. destruct (sockets s !! w) as [k|] eqn:Hk; [|done].
  case_bool_decide as Hr; [|done].
  destruct (onopen k) as [c|] eqn:Hoo.
  - destruct (sockInv_attached _ _ w k c Hs Hk) as [Ha [cl Hc]]; [eauto|].
    destruct (si_live _ _ Hs w k c cl Hk Ha (or_introl Hr) Hc) as [Hw _].
    unfold on_open, authenticate.
    assert (clientObjs (updSocket w (setReadyState OPEN) s) !! c = Some cl) as -> by done.
    rewrite Hw. split; [done|]. simpl. rewrite list_alter_alter_eq.
    apply (sockInv_open _ _ w k); try done.
    repeat split; try done. intros _. simpl. rewrite authsSent_send. simpl.
    rewrite length_app. simpl. unfold authsSent. simpl. lia.
  - split; [done|]. simpl. apply (sockInv_open _ _ w k); try done.
    repeat split; try done. rewrite Hoo. by intros [? ?].
Qed.

Lemma netInv_step_tick t s : netInv s -> netInv (step (TimerTick t) s).
Proof.
  intros [Ht Hs]. simpl. destruct (timers s !! t) as [tm|]; [|done].
  destruct (cleared tm); [done|]. unfold on_tick. repeat case_match; try done.
  split; [done|]. simpl. apply sockInv_socket_keep; [|done].
  intros k. repeat split; try done. rewrite authsSent_send. simpl. by rewrite app_nil_r.
Qed.

Lemma netInv_connect c ctor s : netInv s -> netInv (connect c ctor s).1.
Proof.
  intros [Ht Hs]. unfold connect. destruct (clientObjs s !! c) as [cl|] eqn:Hc; [|done].
  destruct (_status cl) eqn:Hst; try done.
  set (s1 := updClient c (with_status connecting) s).
  set (s2 := callEventHandler c ev_connecting s1).
  destruct (@net_fields s2 _ _ _ (net_callEventHandler c ev_connecting s1)) as (Eo2 & Ek2 & Et2).
  destruct ctor as [msg|]; simpl.
  - apply (netInv_net (updClient c (with_status disconnected) s1)).
    { rewrite net_rejectConnect, net_callEventHandler. unfold net, updClient. simpl.
      by rewrite Eo2, Ek2, Et2. }
    unfold netInv, s1, updClient. simpl. rewrite list_alter_alter_eq. split.
    + by apply timerInv_keep.
    + by apply (sockInv_keep _ _ c cl).
  - unfold netInv, updClient. simpl. rewrite Eo2, Ek2, Et2. unfold s1, updClient. simpl.
    rewrite list_alter_alter_eq. split.
    + by apply timerInv_keep.
    + by apply (sockInv_connectNew _ _ c cl).
Qed.

Lemma netInv_notify s : netInv s -> netInv (notifyStateChange s).
Proof. apply netInv_net, net_notify. Qed.

Lemma netInv_updateTabStatus tabId st e s : netInv s -> netInv (updateTabStatus tabId st e s).
Proof. apply netInv_net, net_updateTabStatus. Qed.

Lemma netInv_connectToRemote l ctor s : netInv s -> netInv (connectToRemote l ctor s).1.
Proof.
  intros H. unfold connectToRemote.
  destruct (tabAt s l) as [t|]; [|done].
  destruct (alias t) as [a|]; [|done]. destruct (host t) as [h|]; [|done].
  destruct (port t) as [p|]; [|done].
  case_match; [done|].
  destruct (remoteConfigs s !! a) as [config|]; simpl; [|by apply netInv_updateTabStatus].
  destruct (clients_get a (clients s)) as [c|] eqn:Hg; simpl.
  - case_match; [done|].
    pose proof (netInv_connect c ctor _ (netInv_updateTabStatus (id t) connecting None _ H)) as H2.
    destruct (connect c ctor _) as [s3 pr]. revert H2. apply netInv_net, net_awaitConnect.
  - match goal with |- context [updateTabStatus _ _ _ ?s1] =>
      assert (netInv s1) as H1 end.
    { destruct H as [Ht Hs]. split; simpl.
      - by apply timerInv_newClient.
      - by apply sockInv_newClient. }
    pose proof (netInv_connect (length (clientObjs s)) ctor _
                  (netInv_updateTabStatus (id t) connecting None _ H1)) as H2.
    destruct (connect _ ctor _) as [s3 pr]. revert H2. apply netInv_net, net_awaitConnect.
Qed.

Lemma netInv_selectTab index ctor s : netInv s -> netInv (selectTab index ctor s).
Proof.
  intros H. unfold selectTab. case_match; [done|].
  assert (netInv (set_selectedIndex index s)) as H1 by done.
  destruct (tabList _ !! Z.to_nat index) as [l|]; [|done].
  destruct (tabAt _ l) as [tab|]; [|done].
  case_match; [|by apply netInv_notify].
  pose proof (netInv_connectToRemote l ctor _ H1) as Hc.
  destruct (connectToRemote l ctor _) as [s2 []]; [by apply netInv_notify|done].
Qed.

Lemma netInv_disconnectAll s : netInv s -> netInv (disconnectAll s).
Proof.
  intros H. unfold disconnectAll. apply netInv_notify, fold_left_preserves.
  - intros s' l. by apply netInv_net.
  - apply (netInv_net (fold_left (fun s kv => disconnect kv.2 s) (clients s) s)); [done|].
    apply fold_left_preserves; [|done]. intros s' kv. apply netInv_disconnect.
Qed.

Lemma netInv_refreshKeep nA l s : netInv s -> netInv (refreshKeep nA l s).2.
Proof.
  intros H. unfold refreshKeep. repeat case_match; simpl; try done.
  match goal with |- netInv (set_clients _ ?s1) => apply (netInv_net s1); [done|] end.
  by apply netInv_disconnect.
Qed.

Lemma netInv_filterTabs nA ls s : netInv s -> netInv (filterTabs nA ls s).2.
Proof.
  revert s. induction ls as [|l ls IH]; intros s H; simpl; [done|].
  pose proof (netInv_refreshKeep nA l s H) as H1.
  destruct (refreshKeep nA l s) as [keep s1]. simpl in H1.
  specialize (IH s1 H1). by destruct (filterTabs nA ls s1).
Qed.

Lemma netInv_refresh remotes s : netInv s -> netInv (refresh remotes s).
Proof.
  intros H. rewrite refresh_unfold. cbv zeta. apply netInv_notify.
  assert (netInv (fold_left addRemote remotes (refreshFiltered remotes.*1 s))) as H3.
  { apply fold_left_preserves.
    - intros s' r. apply netInv_net. unfold addRemote. by case_match.
    - unfold refreshFiltered. pose proof (netInv_filterTabs remotes.*1 (tabList s) s H) as H1.
      by destruct (filterTabs _ _ s). }
  by case_match.
Qed.

Lemma netInv_step e s : netInv s -> netInv (step e s).
Proof.
  intros H. destruct e.
  - done.
  - unfold step, initializeLoaded. apply netInv_notify, fold_left_preserves; [|done].
    intros s' r. by apply netInv_net.
  - done.
  - by apply netInv_selectTab.
  - by apply netInv_selectTab.
  - by apply netInv_selectTab.
  - by apply netInv_disconnectAll.
  - by apply netInv_refresh.
  - simpl. destruct (suspended s); [done|]. by apply netInv_notify.
  - by apply netInv_step_open.
  - by apply netInv_step_message.
  - by apply netInv_step_error.
  - by apply netInv_step_close.
  - by apply netInv_step_tick.
Qed.

Lemma netInv_run es s : netInv s -> netInv (run es s).
Proof.
  revert s. induction es as [|e es IH]; simpl; intros s H; [done|].
  by apply IH, netInv_step.
Qed.

Lemma netInv_init : netInv init.
Proof.
  split.
  - split; intros *; simpl; by rewrite ?lookup_nil.
  - split; intros *; simpl; by rewrite ?lookup_nil.
Qed.

Lemma pingsSent_send m k :
  pingsSent (ws_send m k) = pingsSent k ++ (if bool_decide (type m = "ping") then [m] else []).
Proof. unfold pingsSent, ws_send. simpl. by rewrite List.filter_app. Qed.

Lemma pingLog_alter g w' s w :
  (forall k, pingsSent (g k) = pingsSent k) ->
  pingLog (updSocket w' g s) w = pingLog s w.
Proof.
  intros Hg. unfold pingLog, updSocket. simpl. rewrite list_lookup_alter.
  case_decide; [|done]. subst. destruct (sockets s !! w); simpl; [apply Hg|done].
Qed.

Lemma pingLog_new k0 s s' w :
  sockets s' = sockets s ++ [k0] -> sent k0 = [] -> pingLog s' w = pingLog s w.
Proof.
  intros Hk H0. unfold pingLog. rewrite Hk, lookup_app.
  destruct (sockets s !! w) eqn:Hw; [done|]. simpl.
  destruct (w - length (sockets s)) as [|n]; simpl; [|done].
  unfold pingsSent. by rewrite H0.
Qed.

Section PingFrame.
Variable L : nat -> list WSMessage.

Lemma pingsAre_sockets s s' : sockets s' = sockets s -> pingsAre L s -> pingsAre L s'.
Proof. intros Hk H w. unfold pingLog. rewrite Hk. apply H. Qed.

Lemma pingsAre_net s s' : net s' = net s -> pingsAre L s -> pingsAre L s'.
Proof. unfold net. intros [= _ Hk _]. by apply pingsAre_sockets. Qed.

Lemma pingsAre_alter g w s :
  (forall k, pingsSent (g k) = pingsSent k) -> pingsAre L s -> pingsAre L (updSocket w g s).
Proof. intros Hg H w'. rewrite pingLog_alter by done. apply H. Qed.

Lemma pingsAre_stopPingInterval c s : pingsAre L s -> pingsAre L (stopPingInterval c s).
Proof. apply pingsAre_sockets. unfold stopPingInterval. by repeat case_match. Qed.

Lemma pingsAre_cleanup c s : pingsAre L s -> pingsAre L (cleanup c s).
Proof.
  intros H. unfold cleanup. apply (pingsAre_stopPingInterval c) in H.
  repeat case_match; try done.
  apply (pingsAre_sockets (updSocket n (fun k => ws_close (detach k)) (stopPingInterval c s)));
    [done|].
  by apply pingsAre_alter.
Qed.

Lemma pingsAre_callEventHandler c ev s : pingsAre L s -> pingsAre L (callEventHandler c ev s).
Proof. apply pingsAre_net, net_callEventHandler. Qed.

Lemma pingsAre_updClient c f s : pingsAre L s -> pingsAre L (updClient c f s).
Proof. by apply pingsAre_sockets. Qed.

Lemma pingsAre_notify s : pingsAre L s -> pingsAre L (notifyStateChange s).
Proof. apply pingsAre_net, net_notify. Qed.

Lemma pingsAre_updateTabStatus tabId st e s :
  pingsAre L s -> pingsAre L (updateTabStatus tabId st e s).
Proof. apply pingsAre_net, net_updateTabStatus. Qed.

Lemma pingsAre_disconnect c s : pingsAre L s -> pingsAre L (disconnect c s).
Proof.
  intros H. unfold disconnect.
  by apply pingsAre_callEventHandler, pingsAre_updClient, pingsAre_cleanup.
Qed.

Lemma pingsAre_authenticate c s : pingsAre L s -> pingsAre L (authenticate c s).
Proof.
  intros H. unfold authenticate. repeat case_match; try done.
  apply pingsAre_alter; [|done]. intros k. rewrite pingsSent_send. simpl. apply app_nil_r.
Qed.

Lemma pingsAre_handleMessage c p m s : pingsAre L s -> pingsAre L (handleMessage c p m s).
Proof.
  intros H. unfold handleMessage. case_bool_decide; [|case_bool_decide].
  - destruct (success m).
    + apply (pingsAre_net _ _ (net_resolveConnect _ _)).
      apply (pingsAre_sockets (stopPingInterval c (callEventHandler c ev_connected
               (updClient c (with_status connected) s)))); [done|].
      by apply pingsAre_stopPingInterval, pingsAre_callEventHandler, pingsAre_updClient.
    + apply (pingsAre_net _ _ (net_rejectConnect _ _ _)).
      by apply pingsAre_cleanup, pingsAre_callEventHandler, pingsAre_updClient.
  - done.
  - by apply pingsAre_callEventHandler.
Qed.

Lemma pingsAre_connect c ctor s : pingsAre L s -> pingsAre L (connect c ctor s).1.
Proof.
  intros H. unfold connect. destruct (clientObjs s !! c) as [cl|]; [|done].
  destruct (_status cl); try done.
  assert (pingsAre L (callEventHandler c ev_connecting (updClient c (with_status connecting) s)))
    as H2 by by apply pingsAre_callEventHandler, pingsAre_updClient.
  destruct ctor as [msg|]; simpl.
  - apply (pingsAre_net _ _ (net_rejectConnect _ _ _)).
    by apply pingsAre_callEventHandler, pingsAre_updClient, pingsAre_sockets with (2 := H2).
  - intros w. rewrite <- (H2 w). by eapply pingLog_new.
Qed.

Lemma pingsAre_connectToRemote l ctor s :
  pingsAre L s -> pingsAre L (connectToRemote l ctor s).1.
Proof.
  intros H. unfold connectToRemote.
  destruct (tabAt s l) as [t|]; [|done].
  destruct (alias t) as [a|]; [|done]. destruct (host t) as [h|]; [|done].
  destruct (port t) as [p|]; [|done].
  case_match; [done|].
  destruct (remoteConfigs s !! a) as [config|]; simpl; [|by apply pingsAre_updateTabStatus].
  destruct (clients_get a (clients s)) as [c|] eqn:Hg; simpl.
  - case_match; [done|].
    pose proof (pingsAre_connect c ctor _
                  (pingsAre_updateTabStatus (id t) connecting None _ H)) as H2.
    destruct (connect c ctor _) as [s3 pr]. revert H2. apply pingsAre_net, net_awaitConnect.
  - match goal with |- context [updateTabStatus _ _ _ ?s1] =>
      assert (pingsAre L s1) as H1 by by apply pingsAre_sockets with (2 := H) end.
    pose proof (pingsAre_connect (length (clientObjs s)) ctor _
                  (pingsAre_updateTabStatus (id t) connecting None _ H1)) as H2.
    destruct (connect _ ctor _) as [s3 pr]. revert H2. apply pingsAre_net, net_awaitConnect.
Qed.

Lemma pingsAre_selectTab index ctor s : pingsAre L s -> pingsAre L (selectTab index ctor s).
Proof.
  intros H. unfold selectTab. case_match; [done|].
  assert (pingsAre L (set_selectedIndex index s)) as H1 by done.
  destruct (tabList _ !! Z.to_nat index) as [l|]; [|done].
  destruct (tabAt _ l) as [tab|]; [|done].
  case_match; [|by apply pingsAre_notify].
  pose proof (pingsAre_connectToRemote l ctor _ H1) as Hc.
  destruct (connectToRemote l ctor _) as [s2 []]; [by apply pingsAre_notify|done].
Qed.

Lemma pingsAre_disconnectAll s : pingsAre L s -> pingsAre L (disconnectAll s).
Proof.
  intros H. unfold disconnectAll. apply pingsAre_notify, fold_left_preserves.
  - intros s' l. by apply pingsAre_sockets.
  - apply (pingsAre_sockets (fold_left (fun s kv => disconnect kv.2 s) (clients s) s)); [done|].
    apply fold_left_preserves; [|done]. intros s' kv. apply pingsAre_disconnect.
Qed.

Lemma pingsAre_refreshKeep nA l s : pingsAre L s -> pingsAre L (refreshKeep nA l s).2.
Proof.
  intros H. unfold refreshKeep. repeat case_match; simpl; try done.
  match goal with |- pingsAre L (set_clients _ ?s1) => apply (pingsAre_sockets s1); [done|] end.
  by apply pingsAre_disconnect.
Qed.

Lemma pingsAre_filterTabs nA ls s : pingsAre L s -> pingsAre L (filterTabs nA ls s).2.
Proof.
  revert s. induction ls as [|l ls IH]; intros s H; simpl; [done|].
  pose proof (pingsAre_refreshKeep nA l s H) as H1.
  destruct (refreshKeep nA l s) as [keep s1]. simpl in H1.
  specialize (IH s1 H1). by destruct (filterTabs nA ls s1).
Qed.

Lemma pingsAre_refresh remotes s : pingsAre L s -> pingsAre L (refresh remotes s).
Proof.
  intros H. rewrite refresh_unfold. cbv zeta. apply pingsAre_notify.
  assert (pingsAre L (fold_left addRemote remotes (refreshFiltered remotes.*1 s))) as H3.
  { apply fold_left_preserves.
    - intros s' r. apply pingsAre_sockets. unfold addRemote. by case_match.
    - unfold refreshFiltered. pose proof (pingsAre_filterTabs remotes.*1 (tabList s) s H) as H1.
      by destruct (filterTabs _ _ s). }
  by case_match.
Qed.

(** Only the callback of a timer sends [ping]. *)
Lemma pingsAre_step e s :
  (forall t, e <> TimerTick t) -> pingsAre L s -> pingsAre L (step e s).
Proof.
  intros He H. destruct e.
  - done.
  - unfold step, initializeLoaded. apply pingsAre_notify, fold_left_preserves; [|done].
    intros s' r. by apply pingsAre_sockets.
  - done.
  - by apply pingsAre_selectTab.
  - by apply pingsAre_selectTab.
  - by apply pingsAre_selectTab.
  - by apply pingsAre_disconnectAll.
  - by apply pingsAre_refresh.
  - simpl. destruct (suspended s); [done|]. by apply pingsAre_notify.
  - simpl. destruct (sockets s !! w) as [k|]; [|done]. case_bool_decide; [|done].
    assert (pingsAre L (updSocket w (setReadyState OPEN) s)) as H1 by by apply pingsAre_alter.
    destruct (onopen k); [|done]. by apply pingsAre_authenticate.
  - simpl. destruct (sockets s !! w) as [k|]; [|done]. case_bool_decide; [|done].
    destruct (onmessage k) as [[c p]|]; [|done]. destruct data; [|done].
    by apply pingsAre_handleMessage.
  - simpl. destruct (sockets s !! w) as [k|]; [|done]. case_bool_decide; [done|].
    assert (pingsAre L (updSocket w (setReadyState CLOSED) s)) as H1 by by apply pingsAre_alter.
    destruct (onerror k) as [[c p]|]; [|done]. unfold on_error.
    apply (pingsAre_net _ _ (net_rejectConnect _ _ _)).
    by apply pingsAre_callEventHandler, pingsAre_updClient.
  - simpl. destruct (sockets s !! w) as [k|]; [|done]. destruct (closeFired k); [done|].
    assert (pingsAre L (updSocket w setCloseFired s)) as H1 by by apply pingsAre_alter.
    destruct (onclose k) as [c|]; [|done]. unfold on_close.
    apply (pingsAre_cleanup c) in H1. case_bool_decide; [|done].
    by apply pingsAre_callEventHandler, pingsAre_updClient.
  - by destruct (He t).
Qed.

End PingFrame.

Lemma pingLog_step e s w :
  (forall t, e <> TimerTick t) -> pingLog (step e s) w = pingLog s w.
Proof. intros He. by apply (pingsAre_step (pingLog s)). Qed.

(** What a tick of the timer [t] does: nothing unless the timer is live and
    its client connected with a socket, one [ping] on that socket then. *)
Lemma tick_unfold t s :
  step (TimerTick t) s =
    match timers s !! t with
    | Some tm =>
        if cleared tm then s
        else match clientObjs s !! callback tm with
             | Some cl =>
                 match ws cl with
                 | Some w =>
                     if bool_decide (_status cl = connected)
                     then updSocket w (ws_send pingMessage) s else s
                 | None => s
                 end
             | None => s
             end
    | None => s
    end.
Proof. simpl. destruct (timers s !! t) as [tm|]; [|done]. by destruct (cleared tm). Qed.

Lemma pingLog_tick w0 k s w :
  sockets s !! w0 = Some k ->
  pingLog (updSocket w0 (ws_send pingMessage) s) w =
    pingLog s w ++ (if decide (w = w0) then [pingMessage] else []).
Proof.
  intros Hk. unfold pingLog, updSocket. simpl. destruct (decide (w = w0)) as [->|Hw].
  - rewrite list_lookup_alter_eq, Hk. simpl. by rewrite pingsSent_send.
  - by rewrite list_lookup_alter_ne, app_nil_r.
Qed.

Lemma tick_or_not e : (exists t, e = TimerTick t) \/ (forall t, e <> TimerTick t).
Proof. destruct e; try (by right); left; eauto. Qed.

Lemma netInv_reachable es : netInv (run es init).
Proof. apply netInv_run, netInv_init. Qed.

(** The heartbeat, state by state.  In every reachable state: (1) a
    connected client holds exactly one live timer, of period 30000 ms, whose
    callback is the client's, and holds an open socket; each tick of that
    timer hands exactly one [ping] to that socket and changes nothing else;
    (2) no other event adds a [ping] to any socket: the [ping] log of a
    socket changes only at the tick of a live timer whose client is
    connected and holds the socket; (3) after [disconnect()] no timer of the
    client is live; (4) a [pong] leaves the whole state as it is: no event,
    no timer touched. *)
Lemma heartbeat_state es :
  let s := run es init in
  (forall c cl, clientObjs s !! c = Some cl -> _status cl = connected ->
     exists t w k,
       pingInterval cl = Some t /\ timers s !! t = Some (mkTimer c 30000 false) /\
       (forall t' tm, timers s !! t' = Some tm -> cleared tm = false -> callback tm = c ->
                      t' = t) /\
       ws cl = Some w /\ sockets s !! w = Some k /\ readyState k = OPEN /\
       step (TimerTick t) s = updSocket w (ws_send pingMessage) s /\
       forall w', pingLog (step (TimerTick t) s) w' =
                    pingLog s w' ++ (if decide (w' = w) then [pingMessage] else [])) /\
  (forall e w, pingLog (step e s) w <> pingLog s w ->
     exists t tm cl,
       e = TimerTick t /\ timers s !! t = Some tm /\ cleared tm = false /\
       clientObjs s !! callback tm = Some cl /\ _status cl = connected /\ ws cl = Some w) /\
  (forall c t tm, timers (disconnect c s) !! t = Some tm -> callback tm = c ->
     cleared tm = true) /\
  (forall w m, type m = "pong" -> step (WsMessage w (Some m)) s = s).
Proof.
  intros s. pose proof (netInv_reachable es) as [Ht Hs]. fold s in Ht, Hs.
  split; [|split; [|split]].
  - intros c cl Hc Hst.
    destruct (ti_connected _ _ Ht c cl Hc Hst) as [t Hp].
    pose proof (ti_held _ _ Ht c cl t Hc Hp) as Htm.
    destruct (si_connected _ _ Hs c cl Hc Hst) as (w & k & Hw & Hk & Hr).
    assert (step (TimerTick t) s = updSocket w (ws_send pingMessage) s) as Htick.
    { rewrite tick_unfold, Htm. simpl. rewrite Hc, Hw. by rewrite bool_decide_eq_true_2. }
    exists t, w, k. repeat split; try done.
    + intros t' tm Ht' Hcl Hcb. destruct (ti_owner _ _ Ht t' tm Ht' Hcl) as (cl' & Hc' & Hp').
      rewrite Hcb, Hc in Hc'. injection Hc' as <-. congruence.
    + intros w'. rewrite Htick. by apply (pingLog_tick w k).
  - intros e w Hne.
    destruct (tick_or_not e) as [[t ->]|He]; [|by rewrite pingLog_step in Hne].
    rewrite tick_unfold in Hne.
    destruct (timers s !! t) as [tm|] eqn:Htm; [|done].
    destruct (cleared tm) eqn:Hcl; [done|].
    destruct (clientObjs s !! callback tm) as [cl|] eqn:Hc; [|done].
    destruct (ws cl) as [w0|] eqn:Hw; [|done].
    case_bool_decide as Hst; [|done].
    exists t, tm, cl. repeat split; try done.
    destruct (decide (w = w0)) as [->|Hww]; [done|]. destruct Hne.
    unfold pingLog, updSocket. simpl. by rewrite list_lookup_alter_ne.
  - intros c t tm Htm Hcb. destruct (cleared tm) eqn:Hcl; [done|].
    pose proof (netInv_disconnect c s (conj Ht Hs)) as [Ht' _].
    destruct (ti_owner _ _ Ht' t tm Htm Hcl) as (cl' & Hc' & Hp'). rewrite Hcb in Hc'.
    destruct (clientObjs s !! c) as [cl|] eqn:Hc.
    + destruct (net_fields (disconnect_stores c s cl Hc)) as (Eo & _ & _).
      rewrite Eo, list_lookup_alter_eq, Hc in Hc'. injection Hc' as <-. done.
    + destruct (net_fields (disconnect_invalid c s Hc)) as (Eo & _ & _). congruence.
  - intros w m Hm. simpl. destruct (sockets s !! w) as [k|]; [|done].
    case_bool_decide; [|done]. destruct (onmessage k) as [[c p]|]; [|done].
    unfold on_message, handleMessage. rewrite Hm. done.
Qed.

(** C9. In every reachable state, if the tab at index [i] is the tab of an
    alias whose client is connected, then any number of [selectTab(i)] calls
    leaves the connection layer as it is (no socket or promise is created,
    nothing is sent, no client changes), and the connected client holds an
    open socket, attached to it, on which exactly one [auth] was sent. *)
Theorem C9_selecting_connected_tab es i l a c ctors :
  let s := run es init in
  tabList s !! i = Some l ->
  alias <$> tabAt s l = Some (Some a) ->
  clients_get a (clients s) = Some c ->
  statusOf c s = connected ->
  let s' := fold_left (fun s ctor => selectTab (Z.of_nat i) ctor s) ctors s in
  netView s' = netView s /\
  exists cl w k,
    clientObjs s' !! c = Some cl /\ _status cl = connected /\ ws cl = Some w /\
    sockets s' !! w = Some k /\ readyState k = OPEN /\ attached k c /\
    length (authsSent k) = 1.
Proof.
  intros s Hl Ha Hc Hst s'.
  pose proof (selectTab_connected_many i l a c ctors s Hl Ha Hc Hst) as Hn. fold s' in Hn.
  split; [done|]. destruct (netView_fields _ _ Hn) as (Eo & Ek & _). rewrite Eo, Ek.
  pose proof (netInv_reachable es) as [_ Hs]. fold s in Hs.
  unfold statusOf in Hst. destruct (clientObjs s !! c) as [cl|] eqn:Hcl; [|done].
  simpl in Hst. destruct (si_connected _ _ Hs c cl Hcl Hst) as (w & k & Hw & Hk & Hr).
  destruct (si_ws _ _ Hs c cl w Hcl Hw) as (k' & Hk' & Hat).
  rewrite Hk in Hk'. injection Hk' as <-.
  exists cl, w, k. repeat split; try done; try apply Hat.
  by apply (proj2 (si_auth _ _ Hs w k Hk) c).
Qed.

Lemma C9_selecting_connected_tab_witness :
  let s := run handshake init in
  let s' := fold_left (fun s ctor => selectTab 1 ctor s) [None; Some "refused"; None] s in
  netView s' = netView s /\
  exists cl w k,
    clientObjs s' !! 0 = Some cl /\ _status cl = connected /\ ws cl = Some w /\
    sockets s' !! w = Some k /\ readyState k = OPEN /\ attached k 0 /\
    length (authsSent k) = 1.
Proof.
  apply (C9_selecting_connected_tab handshake 1 1 "a" 0 [None; Some "refused"; None]);
    reflexivity.
Defined.

(** ** Further properties of [RemoteClient] *)

Lemma statusOf_connected c s :
  statusOf c s = connected -> exists cl, clientObjs s !! c = Some cl /\ _status cl = connected.
Proof. unfold statusOf. destruct (clientObjs s !! c) as [cl|]; [|done]. simpl. eauto. Qed.

(** X1. [send()].  In every reachable state, [send(m)] on a client that is
    not connected (or on no client) changes nothing; on a connected client
    it hands [m] to the socket the client holds, which is open and attached
    to the client, and changes nothing else. *)
Theorem X1_send_contract es c m :
  let s := run es init in
  (statusOf c s <> connected -> send c m s = s) /\
  (statusOf c s = connected ->
     exists cl w k,
       clientObjs s !! c = Some cl /\ ws cl = Some w /\ sockets s !! w = Some k /\
       readyState k = OPEN /\ attached k c /\
       send c m s = updSocket w (ws_send m) s /\
       sockets (send c m s) !! w = Some (ws_send m k)).
Proof.
  intros s. split.
  - intros Hst. unfold send, statusOf in *. destruct (clientObjs s !! c) as [cl|]; [|done].
    destruct (ws cl); [|done]. simpl in Hst. by rewrite bool_decide_eq_false_2.
  - intros (cl & Hc & Hst)%statusOf_connected.
    pose proof (netInv_reachable es) as [_ Hs]. fold s in Hs.
    destruct (si_connected _ _ Hs c cl Hc Hst) as (w & k & Hw & Hk & Hr).
    destruct (si_ws _ _ Hs c cl w Hc Hw) as (k' & Hk' & Hat).
    rewrite Hk in Hk'. injection Hk' as <-.
    assert (send c m s = updSocket w (ws_send m) s) as Hsend.
    { unfold send. rewrite Hc, Hw. by rewrite bool_decide_eq_true_2. }
    exists cl, w, k. repeat split; try done; try apply Hat.
    rewrite Hsend. unfold updSocket. simpl. by rewrite list_lookup_alter_eq, Hk.
Qed.

Lemma X1_send_contract_witness :
  let s := run handshake init in
  let m := mkMsg "pause" None false None in
  exists cl w k,
    clientObjs s !! 0 = Some cl /\ ws cl = Some w /\ sockets s !! w = Some k /\
    readyState k = OPEN /\ attached k 0 /\
    send 0 m s = updSocket w (ws_send m) s /\
    sockets (send 0 m s) !! w = Some (ws_send m k).
Proof.
  apply (proj2 (X1_send_contract handshake 0 (mkMsg "pause" None false None))). reflexivity.
Defined.

Lemma handleClientEvent_message a m s : handleClientEvent a (ev_message m) s = s.
Proof. unfold handleClientEvent. by repeat case_match. Qed.

(** X2. Message dispatch.  In every reachable state, a message that arrives
    on an open socket and is neither [auth_response] nor [pong] is passed to
    the owner's event handler as a [message] event, once, and the manager
    ignores it: no tab, no client, no socket changes and the state-change
    handler is not called.  A payload that does not parse is dropped. *)
Theorem X2_application_message es w k c p m :
  let s := run es init in
  sockets s !! w = Some k -> readyState k = OPEN -> onmessage k = Some (c, p) ->
  type m <> "auth_response" -> type m <> "pong" ->
  step (WsMessage w (Some m)) s = set_emitted (emitted s ++ [(c, ev_message m)]) s /\
  step (WsMessage w None) s = s.
Proof.
  intros s Hk Hr Hm H1 H2. simpl. rewrite Hk, Hm. rewrite bool_decide_eq_true_2 by done.
  split; [|done]. unfold on_message, handleMessage.
  rewrite !bool_decide_eq_false_2 by done.
  pose proof (netInv_reachable es) as [_ Hs]. fold s in Hs.
  destruct (sockInv_attached _ _ w k c Hs Hk) as [_ [cl Hc]]; [eauto|].
  unfold callEventHandler. rewrite Hc. apply handleClientEvent_message.
Qed.

Lemma X2_application_message_witness :
  let s := run handshake init in
  let m := mkMsg "state_update" None false None in
  step (WsMessage 0 (Some m)) s = set_emitted (emitted s ++ [(0, ev_message m)]) s /\
  step (WsMessage 0 None) s = s.
Proof.
  apply (X2_application_message handshake 0
           (mkSocket ("h1", 8080%Z) (Some 0) (Some (0, 0)) (Some (0, 0)) (Some 0) OPEN false
              [authMessage "tok"]) 0 0 (mkMsg "state_update" None false None));
    vm_compute; congruence.
Defined.

(** X3. In every reachable state, of two different sockets that carry the
    callbacks of one client, the one the client does not hold is [CLOSED]
    (it is the socket of an earlier attempt that ended with a transport
    error, after which the platform has closed it; [cleanup()] was not
    called on it): the two are never both connecting or open, and
    [connect()] never opens a second transport beside a live one. *)
Theorem X3_one_live_socket_per_client es w1 w2 k1 k2 c :
  let s := run es init in
  sockets s !! w1 = Some k1 -> sockets s !! w2 = Some k2 ->
  attached k1 c -> attached k2 c -> w1 <> w2 ->
  exists cl,
    clientObjs s !! c = Some cl /\
    (ws cl <> Some w1 -> readyState k1 = CLOSED) /\
    (ws cl <> Some w2 -> readyState k2 = CLOSED) /\
    ~ (live k1 /\ live k2).
Proof.
  intros s H1 H2 A1 A2 Hne.
  pose proof (netInv_reachable es) as [_ Hs]. fold s in Hs.
  destruct (sockInv_attached _ _ w1 k1 c Hs H1) as [_ [cl Hc]]; [left; apply A1|].
  assert (forall w k, sockets s !! w = Some k -> attached k c -> ws cl <> Some w ->
            readyState k = CLOSED) as Hcl.
  { intros w k Hk Ha Hw.
    destruct (si_handlers _ _ Hs w k Hk) as [Hd|(c' & Ha' & Hng & _)].
    - destruct Hd as [Hd _]. destruct Ha as [Ha _]. congruence.
    - destruct (readyState k) eqn:Hr; try done.
      + destruct (si_live _ _ Hs w k c cl Hk Ha (or_introl Hr) Hc) as [E _]. done.
      + destruct (si_live _ _ Hs w k c cl Hk Ha (or_intror Hr) Hc) as [E _]. done. }
  exists cl. split; [done|]. split; [by apply Hcl|]. split; [by apply Hcl|].
  intros [L1 L2].
  destruct (si_live _ _ Hs w1 k1 c cl H1 A1 L1 Hc) as [E1 _].
  destruct (si_live _ _ Hs w2 k2 c cl H2 A2 L2 Hc) as [E2 _]. congruence.
Qed.

Lemma X3_one_live_socket_per_client_witness :
  sockets (run (handshake ++ [WsError 0; SelectTab 1 None]) init) !! 0 =
    Some (mkSocket ("h1", 8080%Z) (Some 0) (Some (0, 0)) (Some (0, 0)) (Some 0) CLOSED false
            [authMessage "tok"]) /\
  sockets (run (handshake ++ [WsError 0; SelectTab 1 None]) init) !! 1 =
    Some (mkSocket ("h1", 8080%Z) (Some 0) (Some (0, 1)) (Some (0, 1)) (Some 0) CONNECTING
            false []) /\
  attached (mkSocket ("h1", 8080%Z) (Some 0) (Some (0, 0)) (Some (0, 0)) (Some 0) CLOSED false
            [authMessage "tok"]) 0 /\
  attached (mkSocket ("h1", 8080%Z) (Some 0) (Some (0, 1)) (Some (0, 1)) (Some 0) CONNECTING
            false []) 0 /\
  exists cl,
    clientObjs (run (handshake ++ [WsError 0; SelectTab 1 None]) init) !! 0 = Some cl /\
    (ws cl <> Some 0 ->
     readyState (mkSocket ("h1", 8080%Z) (Some 0) (Some (0, 0)) (Some (0, 0)) (Some 0) CLOSED false
            [authMessage "tok"]) = CLOSED) /\
    (ws cl <> Some 1 ->
     readyState (mkSocket ("h1", 8080%Z) (Some 0) (Some (0, 1)) (Some (0, 1)) (Some 0) CONNECTING
            false []) = CLOSED) /\
    ~ (live (mkSocket ("h1", 8080%Z) (Some 0) (Some (0, 0)) (Some (0, 0)) (Some 0) CLOSED false
            [authMessage "tok"]) /\
       live (mkSocket ("h1", 8080%Z) (Some 0) (Some (0, 1)) (Some (0, 1)) (Some 0) CONNECTING
            false [])).
Proof.
  assert (sockets (run (handshake ++ [WsError 0; SelectTab 1 None]) init) !! 0 =
            Some (mkSocket ("h1", 8080%Z) (Some 0) (Some (0, 0)) (Some (0, 0)) (Some 0) CLOSED false
            [authMessage "tok"])) as H1
    by (vm_compute; reflexivity).
  assert (sockets (run (handshake ++ [WsError 0; SelectTab 1 None]) init) !! 1 =
            Some (mkSocket ("h1", 8080%Z) (Some 0) (Some (0, 1)) (Some (0, 1)) (Some 0) CONNECTING
            false [])) as H2
    by (vm_compute; reflexivity).
  assert (attached (mkSocket ("h1", 8080%Z) (Some 0) (Some (0, 0)) (Some (0, 0)) (Some 0) CLOSED
                      false [authMessage "tok"]) 0) as A1.
  { split; [reflexivity|]. split; [reflexivity|]. exists 0. split; reflexivity. }
  assert (attached (mkSocket ("h1", 8080%Z) (Some 0) (Some (0, 1)) (Some (0, 1)) (Some 0) CONNECTING
            false []) 0) as A2.
  { split; [reflexivity|]. split; [reflexivity|]. exists 1. split; reflexivity. }
  split; [exact H1|]. split; [exact H2|]. split; [exact A1|]. split; [exact A2|].
  exact (X3_one_live_socket_per_client (handshake ++ [WsError 0; SelectTab 1 None]) 0 1 _ _ 0
           H1 H2 A1 A2 ltac:(discriminate)).
Defined.

(** X4. Transport open.  In every reachable state, when a connecting socket
    with an [onopen] callback opens, its client holds that socket and is
    [connecting], and the only effect is that one [auth] message with the
    client's token is handed to the socket. *)
Theorem X4_open_sends_auth es w k c :
  let s := run es init in
  sockets s !! w = Some k -> readyState k = CONNECTING -> onopen k = Some c ->
  exists cl,
    clientObjs s !! c = Some cl /\ ws cl = Some w /\ _status cl = connecting /\
    step (WsOpen w) s =
      updSocket w (ws_send (authMessage (token cl))) (updSocket w (setReadyState OPEN) s) /\
    authsSent k = [] /\
    (authsSent <$> sockets (step (WsOpen w) s) !! w) = Some [authMessage (token cl)].
Proof.
  intros s Hk Hr Ho.
  pose proof (netInv_reachable es) as [_ Hs]. fold s in Hs.
  destruct (sockInv_attached _ _ w k c Hs Hk) as [Hat [cl Hc]]; [eauto|].
  destruct (si_live _ _ Hs w k c cl Hk Hat (or_introl Hr) Hc) as [Hw Hnd].
  assert (_status cl = connecting) as Hst.
  { destruct (_status cl) eqn:Hst; [done|done|].
    destruct (si_connected _ _ Hs c cl Hc Hst) as (w' & k' & Hw' & Hk' & Hr'). congruence. }
  pose proof (proj1 (si_auth _ _ Hs w k Hk) Hr) as Ha.
  assert (step (WsOpen w) s =
            updSocket w (ws_send (authMessage (token cl))) (updSocket w (setReadyState OPEN) s))
    as Hstep.
  { simpl. rewrite Hk, Ho. rewrite bool_decide_eq_true_2 by done.
    unfold on_open, authenticate.
    assert (clientObjs (updSocket w (setReadyState OPEN) s) !! c = Some cl) as -> by done.
    by rewrite Hw. }
  exists cl. repeat split; try done.
  rewrite Hstep. unfold updSocket. simpl. rewrite list_alter_alter_eq, list_lookup_alter_eq, Hk.
  simpl. f_equal. rewrite authsSent_send. simpl. unfold authsSent in *. simpl. by rewrite Ha.
Qed.

Lemma X4_open_sends_auth_witness :
  let s := run [OnStateChange; Initialize; InitializeLoaded oneRemote; SelectTab 1 None] init in
  exists cl,
    clientObjs s !! 0 = Some cl /\ ws cl = Some 0 /\ _status cl = connecting /\
    step (WsOpen 0) s =
      updSocket 0 (ws_send (authMessage (token cl))) (updSocket 0 (setReadyState OPEN) s) /\
    authsSent (mkSocket ("h1", 8080%Z) (Some 0) (Some (0, 0)) (Some (0, 0)) (Some 0)
                 CONNECTING false []) = [] /\
    (authsSent <$> sockets (step (WsOpen 0) s) !! 0) = Some [authMessage (token cl)].
Proof.
  apply (X4_open_sends_auth
           [OnStateChange; Initialize; InitializeLoaded oneRemote; SelectTab 1 None] 0
           (mkSocket ("h1", 8080%Z) (Some 0) (Some (0, 0)) (Some (0, 0)) (Some 0)
              CONNECTING false []) 0); reflexivity.
Defined.

Lemma emitted_notify s : emitted (notifyStateChange s) = emitted s.
Proof. unfold notifyStateChange. by destruct (stateChangeHandler s). Qed.

Lemma emitted_updateTabStatus tabId st e s : emitted (updateTabStatus tabId st e s) = emitted s.
Proof. unfold updateTabStatus. destruct (findTab _ s); [|done]. by rewrite emitted_notify. Qed.

Lemma emitted_handleClientEvent a ev s : emitted (handleClientEvent a ev s) = emitted s.
Proof.
  unfold handleClientEvent. repeat case_match; try done; by rewrite emitted_updateTabStatus.
Qed.

Lemma emitted_callEventHandler c ev s cl :
  clientObjs s !! c = Some cl -> emitted (callEventHandler c ev s) = emitted s ++ [(c, ev)].
Proof. intros Hc. unfold callEventHandler. rewrite Hc. by rewrite emitted_handleClientEvent. Qed.

Lemma mgrView_startPingInterval c s : mgrView (startPingInterval c s) = mgrView s.
Proof.
  unfold startPingInterval. rewrite mgrView_updClient by done.
  rewrite <- (mgrView_stopPingInterval c s). reflexivity.
Qed.

Lemma stopPingInterval_rest c s :
  emitted (stopPingInterval c s) = emitted s /\ promises (stopPingInterval c s) = promises s /\
  lastConnected (stopPingInterval c s) = lastConnected s /\
  suspended (stopPingInterval c s) = suspended s /\ clients (stopPingInterval c s) = clients s.
Proof. unfold stopPingInterval. by repeat case_match. Qed.

Lemma startPingInterval_rest c s :
  emitted (startPingInterval c s) = emitted s /\ promises (startPingInterval c s) = promises s /\
  lastConnected (startPingInterval c s) = lastConnected s /\
  suspended (startPingInterval c s) = suspended s /\ clients (startPingInterval c s) = clients s.
Proof. unfold startPingInterval. simpl. apply stopPingInterval_rest. Qed.

Lemma mgrView_resolveConnect p s : mgrView (resolveConnect p s) = mgrView s.
Proof. unfold resolveConnect. by repeat case_match. Qed.

Lemma emitted_resolveConnect p s : emitted (resolveConnect p s) = emitted s.
Proof. unfold resolveConnect. by repeat case_match. Qed.

Lemma resolveConnect_pending p aw s :
  promises s !! p = Some (mkPromise pending aw) ->
  settled <$> promises (resolveConnect p s) !! p = Some resolved /\
  lastConnected (resolveConnect p s) = lastConnected s ++ from_option (fun a => [a]) [] aw.
Proof.
  intros Hp. unfold resolveConnect. rewrite Hp.
  assert (settled <$> promises (settle p resolved s) !! p = Some resolved) as Hs.
  { unfold settle. simpl. by rewrite list_lookup_alter_eq, Hp. }
  destruct aw; simpl; [done|]. by rewrite app_nil_r.
Qed.

Lemma handleClientEvent_connected b s a l t :
  tabsInv b s ->
  findTab (fun t => bool_decide (alias t = Some a)) s = Some l ->
  tabAt s l = Some t ->
  handleClientEvent a ev_connected s =
    notifyStateChange (alterTab (fun t => setLastError None (setStatus connected t)) l s).
Proof.
  intros Hinv Hf Ht. unfold handleClientEvent. rewrite Hf, Ht.
  unfold updateTabStatus. by rewrite (findTab_by_id b s a l t Hinv Hf Ht).
Qed.

Lemma handleClientEvent_connecting b s a l t :
  tabsInv b s ->
  findTab (fun t => bool_decide (alias t = Some a)) s = Some l ->
  tabAt s l = Some t ->
  handleClientEvent a ev_connecting s =
    notifyStateChange (alterTab (fun t => setLastError None (setStatus connecting t)) l s).
Proof.
  intros Hinv Hf Ht. unfold handleClientEvent. rewrite Hf, Ht.
  unfold updateTabStatus. by rewrite (findTab_by_id b s a l t Hinv Hf Ht).
Qed.

Lemma tabsInv_reachable es : tabsInv false (run es init).
Proof. apply tabsInv_run, tabsInv_init. Qed.

(** X5. Authentication success.  In every reachable state, when
    [auth_response] with [success = true] arrives on an open socket with the
    callbacks of client [c]: the client becomes [connected] and keeps its
    socket; a new heartbeat timer of 30000 ms is registered for it; one
    [connected] event is emitted; a pending promise of [connect()] is
    resolved, and its awaiting [connectToRemote] goes on to
    [updateLastConnected(alias)]; the sockets are untouched; and the first
    tab that carries the client's alias ends [connected] with [lastError]
    cleared. *)
Theorem X5_auth_success es w k c p m :
  let s := run es init in
  sockets s !! w = Some k -> readyState k = OPEN -> onmessage k = Some (c, p) ->
  type m = "auth_response" -> success m = true ->
  let s' := step (WsMessage w (Some m)) s in
  exists cl cl',
    clientObjs s !! c = Some cl /\ clientObjs s' !! c = Some cl' /\
    _status cl' = connected /\ ws cl' = Some w /\ ws cl = Some w /\
    pingInterval cl' = Some (length (timers s)) /\
    timers s' !! length (timers s) = Some (mkTimer c 30000 false) /\
    sockets s' = sockets s /\
    emitted s' = emitted s ++ [(c, ev_connected)] /\
    (forall aw, promises s !! p = Some (mkPromise pending aw) ->
       settled <$> promises s' !! p = Some resolved /\
       lastConnected s' = lastConnected s ++ from_option (fun a => [a]) [] aw) /\
    (forall l, findTab (fun t => bool_decide (alias t = Some (eventHandler cl))) s = Some l ->
       exists t', tabAt s' l = Some t' /\ status t' = connected /\ lastError t' = None).
Proof.
  intros s Hk Hr Hm Hty Hsu s'.
  pose proof (netInv_reachable es) as [_ Hs]. fold s in Hs.
  pose proof (tabsInv_reachable es) as Hinv. fold s in Hinv.
  destruct (sockInv_attached _ _ w k c Hs Hk) as [Hat [cl Hc]]; [eauto|].
  destruct (si_live _ _ Hs w k c cl Hk Hat (or_intror Hr) Hc) as [Hw _].
  assert (s' = resolveConnect p (startPingInterval c (callEventHandler c ev_connected
                 (updClient c (with_status connected) s)))) as ->.
  { unfold s'. simpl. rewrite Hk, Hm. rewrite bool_decide_eq_true_2 by done.
    unfold on_message, handleMessage. rewrite Hty, Hsu. by rewrite bool_decide_eq_true_2. }
  set (s1 := updClient c (with_status connected) s).
  assert (clientObjs s1 !! c = Some (with_status connected cl)) as Hc1.
  { unfold s1, updClient. simpl. by rewrite list_lookup_alter_eq, Hc. }
  set (s2 := callEventHandler c ev_connected s1).
  pose proof (netView_callEventHandler c ev_connected s1) as Hn2. fold s2 in Hn2.
  destruct (netView_fields _ _ Hn2) as (Eo2 & Ek2 & Et2 & Ep2 & Ecl2).
  assert (clientObjs s2 !! c = Some (with_status connected cl)) as Hc2 by by rewrite Eo2.
  pose proof (emitted_callEventHandler c ev_connected s1 _ Hc1) as He2. fold s2 in He2.
  set (s3 := startPingInterval c s2).
  destruct (net_fields (startPingInterval_stores c s2 _ Hc2)) as (Eo3 & Ek3 & Et3).
  fold s3 in Eo3, Ek3, Et3.
  destruct (startPingInterval_rest c s2) as (He3 & Hp3 & Hl3 & _). fold s3 in He3, Hp3, Hl3.
  destruct (net_fields (net_resolveConnect p s3)) as (Eo4 & Ek4 & Et4).
  exists cl. eexists. split; [done|]. split.
  { rewrite Eo4, Eo3, list_lookup_alter_eq, Hc2. reflexivity. }
  simpl. rewrite Et2. split; [done|]. split; [done|]. split; [done|]. split; [done|].
  split; [|split; [|split; [|split]]].
  - rewrite Et4, Et3, Et2. rewrite lookup_app_r; rewrite length_stopped; [|done].
    by rewrite Nat.sub_diag.
  - by rewrite Ek4, Ek3, Ek2.
  - by rewrite emitted_resolveConnect, He3, He2.
  - intros aw Hp. destruct (resolveConnect_pending p aw s3) as [H1 H2].
    { by rewrite Hp3, Ep2. }
    split; [done|]. rewrite H2, Hl3. f_equal.
    unfold netView in Hn2. by injection Hn2 as _ _ _ _ _ -> _.
  - intros l Hf. destruct (find_tab_Some _ _ _ Hf) as (Hin & t & Ht & _).
    exists (setLastError None (setStatus connected t)). split; [|done].
    rewrite (tabAt_mgrView s3) by apply mgrView_resolveConnect.
    rewrite (tabAt_mgrView s2) by apply mgrView_startPingInterval.
    unfold s2, callEventHandler. rewrite Hc1. simpl.
    rewrite (handleClientEvent_connected false _ _ l t); [| |done..].
    + rewrite tabAt_notify. unfold tabAt, alterTab. simpl.
      rewrite list_lookup_alter_eq. unfold tabAt in Ht. by rewrite Ht.
    + revert Hinv. by apply tabsInv_ext.
Qed.

Lemma X5_auth_success_witness :
  let s := run [OnStateChange; Initialize; InitializeLoaded oneRemote; SelectTab 1 None;
                WsOpen 0] init in
  let s' := step (WsMessage 0 (Some (mkMsg "auth_response" None true None))) s in
  exists cl cl',
    clientObjs s !! 0 = Some cl /\ clientObjs s' !! 0 = Some cl' /\
    _status cl' = connected /\ ws cl' = Some 0 /\ ws cl = Some 0 /\
    pingInterval cl' = Some (length (timers s)) /\
    timers s' !! length (timers s) = Some (mkTimer 0 30000 false) /\
    sockets s' = sockets s /\
    emitted s' = emitted s ++ [(0, ev_connected)] /\
    (forall aw, promises s !! 0 = Some (mkPromise pending aw) ->
       settled <$> promises s' !! 0 = Some resolved /\
       lastConnected s' = lastConnected s ++ from_option (fun a => [a]) [] aw) /\
    (forall l, findTab (fun t => bool_decide (alias t = Some (eventHandler cl))) s = Some l ->
       exists t', tabAt s' l = Some t' /\ status t' = connected /\ lastError t' = None).
Proof.
  apply (X5_auth_success
           [OnStateChange; Initialize; InitializeLoaded oneRemote; SelectTab 1 None; WsOpen 0]
           0 (mkSocket ("h1", 8080%Z) (Some 0) (Some (0, 0)) (Some (0, 0)) (Some 0) OPEN false
                [authMessage "tok"]) 0 0 (mkMsg "auth_response" None true None));
    reflexivity.
Defined.

Lemma findTab_mgrView pred s s' : mgrView s' = mgrView s -> findTab pred s' = findTab pred s.
Proof.
  intros H. unfold findTab. rewrite (tabList_mgrView _ _ H). apply find_ext_in.
  intros l _. by rewrite (tabAt_mgrView _ _ l H).
Qed.

(** X6. [disconnect()].  In every reachable state, [disconnect()] on a
    client leaves it [disconnected] with no socket and no timer; the socket it
    held has its four callbacks detached and is closing or closed, the timer
    it held is cleared, and no other socket, timer or client changes; exactly
    one [disconnected] event without a reason is emitted; the entry in the
    manager's [clients] map stays, and no promise is settled (a [connect()]
    in flight stays pending); the first tab that carries the client's alias
    ends [disconnected] with [lastError] cleared. *)
Theorem X6_disconnect es c cl :
  let s := run es init in
  clientObjs s !! c = Some cl ->
  let s' := disconnect c s in
  clientObjs s' !! c =
    Some (with_status disconnected (with_ws None (with_pingInterval None cl))) /\
  (forall c', c' <> c -> clientObjs s' !! c' = clientObjs s !! c') /\
  (forall w, ws cl = Some w ->
     exists k, sockets s !! w = Some k /\ sockets s' !! w = Some (ws_close (detach k)) /\
       detached (ws_close (detach k)) /\ ~ live (ws_close (detach k))) /\
  (forall w, ws cl <> Some w -> sockets s' !! w = sockets s !! w) /\
  (forall t, pingInterval cl = Some t -> timers s' !! t = Some (mkTimer c 30000 true)) /\
  (forall t, pingInterval cl <> Some t -> timers s' !! t = timers s !! t) /\
  emitted s' = emitted s ++ [(c, ev_disconnected None)] /\
  clients s' = clients s /\ promises s' = promises s /\
  (forall l, findTab (fun t => bool_decide (alias t = Some (eventHandler cl))) s = Some l ->
     exists t', tabAt s' l = Some t' /\ status t' = disconnected /\ lastError t' = None).
Proof.
  intros s Hc s'.
  pose proof (netInv_reachable es) as [Hti Hs]. fold s in Hti, Hs.
  pose proof (tabsInv_reachable es) as Hinv. fold s in Hinv.
  destruct (net_fields (disconnect_stores c s cl Hc)) as (Eo & Ek & Et). fold s' in Eo, Ek, Et.
  set (s2 := updClient c (with_status disconnected) (cleanup c s)).
  assert (mgrView s2 = mgrView s) as Hm2.
  { unfold s2. rewrite mgrView_updClient by done. apply mgrView_cleanup. }
  assert (clientObjs s2 !! c =
            Some (with_status disconnected (with_ws None (with_pingInterval None cl)))) as Hc2.
  { unfold s2, updClient. simpl. by rewrite list_lookup_alter_eq, (cleanup_client c s cl Hc). }
  split; [by apply disconnect_client|]. split; [intros c' Hne; by apply disconnect_other|].
  split; [|split; [|split; [|split; [|split; [|split; [|split]]]]]].
  - intros w Hw. destruct (si_ws _ _ Hs c cl w Hc Hw) as (k & Hk & _). exists k.
    split; [done|]. rewrite Ek, Hw. simpl. rewrite list_lookup_alter_eq, Hk.
    split; [done|]. destruct (closed_detached_state k) as (Hd & H1 & H2).
    split; [done|]. by intros [?|?].
  - intros w Hw. rewrite Ek. destruct (ws cl) as [w0|]; simpl; [|done].
    rewrite list_lookup_alter_ne; [done|]. congruence.
  - intros t Hp. rewrite Et, Hp. simpl.
    by rewrite list_lookup_alter_eq, (ti_held _ _ Hti c cl t Hc Hp).
  - intros t Hp. rewrite Et. destruct (pingInterval cl) as [t0|]; simpl; [|done].
    rewrite list_lookup_alter_ne; [done|]. congruence.
  - unfold s', disconnect. fold s2. rewrite (emitted_callEventHandler c _ s2 _ Hc2).
    unfold s2. simpl. by rewrite cleanup_emitted.
  - apply clients_disconnect.
  - unfold s', disconnect. fold s2.
    destruct (netView_fields _ _ (netView_callEventHandler c (ev_disconnected None) s2))
      as (_ & _ & _ & -> & _).
    unfold s2. simpl. apply cleanup_promises.
  - intros l Hf. destruct (find_tab_Some _ _ _ Hf) as (Hin & t & Ht & _).
    exists (setLastError None (setStatus disconnected t)). split; [|done].
    unfold s', disconnect. fold s2. unfold callEventHandler. rewrite Hc2. simpl.
    set (s3 := set_emitted _ s2).
    assert (mgrView s3 = mgrView s) as Hm3 by done.
    assert (tabAt s3 l = Some t) as Ht3 by by rewrite (tabAt_mgrView _ _ l Hm3).
    rewrite (handleClientEvent_disconnected false s3 _ None l t).
    + rewrite tabAt_notify. unfold tabAt, alterTab in *. simpl.
      rewrite list_lookup_alter_eq. change (tabObjs (cleanup c s)) with (tabObjs s3).
      by rewrite Ht3.
    + by apply (tabsInv_frame false s).
    + by rewrite (findTab_mgrView _ _ _ Hm3).
    + done.
Qed.

Lemma X6_disconnect_witness :
  let s := run handshake init in
  let cl := mkClient (Some 0) "h1" 8080 "tok" "a" (Some 0) connected in
  let s' := disconnect 0 s in
  clientObjs s' !! 0 =
    Some (with_status disconnected (with_ws None (with_pingInterval None cl))) /\
  (forall c', c' <> 0 -> clientObjs s' !! c' = clientObjs s !! c') /\
  (forall w, ws cl = Some w ->
     exists k, sockets s !! w = Some k /\ sockets s' !! w = Some (ws_close (detach k)) /\
       detached (ws_close (detach k)) /\ ~ live (ws_close (detach k))) /\
  (forall w, ws cl <> Some w -> sockets s' !! w = sockets s !! w) /\
  (forall t, pingInterval cl = Some t -> timers s' !! t = Some (mkTimer 0 30000 true)) /\
  (forall t, pingInterval cl <> Some t -> timers s' !! t = timers s !! t) /\
  emitted s' = emitted s ++ [(0, ev_disconnected None)] /\
  clients s' = clients s /\ promises s' = promises s /\
  (forall l, findTab (fun t => bool_decide (alias t = Some (eventHandler cl))) s = Some l ->
     exists t', tabAt s' l = Some t' /\ status t' = disconnected /\ lastError t' = None).
Proof.
  apply (X6_disconnect handshake 0 (mkClient (Some 0) "h1" 8080 "tok" "a" (Some 0) connected)).
  reflexivity.
Defined.

(** ** Clients that the manager has dropped, and [disconnectAll] *)

Lemma touches_same c s s' :
  clientObjs s' = clientObjs s -> clients s' = clients s -> touches c s s'.
Proof. intros Ho Hc. split; [done|]. intros c' _. by rewrite Ho. Qed.

Lemma touches_trans c s1 s2 s3 : touches c s1 s2 -> touches c s2 s3 -> touches c s1 s3.
Proof.
  intros [H1 H2] [H3 H4]. split; [congruence|]. intros c' Hne. by rewrite H4, H2.
Qed.

Lemma touches_netView c s s' : netView s' = netView s -> touches c s s'.
Proof. intros (Ho & _ & _ & _ & Hc)%netView_fields. by apply touches_same. Qed.

Lemma touches_updClient c f s : touches c s (updClient c f s).
Proof. split; [done|]. intros c' Hne. unfold updClient. simpl. by rewrite list_lookup_alter_ne. Qed.

Lemma touches_callEventHandler c ev s : touches c s (callEventHandler c ev s).
Proof. apply touches_netView, netView_callEventHandler. Qed.

Lemma touches_cleanup c s : touches c s (cleanup c s).
Proof.
  split; [|intros c' Hne; by apply clientObjs_cleanup_ne].
  unfold cleanup, stopPingInterval. by repeat case_match.
Qed.

Lemma touches_startPingInterval c s : touches c s (startPingInterval c s).
Proof.
  split; [apply startPingInterval_rest|]. intros c' Hne. unfold startPingInterval, updClient.
  simpl. rewrite list_lookup_alter_ne by done. by apply clientObjs_stopPingInterval_ne.
Qed.

Lemma touches_resolveConnect c p s : touches c s (resolveConnect p s).
Proof. apply touches_same; unfold resolveConnect; by repeat case_match. Qed.

Lemma clients_notify s : clients (notifyStateChange s) = clients s.
Proof. unfold notifyStateChange. by destruct (stateChangeHandler s). Qed.

Lemma clientObjs_notify s : clientObjs (notifyStateChange s) = clientObjs s.
Proof. unfold notifyStateChange. by destruct (stateChangeHandler s). Qed.

Lemma touches_rejectConnect c p r s : touches c s (rejectConnect p r s).
Proof.
  apply touches_same; unfold rejectConnect, resumeSelectTab; repeat case_match; try done;
    by rewrite ?clients_notify, ?clientObjs_notify.
Qed.

Lemma touches_disconnect c s : touches c s (disconnect c s).
Proof. split; [apply clients_disconnect|]. intros c' Hne. by apply disconnect_other. Qed.

Lemma touches_handleMessage c p m s : touches c s (handleMessage c p m s).
Proof.
  unfold handleMessage. repeat case_match.
  - eapply touches_trans; [|apply touches_resolveConnect].
    eapply touches_trans; [|apply touches_startPingInterval].
    eapply touches_trans; [|apply touches_callEventHandler]. apply touches_updClient.
  - eapply touches_trans; [|apply touches_rejectConnect].
    eapply touches_trans; [|apply touches_cleanup].
    eapply touches_trans; [|apply touches_callEventHandler]. apply touches_updClient.
  - by apply touches_same.
  - apply touches_callEventHandler.
Qed.

Lemma touches_connect c ctor s : touches c s (connect c ctor s).1.
Proof.
  unfold connect. destruct (clientObjs s !! c) as [cl|]; [|by apply touches_same].
  destruct (_status cl); try by apply touches_same.
  set (s2 := callEventHandler c ev_connecting (updClient c (with_status connecting) s)).
  assert (touches c s s2) as H2.
  { eapply touches_trans; [|apply touches_callEventHandler]. apply touches_updClient. }
  destruct ctor as [msg|]; simpl.
  - eapply touches_trans; [|apply touches_rejectConnect].
    eapply touches_trans; [|apply touches_callEventHandler].
    eapply touches_trans; [|apply touches_updClient].
    eapply touches_trans; [exact H2|]. by apply touches_same.
  - eapply touches_trans; [|apply touches_updClient].
    eapply touches_trans; [exact H2|]. by apply touches_same.
Qed.

Lemma ownedInv_same s s' :
  clientObjs s' = clientObjs s -> clients s' = clients s -> ownedInv s -> ownedInv s'.
Proof. intros Ho Hc H c cl. rewrite Ho, Hc. apply H. Qed.

Lemma ownedInv_netView s s' : netView s' = netView s -> ownedInv s -> ownedInv s'.
Proof. intros (Ho & _ & _ & _ & Hc)%netView_fields. by apply ownedInv_same. Qed.

(** A change of one client keeps the invariant when the client is an entry
    of the map or ends idle. *)
Lemma ownedInv_at c s s' :
  touches c s s' ->
  (exists a, clients_get a (clients s) = Some c) \/
    (forall cl', clientObjs s' !! c = Some cl' -> idle cl') ->
  ownedInv s -> ownedInv s'.
Proof.
  intros [Hc Ho] Hat H c' cl' Hl. rewrite Hc. destruct (decide (c' = c)) as [->|Hne].
  - destruct Hat as [?|Hi]; [by left|right; by apply Hi].
  - rewrite Ho in Hl by done. by apply H.
Qed.

Lemma ownedInv_idle_or_mapped c cl s :
  ownedInv s -> clientObjs s !! c = Some cl -> ws cl <> None ->
  exists a, clients_get a (clients s) = Some c.
Proof. intros H Hc Hw. destruct (H c cl Hc) as [?|(_ & ? & _)]; done. Qed.

Lemma ownedInv_step_message w data s :
  netInv s -> ownedInv s -> ownedInv (step (WsMessage w data) s).
Proof.
  intros [_ Hs] H. simpl. destruct (sockets s !! w) as [k|] eqn:Hk; [|done].
  case_bool_decide as Hr; [|done]. destruct (onmessage k) as [[c p]|] eqn:Hm; [|done].
  destruct data as [m|]; [|done]. simpl.
  destruct (sockInv_attached _ _ w k c Hs Hk) as [Hat [cl Hc]]; [eauto|].
  destruct (si_live _ _ Hs w k c cl Hk Hat (or_intror Hr) Hc) as [Hw _].
  apply (ownedInv_at c s); [apply touches_handleMessage| |done].
  left. apply (ownedInv_idle_or_mapped c cl); [done|done|congruence].
Qed.

Lemma ownedInv_callEventHandler c ev s : ownedInv s -> ownedInv (callEventHandler c ev s).
Proof. apply ownedInv_netView, netView_callEventHandler. Qed.

Lemma ownedInv_notify s : ownedInv s -> ownedInv (notifyStateChange s).
Proof. apply ownedInv_netView, netView_notify. Qed.

Lemma ownedInv_updateTabStatus tabId st e s : ownedInv s -> ownedInv (updateTabStatus tabId st e s).
Proof. apply ownedInv_netView, netView_updateTabStatus. Qed.

Lemma ownedInv_rejectConnect p r s : ownedInv s -> ownedInv (rejectConnect p r s).
Proof.
  apply ownedInv_same; unfold rejectConnect, resumeSelectTab; repeat case_match; try done;
    by rewrite ?clients_notify, ?clientObjs_notify.
Qed.

Lemma ownedInv_resolveConnect p s : ownedInv s -> ownedInv (resolveConnect p s).
Proof. apply ownedInv_same; unfold resolveConnect; by repeat case_match. Qed.

(** A write to a client that keeps an idle client idle. *)
Lemma ownedInv_updClient c f s :
  (forall cl, idle cl -> idle (f cl)) -> ownedInv s -> ownedInv (updClient c f s).
Proof.
  intros Hf H c' cl'. unfold updClient. simpl. rewrite list_lookup_alter. case_decide as Hcc.
  - subst c'. destruct (clientObjs s !! c) as [cl|] eqn:Hc; [|done]. intros [= <-].
    destruct (H c cl Hc) as [?|?]; [by left|right; by apply Hf].
  - apply H.
Qed.

Lemma ownedInv_cleanup c s : ownedInv s -> ownedInv (cleanup c s).
Proof.
  intros H. destruct (clientObjs s !! c) as [cl|] eqn:Hc.
  - apply (ownedInv_at c s); [apply touches_cleanup| |done].
    destruct (H c cl Hc) as [?|(Hst & _)]; [by left|right].
    intros cl'. rewrite (cleanup_client c s cl Hc). by intros [= <-].
  - apply (ownedInv_at c s); [apply touches_cleanup| |done]. right.
    intros cl'. unfold cleanup, stopPingInterval. rewrite Hc. simpl. rewrite ?Hc. done.
Qed.

Lemma ownedInv_step_error w s : ownedInv s -> ownedInv (step (WsError w) s).
Proof.
  intros H. simpl. destruct (sockets s !! w) as [k|] eqn:Hk; [|done].
  case_bool_decide as Hr; [done|].
  assert (ownedInv (updSocket w (setReadyState CLOSED) s)) as H1 by done.
  destruct (onerror k) as [[c p]|]; [|done]. unfold on_error.
  apply ownedInv_rejectConnect, ownedInv_callEventHandler, ownedInv_updClient; [|done].
  by intros cl (_ & ? & ?).
Qed.

Lemma ownedInv_step_close w s : ownedInv s -> ownedInv (step (WsClose w) s).
Proof.
  intros H. simpl. destruct (sockets s !! w) as [k|] eqn:Hk; [|done].
  destruct (closeFired k); [done|].
  assert (ownedInv (updSocket w setCloseFired s)) as H1 by done.
  destruct (onclose k) as [c|]; [|done]. unfold on_close.
  apply (ownedInv_cleanup c) in H1. case_bool_decide; [|done].
  apply ownedInv_callEventHandler, ownedInv_updClient; [|done].
  by intros cl (_ & ? & ?).
Qed.

Lemma ownedInv_step_open w s : ownedInv s -> ownedInv (step (WsOpen w) s).
Proof.
  intros H. simpl. destruct (sockets s !! w) as [k|] eqn:Hk; [|done].
  case_bool_decide as Hr; [|done].
  assert (ownedInv (updSocket w (setReadyState OPEN) s)) as H1 by done.
  destruct (onopen k) as [c|]; [|done]. revert H1. apply ownedInv_same.
  - unfold on_open, authenticate. by repeat case_match.
  - unfold on_open, authenticate. by repeat case_match.
Qed.

Lemma ownedInv_step_tick t s : ownedInv s -> ownedInv (step (TimerTick t) s).
Proof.
  intros H. rewrite tick_unfold. repeat case_match; try done.
Qed.

(** [connect()] on a client that is an entry of the map. *)
Lemma ownedInv_connect a c ctor s :
  clients_get a (clients s) = Some c -> ownedInv s -> ownedInv (connect c ctor s).1.
Proof. intros Ha. apply (ownedInv_at c s); [apply touches_connect|eauto]. Qed.

Lemma ownedInv_awaitConnect a p s : ownedInv s -> ownedInv (awaitConnect a p s).
Proof.
  apply ownedInv_same; unfold awaitConnect, resumeSelectTab, resumeConnected;
    repeat case_match; try done; by rewrite ?clients_notify, ?clientObjs_notify.
Qed.

Lemma ownedInv_connectToRemote l ctor s : ownedInv s -> ownedInv (connectToRemote l ctor s).1.
Proof.
  intros H. unfold connectToRemote.
  destruct (tabAt s l) as [t|]; [|done].
  destruct (alias t) as [a|]; [|done]. destruct (host t) as [h|]; [|done].
  destruct (port t) as [p|]; [|done].
  case_match; [done|].
  destruct (remoteConfigs s !! a) as [config|]; simpl; [|by apply ownedInv_updateTabStatus].
  destruct (clients_get a (clients s)) as [c|] eqn:Hg; simpl.
  - case_match; [done|].
    assert (clients_get a (clients (updateTabStatus (id t) connecting None s)) = Some c) as Hg1.
    { by rewrite (proj2 (proj2 (proj2 (proj2 (netView_fields _ _
                   (netView_updateTabStatus (id t) connecting None s)))))). }
    pose proof (ownedInv_connect a c ctor _ Hg1
                  (ownedInv_updateTabStatus (id t) connecting None _ H)) as H2.
    destruct (connect c ctor _) as [s3 pr]. by apply ownedInv_awaitConnect.
  - match goal with |- context [updateTabStatus _ _ _ ?s1] =>
      assert (ownedInv s1 /\ clients_get a (clients s1) = Some (length (clientObjs s)))
        as [H1 Hg1] end.
    { split; [|simpl; apply clients_get_set_eq].
      intros c cl. simpl. rewrite lookup_app. destruct (clientObjs s !! c) as [cl0|] eqn:Hc.
      - intros [= <-]. destruct (H c cl0 Hc) as [[b Hb]|?]; [left|by right].
        exists b. rewrite clients_get_set_ne; [done|]. intros <-. congruence.
      - intros Hl. left. exists a.
        destruct (c - length (clientObjs s)) as [|n] eqn:Hn; simpl in Hl; [|done].
        apply lookup_ge_None in Hc. assert (c = length (clientObjs s)) as -> by lia.
        apply clients_get_set_eq. }
    assert (clients_get a (clients (updateTabStatus (id t) connecting None
              (set_clients (clients_set a (length (clientObjs s)) (clients s))
                 (set_clientObjs (clientObjs s ++
                    [mkClient None h p (cfg_token config) a None disconnected]) s))))
            = Some (length (clientObjs s))) as Hg2.
    { by rewrite (proj2 (proj2 (proj2 (proj2 (netView_fields _ _
                   (netView_updateTabStatus (id t) connecting None _)))))). }
    pose proof (ownedInv_connect a _ ctor _ Hg2
                  (ownedInv_updateTabStatus (id t) connecting None _ H1)) as H2.
    destruct (connect _ ctor _) as [s3 pr]. by apply ownedInv_awaitConnect.
Qed.

Lemma ownedInv_selectTab index ctor s : ownedInv s -> ownedInv (selectTab index ctor s).
Proof.
  intros H. unfold selectTab. case_match; [done|].
  assert (ownedInv (set_selectedIndex index s)) as H1 by done.
  destruct (tabList _ !! Z.to_nat index) as [l|]; [|done].
  destruct (tabAt _ l) as [tab|]; [|done].
  case_match; [|by apply ownedInv_notify].
  pose proof (ownedInv_connectToRemote l ctor _ H1) as Hc.
  destruct (connectToRemote l ctor _) as [s2 []]; [by apply ownedInv_notify|done].
Qed.

Lemma is_Some_disconnect c c' s :
  is_Some (clientObjs (disconnect c s) !! c') <-> is_Some (clientObjs s !! c').
Proof.
  destruct (decide (c' = c)) as [->|Hne]; [|by rewrite disconnect_other].
  destruct (clientObjs s !! c) as [cl|] eqn:Hc.
  - rewrite (disconnect_client c s cl Hc). split; eauto.
  - destruct (net_fields (disconnect_invalid c s Hc)) as (-> & _). by rewrite Hc.
Qed.

Lemma fold_disconnect_released (m : list (string * nat)) s c :
  released c s \/ (c ∈ m.*2 /\ is_Some (clientObjs s !! c)) ->
  released c (fold_left (fun s kv => disconnect kv.2 s) m s).
Proof.
  revert s. induction m as [|kv m IH]; intros s; simpl.
  - intros [?|[Hin _]]; [done|]. by apply elem_of_nil in Hin.
  - intros [Hr|[Hin [cl Hc]]]; apply IH.
    + left. by apply released_disconnect.
    + apply elem_of_cons in Hin as [->|Hin].
      * left. by apply (disconnect_released _ _ cl).
      * right. split; [done|]. apply is_Some_disconnect. eauto.
Qed.

Lemma is_Some_fold_disconnect (m : list (string * nat)) s c :
  is_Some (clientObjs (fold_left (fun s kv => disconnect kv.2 s) m s) !! c) ->
  is_Some (clientObjs s !! c).
Proof.
  revert s. induction m as [|kv m IH]; intros s; simpl; [done|].
  intros H%IH. by apply is_Some_disconnect in H.
Qed.

Lemma clients_get_elem a c (m : list (string * nat)) : clients_get a m = Some c -> c ∈ m.*2.
Proof.
  induction m as [|[k v] m IH]; simpl; [done|]. case_bool_decide.
  - intros [= ->]. apply list_elem_of_here.
  - intros H'. apply list_elem_of_further. by apply IH.
Qed.

(** After the loop of [disconnectAll()] over the map, every client object
    is released. *)
Lemma disconnect_loop_released s c :
  ownedInv s ->
  is_Some (clientObjs (fold_left (fun s kv => disconnect kv.2 s) (clients s) s) !! c) ->
  released c (fold_left (fun s kv => disconnect kv.2 s) (clients s) s).
Proof.
  intros H Hs. apply is_Some_fold_disconnect in Hs as [cl Hc].
  apply fold_disconnect_released. destruct (H c cl Hc) as [[a Ha]|Hi].
  - right. split; [by apply (clients_get_elem a)|eauto].
  - left. by exists cl.
Qed.

Lemma net_tab_loop (g : InstanceTab -> InstanceTab) ls s :
  netView (fold_left (fun s l => set_tabObjs (alter g l (tabObjs s)) s) ls s) = netView s.
Proof. revert s. induction ls as [|l ls IH]; intros s; simpl; [done|]. by rewrite IH. Qed.

Lemma clientObjs_disconnectAll s :
  clientObjs (disconnectAll s) =
    clientObjs (fold_left (fun s kv => disconnect kv.2 s) (clients s) s).
Proof.
  unfold disconnectAll. rewrite clientObjs_notify.
  by rewrite (proj1 (netView_fields _ _ (net_tab_loop _ _ _))).
Qed.

Lemma disconnectAll_released s c :
  ownedInv s -> is_Some (clientObjs (disconnectAll s) !! c) -> released c (disconnectAll s).
Proof.
  intros H. unfold released. rewrite clientObjs_disconnectAll. by apply disconnect_loop_released.
Qed.

Lemma ownedInv_disconnectAll s : ownedInv s -> ownedInv (disconnectAll s).
Proof.
  intros H c cl Hc. right.
  destruct (disconnectAll_released s c H) as (cl' & Hc' & Hi); [eauto|].
  rewrite Hc in Hc'. injection Hc' as <-. exact Hi.
Qed.

Lemma ownedInv_evict a c s :
  clients_get a (clients s) = Some c -> ownedInv s ->
  ownedInv (set_clients (clients_delete a (clients (disconnect c s))) (disconnect c s)).
Proof.
  intros Ha H c' cl' Hc'. simpl in *. rewrite clients_disconnect.
  destruct (decide (c' = c)) as [->|Hne].
  - right. assert (is_Some (clientObjs s !! c)) as [cl Hc] by (apply (is_Some_disconnect c c s); eauto).
    destruct (disconnect_released c s cl Hc) as (cl2 & Hc2 & Hi).
    rewrite Hc' in Hc2. injection Hc2 as <-. exact Hi.
  - rewrite disconnect_other in Hc' by done. destruct (H c' cl' Hc') as [[b Hb]|?]; [left|by right].
    exists b. rewrite clients_get_delete_ne; [done|]. intros <-. congruence.
Qed.

Lemma ownedInv_refreshKeep nA l s : ownedInv s -> ownedInv (refreshKeep nA l s).2.
Proof.
  intros H. unfold refreshKeep. repeat case_match; simpl; try done. by apply ownedInv_evict.
Qed.

Lemma ownedInv_filterTabs nA ls s : ownedInv s -> ownedInv (filterTabs nA ls s).2.
Proof.
  revert s. induction ls as [|l ls IH]; intros s H; simpl; [done|].
  pose proof (ownedInv_refreshKeep nA l s H) as H1.
  destruct (refreshKeep nA l s) as [keep s1]. simpl in H1.
  specialize (IH s1 H1). by destruct (filterTabs nA ls s1).
Qed.

Lemma ownedInv_refresh remotes s : ownedInv s -> ownedInv (refresh remotes s).
Proof.
  intros H. rewrite refresh_unfold. cbv zeta. apply ownedInv_notify.
  assert (ownedInv (fold_left addRemote remotes (refreshFiltered remotes.*1 s))) as H3.
  { apply fold_left_preserves.
    - intros s' r. apply ownedInv_same; unfold addRemote; by case_match.
    - unfold refreshFiltered. pose proof (ownedInv_filterTabs remotes.*1 (tabList s) s H) as H1.
      by destruct (filterTabs _ _ s). }
  by case_match.
Qed.

Lemma ownedInv_step e s : netInv s -> ownedInv s -> ownedInv (step e s).
Proof.
  intros Hn H. destruct e.
  - done.
  - unfold step, initializeLoaded. apply ownedInv_notify, fold_left_preserves; [|done].
    intros s' r. by apply ownedInv_same.
  - done.
  - by apply ownedInv_selectTab.
  - by apply ownedInv_selectTab.
  - by apply ownedInv_selectTab.
  - by apply ownedInv_disconnectAll.
  - by apply ownedInv_refresh.
  - simpl. destruct (suspended s); [done|]. by apply ownedInv_notify.
  - by apply ownedInv_step_open.
  - by apply ownedInv_step_message.
  - by apply ownedInv_step_error.
  - by apply ownedInv_step_close.
  - by apply ownedInv_step_tick.
Qed.

Lemma ownedInv_run es s : netInv s -> ownedInv s -> ownedInv (run es s).
Proof.
  revert s. induction es as [|e es IH]; simpl; intros s Hn H; [done|].
  apply IH; [by apply netInv_step|by apply ownedInv_step].
Qed.

Lemma ownedInv_reachable es : ownedInv (run es init).
Proof. apply ownedInv_run; [apply netInv_init|]. by intros c cl. Qed.

(** X7. In every reachable state, a client object that is not an entry of
    the manager's [clients] map (its alias was removed by [refresh()], or
    [disconnectAll()] ran) is [disconnected], holds no socket and no timer;
    every timer that belongs to it is cleared, and no socket with its
    callbacks is connecting or open. *)
Theorem X7_dropped_client_holds_nothing es c cl :
  let s := run es init in
  clientObjs s !! c = Some cl ->
  (forall a, clients_get a (clients s) <> Some c) ->
  _status cl = disconnected /\ ws cl = None /\ pingInterval cl = None /\
  (forall t tm, timers s !! t = Some tm -> callback tm = c -> cleared tm = true) /\
  (forall w k, sockets s !! w = Some k -> attached k c -> ~ live k).
Proof.
  intros s Hc Hno.
  pose proof (netInv_reachable es) as [Hti Hs]. fold s in Hti, Hs.
  destruct (ownedInv_reachable es c cl Hc) as [[a Ha]|(Hst & Hw & Hp)]; [by destruct (Hno a)|].
  repeat split; try done.
  - intros t tm Htm Hcb. destruct (cleared tm) eqn:Hcl; [done|].
    destruct (ti_owner _ _ Hti t tm Htm Hcl) as (cl' & Hc' & Hp'). congruence.
  - intros w k Hk Hat Hl. destruct (si_live _ _ Hs w k c cl Hk Hat Hl Hc) as [Hw' _]. congruence.
Qed.

Lemma X7_dropped_client_holds_nothing_witness :
  let s := run (handshake ++ [Refresh []]) init in
  let cl := mkClient None "h1" 8080 "tok" "a" None disconnected in
  _status cl = disconnected /\ ws cl = None /\ pingInterval cl = None /\
  (forall t tm, timers s !! t = Some tm -> callback tm = 0 -> cleared tm = true) /\
  (forall w k, sockets s !! w = Some k -> attached k 0 -> ~ live k).
Proof.
  apply (X7_dropped_client_holds_nothing (handshake ++ [Refresh []]) 0
           (mkClient None "h1" 8080 "tok" "a" None disconnected)).
  - reflexivity.
  - intros a. vm_compute. discriminate.
Defined.

Lemma tab_loop_lookup (g : InstanceTab -> InstanceTab) ls s l :
  (forall t, g (g t) = g t) ->
  tabObjs (fold_left (fun s l => set_tabObjs (alter g l (tabObjs s)) s) ls s) !! l =
    if bool_decide (l ∈ ls) then g <$> tabObjs s !! l else tabObjs s !! l.
Proof.
  intros Hg. revert s. induction ls as [|l0 ls IH]; intros s; simpl; [done|].
  rewrite IH. simpl. destruct (decide (l = l0)) as [->|Hne].
  - rewrite list_lookup_alter_eq. rewrite (bool_decide_eq_true_2 (l0 ∈ l0 :: ls))
      by apply list_elem_of_here.
    case_bool_decide; [|done]. destruct (tabObjs s !! l0); simpl; [|done]. by rewrite Hg.
  - rewrite list_lookup_alter_ne by done.
    case_bool_decide as H1.
    + rewrite bool_decide_eq_true_2; [done|]. by apply list_elem_of_further.
    + rewrite bool_decide_eq_false_2; [done|]. intros [?|?]%elem_of_cons; done.
Qed.

Lemma mgr_tab_loop (g : InstanceTab -> InstanceTab) ls s :
  let s' := fold_left (fun s l => set_tabObjs (alter g l (tabObjs s)) s) ls s in
  arrays s' = arrays s /\ tabs s' = tabs s.
Proof.
  revert s. induction ls as [|l ls IH]; intros s; simpl; [done|].
  destruct (IH (set_tabObjs (alter g l (tabObjs s)) s)) as [-> ->]. done.
Qed.

(** X8. [disconnectAll()].  In every reachable state, after
    [disconnectAll()] the [clients] map is empty; every client object is
    [disconnected] and holds no socket and no timer; no timer is left
    running; every socket that is still connecting or open has lost its
    callbacks (and [close()] was called on it); the tab list is the same
    list of tabs, and every tab in it that is not local is
    [disconnected]. *)
Theorem X8_disconnectAll es :
  let s := run es init in
  let s' := disconnectAll s in
  clients s' = [] /\
  (forall c cl, clientObjs s' !! c = Some cl ->
     _status cl = disconnected /\ ws cl = None /\ pingInterval cl = None) /\
  (forall t tm, timers s' !! t = Some tm -> cleared tm = true) /\
  (forall w k, sockets s' !! w = Some k -> live k -> detached k) /\
  tabList s' = tabList s /\
  (forall l t', l ∈ tabList s' -> tabAt s' l = Some t' -> isLocal t' = false ->
     status t' = disconnected).
Proof.
  intros s s'.
  pose proof (netInv_disconnectAll s (netInv_reachable es)) as [Hti Hs]. fold s' in Hti, Hs.
  pose proof (ownedInv_reachable es) as Ho. fold s in Ho.
  pose proof (tabsInv_reachable es) as Hinv. fold s in Hinv.
  assert (forall c cl, clientObjs s' !! c = Some cl -> idle cl) as Hidle.
  { intros c cl Hc. destruct (disconnectAll_released s c Ho) as (cl' & Hc' & Hi); [eauto|].
    fold s' in Hc'. rewrite Hc in Hc'. injection Hc' as <-. exact Hi. }
  set (s1 := fold_left (fun s kv => disconnect kv.2 s) (clients s) s).
  assert (sameTabs s s1) as Hsame.
  { apply fold_left_preserves; [intros; by apply sameTabs_disconnect|].
    apply sameTabs_refl. by destruct Hinv. }
  set (g := fun t : InstanceTab => if isLocal t then t else setStatus disconnected t).
  set (s2 := set_clients [] s1).
  set (s3 := fold_left (fun s l => set_tabObjs (alter g l (tabObjs s)) s) (tabList s2) s2).
  assert (s' = notifyStateChange s3) as Es' by reflexivity.
  destruct (mgr_tab_loop g (tabList s2) s2) as [Ea Et]. fold s3 in Ea, Et.
  assert (tabList s3 = tabList s) as El3.
  { rewrite (tabList_view s2 s3 Ea Et). apply (same_list s s1 Hsame). }
  assert (tabs s3 < length (arrays s3)) as Hv3.
  { rewrite Ea, Et. apply (same_ref s s1 Hsame). }
  split; [|split; [|split; [|split; [|split]]]].
  - rewrite Es', clients_notify. unfold s3.
    by destruct (netView_fields _ _ (net_tab_loop g (tabList s2) s2)) as (_ & _ & _ & _ & ->).
  - exact Hidle.
  - intros t tm Htm. destruct (cleared tm) eqn:Hcl; [done|].
    destruct (ti_owner _ _ Hti t tm Htm Hcl) as (cl & Hc & Hp).
    destruct (Hidle _ _ Hc) as (_ & _ & ?). congruence.
  - intros w k Hk Hl. destruct (si_handlers _ _ Hs w k Hk) as [?|(c & Hat & _ & [cl Hc])]; [done|].
    destruct (si_live _ _ Hs w k c cl Hk Hat Hl Hc) as [Hw _].
    destruct (Hidle _ _ Hc) as (_ & ? & _). congruence.
  - by rewrite Es', tabList_notify.
  - rewrite Es', tabList_notify by done. intros l t' Hl. rewrite tabAt_notify.
    unfold tabAt, s3. rewrite tab_loop_lookup.
    + rewrite bool_decide_eq_true_2.
      * destruct (tabObjs s2 !! l) as [t|]; simpl; [|done]. intros [= <-]. unfold g.
        destruct (isLocal t) eqn:Hloc; [congruence|done].
      * rewrite El3 in Hl. by rewrite <- (same_list s s1 Hsame) in Hl.
    + intros t. unfold g. destruct (isLocal t) eqn:Hloc; simpl; by rewrite Hloc.
Qed.

(** ** Stored configurations *)

Lemma configured_frame s s' : mgrView s' = mgrView s -> configured s -> configured s'.
Proof.
  unfold mgrView. intros [= Ho _ _ _ _ _ _ Hr _] H l t a. unfold tabAt. rewrite Ho, Hr. apply H.
Qed.

Lemma configured_same s s' :
  tabObjs s' = tabObjs s -> remoteConfigs s' = remoteConfigs s -> configured s -> configured s'.
Proof. intros Ho Hr H l t a. unfold tabAt. rewrite Ho, Hr. apply H. Qed.

Lemma configured_alterTab g l s :
  (forall t, alias (g t) = alias t) -> configured s -> configured (alterTab g l s).
Proof.
  intros Hg H l' t' a. unfold tabAt, alterTab. simpl. rewrite list_lookup_alter.
  case_decide as Hl; [|apply H]. subst l'.
  destruct (tabObjs s !! l) as [t|] eqn:Ht; [|done]. intros [= <-]. rewrite Hg. by apply (H l).
Qed.

Lemma configured_notify s : configured s -> configured (notifyStateChange s).
Proof. apply configured_same; unfold notifyStateChange; by destruct (stateChangeHandler s). Qed.

Lemma configured_updateTabStatus tabId st e s :
  configured s -> configured (updateTabStatus tabId st e s).
Proof.
  intros H. unfold updateTabStatus. destruct (findTab _ s) as [l|]; [|done].
  apply configured_notify. by apply (configured_alterTab _ l s).
Qed.

Lemma configured_handleClientEvent a ev s : configured s -> configured (handleClientEvent a ev s).
Proof.
  intros H. unfold handleClientEvent. repeat case_match; try done;
    by apply configured_updateTabStatus.
Qed.

Lemma configured_connectToRemote l ctor s :
  configured s -> configured (connectToRemote l ctor s).1.
Proof.
  intros H. unfold connectToRemote.
  destruct (tabAt s l) as [t|]; [|done].
  destruct (alias t) as [a|]; [|done]. destruct (host t) as [h|]; [|done].
  destruct (port t) as [p|]; [|done].
  case_match; [done|].
  destruct (remoteConfigs s !! a) as [config|]; simpl; [|by apply configured_updateTabStatus].
  destruct (clients_get a (clients s)) as [c|]; simpl.
  - case_match; [done|].
    pose proof (P_connect _ configured_frame configured_handleClientEvent configured_notify
                  c ctor _ (configured_updateTabStatus (id t) connecting None _ H)) as H2.
    destruct (connect c ctor _) as [s3 pr].
    by apply (P_awaitConnect _ configured_frame configured_notify).
  - match goal with |- context [updateTabStatus _ _ _ ?s1] =>
      assert (configured s1) as H1 by by apply configured_same with (3 := H) end.
    pose proof (P_connect _ configured_frame configured_handleClientEvent configured_notify
                  (length (clientObjs s)) ctor _
                  (configured_updateTabStatus (id t) connecting None _ H1)) as H2.
    destruct (connect _ ctor _) as [s3 pr].
    by apply (P_awaitConnect _ configured_frame configured_notify).
Qed.

Lemma configured_selectTab index ctor s : configured s -> configured (selectTab index ctor s).
Proof.
  intros H. unfold selectTab. case_match; [done|].
  assert (configured (set_selectedIndex index s)) as H1 by done.
  destruct (tabList _ !! Z.to_nat index) as [l|]; [|done].
  destruct (tabAt _ l) as [tab|]; [|done].
  case_match; [|by apply configured_notify].
  pose proof (configured_connectToRemote l ctor _ H1) as Hc.
  destruct (connectToRemote l ctor _) as [s2 []]; [by apply configured_notify|done].
Qed.

Lemma configured_disconnect c s : configured s -> configured (disconnect c s).
Proof. apply (P_disconnect _ configured_frame configured_handleClientEvent). Qed.

Lemma configured_disconnectAll s : configured s -> configured (disconnectAll s).
Proof.
  intros H. unfold disconnectAll. apply configured_notify, fold_left_preserves.
  - intros s' l H'. apply (configured_alterTab _ l s'); [|done]. intros t. by destruct (isLocal t).
  - apply (configured_same (fold_left (fun s kv => disconnect kv.2 s) (clients s) s)); try done.
    apply fold_left_preserves; [|done]. intros s' kv. apply configured_disconnect.
Qed.

(** A new tab object for [r], after the configuration of [r] was stored. *)
Lemma configured_pushRemote s (r : string * RemoteServerConfig) :
  configured s ->
  configured (pushTab (createRemoteTab r.1 (cfg_host r.2) (cfg_port r.2))
                (set_remoteConfigs (<[r.1 := r.2]> (remoteConfigs s)) s)).
Proof.
  intros H l t a. unfold tabAt, pushTab. simpl. rewrite lookup_app.
  destruct (tabObjs s !! l) as [t0|] eqn:Ht.
  - intros [= <-] Ha. destruct (decide (r.1 = a)) as [<-|Hne].
    + rewrite lookup_insert_eq. eauto.
    + rewrite lookup_insert_ne by done. by apply (H l t0).
  - destruct (l - length (tabObjs s)) as [|n]; simpl; [|done].
    intros [= <-] [= <-]. rewrite lookup_insert_eq. eauto.
Qed.

Lemma configured_setConfig s (r : string * RemoteServerConfig) :
  configured s -> configured (set_remoteConfigs (<[r.1 := r.2]> (remoteConfigs s)) s).
Proof.
  intros H l t a Ht Ha. simpl. destruct (decide (r.1 = a)) as [<-|Hne].
  - rewrite lookup_insert_eq. eauto.
  - rewrite lookup_insert_ne by done. by apply (H l t).
Qed.

Lemma configured_addRemote s r : configured s -> configured (addRemote s r).
Proof.
  intros H. unfold addRemote. case_match; [by apply configured_setConfig|].
  by apply configured_pushRemote.
Qed.

Lemma configured_refreshKeep nA l s : configured s -> configured (refreshKeep nA l s).2.
Proof.
  intros H. unfold refreshKeep. repeat case_match; simpl; try done.
  match goal with |- configured (set_clients _ ?s1) =>
    apply (configured_same s1); [done|done|] end.
  by apply configured_disconnect.
Qed.

Lemma configured_filterTabs nA ls s : configured s -> configured (filterTabs nA ls s).2.
Proof.
  revert s. induction ls as [|l ls IH]; intros s H; simpl; [done|].
  pose proof (configured_refreshKeep nA l s H) as H1.
  destruct (refreshKeep nA l s) as [keep s1]. simpl in H1.
  specialize (IH s1 H1). by destruct (filterTabs nA ls s1).
Qed.

Lemma configured_refresh remotes s : configured s -> configured (refresh remotes s).
Proof.
  intros H. rewrite refresh_unfold. cbv zeta. apply configured_notify.
  assert (configured (fold_left addRemote remotes (refreshFiltered remotes.*1 s))) as H3.
  { apply fold_left_preserves; [intros; by apply configured_addRemote|].
    unfold refreshFiltered. pose proof (configured_filterTabs remotes.*1 (tabList s) s H) as H1.
    by destruct (filterTabs _ _ s). }
  by case_match.
Qed.

Lemma configured_step e s : configured s -> configured (step e s).
Proof.
  intros H. destruct e;
    try (by apply (P_step_transport _ configured_frame configured_handleClientEvent
                     configured_notify)).
  - intros l t a. unfold tabAt, step, initialize. simpl. rewrite lookup_app.
    destruct (tabObjs s !! l) as [t0|] eqn:Ht; [intros [= <-]; by apply (H l)|].
    destruct (l - length (tabObjs s)) as [|n]; simpl; [|done]. by intros [= <-].
  - unfold step, initializeLoaded. apply configured_notify, fold_left_preserves; [|done].
    intros s' r H'. by apply configured_pushRemote.
  - done.
  - by apply configured_selectTab.
  - by apply configured_selectTab.
  - by apply configured_selectTab.
  - by apply configured_disconnectAll.
  - by apply configured_refresh.
  - simpl. destruct (suspended s); [done|]. by apply configured_notify.
Qed.

Lemma configured_reachable es : configured (run es init).
Proof.
  assert (forall s, configured s -> configured (run es s)) as Hrun.
  { induction es as [|e es IH]; simpl; intros s H; [done|]. by apply IH, configured_step. }
  apply Hrun. intros l t a. unfold tabAt. simpl. by rewrite lookup_nil.
Qed.

(** X9. In every reachable state, every tab object that carries an alias
    has an entry in [remoteConfigs]: configurations are stored before the
    tab is created and are never removed.  So [connectToRemote] never takes
    its branch "Remote configuration not found": it either returns at once
    and changes nothing, or goes on to [connect()] and its [await]. *)
Theorem X9_configuration_always_found es l ctor :
  let s := run es init in
  (forall t a, tabAt s l = Some t -> alias t = Some a -> is_Some (remoteConfigs s !! a)) /\
  (connectToRemote l ctor s = (s, true) \/ (connectToRemote l ctor s).2 = false).
Proof.
  intros s. pose proof (configured_reachable es) as H. fold s in H.
  split; [intros t a; apply H|].
  unfold connectToRemote. destruct (tabAt s l) as [t|] eqn:Ht; [|by left].
  destruct (alias t) as [a|] eqn:Ha; [|by left]. destruct (host t) as [h|]; [|by left].
  destruct (port t) as [p|]; [|by left].
  case_match; [by left|].
  destruct (H l t a Ht Ha) as [cfg ->].
  case_match; [by left|]. right. by repeat case_match.
Qed.

(** ** Selection and [initialize] *)

Section KeepsSel.
Variable i : Z.
Variable L : list nat.

Lemma keepsSel_arrays s s' :
  arrays s' = arrays s -> tabs s' = tabs s -> notified s' = notified s ->
  stateChangeHandler s' = stateChangeHandler s -> selectedIndex s' = selectedIndex s ->
  keepsSel i L s -> keepsSel i L s'.
Proof.
  intros Ha Ht _ _ Hi (H1 & H2 & H3). split; [by rewrite Ha, Ht|]. split; [congruence|].
  rewrite <- H3. by apply tabList_view.
Qed.

Lemma keepsSel_frame s s' : mgrView s' = mgrView s -> keepsSel i L s -> keepsSel i L s'.
Proof. unfold mgrView. intros [= _ Ha Ht Hi Hh Hn _ _ _]. by apply keepsSel_arrays. Qed.

Lemma keepsSel_notify s : keepsSel i L s -> keepsSel i L (notifyStateChange s).
Proof.
  intros (H1 & H2 & H3). split; [|split].
  - unfold notifyStateChange. destruct (stateChangeHandler s); simpl; [|done].
    rewrite length_app. lia.
  - unfold notifyStateChange. by destruct (stateChangeHandler s).
  - by rewrite tabList_notify.
Qed.

Lemma keepsSel_handleClientEvent a ev s : keepsSel i L s -> keepsSel i L (handleClientEvent a ev s).
Proof. apply (PA_handleClientEvent _ keepsSel_arrays keepsSel_notify). Qed.

Lemma keepsSel_connectToRemote l ctor s :
  keepsSel i L s -> keepsSel i L (connectToRemote l ctor s).1.
Proof. apply (PA_connectToRemote _ keepsSel_arrays keepsSel_notify). Qed.

Lemma keepsSel_disconnectAll s : keepsSel i L s -> keepsSel i L (disconnectAll s).
Proof.
  intros H. destruct (PA_disconnectAll_last _ keepsSel_arrays keepsSel_notify s H)
    as (s3 & -> & H3). by apply keepsSel_notify.
Qed.

Lemma keepsSel_transport e s :
  match e with
  | WsOpen _ | WsMessage _ _ | WsError _ | WsClose _ | TimerTick _ => True
  | _ => False
  end ->
  keepsSel i L s -> keepsSel i L (step e s).
Proof. apply (P_step_transport _ keepsSel_frame keepsSel_handleClientEvent keepsSel_notify). Qed.

End KeepsSel.

Lemma keepsSel_refl s : tabs s < length (arrays s) -> keepsSel (selectedIndex s) (tabList s) s.
Proof. by split. Qed.

(** [selectTab(index)] with an index of the list. *)
Lemma selectTab_in_range index ctor s :
  tabs s < length (arrays s) ->
  (0 <= index < Z.of_nat (length (tabList s)))%Z ->
  keepsSel index (tabList s) (selectTab index ctor s).
Proof.
  intros Hv Hi. unfold selectTab.
  rewrite (proj2 (Z.ltb_ge _ _)) by lia. rewrite (proj2 (Z.leb_gt _ _)) by lia. simpl.
  assert (keepsSel index (tabList s) (set_selectedIndex index s)) as H1 by by split.
  destruct (tabList _ !! Z.to_nat index) as [l|]; [|done].
  destruct (tabAt _ l) as [tab|]; [|done].
  case_match; [|by apply keepsSel_notify].
  pose proof (keepsSel_connectToRemote index (tabList s) l ctor _ H1) as Hc.
  destruct (connectToRemote l ctor _) as [s2 []]; [by apply keepsSel_notify|done].
Qed.

Lemma selectTab_out_of_range index ctor s :
  (index < 0 \/ Z.of_nat (length (tabList s)) <= index)%Z -> selectTab index ctor s = s.
Proof.
  intros Hi. unfold selectTab. destruct Hi as [Hi|Hi].
  - by rewrite (proj2 (Z.ltb_lt _ _)) by lia.
  - rewrite (proj2 (Z.leb_le _ _)) by lia. by rewrite orb_true_r.
Qed.

(** X10. [selectTab(index)].  In every reachable state: with an index
    outside [0, length) the call changes nothing at all (no selection, no
    notification, no connection); with an index of the list, the selected
    index becomes [index] whatever the connection attempt does, the tab list
    is the same list, and [getSelectedTab()] returns the tab at [index]. *)
Theorem X10_selectTab_selection es index ctor :
  let s := run es init in
  let s' := selectTab index ctor s in
  ((index < 0 \/ Z.of_nat (length (tabList s)) <= index)%Z -> s' = s) /\
  ((0 <= index < Z.of_nat (length (tabList s)))%Z ->
     getSelectedIndex s' = index /\ tabList s' = tabList s /\
     exists l, tabList s !! Z.to_nat index = Some l /\ getSelectedTab s' = Some l).
Proof.
  intros s s'. split; [apply selectTab_out_of_range|]. intros Hi.
  pose proof (tabsInv_reachable es) as Hinv. fold s in Hinv.
  destruct (selectTab_in_range index ctor s (inv_ref _ _ Hinv) Hi) as (Hv & Hs & Hl).
  fold s' in Hv, Hs, Hl. split; [done|]. split; [done|].
  destruct (lookup_lt_is_Some_2 (tabList s) (Z.to_nat index)) as [l Hl']; [lia|].
  exists l. split; [done|]. unfold getSelectedTab. rewrite Hs, Hl.
  by rewrite (proj2 (Z.ltb_ge _ _)) by lia.
Qed.

Lemma selValid_keepsSel i L s :
  (0 <= i < Z.of_nat (length L))%Z -> keepsSel i L s -> selValid s.
Proof. intros Hi (H1 & H2 & H3). split; [done|]. by rewrite H2, H3. Qed.

Lemma selValid_selectTab index ctor s : selValid s -> selValid (selectTab index ctor s).
Proof.
  intros [Hv Hs].
  destruct (decide (0 <= index < Z.of_nat (length (tabList s)))%Z) as [Hi|Hi].
  - apply (selValid_keepsSel index (tabList s)); [done|]. by apply selectTab_in_range.
  - rewrite selectTab_out_of_range by lia. by split.
Qed.

Lemma selValid_kept s s' :
  selValid s -> keepsSel (selectedIndex s) (tabList s) s' -> selValid s'.
Proof. intros [Hv Hs] H. by apply (selValid_keepsSel _ _ _ Hs). Qed.

Lemma selValid_loadRemote s r : selValid s -> selValid (loadRemote s r).
Proof.
  intros [Hv Hs]. unfold loadRemote. split.
  - unfold pushTab. simpl. by rewrite length_alter.
  - rewrite tabList_pushTab by done. rewrite length_app. simpl in *.
    change (tabList (set_remoteConfigs (<[r.1:=r.2]> (remoteConfigs s)) s)) with (tabList s).
    lia.
Qed.

Lemma selValid_notify s : selValid s -> selValid (notifyStateChange s).
Proof. intros H. apply (selValid_kept s); [done|]. apply keepsSel_notify, keepsSel_refl, H. Qed.

Lemma selValid_refresh remotes s : tabsInv true s -> selValid s -> selValid (refresh remotes s).
Proof.
  intros Hinv [Hv Hs].
  destruct (refresh_stages remotes s (tabsInv_weaken _ _ Hinv)) as (_ & _ & _ & Hi).
  rewrite selectedIndex_filterTabs in Hi.
  pose proof (tabsInv_refresh true remotes s Hinv) as Hinv'.
  assert (length (tabList (refresh remotes s)) <> 0) as Hne.
  { intros H0. apply (inv_nonempty _ _ Hinv' eq_refl). by apply length_zero_iff_nil. }
  split; [apply Hinv'|]. rewrite Hi. case_match; lia.
Qed.

Lemma selValid_step e s : e <> Initialize -> tabsInv true s -> selValid s -> selValid (step e s).
Proof.
  intros He Hinv H. pose proof H as [Hv Hs]. destruct e;
    try (apply (selValid_kept s); [done|]; by apply keepsSel_transport; [|apply keepsSel_refl]).
  - unfold step, initializeLoaded. apply selValid_notify, fold_left_preserves; [|done].
    apply selValid_loadRemote.
  - exact H.
  - by apply selValid_selectTab.
  - by apply selValid_selectTab.
  - by apply selValid_selectTab.
  - apply (selValid_kept s); [done|]. by apply keepsSel_disconnectAll, keepsSel_refl.
  - by apply selValid_refresh.
  - simpl. destruct (suspended s); [done|]. by apply selValid_notify.
Qed.

Lemma selValid_run es s :
  Initialize ∉ es -> tabsInv true s -> selValid s -> selValid (run es s).
Proof.
  revert s. induction es as [|e es IH]; simpl; intros s Hn Hinv H; [done|].
  apply IH.
  - intros Hin. apply Hn. by apply list_elem_of_further.
  - by apply tabsInv_step.
  - apply selValid_step; try done. intros ->. apply Hn, list_elem_of_here.
Qed.

Lemma selValid_initialize : selValid (initialize init).
Proof. split; vm_compute; [lia|]. split; congruence. Qed.

(** X11. When [initialize()] is called once, at the start: in every state
    reached afterwards the tab list is not empty, the selected index is an
    index of the list, and [getSelectedTab()] returns a tab of the list,
    whatever selections, refreshes and connection events occur. *)
Theorem X11_selection_always_valid es :
  Initialize ∉ es ->
  let s := run (Initialize :: es) init in
  (0 <= getSelectedIndex s < Z.of_nat (length (tabList s)))%Z /\
  exists l, getSelectedTab s = Some l /\ l ∈ tabList s.
Proof.
  intros Hn s.
  pose proof (selValid_run es (initialize init) Hn (tabsInv_initialize init)
                selValid_initialize) as [Hv Hs].
  change (run es (initialize init)) with s in Hv, Hs. split; [done|].
  destruct (lookup_lt_is_Some_2 (tabList s) (Z.to_nat (selectedIndex s))) as [l Hl]; [lia|].
  exists l. unfold getSelectedTab. rewrite (proj2 (Z.ltb_ge _ _)) by lia.
  split; [done|]. by apply (list_elem_of_lookup_2 _ (Z.to_nat (selectedIndex s))).
Qed.

Lemma X11_selection_always_valid_witness :
  let s := run (Initialize :: [InitializeLoaded oneRemote; SelectTab 1 None; Refresh []]) init in
  (0 <= getSelectedIndex s < Z.of_nat (length (tabList s)))%Z /\
  exists l, getSelectedTab s = Some l /\ l ∈ tabList s.
Proof.
  apply (X11_selection_always_valid [InitializeLoaded oneRemote; SelectTab 1 None; Refresh []]).
  intros H. repeat (apply elem_of_cons in H as [H|H]; [discriminate|]). by apply elem_of_nil in H.
Defined.

Lemma selectNextTab_spec ctor s :
  selValid s ->
  keepsSel ((selectedIndex s + 1) mod Z.of_nat (length (tabList s)))%Z (tabList s)
    (selectNextTab ctor s).
Proof.
  intros [Hv Hs]. unfold selectNextTab. rewrite Z.rem_mod_nonneg by lia.
  apply selectTab_in_range; [done|]. apply Z.mod_pos_bound. lia.
Qed.

Lemma selectPreviousTab_spec ctor s :
  selValid s ->
  keepsSel ((selectedIndex s - 1) mod Z.of_nat (length (tabList s)))%Z (tabList s)
    (selectPreviousTab ctor s).
Proof.
  intros [Hv Hs]. unfold selectPreviousTab. rewrite Z.rem_mod_nonneg by lia.
  replace (selectedIndex s - 1 + Z.of_nat (length (tabList s)))%Z
    with (selectedIndex s - 1 + 1 * Z.of_nat (length (tabList s)))%Z by lia.
  rewrite Z_mod_plus_full.
  apply selectTab_in_range; [done|]. apply Z.mod_pos_bound. lia.
Qed.

(** X12. [selectNextTab()] and [selectPreviousTab()].  When [initialize()]
    was called once, at the start, then in every state reached afterwards
    (the tab list is then not empty): [selectNextTab()] selects index
    [(i + 1) mod n] and [selectPreviousTab()] index [(i - 1) mod n], both
    wrapping around the ends of the list, and each undoes the other. *)
Theorem X12_next_previous_wrap es c1 c2 :
  Initialize ∉ es ->
  let s := run (Initialize :: es) init in
  let n := Z.of_nat (length (tabList s)) in
  let i := getSelectedIndex s in
  getSelectedIndex (selectNextTab c1 s) = ((i + 1) mod n)%Z /\
  getSelectedIndex (selectPreviousTab c1 s) = ((i - 1) mod n)%Z /\
  (i = (n - 1)%Z -> getSelectedIndex (selectNextTab c1 s) = 0%Z) /\
  (i = 0%Z -> getSelectedIndex (selectPreviousTab c1 s) = (n - 1)%Z) /\
  getSelectedIndex (selectPreviousTab c2 (selectNextTab c1 s)) = i /\
  getSelectedIndex (selectNextTab c2 (selectPreviousTab c1 s)) = i.
Proof.
  intros Hn s n i.
  pose proof (selValid_run es (initialize init) Hn (tabsInv_initialize init)
                selValid_initialize) as Hval.
  change (run es (initialize init)) with s in Hval. pose proof Hval as [Hv Hs].
  fold n in Hs. unfold getSelectedIndex in *. fold i in Hs.
  pose proof (selectNextTab_spec c1 s Hval) as Hnx. fold n i in Hnx.
  pose proof (selectPreviousTab_spec c1 s Hval) as Hpv. fold n i in Hpv.
  assert (0 <= (i + 1) mod n < n)%Z as Hb1 by (apply Z.mod_pos_bound; lia).
  assert (0 <= (i - 1) mod n < n)%Z as Hb2 by (apply Z.mod_pos_bound; lia).
  assert (selValid (selectNextTab c1 s)) as Hv1.
  { apply (selValid_keepsSel _ _ _ Hb1 Hnx). }
  assert (selValid (selectPreviousTab c1 s)) as Hv2.
  { apply (selValid_keepsSel _ _ _ Hb2 Hpv). }
  destruct Hnx as (_ & Hi1 & Hl1). destruct Hpv as (_ & Hi2 & Hl2).
  split; [done|]. split; [done|]. split; [|split; [|split]].
  - intros Hi. rewrite Hi1, Hi. replace (n - 1 + 1)%Z with (1 * n)%Z by lia.
    apply Z_mod_mult.
  - intros Hi. rewrite Hi2, Hi. replace (0 - 1)%Z with (n - 1 + (-1) * n)%Z by lia.
    rewrite Z_mod_plus_full. apply Z.mod_small. lia.
  - destruct (selectPreviousTab_spec c2 _ Hv1) as (_ & -> & _). rewrite Hi1, Hl1. fold n.
    rewrite Zminus_mod_idemp_l. replace (i + 1 - 1)%Z with i by lia. apply Z.mod_small. lia.
  - destruct (selectNextTab_spec c2 _ Hv2) as (_ & -> & _). rewrite Hi2, Hl2. fold n.
    rewrite Zplus_mod_idemp_l. replace (i - 1 + 1)%Z with i by lia. apply Z.mod_small. lia.
Qed.

Lemma X12_next_previous_wrap_witness :
  let s := run (Initialize :: [InitializeLoaded oneRemote]) init in
  let n := Z.of_nat (length (tabList s)) in
  let i := getSelectedIndex s in
  getSelectedIndex (selectNextTab None s) = ((i + 1) mod n)%Z /\
  getSelectedIndex (selectPreviousTab None s) = ((i - 1) mod n)%Z /\
  (i = (n - 1)%Z -> getSelectedIndex (selectNextTab None s) = 0%Z) /\
  (i = 0%Z -> getSelectedIndex (selectPreviousTab None s) = (n - 1)%Z) /\
  getSelectedIndex (selectPreviousTab None (selectNextTab None s)) = i /\
  getSelectedIndex (selectNextTab None (selectPreviousTab None s)) = i.
Proof.
  apply (X12_next_previous_wrap [InitializeLoaded oneRemote] None None).
  intros H. repeat (apply elem_of_cons in H as [H|H]; [discriminate|]). by apply elem_of_nil in H.
Defined.

Lemma loadRemote_fold rs s :
  tabs s < length (arrays s) ->
  let s' := fold_left loadRemote rs s in
  tabObjs s' = tabObjs s ++ (remoteTabOf <$> rs) /\
  tabList s' = tabList s ++ seq (length (tabObjs s)) (length rs) /\
  tabs s' < length (arrays s') /\
  netView s' = netView s /\
  selectedIndex s' = selectedIndex s /\
  remoteConfigs s' = storeConfigs rs (remoteConfigs s).
Proof.
  revert s. induction rs as [|r rs IH]; intros s Hv; simpl.
  - by rewrite !app_nil_r.
  - assert (tabs (loadRemote s r) < length (arrays (loadRemote s r))) as Hv1.
    { unfold loadRemote, pushTab. simpl. by rewrite length_alter. }
    destruct (IH (loadRemote s r) Hv1) as (E1 & E2 & E3 & E4 & E5 & E6).
    rewrite E1, E2, E4, E5, E6. split; [|split; [|split; [|split; [|split]]]]; try done.
    + unfold loadRemote, pushTab. simpl. by rewrite <- app_assoc.
    + unfold loadRemote. rewrite tabList_pushTab by done.
      unfold pushTab. simpl. rewrite length_app. simpl. rewrite Nat.add_1_r.
      by rewrite <- app_assoc.
Qed.

Lemma storeConfigs_notin rs m a : a ∉ rs.*1 -> storeConfigs rs m !! a = m !! a.
Proof.
  revert m. induction rs as [|r rs IH]; intros m Hn; simpl; [done|].
  unfold storeConfigs in *. simpl. rewrite IH.
  - apply lookup_insert_ne. intros Heq. apply Hn. simpl. rewrite Heq. apply list_elem_of_here.
  - intros Hin. apply Hn. simpl. by apply list_elem_of_further.
Qed.

Lemma storeConfigs_lookup rs m a cfg :
  NoDup rs.*1 -> (a, cfg) ∈ rs -> storeConfigs rs m !! a = Some cfg.
Proof.
  revert m. induction rs as [|r rs IH]; intros m Hnd Hin; [by apply elem_of_nil in Hin|].
  simpl in Hnd. apply NoDup_cons in Hnd as [Hn Hnd].
  apply elem_of_cons in Hin as [<-|Hin]; unfold storeConfigs in *; simpl.
  - fold (storeConfigs rs (<[a:=cfg]> m)). rewrite storeConfigs_notin by done.
    apply lookup_insert_eq.
  - by apply IH.
Qed.

(** X13. [initialize()].  From any reachable state, [initialize()] whose
    [listRemotes()] returns [remotes] before any other event occurs leaves a
    tab list that is the local tab
    followed by one new [disconnected] tab per entry of [remotes], in the
    order of the list (an alias listed twice gets two tabs); it stores the
    configuration of every entry; and it connects to nothing: clients,
    sockets, timers and promises are as before.  The selected index is not
    reset. *)
Theorem X13_initialize es remotes :
  let s := run es init in
  let s' := run [Initialize; InitializeLoaded remotes] s in
  map (tabAt s') (tabList s') =
    Some createLocalTab :: map (fun r => Some (remoteTabOf r)) remotes /\
  netView s' = netView s /\
  getSelectedIndex s' = getSelectedIndex s /\
  remoteConfigs s' = storeConfigs remotes (remoteConfigs s) /\
  (NoDup remotes.*1 -> forall a cfg, (a, cfg) ∈ remotes -> remoteConfigs s' !! a = Some cfg).
Proof.
  intros s s'.
  assert (s' = notifyStateChange (fold_left loadRemote remotes (initialize s))) as Es'
    by reflexivity.
  pose proof (tabsInv_initialize s) as Hinv0.
  destruct (loadRemote_fold remotes (initialize s) (inv_ref _ _ Hinv0))
    as (E1 & E2 & E3 & E4 & E5 & E6).
  set (s2 := fold_left loadRemote remotes (initialize s)) in *.
  assert (tabList (initialize s) = [length (tabObjs s)]) as Hl0.
  { unfold tabList, initialize. simpl. by rewrite lookup_app_r, Nat.sub_diag by lia. }
  assert (tabObjs (initialize s) = tabObjs s ++ [createLocalTab]) as Ho0 by done.
  assert (remoteConfigs s' = storeConfigs remotes (remoteConfigs s)) as Hcfg.
  { rewrite Es'. unfold notifyStateChange. by destruct (stateChangeHandler s2). }
  split; [|split; [|split; [|split]]].
  - rewrite Es', tabList_notify by done.
    rewrite (map_ext _ (tabAt s2)) by (intros l; apply tabAt_notify).
    rewrite E2, Hl0. simpl. f_equal.
    + unfold tabAt. rewrite E1, Ho0, <- app_assoc. simpl. by rewrite list_lookup_middle.
    + unfold tabAt. rewrite E1. rewrite <- (length_fmap remoteTabOf remotes).
      rewrite lookup_seq_app. by rewrite <- list_fmap_compose.
  - by rewrite Es', netView_notify, E4.
  - rewrite Es'. unfold getSelectedIndex, notifyStateChange.
    destruct (stateChangeHandler s2); simpl; by rewrite E5.
  - done.
  - intros Hnd a cfg Hin. rewrite Hcfg. by apply storeConfigs_lookup.
Qed.

(** ** Connection attempts *)

Lemma markTab_netView st e l s : netView (markTab st e l s) = netView s.
Proof. unfold markTab. by rewrite netView_notify. Qed.

Lemma markTab_emitted st e l s : emitted (markTab st e l s) = emitted s.
Proof. unfold markTab. by rewrite emitted_notify. Qed.

Lemma markTab_selectedIndex st e l s : selectedIndex (markTab st e l s) = selectedIndex s.
Proof. unfold markTab, notifyStateChange. by destruct (stateChangeHandler _). Qed.

Lemma markTab_tabAt st e l s t :
  tabAt s l = Some t -> tabAt (markTab st e l s) l = Some (setLastError e (setStatus st t)).
Proof.
  intros Ht. unfold markTab. rewrite tabAt_notify. unfold tabAt, alterTab in *. simpl.
  by rewrite list_lookup_alter_eq, Ht.
Qed.

Lemma markTab_tabList st e l s :
  tabs s < length (arrays s) -> tabList (markTab st e l s) = tabList s.
Proof. intros Hv. unfold markTab. by rewrite tabList_notify. Qed.

Lemma markTab_tabsInv b st e l s t :
  tabAt s l = Some t -> isLocal t = false -> tabsInv b s -> tabsInv b (markTab st e l s).
Proof.
  intros Ht Hloc H. apply tabsInv_notify.
  apply (tabsInv_alterTab b _ l s); [apply keepsShape_status| |done].
  intros Ht'. rewrite Ht in Ht'. injection Ht' as ->. done.
Qed.

Lemma findTab_markTab pred st e l s :
  tabs s < length (arrays s) ->
  (forall t, pred (setLastError e (setStatus st t)) = pred t) ->
  findTab pred (markTab st e l s) = findTab pred s.
Proof.
  intros Hv Hp. unfold findTab. rewrite markTab_tabList by done. apply find_ext_in.
  intros l' _. unfold markTab. rewrite tabAt_notify. unfold tabAt, alterTab. simpl.
  rewrite list_lookup_alter. case_decide; [|done]. subst.
  destruct (tabObjs s !! l'); simpl; [apply Hp|done].
Qed.

Lemma findTab_same pred s s' :
  tabObjs s' = tabObjs s -> arrays s' = arrays s -> tabs s' = tabs s ->
  findTab pred s' = findTab pred s.
Proof.
  intros Ho Ha Ht. unfold findTab. rewrite (tabList_view s s') by done.
  unfold tabAt. by rewrite Ho.
Qed.

Lemma updateTabStatus_markTab b st e l s t a :
  tabsInv b s -> findTab (fun t => bool_decide (alias t = Some a)) s = Some l ->
  tabAt s l = Some t ->
  updateTabStatus (id t) st e s = markTab st e l s.
Proof.
  intros Hinv Hf Ht. unfold updateTabStatus.
  by rewrite (findTab_by_id b s a l t Hinv Hf Ht).
Qed.

Lemma callEventHandler_markTab b c cl l t s (ev : RemoteClientEvent) st e :
  match ev with
  | ev_connecting => st = connecting /\ e = None
  | ev_connected => st = connected /\ e = None
  | ev_disconnected e' => st = disconnected /\ e = e'
  | ev_message _ => False
  end ->
  tabsInv b s -> clientObjs s !! c = Some cl ->
  findTab (fun t => bool_decide (alias t = Some (eventHandler cl))) s = Some l ->
  tabAt s l = Some t ->
  callEventHandler c ev s = markTab st e l (set_emitted (emitted s ++ [(c, ev)]) s).
Proof.
  intros Hev Hinv Hc Hf Ht. unfold callEventHandler. rewrite Hc.
  set (s1 := set_emitted _ s).
  assert (tabsInv b s1) as Hinv1 by (revert Hinv; by apply tabsInv_ext).
  assert (findTab (fun t => bool_decide (alias t = Some (eventHandler cl))) s1 = Some l) as Hf1
    by by rewrite (findTab_same _ s s1).
  assert (tabAt s1 l = Some t) as Ht1 by done.
  unfold handleClientEvent. rewrite Hf1, Ht1.
  destruct ev; try done; destruct Hev as [-> ->];
    by apply (updateTabStatus_markTab b _ _ l s1 t (eventHandler cl)).
Qed.

(** [connectToRemote] from its call of [updateTabStatus] on, for a client
    that is [disconnected], when the socket is constructed. *)
Lemma connect_attempt_ok b s c cl l t :
  tabsInv b s ->
  findTab (fun t => bool_decide (alias t = Some (eventHandler cl))) s = Some l ->
  tabAt s l = Some t -> isLocal t = false ->
  clientObjs s !! c = Some cl -> _status cl = disconnected ->
  let s2 := updateTabStatus (id t) connecting None s in
  let s' := awaitConnect (eventHandler cl) (connect c None s2).2 (connect c None s2).1 in
  clientObjs s' =
    alter (fun cl => with_ws (Some (length (sockets s))) (with_status connecting cl)) c
      (clientObjs s) /\
  sockets s' = sockets s ++ [newSocket c (length (promises s)) cl] /\
  promises s' = promises s ++ [mkPromise pending (Some (eventHandler cl))] /\
  timers s' = timers s /\ clients s' = clients s /\
  lastConnected s' = lastConnected s /\ suspended s' = suspended s /\
  emitted s' = emitted s ++ [(c, ev_connecting)] /\
  tabAt s' l = Some (setLastError None (setStatus connecting t)) /\
  tabList s' = tabList s /\ selectedIndex s' = selectedIndex s /\
  (connect c None s2).2 = Some (length (promises s)).
Proof.
  intros Hinv Hf Ht Hloc Hc Hst s2.
  set (a := eventHandler cl) in *.
  assert (s2 = markTab connecting None l s) as E2
    by apply (updateTabStatus_markTab b _ _ l s t a Hinv Hf Ht).
  destruct (netView_fields _ _ (markTab_netView connecting None l s))
    as (Eo2 & Ek2 & Et2 & Ep2 & Ecl2). rewrite <- E2 in Eo2, Ek2, Et2, Ep2, Ecl2.
  assert (tabsInv b s2) as Hinv2 by (rewrite E2; by apply (markTab_tabsInv b _ _ l s t)).
  assert (tabAt s2 l = Some (setLastError None (setStatus connecting t))) as Ht2
    by (rewrite E2; by apply markTab_tabAt).
  assert (findTab (fun t => bool_decide (alias t = Some a)) s2 = Some l) as Hf2.
  { rewrite E2, findTab_markTab; [done|by destruct Hinv|done]. }
  set (s3 := updClient c (with_status connecting) s2).
  assert (clientObjs s3 !! c = Some (with_status connecting cl)) as Hc3.
  { unfold s3, updClient. simpl. by rewrite list_lookup_alter_eq, Eo2, Hc. }
  assert (mgrView s3 = mgrView s2) as Hm3 by by apply mgrView_updClient.
  set (s4 := callEventHandler c ev_connecting s3).
  assert (s4 = markTab connecting None l (set_emitted (emitted s3 ++ [(c, ev_connecting)]) s3))
    as E4.
  { assert (tabsInv b s3) as Hinv3 by by apply (tabsInv_frame b s2).
    assert (findTab (fun t => bool_decide (alias t = Some a)) s3 = Some l) as Hf3
      by by rewrite (findTab_mgrView _ _ _ Hm3).
    assert (tabAt s3 l = Some (setLastError None (setStatus connecting t))) as Ht3
      by by rewrite (tabAt_mgrView _ _ l Hm3).
    by apply (callEventHandler_markTab b c (with_status connecting cl) l
                (setLastError None (setStatus connecting t))). }
  destruct (netView_fields _ _ (netView_callEventHandler c ev_connecting s3))
    as (Eo4 & Ek4 & Et4 & Ep4 & Ecl4). fold s4 in Eo4, Ek4, Et4, Ep4, Ecl4.
  assert (connect c None s2 =
            (updClient c (with_ws (Some (length (sockets s))))
               (set_sockets (sockets s4 ++ [newSocket c (length (promises s)) cl])
                  (set_promises (promises s4 ++ [mkPromise pending None]) s4)),
             Some (length (promises s)))) as Econ.
  { unfold connect. rewrite Eo2, Hc, Hst. fold s3 s4. simpl.
    rewrite Ek4, Ep4. unfold s3. simpl. rewrite Ek2, Ep2. reflexivity. }
  rewrite Econ. simpl.
  assert (promises s4 = promises s) as Ep by (rewrite Ep4; unfold s3; simpl; done).
  rewrite Ep. rewrite lookup_app_r, Nat.sub_diag by lia. simpl.
  rewrite Eo4, Ek4, Et4, Ecl4. unfold s3 at 1 2 3 4. simpl.
  rewrite Eo2, Ek2, Et2, Ecl2.
  split; [by rewrite list_alter_alter_eq|]. split; [done|]. split.
  { rewrite alter_app_r_alt by lia. rewrite Nat.sub_diag. done. }
  split; [done|]. split; [done|].
  assert (netView s4 = netView s3) as Hn4 by apply netView_callEventHandler.
  assert (netView s2 = netView s) as Hn2 by (rewrite E2; apply markTab_netView).
  split. { unfold netView in Hn4, Hn2. injection Hn4 as _ _ _ _ _ -> _.
           unfold s3. simpl. by injection Hn2 as _ _ _ _ _ -> _. }
  split. { unfold netView in Hn4, Hn2. injection Hn4 as _ _ _ _ _ _ ->.
           unfold s3. simpl. by injection Hn2 as _ _ _ _ _ _ ->. }
  split. { rewrite E4, markTab_emitted. simpl. unfold s3. simpl. by rewrite E2, markTab_emitted. }
  split. { unfold tabAt. simpl. change (tabObjs s4 !! l) with (tabAt s4 l).
           rewrite E4. rewrite (markTab_tabAt _ _ _ _ (setLastError None (setStatus connecting t))).
           - done.
           - by rewrite <- (tabAt_mgrView _ _ l Hm3) in Ht2. }
  split. { unfold tabList. simpl. change (default [] (arrays s4 !! tabs s4)) with (tabList s4).
           rewrite E4, markTab_tabList.
           - change (tabList s3 = tabList s).
             rewrite (tabList_mgrView _ _ Hm3), E2. apply markTab_tabList, Hinv.
           - apply (inv_ref b). by apply (tabsInv_frame b s2). }
  split; [|done]. rewrite E4, markTab_selectedIndex. simpl. by rewrite E2, markTab_selectedIndex.
Qed.

(** The same when [new WebSocket(url)] throws an error with message
    [msg]. *)
Lemma connect_attempt_throws b s c cl l t msg :
  tabsInv b s ->
  findTab (fun t => bool_decide (alias t = Some (eventHandler cl))) s = Some l ->
  tabAt s l = Some t -> isLocal t = false ->
  clientObjs s !! c = Some cl -> _status cl = disconnected ->
  let s2 := updateTabStatus (id t) connecting None s in
  let s' := awaitConnect (eventHandler cl) (connect c (Some msg) s2).2
              (connect c (Some msg) s2).1 in
  clientObjs s' = clientObjs s /\
  sockets s' = sockets s /\
  promises s' = promises s ++ [mkPromise (rejected msg) None] /\
  timers s' = timers s /\ clients s' = clients s /\
  lastConnected s' = lastConnected s /\ suspended s' = suspended s /\
  emitted s' = emitted s ++ [(c, ev_connecting); (c, ev_disconnected (Some msg))] /\
  tabAt s' l = Some (setLastError (Some msg) (setStatus disconnected t)) /\
  tabList s' = tabList s /\ selectedIndex s' = selectedIndex s.
Proof.
  intros Hinv Hf Ht Hloc Hc Hst s2.
  set (a := eventHandler cl) in *.
  set (t1 := setLastError None (setStatus connecting t)).
  assert (s2 = markTab connecting None l s) as E2
    by apply (updateTabStatus_markTab b _ _ l s t a Hinv Hf Ht).
  assert (netView s2 = netView s) as Hn2 by (rewrite E2; apply markTab_netView).
  destruct (netView_fields _ _ Hn2) as (Eo2 & Ek2 & Et2 & Ep2 & Ecl2).
  assert (tabsInv b s2) as Hinv2 by (rewrite E2; by apply (markTab_tabsInv b _ _ l s t)).
  assert (tabAt s2 l = Some t1) as Ht2 by (rewrite E2; by apply markTab_tabAt).
  assert (findTab (fun t => bool_decide (alias t = Some a)) s2 = Some l) as Hf2.
  { rewrite E2, findTab_markTab; [done|by destruct Hinv|done]. }
  set (s3 := updClient c (with_status connecting) s2).
  assert (clientObjs s3 !! c = Some (with_status connecting cl)) as Hc3.
  { unfold s3, updClient. simpl. by rewrite list_lookup_alter_eq, Eo2, Hc. }
  assert (mgrView s3 = mgrView s2) as Hm3 by by apply mgrView_updClient.
  set (s3e := set_emitted (emitted s3 ++ [(c, ev_connecting)]) s3).
  set (s4 := callEventHandler c ev_connecting s3).
  assert (s4 = markTab connecting None l s3e) as E4.
  { assert (tabsInv b s3) as Hinv3 by by apply (tabsInv_frame b s2).
    assert (findTab (fun t => bool_decide (alias t = Some a)) s3 = Some l) as Hf3
      by by rewrite (findTab_mgrView _ _ _ Hm3).
    assert (tabAt s3 l = Some t1) as Ht3 by by rewrite (tabAt_mgrView _ _ l Hm3).
    by apply (callEventHandler_markTab b c (with_status connecting cl) l t1). }
  assert (mgrView s3e = mgrView s2) as Hm3e by exact Hm3.
  assert (tabsInv b s4) as Hinv4.
  { rewrite E4. apply (markTab_tabsInv b _ _ l s3e t1); [|done|].
    - by rewrite (tabAt_mgrView _ _ l Hm3e).
    - by apply (tabsInv_frame b s2). }
  assert (tabAt s4 l = Some (setLastError None (setStatus connecting t1))) as Ht4.
  { rewrite E4. apply markTab_tabAt. by rewrite (tabAt_mgrView _ _ l Hm3e). }
  assert (findTab (fun t => bool_decide (alias t = Some a)) s4 = Some l) as Hf4.
  { rewrite E4, findTab_markTab; [|apply (inv_ref b); by apply (tabsInv_frame b s2)|done].
    by rewrite (findTab_mgrView _ _ _ Hm3e). }
  assert (netView s4 = netView s3) as Hn4 by apply netView_callEventHandler.
  destruct (netView_fields _ _ Hn4) as (Eo4 & Ek4 & Et4 & Ep4 & Ecl4).
  set (p := length (promises s)).
  set (s5 := set_promises (promises s4 ++ [mkPromise pending None]) s4).
  set (s6 := updClient c (with_status disconnected) s5).
  assert (clientObjs s6 !! c = Some (with_status disconnected (with_status connecting cl)))
    as Hc6.
  { unfold s6, s5, updClient. simpl. by rewrite list_lookup_alter_eq, Eo4, Hc3. }
  assert (mgrView s6 = mgrView s4) as Hm6 by by apply (mgrView_updClient c _ s5).
  set (s6e := set_emitted (emitted s6 ++ [(c, ev_disconnected (Some msg))]) s6).
  set (s7 := callEventHandler c (ev_disconnected (Some msg)) s6).
  assert (s7 = markTab disconnected (Some msg) l s6e) as E7.
  { assert (tabsInv b s6) as Hinv6 by by apply (tabsInv_frame b s4).
    assert (findTab (fun t => bool_decide (alias t = Some a)) s6 = Some l) as Hf6
      by by rewrite (findTab_mgrView _ _ _ Hm6).
    assert (tabAt s6 l = Some (setLastError None (setStatus connecting t1))) as Ht6
      by by rewrite (tabAt_mgrView _ _ l Hm6).
    by apply (callEventHandler_markTab b c
                (with_status disconnected (with_status connecting cl)) l
                (setLastError None (setStatus connecting t1))). }
  assert (mgrView s6e = mgrView s4) as Hm6e by exact Hm6.
  assert (netView s7 = netView s6) as Hn7 by apply netView_callEventHandler.
  destruct (netView_fields _ _ Hn7) as (Eo7 & Ek7 & Et7 & Ep7 & Ecl7).
  assert (promises s7 = promises s ++ [mkPromise pending None]) as Ep.
  { rewrite Ep7. unfold s6, s5. simpl. rewrite Ep4. unfold s3. simpl. by rewrite Ep2. }
  assert (connect c (Some msg) s2 = (rejectConnect p msg s7, Some p)) as Econ.
  { assert (length (promises s4) = p) as Hlen.
    { rewrite Ep4. unfold s3. simpl. by rewrite Ep2. }
    unfold connect. rewrite Eo2, Hc, Hst. fold s3 s4. simpl. rewrite Hlen. reflexivity. }
  rewrite Econ. simpl.
  assert (rejectConnect p msg s7 = settle p (rejected msg) s7) as Erej.
  { unfold rejectConnect. rewrite Ep. unfold p. by rewrite lookup_app_r, Nat.sub_diag by lia. }
  rewrite Erej.
  assert (promises (settle p (rejected msg) s7) = promises s ++ [mkPromise (rejected msg) None])
    as Ep8.
  { unfold settle. simpl. rewrite Ep. unfold p. rewrite alter_app_r_alt by lia.
    by rewrite Nat.sub_diag. }
  unfold awaitConnect. rewrite Ep8. unfold p. rewrite lookup_app_r, Nat.sub_diag by lia.
  simpl. unfold resumeSelectTab.
  set (s8 := settle (length (promises s)) (rejected msg) s7).
  assert (netView (notifyStateChange s8) = netView s8) as Hn9 by apply netView_notify.
  destruct (netView_fields _ _ Hn9) as (Eo9 & Ek9 & Et9 & Ep9 & Ecl9).
  rewrite Eo9, Ek9, Et9, Ep9, Ecl9. unfold s8 at 1 2 3 5. simpl.
  rewrite Eo7, Ek7, Et7, Ecl7. unfold s6, s5. simpl. rewrite Eo4, Ek4, Et4, Ecl4.
  unfold s3 at 1 2 3 4. simpl. rewrite Eo2, Ek2, Et2, Ecl2.
  split.
  { rewrite !list_alter_alter_eq. apply (alter_id_at _ c _ cl); [done|].
    destruct cl. simpl in *. by subst. }
  split; [done|]. split; [exact Ep8|]. split; [done|]. split; [done|].
  split. { unfold netView in *. injection Hn9 as _ _ _ _ _ -> _.
           injection Hn7 as _ _ _ _ _ Hx _. injection Hn4 as _ _ _ _ _ Hy _.
           injection Hn2 as _ _ _ _ _ Hz _. simpl in *. congruence. }
  split. { unfold netView in *. injection Hn9 as _ _ _ _ _ _ ->.
           injection Hn7 as _ _ _ _ _ _ Hx. injection Hn4 as _ _ _ _ _ _ Hy.
           injection Hn2 as _ _ _ _ _ _ Hz. simpl in *. congruence. }
  split. { rewrite emitted_notify. unfold s8. simpl. rewrite E7, markTab_emitted. simpl.
           rewrite E4, markTab_emitted. simpl. rewrite E2, markTab_emitted.
           by rewrite <- app_assoc. }
  split. { rewrite tabAt_notify. change (tabAt s7 l = Some (setLastError (Some msg)
                                                     (setStatus disconnected t))).
           rewrite E7.
           rewrite (markTab_tabAt _ _ _ _ (setLastError None (setStatus connecting t1))).
           - done.
           - by rewrite (tabAt_mgrView _ _ l Hm6e). }
  assert (tabList s7 = tabList s) as Hl7.
  { rewrite E7, markTab_tabList.
    - rewrite (tabList_mgrView _ _ Hm6e), E4, markTab_tabList.
      + rewrite (tabList_mgrView _ _ Hm3e), E2. apply markTab_tabList, Hinv.
      + apply (inv_ref b). by apply (tabsInv_frame b s2).
    - apply (inv_ref b). by apply (tabsInv_frame b s4). }
  split. { rewrite tabList_notify; [exact Hl7|].
           change (tabs s7 < length (arrays s7)). rewrite E7.
           apply (inv_ref b), (markTab_tabsInv b _ _ l s6e
                                 (setLastError None (setStatus connecting t1))); [|done|].
           - by rewrite (tabAt_mgrView _ _ l Hm6e).
           - by apply (tabsInv_frame b s4). }
  unfold notifyStateChange. destruct (stateChangeHandler s8); simpl;
    rewrite E7, markTab_selectedIndex; simpl; rewrite E4, markTab_selectedIndex; simpl;
    by rewrite E2, markTab_selectedIndex.
Qed.

Lemma clientsInv_reachable es : clientsInv (run es init).
Proof. apply clientsInv_run, clientsInv_init. Qed.

(** What [selectTab] and [connectToRemote] do before the connection
    attempt proper: the tab is selected, and the client of the alias is
    looked up or created. *)
Lemma attempt_setup_full es i l t a h p cfg ctor :
  let s := run es init in
  tabList s !! i = Some l -> tabAt s l = Some t ->
  isLocal t = false -> status t = disconnected ->
  alias t = Some a -> host t = Some h -> port t = Some p ->
  a <> "" -> h <> "" -> p <> 0%Z ->
  remoteConfigs s !! a = Some cfg ->
  findTab (fun t => bool_decide (alias t = Some a)) s = Some l ->
  (forall c, clients_get a (clients s) = Some c -> statusOf c s = disconnected) ->
  let c := clientFor a s in
  let cl := clientObjFor a h p cfg s in
  exists s1,
    selectTab (Z.of_nat i) ctor s =
      awaitConnect a (connect c ctor (updateTabStatus (id t) connecting None s1)).2
        (connect c ctor (updateTabStatus (id t) connecting None s1)).1 /\
    tabsInv false s1 /\
    findTab (fun t => bool_decide (alias t = Some (eventHandler cl))) s1 = Some l /\
    tabAt s1 l = Some t /\ clientObjs s1 !! c = Some cl /\ _status cl = disconnected /\
    eventHandler cl = a /\
    sockets s1 = sockets s /\ promises s1 = promises s /\ timers s1 = timers s /\
    emitted s1 = emitted s /\ tabList s1 = tabList s /\ selectedIndex s1 = Z.of_nat i /\
    clients_get a (clients s1) = Some c /\
    (forall b, b <> a -> clients_get b (clients s1) = clients_get b (clients s)) /\
    (forall c', c' <> c -> clientObjs s1 !! c' = clientObjs s !! c') /\
    arrays s1 = arrays s /\ tabs s1 = tabs s /\ notified s1 = notified s /\
    stateChangeHandler s1 = stateChangeHandler s.
Proof.
  intros s Hl Ht Hloc Hst Ha Hh Hp Hna Hnh Hnp Hcfg Hf Hcs c cl.
  pose proof (tabsInv_reachable es) as Hinv. fold s in Hinv.
  pose proof (clientsInv_reachable es) as Hci. fold s in Hci.
  pose proof (lookup_lt_Some _ _ _ Hl) as Hlt.
  set (s0 := set_selectedIndex (Z.of_nat i) s).
  assert (forall X, selectTab (Z.of_nat i) ctor s = X <->
            (let '(s2, returned) := connectToRemote l ctor s0 in
             if returned then notifyStateChange s2 else s2) = X) as Hsel.
  { intros X. unfold selectTab. rewrite (proj2 (Z.ltb_ge _ _)) by lia.
    rewrite (proj2 (Z.leb_gt _ _)) by lia. simpl. rewrite Nat2Z.id. fold s0.
    change (tabList s0) with (tabList s). rewrite Hl.
    change (tabAt s0 l) with (tabAt s l). rewrite Ht, Hloc, Hst. simpl.
    by rewrite ?bool_decide_eq_true_2. }
  assert (forall s1 c0,
            connectToRemote l ctor s0 =
              (let s2 := updateTabStatus (id t) connecting None s1 in
               let '(s3, pr) := connect c0 ctor s2 in (awaitConnect a pr s3, false)) ->
            selectTab (Z.of_nat i) ctor s =
              awaitConnect a (connect c0 ctor (updateTabStatus (id t) connecting None s1)).2
                (connect c0 ctor (updateTabStatus (id t) connecting None s1)).1) as Hfin.
  { intros s1 c0 E. apply Hsel. rewrite E. cbv zeta. by destruct (connect c0 ctor _). }
  assert (forall X, connectToRemote l ctor s0 = X <->
            (let existing := clients_get a (clients s) in
             if from_option (fun c => bool_decide (statusOf c s0 = connected)) false existing
             then (s0, true)
             else
               let '(c, s1) :=
                 match existing with
                 | Some c => (c, s0)
                 | None =>
                     let c := length (clientObjs s) in
                     (c, set_clients (clients_set a c (clients s))
                           (set_clientObjs
                              (clientObjs s ++
                                 [mkClient None h p (cfg_token cfg) a None disconnected]) s0))
                 end in
               let s2 := updateTabStatus (id t) connecting None s1 in
               let '(s3, pr) := connect c ctor s2 in
               (awaitConnect a pr s3, false)) = X) as Hcon.
  { intros X. unfold connectToRemote. change (tabAt s0 l) with (tabAt s l).
    rewrite Ht, Ha, Hh, Hp. rewrite !bool_decide_eq_false_2 by done.
    rewrite (proj2 (Z.eqb_neq _ _)) by done. simpl.
    change (remoteConfigs s0) with (remoteConfigs s). rewrite Hcfg. done. }
  unfold c, cl, clientObjFor, clientFor.
  destruct (clients_get a (clients s)) as [c0|] eqn:Hg; simpl.
  - destruct (Hci a c0 Hg) as [_ Heh].
    destruct (clientObjs s !! c0) as [cl0|] eqn:Hc0; [|done]. simpl in Heh.
    injection Heh as Heh. pose proof (Hcs c0 eq_refl) as Hs0.
    unfold statusOf in Hs0. rewrite Hc0 in Hs0. simpl in Hs0.
    exists s0. split.
    { apply Hfin, Hcon. simpl. unfold statusOf.
      change (clientObjs s0) with (clientObjs s). rewrite Hc0. simpl. rewrite Hs0. done. }
    simpl. rewrite Heh. split; [revert Hinv; by apply tabsInv_ext|]. repeat split; done.
  - assert (clientObjs s !! length (clientObjs s) = None) as -> by by apply lookup_ge_None_2.
    simpl.
    set (s1 := set_clients (clients_set a (length (clientObjs s)) (clients s))
                 (set_clientObjs
                    (clientObjs s ++ [mkClient None h p (cfg_token cfg) a None disconnected])
                    s0)).
    exists s1. split.
    { apply Hfin, Hcon. simpl. done. }
    split; [revert Hinv; by apply tabsInv_ext|]. split; [by rewrite (findTab_same _ s s1)|].
    split; [done|]. split; [unfold s1; simpl; by rewrite lookup_app_r, Nat.sub_diag by lia|].
    repeat split; try done.
    + unfold s1. simpl. apply clients_get_set_eq.
    + intros b Hb. unfold s1. simpl. by apply clients_get_set_ne.
    + intros c' Hc'. unfold s1. simpl. rewrite lookup_app.
      destruct (clientObjs s !! c') eqn:Hlk; [done|].
      apply lookup_ge_None in Hlk.
      destruct (c' - length (clientObjs s)) as [|n] eqn:Hn; simpl; [lia|done].
Qed.

Lemma attempt_setup es i l t a h p cfg ctor :
  let s := run es init in
  tabList s !! i = Some l -> tabAt s l = Some t ->
  isLocal t = false -> status t = disconnected ->
  alias t = Some a -> host t = Some h -> port t = Some p ->
  a <> "" -> h <> "" -> p <> 0%Z ->
  remoteConfigs s !! a = Some cfg ->
  findTab (fun t => bool_decide (alias t = Some a)) s = Some l ->
  (forall c, clients_get a (clients s) = Some c -> statusOf c s = disconnected) ->
  let c := clientFor a s in
  let cl := clientObjFor a h p cfg s in
  exists s1,
    selectTab (Z.of_nat i) ctor s =
      awaitConnect a (connect c ctor (updateTabStatus (id t) connecting None s1)).2
        (connect c ctor (updateTabStatus (id t) connecting None s1)).1 /\
    tabsInv false s1 /\
    findTab (fun t => bool_decide (alias t = Some (eventHandler cl))) s1 = Some l /\
    tabAt s1 l = Some t /\ clientObjs s1 !! c = Some cl /\ _status cl = disconnected /\
    eventHandler cl = a /\
    sockets s1 = sockets s /\ promises s1 = promises s /\ timers s1 = timers s /\
    emitted s1 = emitted s /\ tabList s1 = tabList s /\ selectedIndex s1 = Z.of_nat i /\
    clients_get a (clients s1) = Some c /\
    (forall b, b <> a -> clients_get b (clients s1) = clients_get b (clients s)) /\
    (forall c', c' <> c -> clientObjs s1 !! c' = clientObjs s !! c').
Proof.
  intros s Hl Ht Hloc Hst Ha Hh Hp Hna Hnh Hnp Hcfg Hf Hcs c cl.
  destruct (attempt_setup_full es i l t a h p cfg ctor Hl Ht Hloc Hst Ha Hh Hp Hna Hnh Hnp
              Hcfg Hf Hcs)
    as (s1 & A0 & A1 & A2 & A3 & A4 & A5 & A6 & A7 & A8 & A9 & A10 & A11 & A12 & A13 & A14 &
        A15 & _).
  exists s1. repeat (split; [assumption|]). assumption.
Qed.

Lemma lookup_alter_at {A} (f : A -> A) c c' (l : list A) :
  alter f c l !! c' = if decide (c' = c) then f <$> l !! c else l !! c'.
Proof.
  case_decide as H; [subst; apply list_lookup_alter_eq|]. by apply list_lookup_alter_ne.
Qed.

(** X14. Selecting a disconnected remote tab.  In every reachable state,
    [selectTab(i)] on a remote tab that is [disconnected], has a non-empty
    alias and host and a non-zero port, and is the first tab with its alias,
    while the alias has no client or a client that is [disconnected], when
    the socket can be constructed: the tab becomes [connecting] with
    [lastError] cleared; the client of the alias is the entry of [clients],
    or a new client made from the tab's host and port and the token of the
    stored configuration, which is entered in [clients]; that client becomes
    [connecting] and holds one new socket, connecting to the client's host
    and port with the client's four callbacks; one [connecting] event is
    emitted; the promise of [connect()] is pending and awaited; no other
    client, socket or timer changes; and the tab is selected. *)
Theorem X14_select_starts_connection es i l t a h p cfg :
  let s := run es init in
  tabList s !! i = Some l -> tabAt s l = Some t ->
  isLocal t = false -> status t = disconnected ->
  alias t = Some a -> host t = Some h -> port t = Some p ->
  a <> "" -> h <> "" -> p <> 0%Z ->
  remoteConfigs s !! a = Some cfg ->
  findTab (fun t => bool_decide (alias t = Some a)) s = Some l ->
  (forall c, clients_get a (clients s) = Some c -> statusOf c s = disconnected) ->
  let c := clientFor a s in
  let cl := clientObjFor a h p cfg s in
  let s' := selectTab (Z.of_nat i) None s in
  clients_get a (clients s') = Some c /\
  (forall b, b <> a -> clients_get b (clients s') = clients_get b (clients s)) /\
  clientObjs s' !! c = Some (with_ws (Some (length (sockets s))) (with_status connecting cl)) /\
  (forall c', c' <> c -> clientObjs s' !! c' = clientObjs s !! c') /\
  sockets s' = sockets s ++ [newSocket c (length (promises s)) cl] /\
  promises s' = promises s ++ [mkPromise pending (Some a)] /\
  timers s' = timers s /\
  emitted s' = emitted s ++ [(c, ev_connecting)] /\
  tabAt s' l = Some (setLastError None (setStatus connecting t)) /\
  tabList s' = tabList s /\ getSelectedIndex s' = Z.of_nat i.
Proof.
  intros s Hl Ht Hloc Hst Ha Hh Hp Hna Hnh Hnp Hcfg Hf Hcs c cl s'.
  destruct (attempt_setup es i l t a h p cfg None Hl Ht Hloc Hst Ha Hh Hp Hna Hnh Hnp Hcfg
              Hf Hcs)
    as (s1 & Esel & Hinv1 & Hf1 & Ht1 & Hc1 & Hst1 & Heh & Ek1 & Ep1 & Et1 & Ee1 & El1 & Ei1 &
        Hg1 & Hgo & Hco).
  fold s c cl in Esel, Hf1, Hc1, Hst1, Heh, Ek1, Ep1, Et1, Ee1, El1, Hg1, Hgo, Hco.
  fold s' in Esel.
  destruct (connect_attempt_ok false s1 c cl l t Hinv1 Hf1 Ht1 Hloc Hc1 Hst1)
    as (Eo & Ek & Ep & Etm & Ecl & _ & _ & Ee & Etab & Elist & Eidx & _).
  rewrite Heh, <- Esel in Eo, Ek, Ep, Etm, Ecl, Ee, Etab, Elist, Eidx.
  rewrite Ecl, Eo, Ek, Ep, Etm, Ee, Etab, Elist. unfold getSelectedIndex. rewrite Eidx.
  rewrite Ek1, Ep1, Et1, Ee1, El1, Ei1.
  split; [done|]. split; [done|]. split; [by rewrite list_lookup_alter_eq, Hc1|].
  split; [intros c' Hc'; rewrite list_lookup_alter_ne by done; by apply Hco|]. done.
Qed.

Lemma X14_select_starts_connection_witness :
  let s := run [OnStateChange; Initialize; InitializeLoaded oneRemote] init in
  let t := createRemoteTab "a" "h1" 8080 in
  let cfg := mkConfig "h1" 8080 "tok" in
  let c := clientFor "a" s in
  let cl := clientObjFor "a" "h1" 8080 cfg s in
  let s' := selectTab (Z.of_nat 1) None s in
  clients_get "a" (clients s') = Some c /\
  (forall b, b <> "a" -> clients_get b (clients s') = clients_get b (clients s)) /\
  clientObjs s' !! c = Some (with_ws (Some (length (sockets s))) (with_status connecting cl)) /\
  (forall c', c' <> c -> clientObjs s' !! c' = clientObjs s !! c') /\
  sockets s' = sockets s ++ [newSocket c (length (promises s)) cl] /\
  promises s' = promises s ++ [mkPromise pending (Some "a")] /\
  timers s' = timers s /\
  emitted s' = emitted s ++ [(c, ev_connecting)] /\
  tabAt s' 1 = Some (setLastError None (setStatus connecting t)) /\
  tabList s' = tabList s /\ getSelectedIndex s' = Z.of_nat 1.
Proof.
  apply (X14_select_starts_connection [OnStateChange; Initialize; InitializeLoaded oneRemote]
           1 1 (createRemoteTab "a" "h1" 8080) "a" "h1" 8080 (mkConfig "h1" 8080 "tok"));
    try reflexivity; try discriminate.
Defined.

(** X15. The same selection when [new WebSocket(url)] throws an error with
    message [msg]: no socket is created; the client of the alias (the entry
    of [clients], or a new client that is entered in [clients]) ends
    [disconnected] and is otherwise unchanged; the events [connecting] and
    [disconnected] with reason [msg] are emitted, in this order; the promise
    of [connect()] is rejected with [msg]; the tab ends [disconnected] with
    [lastError = msg]; nothing is thrown to the caller, and the tab is
    selected. *)
Theorem X15_select_when_socket_throws es i l t a h p cfg msg :
  let s := run es init in
  tabList s !! i = Some l -> tabAt s l = Some t ->
  isLocal t = false -> status t = disconnected ->
  alias t = Some a -> host t = Some h -> port t = Some p ->
  a <> "" -> h <> "" -> p <> 0%Z ->
  remoteConfigs s !! a = Some cfg ->
  findTab (fun t => bool_decide (alias t = Some a)) s = Some l ->
  (forall c, clients_get a (clients s) = Some c -> statusOf c s = disconnected) ->
  let c := clientFor a s in
  let cl := clientObjFor a h p cfg s in
  let s' := selectTab (Z.of_nat i) (Some msg) s in
  clients_get a (clients s') = Some c /\
  clientObjs s' !! c = Some cl /\ _status cl = disconnected /\
  (forall c', c' <> c -> clientObjs s' !! c' = clientObjs s !! c') /\
  sockets s' = sockets s /\ timers s' = timers s /\
  promises s' = promises s ++ [mkPromise (rejected msg) None] /\
  emitted s' = emitted s ++ [(c, ev_connecting); (c, ev_disconnected (Some msg))] /\
  tabAt s' l = Some (setLastError (Some msg) (setStatus disconnected t)) /\
  tabList s' = tabList s /\ getSelectedIndex s' = Z.of_nat i.
Proof.
  intros s Hl Ht Hloc Hst Ha Hh Hp Hna Hnh Hnp Hcfg Hf Hcs c cl s'.
  destruct (attempt_setup es i l t a h p cfg (Some msg) Hl Ht Hloc Hst Ha Hh Hp Hna Hnh Hnp
              Hcfg Hf Hcs)
    as (s1 & Esel & Hinv1 & Hf1 & Ht1 & Hc1 & Hst1 & Heh & Ek1 & Ep1 & Et1 & Ee1 & El1 & Ei1 &
        Hg1 & Hgo & Hco).
  fold s c cl in Esel, Hf1, Hc1, Hst1, Heh, Ek1, Ep1, Et1, Ee1, El1, Hg1, Hgo, Hco.
  fold s' in Esel.
  destruct (connect_attempt_throws false s1 c cl l t msg Hinv1 Hf1 Ht1 Hloc Hc1 Hst1)
    as (Eo & Ek & Ep & Etm & Ecl & _ & _ & Ee & Etab & Elist & Eidx).
  rewrite Heh, <- Esel in Eo, Ek, Ep, Etm, Ecl, Ee, Etab, Elist, Eidx.
  rewrite Ecl, Eo, Ek, Ep, Etm, Ee, Etab, Elist. unfold getSelectedIndex. rewrite Eidx.
  rewrite Ek1, Ep1, Et1, Ee1, El1, Ei1. done.
Qed.

Lemma X15_select_when_socket_throws_witness :
  let s := run [OnStateChange; Initialize; InitializeLoaded oneRemote] init in
  let t := createRemoteTab "a" "h1" 8080 in
  let cfg := mkConfig "h1" 8080 "tok" in
  let c := clientFor "a" s in
  let cl := clientObjFor "a" "h1" 8080 cfg s in
  let s' := selectTab (Z.of_nat 1) (Some "refused") s in
  clients_get "a" (clients s') = Some c /\
  clientObjs s' !! c = Some cl /\ _status cl = disconnected /\
  (forall c', c' <> c -> clientObjs s' !! c' = clientObjs s !! c') /\
  sockets s' = sockets s /\ timers s' = timers s /\
  promises s' = promises s ++ [mkPromise (rejected "refused") None] /\
  emitted s' = emitted s ++ [(c, ev_connecting); (c, ev_disconnected (Some "refused"))] /\
  tabAt s' 1 = Some (setLastError (Some "refused") (setStatus disconnected t)) /\
  tabList s' = tabList s /\ getSelectedIndex s' = Z.of_nat 1.
Proof.
  apply (X15_select_when_socket_throws [OnStateChange; Initialize; InitializeLoaded oneRemote]
           1 1 (createRemoteTab "a" "h1" 8080) "a" "h1" 8080 (mkConfig "h1" 8080 "tok")
           "refused");
    try reflexivity; try discriminate.
Defined.

(** ** Transport close, tabs that cannot connect, and [truncateText] *)

(** X16. Transport close while connected.  In every reachable state, when
    a socket whose [onclose] callback belongs to a connected client delivers
    [close]: the client ends [disconnected] with no socket and no timer; the
    socket it held has its callbacks detached and is not connecting or open,
    and its heartbeat timer is cleared; one [disconnected] event with reason
    "Connection closed" is emitted; the entry in [clients] stays and no
    promise is settled; and the first tab with the client's alias ends
    [disconnected] with [lastError] "Connection closed". *)
Theorem X16_close_while_connected es w k c :
  let s := run es init in
  sockets s !! w = Some k -> closeFired k = false -> onclose k = Some c ->
  statusOf c s = connected ->
  let s' := step (WsClose w) s in
  exists cl w0 k0 t0,
    clientObjs s !! c = Some cl /\ ws cl = Some w0 /\ pingInterval cl = Some t0 /\
    sockets s !! w0 = Some k0 /\
    clientObjs s' !! c =
      Some (with_status disconnected (with_ws None (with_pingInterval None cl))) /\
    (exists k', sockets s' !! w0 = Some k' /\ detached k' /\ ~ live k') /\
    timers s' !! t0 = Some (mkTimer c 30000 true) /\
    emitted s' = emitted s ++ [(c, ev_disconnected (Some "Connection closed"))] /\
    clients s' = clients s /\ promises s' = promises s /\
    (forall l, findTab (fun t => bool_decide (alias t = Some (eventHandler cl))) s = Some l ->
       exists t', tabAt s' l = Some t' /\ status t' = disconnected /\
                  lastError t' = Some "Connection closed").
Proof.
  intros s Hk Hcf Hoc (cl & Hc & Hst)%statusOf_connected s'.
  pose proof (netInv_reachable es) as [Hti Hs]. fold s in Hti, Hs.
  pose proof (tabsInv_reachable es) as Hinv. fold s in Hinv.
  destruct (ti_connected _ _ Hti c cl Hc Hst) as [t0 Hp].
  pose proof (ti_held _ _ Hti c cl t0 Hc Hp) as Htm.
  destruct (si_connected _ _ Hs c cl Hc Hst) as (w0 & k0 & Hw & Hk0 & Hr0).
  set (s1 := updSocket w setCloseFired s).
  assert (clientObjs s1 !! c = Some cl) as Hc1 by done.
  assert (mgrView s1 = mgrView s) as Hm1 by done.
  destruct (net_fields (cleanup_stores c s1 cl Hc1)) as (Eo & Ek & Et).
  set (s2 := cleanup c s1) in *.
  assert (mgrView s2 = mgrView s) as Hm2 by (unfold s2; by rewrite mgrView_cleanup).
  assert (statusOf c s2 = connected) as Hst2.
  { unfold statusOf. rewrite Eo, list_lookup_alter_eq, Hc1. done. }
  set (s3 := updClient c (with_status disconnected) s2).
  assert (mgrView s3 = mgrView s) as Hm3 by (unfold s3; by rewrite mgrView_updClient).
  assert (clientObjs s3 !! c =
            Some (with_status disconnected (with_ws None (with_pingInterval None cl)))) as Hc3.
  { unfold s3, updClient. simpl. by rewrite Eo, list_alter_alter_eq, list_lookup_alter_eq, Hc1. }
  assert (s' = callEventHandler c (ev_disconnected (Some "Connection closed")) s3) as Es'.
  { unfold s'. simpl. rewrite Hk, Hcf, Hoc. unfold on_close. fold s1 s2. rewrite Hst2.
    by rewrite bool_decide_eq_true_2. }
  pose proof (netView_callEventHandler c (ev_disconnected (Some "Connection closed")) s3) as Hn.
  rewrite <- Es' in Hn. destruct (netView_fields _ _ Hn) as (Eo' & Ek' & Et' & Ep' & Ecl').
  exists cl, w0, k0, t0. split; [done|]. split; [done|]. split; [done|]. split; [done|].
  split; [by rewrite Eo'|]. split; [|split; [|split; [|split; [|split]]]].
  - assert (exists k1, alter setCloseFired w (sockets s) !! w0 = Some k1) as [k1 Hk1].
    { destruct (decide (w = w0)) as [->|Hne].
      - rewrite list_lookup_alter_eq, Hk0. eauto.
      - rewrite list_lookup_alter_ne, Hk0 by done. eauto. }
    exists (ws_close (detach k1)). split.
    + rewrite Ek'. unfold s3. simpl. rewrite Ek, Hw. simpl.
      rewrite list_lookup_alter_eq. unfold s1, updSocket. simpl. by rewrite Hk1.
    + destruct (closed_detached_state k1) as (Hd & H1 & H2). split; [done|]. by intros [?|?].
  - rewrite Et'. unfold s3. simpl. rewrite Et, Hp. simpl.
    unfold s1. simpl. by rewrite list_lookup_alter_eq, Htm.
  - rewrite Es', (emitted_callEventHandler c _ s3 _ Hc3). unfold s3. simpl. unfold s2.
    by rewrite cleanup_emitted.
  - rewrite Ecl'. unfold s3. simpl. unfold s2. by rewrite (proj1 (touches_cleanup c s1)).
  - rewrite Ep'. unfold s3. simpl. unfold s2. by rewrite cleanup_promises.
  - intros l Hf. destruct (find_tab_Some _ _ _ Hf) as (Hin & t & Ht & _).
    exists (setLastError (Some "Connection closed") (setStatus disconnected t)). split; [|done].
    rewrite Es'.
    assert (tabsInv false s3) as Hinv3 by by apply (tabsInv_frame false s).
    assert (tabAt s3 l = Some t) as Ht3 by by rewrite (tabAt_mgrView _ _ l Hm3).
    assert (findTab (fun t => bool_decide (alias t = Some (eventHandler
              (with_status disconnected (with_ws None (with_pingInterval None cl)))))) s3
            = Some l) as Hf3 by (simpl; by rewrite (findTab_mgrView _ _ _ Hm3)).
    rewrite (callEventHandler_markTab false c
               (with_status disconnected (with_ws None (with_pingInterval None cl))) l t s3
               (ev_disconnected (Some "Connection closed")) disconnected
               (Some "Connection closed")); try done.
    by apply markTab_tabAt.
Qed.

Lemma X16_close_while_connected_witness :
  let s := run handshake init in
  let s' := step (WsClose 0) s in
  exists cl w0 k0 t0,
    clientObjs s !! 0 = Some cl /\ ws cl = Some w0 /\ pingInterval cl = Some t0 /\
    sockets s !! w0 = Some k0 /\
    clientObjs s' !! 0 =
      Some (with_status disconnected (with_ws None (with_pingInterval None cl))) /\
    (exists k', sockets s' !! w0 = Some k' /\ detached k' /\ ~ live k') /\
    timers s' !! t0 = Some (mkTimer 0 30000 true) /\
    emitted s' = emitted s ++ [(0, ev_disconnected (Some "Connection closed"))] /\
    clients s' = clients s /\ promises s' = promises s /\
    (forall l, findTab (fun t => bool_decide (alias t = Some (eventHandler cl))) s = Some l ->
       exists t', tabAt s' l = Some t' /\ status t' = disconnected /\
                  lastError t' = Some "Connection closed").
Proof.
  apply (X16_close_while_connected handshake 0
           (mkSocket ("h1", 8080%Z) (Some 0) (Some (0, 0)) (Some (0, 0)) (Some 0) OPEN false
              [authMessage "tok"]) 0); reflexivity.
Defined.

(** X17. A tab whose alias or host is missing or empty, or whose port is
    missing or zero, is never connected: [selectTab] on it selects the tab
    and notifies, and nothing else happens: no client, no socket, no status
    change and no error on the tab. *)
Theorem X17_select_unconnectable_tab es i l t ctor :
  let s := run es init in
  tabList s !! i = Some l -> tabAt s l = Some t ->
  (alias t = None \/ alias t = Some "" \/ host t = None \/ host t = Some "" \/
   port t = None \/ port t = Some 0%Z) ->
  selectTab (Z.of_nat i) ctor s = notifyStateChange (set_selectedIndex (Z.of_nat i) s).
Proof.
  intros s Hl Ht Hbad. pose proof (lookup_lt_Some _ _ _ Hl) as Hlt.
  unfold selectTab. rewrite (proj2 (Z.ltb_ge _ _)) by lia.
  rewrite (proj2 (Z.leb_gt _ _)) by lia. simpl. rewrite Nat2Z.id.
  set (s0 := set_selectedIndex (Z.of_nat i) s).
  change (tabList s0) with (tabList s). rewrite Hl.
  change (tabAt s0 l) with (tabAt s l). rewrite Ht.
  case_match; [|done]. unfold connectToRemote.
  change (tabAt s0 l) with (tabAt s l). rewrite Ht.
  destruct (alias t) as [a|]; [|done]. destruct (host t) as [h|]; [|done].
  destruct (port t) as [p|]; [|done].
  destruct Hbad as [?|[[= ->]|[?|[[= ->]|[?|[= ->]]]]]]; try done.
  - by rewrite orb_true_r.
  - simpl. by rewrite !orb_true_r.
Qed.

Lemma X17_select_unconnectable_tab_witness :
  let s := run [Initialize; InitializeLoaded [("b", mkConfig "h2" 0 "tok")]] init in
  selectTab (Z.of_nat 1) None s = notifyStateChange (set_selectedIndex (Z.of_nat 1) s).
Proof.
  apply (X17_select_unconnectable_tab [Initialize; InitializeLoaded [("b", mkConfig "h2" 0 "tok")]]
           1 1 (createRemoteTab "b" "h2" 0) None); [reflexivity|reflexivity|].
  right. right. right. right. right. reflexivity.
Defined.

(** X18. [truncateText] with a width of at least 1: the result never
    exceeds the width; a text that fits is returned unchanged; a longer text
    is cut to its first [maxWidth - 1] code units followed by the
    ellipsis, which makes exactly [maxWidth] code units. *)
Theorem X18_truncateText_within_width (text : jsString) (maxWidth : Z) :
  (1 <= maxWidth)%Z ->
  (Z.of_nat (length (truncateText text maxWidth)) <= maxWidth)%Z /\
  ((Z.of_nat (length text) <= maxWidth)%Z -> truncateText text maxWidth = text) /\
  ((maxWidth < Z.of_nat (length text))%Z ->
     truncateText text maxWidth = take (Z.to_nat (maxWidth - 1)) text ++ [ellipsis] /\
     Z.of_nat (length (truncateText text maxWidth)) = maxWidth).
Proof.
  intros Hw. unfold truncateText.
  destruct (Z.leb_spec (Z.of_nat (length text)) maxWidth) as [Hle|Hgt].
  - split; [done|]. split; [done|]. lia.
  - assert (slice0 text (maxWidth - 1) = take (Z.to_nat (maxWidth - 1)) text) as ->.
    { unfold slice0. rewrite (proj2 (Z.ltb_ge _ _)) by lia. f_equal. lia. }
    assert (Z.of_nat (length (take (Z.to_nat (maxWidth - 1)) text ++ [ellipsis])) = maxWidth)
      as Hlen.
    { rewrite length_app, length_take. simpl. lia. }
    split; [lia|]. split; [lia|]. done.
Qed.

Lemma X18_truncateText_within_width_witness :
  (Z.of_nat (length (truncateText [104; 101; 108; 108; 111]%N 3)) <= 3)%Z /\
  ((Z.of_nat (length [104; 101; 108; 108; 111]%N) <= 3)%Z ->
     truncateText [104; 101; 108; 108; 111]%N 3 = [104; 101; 108; 108; 111]%N) /\
  ((3 < Z.of_nat (length [104; 101; 108; 108; 111]%N))%Z ->
     truncateText [104; 101; 108; 108; 111]%N 3 =
       take (Z.to_nat (3 - 1)) [104; 101; 108; 108; 111]%N ++ [ellipsis] /\
     Z.of_nat (length (truncateText [104; 101; 108; 108; 111]%N 3)) = 3%Z).
Proof. apply (X18_truncateText_within_width [104; 101; 108; 108; 111]%N 3). lia. Defined.

(** X19. [truncateText] with a width of 0 or less and a text that is not
    empty: the negative end of [slice] counts from the end of the text, so
    the result is the text without its last [1 - maxWidth] code units,
    followed by the ellipsis; it is never empty and so always exceeds the
    width, and with [maxWidth = 0] it is as long as the text itself. *)
Theorem X19_truncateText_nonpositive_width (text : jsString) (maxWidth : Z) :
  (maxWidth <= 0)%Z -> text <> [] ->
  truncateText text maxWidth =
    take (length text - Z.to_nat (1 - maxWidth)) text ++ [ellipsis] /\
  (maxWidth < Z.of_nat (length (truncateText text maxWidth)))%Z /\
  (maxWidth = 0%Z -> length (truncateText text maxWidth) = length text).
Proof.
  intros Hw Hne. assert (0 < length text) as Hlen by (destruct text; [done|simpl; lia]).
  unfold truncateText. rewrite (proj2 (Z.leb_gt _ _)) by lia.
  assert (slice0 text (maxWidth - 1) = take (length text - Z.to_nat (1 - maxWidth)) text) as ->.
  { unfold slice0. rewrite (proj2 (Z.ltb_lt _ _)) by lia. f_equal. lia. }
  split; [done|]. rewrite length_app, length_take. simpl. split; [lia|]. intros ->. simpl. lia.
Qed.

Lemma X19_truncateText_nonpositive_width_witness :
  truncateText [104; 105]%N 0 = take (length [104; 105]%N - Z.to_nat (1 - 0)) [104; 105]%N
                                  ++ [ellipsis] /\
  (0 < Z.of_nat (length (truncateText [104; 105]%N 0)))%Z /\
  (0%Z = 0%Z -> length (truncateText [104; 105]%N 0) = length [104; 105]%N).
Proof. apply (X19_truncateText_nonpositive_width [104; 105]%N 0); [lia|discriminate]. Defined.

(** ** Transport error, close before authentication, and idempotent cleanup *)

(** X20. Transport error.  In every reachable state, when a socket that is
    not closed and carries a client's [onerror] callback delivers [error]:
    the client becomes [disconnected] but keeps its socket and its timer
    ([cleanup()] is not called on this path); no timer changes and the
    socket keeps its callbacks; one [disconnected] event with reason
    "Connection error" is emitted; a pending promise of [connect()] is
    rejected with that reason; the [clients] map is unchanged; and the first
    tab with the client's alias ends [disconnected] with [lastError]
    "Connection error". *)
Theorem X20_transport_error es w k c p :
  let s := run es init in
  sockets s !! w = Some k -> readyState k <> CLOSED -> onerror k = Some (c, p) ->
  let s' := step (WsError w) s in
  exists cl,
    clientObjs s !! c = Some cl /\
    clientObjs s' !! c = Some (with_status disconnected cl) /\
    (forall c', c' <> c -> clientObjs s' !! c' = clientObjs s !! c') /\
    timers s' = timers s /\
    sockets s' = alter (setReadyState CLOSED) w (sockets s) /\
    emitted s' = emitted s ++ [(c, ev_disconnected (Some "Connection error"))] /\
    clients s' = clients s /\
    (forall aw, promises s !! p = Some (mkPromise pending aw) ->
       settled <$> promises s' !! p = Some (rejected "Connection error")) /\
    (forall l, findTab (fun t => bool_decide (alias t = Some (eventHandler cl))) s = Some l ->
       exists t', tabAt s' l = Some t' /\ status t' = disconnected /\
                  lastError t' = Some "Connection error").
Proof.
  intros s Hk Hr He s'.
  pose proof (netInv_reachable es) as [_ Hs]. fold s in Hs.
  pose proof (tabsInv_reachable es) as Hinv. fold s in Hinv.
  destruct (sockInv_attached _ _ w k c Hs Hk) as [_ [cl Hc]]; [eauto|].
  set (s1 := updSocket w (setReadyState CLOSED) s).
  set (s2 := updClient c (with_status disconnected) s1).
  assert (mgrView s2 = mgrView s) as Hm2 by (unfold s2; by rewrite mgrView_updClient).
  assert (clientObjs s2 !! c = Some (with_status disconnected cl)) as Hc2.
  { unfold s2, s1, updClient. simpl. by rewrite list_lookup_alter_eq, Hc. }
  set (s3 := callEventHandler c (ev_disconnected (Some "Connection error")) s2).
  assert (s' = rejectConnect p "Connection error" s3) as Es'.
  { unfold s'. simpl. rewrite Hk, He. by rewrite bool_decide_eq_false_2. }
  pose proof (netView_callEventHandler c (ev_disconnected (Some "Connection error")) s2) as Hn3.
  fold s3 in Hn3. destruct (netView_fields _ _ Hn3) as (Eo3 & Ek3 & Et3 & Ep3 & Ecl3).
  destruct (net_fields (net_rejectConnect p "Connection error" s3)) as (Eo4 & Ek4 & Et4).
  rewrite <- Es' in Eo4, Ek4, Et4.
  exists cl. split; [done|]. split; [by rewrite Eo4, Eo3|].
  split; [|split; [|split; [|split; [|split; [|split]]]]].
  - intros c' Hne. rewrite Eo4, Eo3. unfold s2, s1, updClient. simpl.
    by rewrite list_lookup_alter_ne.
  - by rewrite Et4, Et3.
  - by rewrite Ek4, Ek3.
  - rewrite Es'. unfold rejectConnect, resumeSelectTab, settle.
    assert (emitted s3 = emitted s ++ [(c, ev_disconnected (Some "Connection error"))]) as He3
      by apply (emitted_callEventHandler c _ s2 _ Hc2).
    repeat case_match; simpl; rewrite ?emitted_notify; done.
  - rewrite Es'. rewrite (proj1 (touches_rejectConnect c p "Connection error" s3)). by rewrite Ecl3.
  - intros aw Hp. rewrite Es'. apply rejectConnect_pending. rewrite Ep3. unfold s2, s1. simpl.
    by rewrite Hp.
  - intros l Hf. destruct (find_tab_Some _ _ _ Hf) as (Hin & t & Ht & _).
    exists (setLastError (Some "Connection error") (setStatus disconnected t)). split; [|done].
    assert (tabsInv false s2) as Hinv2 by by apply (tabsInv_frame false s).
    assert (tabAt s2 l = Some t) as Ht2 by by rewrite (tabAt_mgrView _ _ l Hm2).
    assert (findTab (fun t => bool_decide (alias t = Some (eventHandler
              (with_status disconnected cl)))) s2 = Some l) as Hf2
      by (simpl; by rewrite (findTab_mgrView _ _ _ Hm2)).
    assert (tabAt s3 l = Some (setLastError (Some "Connection error") (setStatus disconnected t)))
      as Ht3.
    { unfold s3.
      rewrite (callEventHandler_markTab false c (with_status disconnected cl) l t s2
                 (ev_disconnected (Some "Connection error")) disconnected
                 (Some "Connection error")); try done.
      by apply markTab_tabAt. }
    rewrite Es'. unfold rejectConnect, resumeSelectTab, settle.
    repeat case_match; rewrite ?tabAt_notify; done.
Qed.

Lemma X20_transport_error_witness :
  let s := run [OnStateChange; Initialize; InitializeLoaded oneRemote; SelectTab 1 None;
                WsOpen 0] init in
  let s' := step (WsError 0) s in
  exists cl,
    clientObjs s !! 0 = Some cl /\
    clientObjs s' !! 0 = Some (with_status disconnected cl) /\
    (forall c', c' <> 0 -> clientObjs s' !! c' = clientObjs s !! c') /\
    timers s' = timers s /\
    sockets s' = alter (setReadyState CLOSED) 0 (sockets s) /\
    emitted s' = emitted s ++ [(0, ev_disconnected (Some "Connection error"))] /\
    clients s' = clients s /\
    (forall aw, promises s !! 0 = Some (mkPromise pending aw) ->
       settled <$> promises s' !! 0 = Some (rejected "Connection error")) /\
    (forall l, findTab (fun t => bool_decide (alias t = Some (eventHandler cl))) s = Some l ->
       exists t', tabAt s' l = Some t' /\ status t' = disconnected /\
                  lastError t' = Some "Connection error").
Proof.
  apply (X20_transport_error
           [OnStateChange; Initialize; InitializeLoaded oneRemote; SelectTab 1 None; WsOpen 0]
           0 (mkSocket ("h1", 8080%Z) (Some 0) (Some (0, 0)) (Some (0, 0)) (Some 0) OPEN false
                [authMessage "tok"]) 0 0); [reflexivity|discriminate|reflexivity].
Defined.

(** X21. Transport close while not connected.  In every reachable state,
    when a socket whose [onclose] callback belongs to a client that is not
    [connected] delivers [close], only [cleanup()] runs: the client gives up
    its socket and its timer and keeps its status; no event is emitted, no
    promise is settled (a pending [connect()] stays pending), and the
    manager's tabs, selection and notifications are untouched. *)
Theorem X21_close_while_not_connected es w k c :
  let s := run es init in
  sockets s !! w = Some k -> closeFired k = false -> onclose k = Some c ->
  statusOf c s <> connected ->
  let s' := step (WsClose w) s in
  exists cl,
    clientObjs s !! c = Some cl /\
    clientObjs s' !! c = Some (with_ws None (with_pingInterval None cl)) /\
    statusOf c s' = statusOf c s /\
    emitted s' = emitted s /\ promises s' = promises s /\ mgrView s' = mgrView s /\
    (forall t tm, timers s' !! t = Some tm -> callback tm = c -> cleared tm = true).
Proof.
  intros s Hk Hcf Hoc Hst s'.
  pose proof (netInv_reachable es) as Hnet. fold s in Hnet. destruct Hnet as [Hti Hs].
  destruct (sockInv_attached _ _ w k c Hs Hk) as [_ [cl Hc]]; [eauto|].
  set (s1 := updSocket w setCloseFired s).
  assert (clientObjs s1 !! c = Some cl) as Hc1 by done.
  assert (statusOf c (cleanup c s1) = statusOf c s) as Hst1 by by rewrite cleanup_statusOf.
  assert (s' = cleanup c s1) as Es'.
  { unfold s'. simpl. rewrite Hk, Hcf, Hoc. unfold on_close. fold s1. rewrite Hst1.
    by rewrite bool_decide_eq_false_2. }
  exists cl. split; [done|]. split; [rewrite Es'; by apply cleanup_client|].
  split; [by rewrite Es'|]. split; [by rewrite Es', cleanup_emitted|].
  split; [by rewrite Es', cleanup_promises|]. split; [by rewrite Es', mgrView_cleanup|].
  intros t tm Htm Hcb. destruct (cleared tm) eqn:Hcl; [done|].
  pose proof (netInv_step (WsClose w) s (conj Hti Hs)) as [Hti' _]. fold s' in Hti'.
  destruct (ti_owner _ _ Hti' t tm Htm Hcl) as (cl' & Hc' & Hp').
  rewrite Hcb, Es', (cleanup_client c s1 cl Hc1) in Hc'. injection Hc' as <-. done.
Qed.

Lemma X21_close_while_not_connected_witness :
  let s := run [OnStateChange; Initialize; InitializeLoaded oneRemote; SelectTab 1 None;
                WsOpen 0] init in
  let s' := step (WsClose 0) s in
  exists cl,
    clientObjs s !! 0 = Some cl /\
    clientObjs s' !! 0 = Some (with_ws None (with_pingInterval None cl)) /\
    statusOf 0 s' = statusOf 0 s /\
    emitted s' = emitted s /\ promises s' = promises s /\ mgrView s' = mgrView s /\
    (forall t tm, timers s' !! t = Some tm -> callback tm = 0 -> cleared tm = true).
Proof.
  apply (X21_close_while_not_connected
           [OnStateChange; Initialize; InitializeLoaded oneRemote; SelectTab 1 None; WsOpen 0]
           0 (mkSocket ("h1", 8080%Z) (Some 0) (Some (0, 0)) (Some (0, 0)) (Some 0) OPEN false
                [authMessage "tok"]) 0); [reflexivity|reflexivity|reflexivity|discriminate].
Defined.

Lemma stopPingInterval_idempotent c s :
  stopPingInterval c (stopPingInterval c s) = stopPingInterval c s.
Proof.
  destruct (clientObjs s !! c) as [cl|] eqn:Hc.
  - pose proof (stopPingInterval_client c s cl Hc) as H.
    unfold stopPingInterval at 1. by rewrite H.
  - unfold stopPingInterval. by rewrite !Hc.
Qed.

(** X22. Idempotent cleanup.  In any state, running [cleanup()] or
    [stopPingInterval()] a second time changes nothing; and in every
    reachable state a second [disconnect()] leaves clients, sockets and
    timers as the first one left them (it only emits one more
    [disconnected] event). *)
Theorem X22_cleanup_idempotent es c :
  (forall s0, cleanup c (cleanup c s0) = cleanup c s0) /\
  (forall s0, stopPingInterval c (stopPingInterval c s0) = stopPingInterval c s0) /\
  let s := run es init in
  net (disconnect c (disconnect c s)) = net (disconnect c s) /\
  (is_Some (clientObjs s !! c) ->
     emitted (disconnect c (disconnect c s)) =
       emitted s ++ [(c, ev_disconnected None); (c, ev_disconnected None)]).
Proof.
  split; [intros; apply cleanup_idempotent|]. split; [intros; apply stopPingInterval_idempotent|].
  intros s. destruct (clientObjs s !! c) as [cl|] eqn:Hc.
  - pose proof (disconnect_client c s cl Hc) as Hc1.
    set (cl1 := with_status disconnected (with_ws None (with_pingInterval None cl))) in *.
    rewrite (disconnect_stores c (disconnect c s) cl1 Hc1). simpl. split.
    + unfold net. f_equal. f_equal.
      apply (alter_id_at _ c _ cl1); [done|]. unfold cl1. by destruct cl.
    + intros _.
      assert (forall s0 cl0, clientObjs s0 !! c = Some cl0 ->
                emitted (disconnect c s0) = emitted s0 ++ [(c, ev_disconnected None)]) as Hem.
      { intros s0 cl0 Hc0. unfold disconnect.
        rewrite (emitted_callEventHandler c _ _
                   (with_status disconnected (with_ws None (with_pingInterval None cl0)))).
        - simpl. by rewrite cleanup_emitted.
        - unfold updClient. simpl. by rewrite list_lookup_alter_eq, (cleanup_client c s0 cl0 Hc0). }
      rewrite (Hem _ cl1 Hc1), (Hem s cl Hc). by rewrite <- app_assoc.
  - split; [|by intros [? ?]].
    rewrite (disconnect_invalid c (disconnect c s)); [done|].
    destruct (net_fields (disconnect_invalid c s Hc)) as (-> & _). done.
Qed.
(** ** [refresh()]: the evicted client *)

Lemma closed_state k :
  readyState (ws_close (detach k)) = CLOSING \/ readyState (ws_close (detach k)) = CLOSED.
Proof. unfold ws_close, detach. simpl. destruct (readyState k); auto. Qed.

Lemma shutDown_net c cl s s' : net s' = net s -> shutDown c cl s -> shutDown c cl s'.
Proof. intros (_ & Hk & Ht)%net_fields. unfold shutDown. by rewrite Hk, Ht. Qed.

Lemma shutDown_disconnect_self c s cl :
  netInv s -> clientObjs s !! c = Some cl -> shutDown c cl (disconnect c s).
Proof.
  intros [Ht Hs] Hc.
  destruct (net_fields (disconnect_stores c s cl Hc)) as (_ & Ek & Et). split.
  - intros w Hw. rewrite Ek, Hw. simpl.
    destruct (si_ws _ _ Hs c cl w Hc Hw) as (k & Hk & _).
    exists (ws_close (detach k)). rewrite list_lookup_alter_eq, Hk.
    split; [done|]. split; [apply closed_detached_state|apply closed_state].
  - intros t Hp. rewrite Et, Hp. simpl.
    pose proof (ti_held _ _ Ht c cl t Hc Hp) as Htm.
    by rewrite list_lookup_alter_eq, Htm.
Qed.

Lemma shutDown_disconnect c c0 s cl0 : shutDown c0 cl0 s -> shutDown c0 cl0 (disconnect c s).
Proof.
  intros [H1 H2]. destruct (clientObjs s !! c) as [cl|] eqn:Hc.
  2:{ apply (shutDown_net c0 cl0 s); [by apply disconnect_invalid|done]. }
  destruct (net_fields (disconnect_stores c s cl Hc)) as (_ & Ek & Et). split.
  - intros w Hw. destruct (H1 w Hw) as (k & Hk & Hd & Hr). rewrite Ek.
    destruct (decide (ws cl = Some w)) as [E|E].
    + rewrite E. simpl. exists (ws_close (detach k)). rewrite list_lookup_alter_eq, Hk.
      split; [done|]. split; [apply closed_detached_state|apply closed_state].
    + exists k. split; [by apply closedBy_other|done].
  - intros t Hp. specialize (H2 t Hp). rewrite Et.
    destruct (pingInterval cl) as [t'|]; simpl; [|done].
    destruct (decide (t' = t)) as [->|Hne].
    + by rewrite list_lookup_alter_eq, H2.
    + by rewrite list_lookup_alter_ne.
Qed.

Lemma shutDown_refreshKeep nA l c0 cl0 s :
  shutDown c0 cl0 s -> shutDown c0 cl0 (refreshKeep nA l s).2.
Proof.
  intros H.
  destruct (refreshKeep_cases nA l s) as [Heq|(t & a & c & _ & _ & _ & _ & _ & _ & Heq)];
    rewrite Heq; [done|].
  apply (shutDown_net c0 cl0 (disconnect c s)); [done|]. by apply shutDown_disconnect.
Qed.

Lemma shutDown_filterTabs nA ls c0 cl0 s :
  shutDown c0 cl0 s -> shutDown c0 cl0 (filterTabs nA ls s).2.
Proof.
  revert s. induction ls as [|l ls IH]; intros s H; simpl; [done|].
  pose proof (shutDown_refreshKeep nA l c0 cl0 s H) as H1.
  destruct (refreshKeep nA l s) as [keep s1]. simpl in *.
  specialize (IH s1 H1). by destruct (filterTabs nA ls s1).
Qed.

(** The filter of [refresh()] reaches the tab [l] of the alias [a], which is
    no longer configured, while [a] still has its client: it disconnects
    that client. *)
Lemma filterTabs_shuts nA ls l a t c cl0 s0 s :
  refreshInv s0 s -> netInv s ->
  clients_get a (clients s) = Some c -> clientObjs s !! c = Some cl0 ->
  l ∈ ls -> tabAt s0 l = Some t -> isLocal t = false -> alias t = Some a -> a ∉ nA ->
  shutDown c cl0 (filterTabs nA ls s).2.
Proof.
  intros Hinv Hnet Hg Hc Hin Ht Hl Ha Hnin. revert s Hinv Hnet Hg Hc.
  induction ls as [|l' ls IH]; intros s Hinv Hnet Hg Hc; [by apply elem_of_nil in Hin|].
  simpl.
  pose proof (refreshKeep_inv nA l' s0 s Hinv) as Hinv1.
  pose proof (netInv_refreshKeep nA l' s Hnet) as Hnet1.
  destruct Hinv as (Htabs & Hcl & Hsame).
  destruct (refreshKeep_cases nA l' s)
    as [Heq|(t' & a' & c' & Ht' & _ & Ha' & _ & _ & Hg' & Heq)].
  - assert (l' <> l) as Hne.
    { intros ->. revert Heq.
      pose proof (same_static _ _ Hsame l) as Hst. rewrite Ht in Hst.
      destruct (tabAt s l) as [t1|] eqn:Ht1; [|done]. simpl in Hst.
      injection Hst as _ _ Hl' Ha1 _ _. rewrite Hl in Hl'. rewrite Ha in Ha1.
      unfold refreshKeep. rewrite Ht1, Hl', Ha1.
      destruct (Hcl a c Hg) as [Hne _].
      rewrite (bool_decide_eq_false_2 _ Hne), (bool_decide_eq_false_2 _ Hnin), Hg. simpl.
      intros E. assert (clients_get a (clients s) = None) as E'.
      { rewrite <- E at 1. simpl. by rewrite clients_disconnect, clients_get_delete_eq. }
      congruence. }
    apply elem_of_cons in Hin as [->|Hin]; [done|].
    destruct (refreshKeep nA l' s) as [keep s1]. simpl in *. subst s1.
    specialize (IH Hin s Hinv1 Hnet Hg Hc). by destruct (filterTabs nA ls s).
  - destruct (decide (a' = a)) as [->|Hne].
    + assert (c' = c) as -> by congruence.
      assert (shutDown c cl0 (refreshKeep nA l' s).2) as Hsh.
      { rewrite Heq. apply (shutDown_net c cl0 (disconnect c s)); [done|].
        by apply shutDown_disconnect_self. }
      pose proof (shutDown_filterTabs nA ls c cl0 _ Hsh) as Hsh'.
      destruct (refreshKeep nA l' s) as [keep s1]. simpl in *.
      by destruct (filterTabs nA ls s1).
    + assert (l' <> l) as Hnel.
      { intros ->.
        pose proof (same_static _ _ Hsame l) as Hst. rewrite Ht, Ht' in Hst. simpl in Hst.
        injection Hst as _ _ _ Ha1 _ _. congruence. }
      apply elem_of_cons in Hin as [->|Hin]; [done|].
      assert (c' <> c) as Hnec.
      { intros ->. destruct (Hcl a c Hg) as [_ E1]. destruct (Hcl a' c Hg') as [_ E2].
        rewrite E1 in E2. congruence. }
      assert (clients_get a (clients (refreshKeep nA l' s).2) = Some c) as Hg1.
      { rewrite Heq. simpl. by rewrite clients_get_delete_ne. }
      assert (clientObjs (refreshKeep nA l' s).2 !! c = Some cl0) as Hc1.
      { rewrite Heq. simpl. rewrite <- Hc. by apply disconnect_other. }
      destruct (refreshKeep nA l' s) as [keep s1]. simpl in *.
      specialize (IH Hin s1 Hinv1 Hnet1 Hg1 Hc1). by destruct (filterTabs nA ls s1).
Qed.

(** C6: [refresh()] against the configuration list [remotes], in any
    reachable state.  Every remote tab whose alias is not in the list is
    removed, and its alias has no entry in [clients] afterwards.  The client
    the entry held is disconnected: its status is [disconnected] and it
    holds no socket and no timer; the socket it held has lost its four
    callbacks and is closing or closed; the timer it held is cleared.  The
    new list is the kept tabs followed by one new tab, made by
    [createRemoteTab], for every alias of the list that no kept tab carries,
    in the order of the list and without duplicates; every alias of the list
    that no earlier tab carried is among them.  The local tab stays first
    and unchanged.  A selected index at or beyond the new length is set to
    [max(0, length - 1)], the last index when the list is not empty, and a
    smaller one is unchanged. *)
Theorem C6_refresh (es : list event) (remotes : list (string * RemoteServerConfig)) :
  let s := run es init in
  let s' := refresh remotes s in
  let nA := remotes.*1 in
  let kept := List.filter (fun l => from_option (keeps nA) false (tabAt s l)) (tabList s) in
  let new := newRemotes (omap (fun l => tabAt s l ≫= alias) kept) remotes in
  (forall l t a,
     l ∈ tabList s -> tabAt s l = Some t -> isLocal t = false -> alias t = Some a ->
     a ∉ nA ->
     (l ∉ tabList s') /\
     clients_get a (clients s') = None /\
     forall c, clients_get a (clients s) = Some c ->
       released c s' /\
       exists cl, clientObjs s !! c = Some cl /\
         (forall w, ws cl = Some w ->
            exists k k', sockets s !! w = Some k /\ attached k c /\
              sockets s' !! w = Some k' /\ detached k' /\
              (readyState k' = CLOSING \/ readyState k' = CLOSED)) /\
         (forall t, pingInterval cl = Some t ->
            timers s !! t = Some (mkTimer c 30000 false) /\
            timers s' !! t = Some (mkTimer c 30000 true))) /\
  (exists ls,
     tabList s' = kept ++ ls /\
     map (tabAt s') ls = map (fun r => Some (remoteTabOf r)) new) /\
  (NoDup new.*1 /\ forall a, a ∈ nA -> a ∉ aliasesOf s -> a ∈ new.*1) /\
  (forall l0 t0,
     head (tabList s) = Some l0 -> tabAt s l0 = Some t0 -> isLocal t0 = true ->
     head (tabList s') = Some l0 /\ tabAt s' l0 = Some t0) /\
  ((Z.of_nat (length (tabList s')) <= selectedIndex s)%Z ->
     selectedIndex s' = Z.max 0 (Z.of_nat (length (tabList s')) - 1) /\
     (tabList s' <> [] -> selectedIndex s' = (Z.of_nat (length (tabList s')) - 1)%Z)) /\
  ((selectedIndex s < Z.of_nat (length (tabList s')))%Z -> selectedIndex s' = selectedIndex s).
Proof.
  intros s s' nA kept new.
  pose proof (tabsInv_run false es init tabsInv_init) as Hinv. fold s in Hinv.
  pose proof (clientsInv_run es init clientsInv_init) as Hcl. fold s in Hcl.
  pose proof (netInv_reachable es) as Hnet. fold s in Hnet.
  destruct (refresh_stages remotes s Hinv) as (Hn & Ho & Hl & Hi).
  fold s' nA kept new in Hn, Ho, Hl, Hi.
  rewrite (selectedIndex_filterTabs nA (tabList s) s) in Hi.
  set (s1 := (filterTabs nA (tabList s) s).2) in *.
  pose proof (sameTabs_filterTabs nA (tabList s) s (inv_ref _ _ Hinv)) as Hsame.
  fold s1 in Hsame.
  split; [|split; [|split; [|split; [|split]]]].
  - intros l t a Hin Ht Hloc Ha Hnin.
    pose proof (filterTabs_removed nA (tabList s) l a t s s (refreshInv_refl s Hinv Hcl)
                  eq_refl Hin Ht Hloc Ha Hnin) as [He1 He2]. fold s1 in He1, He2.
    destruct (netView_fields _ _ Hn) as (_ & _ & _ & _ & Hc). split; [|split].
    + rewrite Hl, elem_of_app. intros [Hk|Hs].
      * apply list_elem_of_In, filter_In in Hk as [_ Hk]. rewrite Ht in Hk. simpl in Hk.
        unfold keeps in Hk. rewrite Hloc, Ha in Hk. simpl in Hk.
        rewrite (bool_decide_eq_false_2 (a ∈ nA)) in Hk by done.
        by rewrite andb_false_r in Hk.
      * apply list_elem_of_In, in_seq in Hs as [Hs _].
        pose proof (same_static _ _ Hsame l) as Hst. rewrite Ht in Hst.
        destruct (tabAt s1 l) as [t1|] eqn:Ht1; [|done].
        apply lookup_lt_Some in Ht1. lia.
    + by rewrite Hc.
    + intros c Hc0. split; [by apply (released_netView c s1), He2|].
      destruct (Hcl a c Hc0) as [_ Hh].
      destruct (clientObjs s !! c) as [cl|] eqn:Hcl0; [|done].
      exists cl. split; [done|].
      pose proof (filterTabs_shuts nA (tabList s) l a t c cl s s
                    (refreshInv_refl s Hinv Hcl) Hnet Hc0 Hcl0 Hin Ht Hloc Ha Hnin) as Hsh.
      fold s1 in Hsh. apply (shutDown_net c cl s1 s') in Hsh; [|by apply net_netView].
      destruct Hsh as [Hsk Hst]. destruct Hnet as [Hti Hsi]. split.
      * intros w Hw. destruct (si_ws _ _ Hsi c cl w Hcl0 Hw) as (k & Hk & Hat).
        destruct (Hsk w Hw) as (k' & Hk' & Hd & Hr). by exists k, k'.
      * intros t0 Hp. split; [by apply (ti_held _ _ Hti c cl)|by apply Hst].
  - exists (seq (length (tabObjs s1)) (length new)). split; [done|].
    unfold tabAt. rewrite Ho. rewrite <- (length_fmap remoteTabOf new), lookup_seq_app.
    by rewrite map_map.
  - split; [apply newRemotes_NoDup|]. intros a Hin Hn'. apply newRemotes_complete; [done|].
    intros (l & Hk & Hal)%list_elem_of_omap. apply Hn', list_elem_of_omap. exists l.
    split; [|done]. by apply list_elem_of_In, filter_In in Hk as [?%list_elem_of_In _].
  - intros l0 t0 Hh Ht0 Hloc.
    assert (t0 = createLocalTab) as ->.
    { destruct (inv_head _ _ Hinv l0 Hh) as (t & Ht & [->|[_ [Hr _]]]); congruence. }
    pose proof (tabsInv_refresh true remotes s (tabsInv_strengthen s l0 Hinv Hh Ht0)) as Hinv'.
    fold s' in Hinv'.
    assert (head (tabList s') = Some l0) as Hh'.
    { rewrite Hl. unfold kept. destruct (tabList s) as [|x xs]; [done|].
      injection Hh as ->. simpl. by rewrite Ht0. }
    split; [done|]. destruct (inv_head _ _ Hinv' l0 Hh') as (t & Ht & [->|[? _]]); done.
  - intros Hge. apply Z.leb_le in Hge. rewrite Hge in Hi. split; [done|].
    intros Hne. rewrite Hi. destruct (tabList s'); [done|]. simpl length. lia.
  - intros Hlt. apply Z.leb_gt in Hlt. by rewrite Hlt in Hi.
Qed.

Lemma C6_refresh_witness :
  released 0 (refresh [] (run handshake init)) /\
  (exists k',
     sockets (refresh [] (run handshake init)) !! 0 = Some k' /\ detached k' /\
     (readyState k' = CLOSING \/ readyState k' = CLOSED)) /\
  timers (run handshake init) !! 0 = Some (mkTimer 0 30000 false) /\
  timers (refresh [] (run handshake init)) !! 0 = Some (mkTimer 0 30000 true).
Proof.
  destruct (C6_refresh handshake []) as (H1 & _).
  destruct (H1 1 (mkTab "remote-a" "a" false connected (Some "a") (Some "h1") (Some 8080%Z) None)
              "a") as (_ & _ & Hc);
    [apply list_elem_of_In; vm_compute; tauto|reflexivity|reflexivity|reflexivity|
     apply not_elem_of_nil|].
  destruct (Hc 0 eq_refl) as (Hrel & cl & Hcl & Hsock & Htim).
  vm_compute in Hcl. injection Hcl as <-.
  destruct (Hsock 0 eq_refl) as (k & k' & _ & _ & Hk' & Hd & Hr).
  destruct (Htim 0 eq_refl) as (Ht0 & Ht1).
  split; [exact Hrel|]. split; [|split; [exact Ht0|exact Ht1]].
  exists k'. split; [exact Hk'|]. split; [exact Hd|exact Hr].
Defined.
(** ** Counting the notifications *)




































Lemma filterTabs_cons_snd nA l ls s :
  (filterTabs nA (l :: ls) s).2 = (filterTabs nA ls (refreshKeep nA l s).2).2.
Proof.
  simpl. destruct (refreshKeep nA l s) as [k s1]. simpl. by destruct (filterTabs nA ls s1).
Qed.









Lemma notifiedTimes_once s s' : notifiedTimes 1 s s' -> notifiedOnce s s'.
Proof.
  intros (mid & Hm & Hlen & Hd). destruct mid as [|[a i] [|? ?]]; try done.
  apply Forall_singleton in Hd as (Hi & _ & Ha). simpl in *. subst i. by exists a.
Qed.




(** ** A connected client keeps its socket and its timer *)

Lemma keptOrDown_same c s s' : clientObjs s' = clientObjs s -> keptOrDown c s s'.
Proof. intros Ho. left. by rewrite Ho. Qed.

Lemma keptOrDown_netView c s s' : netView s' = netView s -> keptOrDown c s s'.
Proof. intros (Ho & _)%netView_fields. by apply keptOrDown_same. Qed.

Lemma keptOrDown_trans c s1 s2 s3 :
  keptOrDown c s1 s2 -> keptOrDown c s2 s3 -> keptOrDown c s1 s3.
Proof.
  intros [H1|H1] [H2|H2]; [left; congruence|by right| |by right].
  right. unfold statusOf in *. by rewrite H2.
Qed.

Lemma keptOrDown_touches c c' s s' : c' <> c -> touches c' s s' -> keptOrDown c s s'.
Proof. intros Hne [_ H]. left. by apply H. Qed.

Lemma statusOf_same c s s' : clientObjs s' = clientObjs s -> statusOf c s' = statusOf c s.
Proof. unfold statusOf. by intros ->. Qed.

Lemma statusOf_updClient c f s :
  statusOf c (updClient c f s) = from_option (fun cl => _status (f cl)) disconnected
                                   (clientObjs s !! c).
Proof.
  unfold statusOf, updClient. simpl. rewrite list_lookup_alter_eq.
  by destruct (clientObjs s !! c).
Qed.

Lemma statusOf_updClient_down c f s :
  (forall cl, _status (f cl) <> connected) -> statusOf c (updClient c f s) <> connected.
Proof.
  intros Hf. rewrite statusOf_updClient. destruct (clientObjs s !! c); simpl; [apply Hf|done].
Qed.

Lemma clientObjs_rejectConnect p r s : clientObjs (rejectConnect p r s) = clientObjs s.
Proof.
  unfold rejectConnect, resumeSelectTab. repeat case_match; try done.
  by rewrite clientObjs_notify.
Qed.

Lemma clientObjs_awaitConnect a p s : clientObjs (awaitConnect a p s) = clientObjs s.
Proof.
  unfold awaitConnect, resumeSelectTab, resumeConnected. repeat case_match; try done.
  by rewrite clientObjs_notify.
Qed.

Lemma clientObjs_updateTabStatus tabId st e s :
  clientObjs (updateTabStatus tabId st e s) = clientObjs s.
Proof. by destruct (netView_fields _ _ (netView_updateTabStatus tabId st e s)) as (? & _). Qed.

Lemma keptOrDown_disconnect c c' s : keptOrDown c s (disconnect c' s).
Proof.
  destruct (decide (c' = c)) as [->|Hne];
    [|by apply (keptOrDown_touches c c'), touches_disconnect].
  destruct (clientObjs s !! c) as [cl|] eqn:Hc.
  - right. unfold statusOf. by rewrite (disconnect_client c s cl Hc).
  - apply keptOrDown_same. by destruct (net_fields (disconnect_invalid c s Hc)) as (? & _).
Qed.

Lemma keptOrDown_on_error c c' p s : keptOrDown c s (on_error c' p s).
Proof.
  destruct (decide (c' = c)) as [->|Hne].
  - right. unfold on_error.
    rewrite (statusOf_same c _ _ (clientObjs_rejectConnect _ _ _)).
    rewrite (statusOf_same c _ _ (clientObjs_callEventHandler _ _ _)).
    by apply statusOf_updClient_down.
  - apply (keptOrDown_touches c c'); [done|]. unfold on_error.
    eapply touches_trans; [|apply touches_rejectConnect].
    eapply touches_trans; [|apply touches_callEventHandler]. apply touches_updClient.
Qed.

Lemma keptOrDown_on_close c c' s : keptOrDown c s (on_close c' s).
Proof.
  destruct (decide (c' = c)) as [->|Hne].
  - right. unfold on_close. case_bool_decide as Hst; [|done].
    rewrite (statusOf_same c _ _ (clientObjs_callEventHandler _ _ _)).
    by apply statusOf_updClient_down.
  - apply (keptOrDown_touches c c'); [done|]. unfold on_close. case_bool_decide.
    + eapply touches_trans; [|apply touches_callEventHandler].
      eapply touches_trans; [|apply touches_updClient]. apply touches_cleanup.
    + apply touches_cleanup.
Qed.

(** Every message but a successful [auth_response]. *)
Lemma keptOrDown_handleMessage c c' p m s :
  (c' = c -> ~ (type m = "auth_response" /\ success m = true)) ->
  keptOrDown c s (handleMessage c' p m s).
Proof.
  intros Hm. destruct (decide (c' = c)) as [->|Hne];
    [|by apply (keptOrDown_touches c c'), touches_handleMessage].
  specialize (Hm eq_refl). unfold handleMessage.
  case_bool_decide as Hty.
  - destruct (success m) eqn:Hsu; [by destruct Hm|]. right.
    rewrite (statusOf_same c _ _ (clientObjs_rejectConnect _ _ _)).
    rewrite cleanup_statusOf.
    rewrite (statusOf_same c _ _ (clientObjs_callEventHandler _ _ _)).
    by apply statusOf_updClient_down.
  - case_bool_decide; [by left|]. apply keptOrDown_same, clientObjs_callEventHandler.
Qed.

Lemma keptOrDown_connect c c' ctor s : keptOrDown c s (connect c' ctor s).1.
Proof.
  destruct (decide (c' = c)) as [->|Hne];
    [|by apply (keptOrDown_touches c c'), touches_connect].
  unfold connect. destruct (clientObjs s !! c) as [cl|] eqn:Hc; [|by left].
  destruct (_status cl); [|by left|by left]. right.
  destruct ctor as [msg|]; simpl.
  - rewrite (statusOf_same c _ _ (clientObjs_rejectConnect _ _ _)).
    rewrite (statusOf_same c _ _ (clientObjs_callEventHandler _ _ _)).
    by apply statusOf_updClient_down.
  - rewrite statusOf_updClient. simpl.
    rewrite clientObjs_callEventHandler. unfold updClient. simpl.
    by rewrite list_lookup_alter_eq, Hc.
Qed.

Lemma keptOrDown_connectToRemote c l ctor s : keptOrDown c s (connectToRemote l ctor s).1.
Proof.
  unfold connectToRemote.
  destruct (tabAt s l) as [t|]; [|by left].
  destruct (alias t) as [a|]; [|by left]. destruct (host t) as [h|]; [|by left].
  destruct (port t) as [p|]; [|by left]. case_match; [by left|].
  destruct (remoteConfigs s !! a) as [config|]; simpl;
    [|apply keptOrDown_same, clientObjs_updateTabStatus].
  destruct (clients_get a (clients s)) as [c0|]; simpl.
  - case_match; [by left|].
    set (s2 := updateTabStatus (id t) connecting None s).
    pose proof (keptOrDown_connect c c0 ctor s2) as H3.
    destruct (connect c0 ctor s2) as [s3 pr]. simpl in *.
    eapply keptOrDown_trans; [|apply keptOrDown_same, clientObjs_awaitConnect].
    eapply keptOrDown_trans; [|exact H3].
    apply keptOrDown_same, clientObjs_updateTabStatus.
  - set (s1 := set_clients _ _).
    assert (keptOrDown c s s1) as H1.
    { unfold keptOrDown, statusOf, s1. simpl.
      destruct (lt_eq_lt_dec c (length (clientObjs s))) as [[Hlt| ->]|Hgt].
      - left. by rewrite lookup_app_l.
      - right. by rewrite lookup_app_r, Nat.sub_diag.
      - left. rewrite lookup_ge_None_2; [|rewrite length_app; simpl; lia].
        symmetry. apply lookup_ge_None_2. lia. }
    set (s2 := updateTabStatus (id t) connecting None s1).
    pose proof (keptOrDown_connect c (length (clientObjs s)) ctor s2) as H3.
    destruct (connect _ ctor s2) as [s3 pr]. simpl in *.
    eapply keptOrDown_trans; [|apply keptOrDown_same, clientObjs_awaitConnect].
    eapply keptOrDown_trans; [|exact H3].
    eapply keptOrDown_trans; [exact H1|].
    apply keptOrDown_same, clientObjs_updateTabStatus.
Qed.

Lemma keptOrDown_selectTab c index ctor s : keptOrDown c s (selectTab index ctor s).
Proof.
  unfold selectTab. case_match; [by left|].
  set (s1 := set_selectedIndex index s).
  destruct (tabList s1 !! Z.to_nat index) as [l|]; [|by left].
  destruct (tabAt s1 l) as [tab|]; [|by left].
  case_match; [|apply keptOrDown_same; by rewrite clientObjs_notify].
  pose proof (keptOrDown_connectToRemote c l ctor s1) as Hc.
  assert (keptOrDown c s s1) as H1 by by left.
  destruct (connectToRemote l ctor s1) as [s2 []]; simpl in Hc.
  - eapply keptOrDown_trans; [exact H1|]. eapply keptOrDown_trans; [exact Hc|].
    apply keptOrDown_same, clientObjs_notify.
  - eapply keptOrDown_trans; [exact H1|exact Hc].
Qed.

Lemma keptOrDown_refreshKeep c nA l s : keptOrDown c s (refreshKeep nA l s).2.
Proof.
  destruct (refreshKeep_cases nA l s) as [Heq|(t & a & c' & _ & _ & _ & _ & _ & _ & Heq)];
    rewrite Heq; [by left|].
  eapply keptOrDown_trans; [apply (keptOrDown_disconnect c c')|]. by left.
Qed.

Lemma keptOrDown_filterTabs c nA ls s : keptOrDown c s (filterTabs nA ls s).2.
Proof.
  revert s. induction ls as [|l ls IH]; intros s; [by left|].
  rewrite filterTabs_cons_snd.
  eapply keptOrDown_trans; [apply keptOrDown_refreshKeep|apply IH].
Qed.

Lemma keptOrDown_disconnect_loop c (m : list (string * nat)) s :
  keptOrDown c s (fold_left (fun s kv => disconnect kv.2 s) m s).
Proof.
  revert s. induction m as [|kv m IH]; intros s; simpl; [by left|].
  eapply keptOrDown_trans; [apply (keptOrDown_disconnect c kv.2)|apply IH].
Qed.

Lemma keptOrDown_step c e s :
  (forall w k p m, e = WsMessage w (Some m) -> sockets s !! w = Some k ->
     readyState k = OPEN -> onmessage k = Some (c, p) ->
     ~ (type m = "auth_response" /\ success m = true)) ->
  keptOrDown c s (step e s).
Proof.
  intros He. destruct e; simpl.
  - by left.
  - apply keptOrDown_same. unfold initializeLoaded. rewrite clientObjs_notify.
    apply (fold_left_preserves (fun s' => clientObjs s' = clientObjs s)); [|done].
    by intros s' r <-.
  - by left.
  - apply keptOrDown_selectTab.
  - apply keptOrDown_selectTab.
  - apply keptOrDown_selectTab.
  - unfold disconnectAll. eapply keptOrDown_trans; [|apply keptOrDown_same, clientObjs_notify].
    set (s1 := fold_left _ (clients s) s).
    assert (keptOrDown c s s1) as H1 by apply keptOrDown_disconnect_loop.
    eapply keptOrDown_trans; [exact H1|]. apply keptOrDown_same.
    apply (fold_left_preserves (fun s' => clientObjs s' = clientObjs s1)); [|done].
    by intros s' l <-.
  - rewrite refresh_unfold. cbv zeta.
    eapply keptOrDown_trans; [|apply keptOrDown_same, clientObjs_notify].
    set (s3 := fold_left addRemote remotes _).
    assert (keptOrDown c s s3) as H3.
    { eapply keptOrDown_trans; [apply (keptOrDown_filterTabs c remotes.*1 (tabList s))|].
      apply keptOrDown_same. unfold s3.
      apply (fold_left_preserves
               (fun s' => clientObjs s' = clientObjs (filterTabs remotes.*1 (tabList s) s).2)).
      - intros s' r <-. unfold addRemote. by case_match.
      - unfold refreshFiltered. by destruct (filterTabs _ _ s). }
    by case_match.
  - destruct (suspended s); [by left|]. apply keptOrDown_same.
    unfold resumeSelectTab. by rewrite clientObjs_notify.
  - destruct (sockets s !! w) as [k|]; [|by left]. case_bool_decide; [|by left].
    destruct (onopen k) as [c'|]; [|by left]. unfold on_open, authenticate.
    repeat case_match; by left.
  - destruct (sockets s !! w) as [k|] eqn:Hk; [|by left]. case_bool_decide as Hr; [|by left].
    destruct (onmessage k) as [[c' p]|] eqn:Hm; [|by left].
    destruct data as [m|]; [|by left]. simpl. apply keptOrDown_handleMessage.
    intros ->. by apply (He w k p m).
  - destruct (sockets s !! w) as [k|]; [|by left]. case_bool_decide; [by left|].
    destruct (onerror k) as [[c' p]|]; [|by left].
    eapply keptOrDown_trans; [|apply keptOrDown_on_error]. by left.
  - destruct (sockets s !! w) as [k|]; [|by left]. destruct (closeFired k); [by left|].
    destruct (onclose k) as [c'|]; [|by left].
    eapply keptOrDown_trans; [|apply keptOrDown_on_close]. by left.
  - destruct (timers s !! t) as [tm|]; [|by left]. destruct (cleared tm); [by left|].
    unfold on_tick. repeat case_match; by left.
Qed.

(** ** The heartbeat in time *)

Lemma arm_lookup now s s' D t : t < length (timers s) -> arm now s s' D !! t = D !! t.
Proof.
  intros Hlt. unfold arm.
  generalize (length (timers s') - length (timers s)). intros n.
  assert (forall (ts : list nat) (D0 : gmap nat Z), Forall (fun t' => t' <> t) ts ->
            fold_left (fun D t' => match timers s' !! t' with
                                   | Some tm => <[t' := (now + delay tm)%Z]> D
                                   | None => D
                                   end) ts D0 !! t = D0 !! t) as H.
  { induction ts as [|t' ts IH]; intros D0 Hts; simpl; [done|].
    apply Forall_cons in Hts as [Hne Hts]. rewrite IH by done.
    destruct (timers s' !! t'); [|done]. by rewrite lookup_insert_ne. }
  apply H, Forall_forall. intros t' Hin%list_elem_of_In%in_seq. lia.
Qed.

Lemma arm_same now s s' D : timers s' = timers s -> arm now s s' D = D.
Proof. intros E. unfold arm. by rewrite E, Nat.sub_diag. Qed.

Lemma punctual_at now s D t tm d :
  punctual now s D = true -> timers s !! t = Some tm -> cleared tm = false ->
  D !! t = Some d -> (now <= d)%Z.
Proof.
  intros Hp Ht Hcl Hd. unfold punctual in Hp. rewrite forallb_forall in Hp.
  specialize (Hp t). rewrite Ht, Hd, Hcl in Hp. simpl in Hp. apply Z.leb_le, Hp.
  apply in_seq. apply lookup_lt_Some in Ht. lia.
Qed.

Lemma own_tick s c cl w t0 :
  netInv s -> clientObjs s !! c = Some cl -> _status cl = connected ->
  ws cl = Some w -> pingInterval cl = Some t0 ->
  timers s !! t0 = Some (mkTimer c 30000 false) /\
  step (TimerTick t0) s = updSocket w (ws_send pingMessage) s /\
  pingLog (step (TimerTick t0) s) w = pingLog s w ++ [pingMessage].
Proof.
  intros [Ht Hs] Hc Hst Hw Hp.
  pose proof (ti_held _ _ Ht c cl t0 Hc Hp) as Htm.
  destruct (si_ws _ _ Hs c cl w Hc Hw) as (k & Hk & _).
  assert (step (TimerTick t0) s = updSocket w (ws_send pingMessage) s) as Htick.
  { rewrite tick_unfold, Htm. simpl. rewrite Hc, Hw. by rewrite bool_decide_eq_true_2. }
  split; [done|]. split; [done|].
  rewrite Htick, (pingLog_tick w k) by done. by destruct (decide (w = w)).
Qed.

Lemma other_tick s c cl w t0 t :
  netInv s -> clientObjs s !! c = Some cl -> ws cl = Some w -> pingInterval cl = Some t0 ->
  t <> t0 ->
  pingLog (step (TimerTick t) s) w = pingLog s w /\
  clientObjs (step (TimerTick t) s) = clientObjs s /\
  timers (step (TimerTick t) s) = timers s.
Proof.
  intros [Ht Hs] Hc Hw Hp Hne. rewrite tick_unfold.
  destruct (timers s !! t) as [tm|] eqn:Htm; [|done].
  destruct (cleared tm) eqn:Hcl; [done|].
  destruct (clientObjs s !! callback tm) as [cl'|] eqn:Hc'; [|done].
  destruct (ws cl') as [w'|] eqn:Hw'; [|done].
  case_bool_decide as Hst; [|done]. split; [|done].
  destruct (si_ws _ _ Hs _ cl' w' Hc' Hw') as (k' & Hk' & Hat').
  rewrite (pingLog_tick w' k') by done.
  destruct (decide (w = w')) as [->|Hww]; [|by rewrite app_nil_r].
  destruct (si_ws _ _ Hs c cl w' Hc Hw) as (k & Hk & Hat).
  rewrite Hk' in Hk. injection Hk as <-.
  assert (callback tm = c) as Ecb.
  { destruct Hat as [E1 _], Hat' as [E2 _]. congruence. }
  destruct (ti_owner _ _ Ht t tm Htm Hcl) as (cl2 & Hc2 & Hp2).
  rewrite Ecb, Hc in Hc2. injection Hc2 as <-. congruence.
Qed.

Lemma last_cons_default {A} (l : list A) (a d : A) : List.last (a :: l) d = List.last l a.
Proof.
  revert a d. induction l as [|b l IH]; intros a d; [done|].
  change (List.last (a :: b :: l) d) with (List.last (b :: l) d).
  by rewrite (IH b d), (IH b a).
Qed.

Lemma lastTime_cons now te tr : lastTime now (te :: tr) = lastTime te.1 tr.
Proof. unfold lastTime. simpl. apply last_cons_default. Qed.

Lemma tstep_clock now e s (D : gmap nat Z) :
  (tstep (now, e) (s, D)).2 =
    arm now s (step e s) match e with TimerTick t => rearm t s D | _ => D end.
Proof. done. Qed.

Lemma pingTimes_cons w now e tr s :
  pingTimes w ((now, e) :: tr) s =
    replicate (length (pingLog (step e s) w) - length (pingLog s w)) now ++
    pingTimes w tr (step e s).
Proof. done. Qed.

Lemma everyPeriod_cons start period first n :
  (start + period * Z.of_nat first)%Z :: everyPeriod start period (S first) n =
    everyPeriod start period first (S n).
Proof. done. Qed.

(** From a state in which the client [c] is connected, holds the socket [w]
    and the timer [t0], due for its call number [n + 1]: along a run that
    honours the timers, in which the client stays connected and receives no
    further successful [auth_response], the pings on [w] are sent at the
    due times that follow, one for every period that has elapsed. *)
Lemma cadence_run c cl w t0 start tr :
  _status cl = connected -> ws cl = Some w -> pingInterval cl = Some t0 ->
  forall s (D : gmap nat Z) n now,
    netInv s -> clientObjs s !! c = Some cl ->
    D !! t0 = Some (start + 30000 * Z.of_nat (S n))%Z ->
    (now <= start + 30000 * Z.of_nat (S n))%Z ->
    onTime now tr (s, D) = true -> staysConnected c tr s = true ->
    forallb (fun te => negb (reauth w te.2)) tr = true ->
    exists n',
      pingTimes w tr s = everyPeriod start 30000 (S n) n' /\
      (lastTime now tr <= start + 30000 * Z.of_nat (S (n + n')))%Z.
Proof.
  intros Hst Hw Hp. induction tr as [|[t1 e] tr IH]; intros s D n now Hnet Hc HD Hnow Hon Hsc Hre.
  { exists 0. split; [done|]. unfold lastTime. simpl. by rewrite Nat.add_0_r. }
  simpl in Hon, Hsc, Hre.
  apply andb_true_iff in Hon as [Hon Hon'].
  apply andb_true_iff in Hon as [Hon Hdue].
  apply andb_true_iff in Hon as [Hle%Z.leb_le Hpu].
  apply andb_true_iff in Hsc as [Hs1%bool_decide_eq_true Hsc].
  apply andb_true_iff in Hre as [Hre1%negb_true_iff Hre].
  destruct (own_tick s c cl w t0 Hnet Hc Hst Hw Hp) as (Htm & Htick & Hlog).
  pose proof (punctual_at _ _ _ t0 _ _ Hpu Htm eq_refl HD) as Hbound.
  pose proof (netInv_step e s Hnet) as Hnet1.
  pose proof (lookup_lt_Some _ _ _ Htm) as Hlt.
  rewrite lastTime_cons. simpl fst.
  destruct (tick_or_not e) as [[t ->]|He].
  - destruct (decide (t = t0)) as [->|Hne].
    + (* the tick of the client's timer *)
      simpl in Hdue. rewrite Htm, HD in Hdue. simpl in Hdue. apply Z.eqb_eq in Hdue.
      assert (clientObjs (step (TimerTick t0) s) !! c = Some cl) as Hc1 by by rewrite Htick.
      assert ((tstep (t1, TimerTick t0) (s, D)).2 !! t0 =
                Some (start + 30000 * Z.of_nat (S (S n)))%Z) as HD1.
      { rewrite tstep_clock, arm_same by by rewrite Htick.
        unfold rearm. rewrite Htm, HD. simpl. rewrite lookup_insert_eq. f_equal. lia. }
      destruct (IH (step (TimerTick t0) s) (tstep (t1, TimerTick t0) (s, D)).2 (S n) t1
                  Hnet1 Hc1 HD1) as (n' & Hpt & Hlast); try done; [lia|].
      exists (S n'). split.
      * rewrite pingTimes_cons, Hlog, length_app.
        replace (length (pingLog s w) + length [pingMessage] - length (pingLog s w))
          with 1 by (simpl; lia).
        rewrite Hpt, <- Hdue. apply everyPeriod_cons.
      * replace (n + S n') with (S n + n') by lia. exact Hlast.
    + (* the tick of another timer *)
      destruct (other_tick s c cl w t0 t Hnet Hc Hw Hp Hne) as (Elog & Eo & Et).
      assert (clientObjs (step (TimerTick t) s) !! c = Some cl) as Hc1 by by rewrite Eo.
      assert ((tstep (t1, TimerTick t) (s, D)).2 !! t0 =
                Some (start + 30000 * Z.of_nat (S n))%Z) as HD1.
      { rewrite tstep_clock, arm_same by done.
        unfold rearm. destruct (timers s !! t) as [tm|]; [|done].
        destruct (D !! t); [|done]. destruct (cleared tm); [done|].
        by rewrite lookup_insert_ne. }
      destruct (IH (step (TimerTick t) s) (tstep (t1, TimerTick t) (s, D)).2 n t1
                  Hnet1 Hc1 HD1) as (n' & Hpt & Hlast); try done.
      exists n'. split; [|done].
      by rewrite pingTimes_cons, Elog, Nat.sub_diag.
  - (* any other event *)
    assert (clientObjs (step e s) !! c = Some cl) as Hc1.
    { destruct (keptOrDown_step c e s) as [E|E]; [|congruence|done].
      intros w' k' p' m' -> Hk' Hr' Hm' [Hty Hsu].
      destruct Hnet as [_ Hs].
      destruct (sockInv_attached _ _ w' k' c Hs Hk') as [Hat _]; [eauto|].
      destruct (si_live _ _ Hs w' k' c cl Hk' Hat (or_intror Hr') Hc) as [Hw' _].
      assert (w' = w) as -> by congruence.
      simpl in Hre1. by rewrite !bool_decide_eq_true_2, Hsu in Hre1. }
    assert ((tstep (t1, e) (s, D)).2 !! t0 = Some (start + 30000 * Z.of_nat (S n))%Z) as HD1.
    { rewrite tstep_clock, arm_lookup by done.
      destruct e; try done. by destruct (He t). }
    destruct (IH (step e s) (tstep (t1, e) (s, D)).2 n t1 Hnet1 Hc1 HD1)
      as (n' & Hpt & Hlast); try done.
    exists n'. split; [|done].
    by rewrite pingTimes_cons, pingLog_step, Nat.sub_diag.
Qed.

(** A successful [auth_response] on an open socket with the callbacks of
    the client [c], whatever the status of the client: the client is
    [connected], keeps the socket, and holds a new timer; the timer it held
    is cleared. *)
Lemma auth_success_net s w k c p m :
  netInv s ->
  sockets s !! w = Some k -> readyState k = OPEN -> onmessage k = Some (c, p) ->
  type m = "auth_response" -> success m = true ->
  let s' := step (WsMessage w (Some m)) s in
  exists cl cl',
    clientObjs s !! c = Some cl /\ clientObjs s' !! c = Some cl' /\
    _status cl' = connected /\ ws cl' = Some w /\
    pingInterval cl' = Some (length (timers s)) /\
    timers s' = stopped (pingInterval cl) (timers s) ++ [mkTimer c 30000 false].
Proof.
  intros [Ht Hs] Hk Hr Hm Hty Hsu s'.
  destruct (sockInv_attached _ _ w k c Hs Hk) as [Hat [cl Hc]]; [eauto|].
  destruct (si_live _ _ Hs w k c cl Hk Hat (or_intror Hr) Hc) as [Hw _].
  assert (s' = resolveConnect p (startPingInterval c (callEventHandler c ev_connected
                 (updClient c (with_status connected) s)))) as ->.
  { unfold s'. simpl. rewrite Hk, Hm. rewrite bool_decide_eq_true_2 by done.
    unfold on_message, handleMessage. rewrite Hty, Hsu. by rewrite bool_decide_eq_true_2. }
  set (s1 := updClient c (with_status connected) s).
  assert (clientObjs s1 !! c = Some (with_status connected cl)) as Hc1.
  { unfold s1, updClient. simpl. by rewrite list_lookup_alter_eq, Hc. }
  set (s2 := callEventHandler c ev_connected s1).
  pose proof (netView_callEventHandler c ev_connected s1) as Hn2. fold s2 in Hn2.
  destruct (netView_fields _ _ Hn2) as (Eo2 & Ek2 & Et2 & Ep2 & Ecl2).
  assert (clientObjs s2 !! c = Some (with_status connected cl)) as Hc2 by by rewrite Eo2.
  set (s3 := startPingInterval c s2).
  destruct (net_fields (startPingInterval_stores c s2 _ Hc2)) as (Eo3 & Ek3 & Et3).
  fold s3 in Eo3, Ek3, Et3.
  destruct (net_fields (net_resolveConnect p s3)) as (Eo4 & Ek4 & Et4).
  exists cl. eexists. split; [done|]. split.
  { rewrite Eo4, Eo3, list_lookup_alter_eq, Hc2. reflexivity. }
  simpl. rewrite Et2. split; [done|]. split; [done|]. split; [done|].
  by rewrite Et4, Et3, Et2.
Qed.

(** C5, amended.  In every reachable state [s]:
    (1) a connected client holds exactly one timer that is not cleared, of
    period 30000 ms and with the client's callback, and holds an open
    socket; a call of that timer's callback hands exactly one [ping] to that
    socket and changes nothing else;
    (2) the [ping] log of a socket changes at no other event: only at the
    call of a timer that is not cleared and whose client is connected and
    holds the socket;
    (3) after [disconnect()] every timer of the client is cleared;
    (4) a [pong] leaves the whole state as it is: no event, no timer
    touched;
    (5) an [auth_response] with [success: true] on an open socket of a
    client, also of a client that is already connected, clears the timer the
    client holds and registers a new one, which the client then holds: the
    period starts again;
    (6) over any other event after which the client is still connected, a
    connected client is unchanged: it keeps its socket and its timer, which
    is still not cleared;
    (7) in time: once that [auth_response] has arrived at the time [start],
    along every run that honours [setInterval], in which the client stays
    connected and receives no further successful [auth_response], the pings
    on its socket are sent exactly at [start + 30000], [start + 60000], ...,
    one for every period that has elapsed. *)
Theorem C5_heartbeat es :
  let s := run es init in
  (forall c cl, clientObjs s !! c = Some cl -> _status cl = connected ->
     exists t w k,
       pingInterval cl = Some t /\ timers s !! t = Some (mkTimer c 30000 false) /\
       (forall t' tm, timers s !! t' = Some tm -> cleared tm = false -> callback tm = c ->
                      t' = t) /\
       ws cl = Some w /\ sockets s !! w = Some k /\ readyState k = OPEN /\
       step (TimerTick t) s = updSocket w (ws_send pingMessage) s /\
       forall w', pingLog (step (TimerTick t) s) w' =
                    pingLog s w' ++ (if decide (w' = w) then [pingMessage] else [])) /\
  (forall e w, pingLog (step e s) w <> pingLog s w ->
     exists t tm cl,
       e = TimerTick t /\ timers s !! t = Some tm /\ cleared tm = false /\
       clientObjs s !! callback tm = Some cl /\ _status cl = connected /\ ws cl = Some w) /\
  (forall c t tm, timers (disconnect c s) !! t = Some tm -> callback tm = c ->
     cleared tm = true) /\
  (forall w m, type m = "pong" -> step (WsMessage w (Some m)) s = s) /\
  (forall w k c p m,
     sockets s !! w = Some k -> readyState k = OPEN -> onmessage k = Some (c, p) ->
     type m = "auth_response" -> success m = true ->
     let s' := step (WsMessage w (Some m)) s in
     exists cl cl',
       clientObjs s !! c = Some cl /\ clientObjs s' !! c = Some cl' /\
       _status cl' = connected /\ ws cl' = Some w /\
       pingInterval cl' = Some (length (timers s)) /\
       timers s' !! length (timers s) = Some (mkTimer c 30000 false) /\
       forall t, pingInterval cl = Some t -> timers s' !! t = Some (mkTimer c 30000 true)) /\
  (forall c cl w t e,
     clientObjs s !! c = Some cl -> _status cl = connected ->
     ws cl = Some w -> pingInterval cl = Some t ->
     reauth w e = false -> statusOf c (step e s) = connected ->
     clientObjs (step e s) !! c = Some cl /\
     timers (step e s) !! t = Some (mkTimer c 30000 false)) /\
  (forall w k c p m start (D : gmap nat Z) tr,
     sockets s !! w = Some k -> readyState k = OPEN -> onmessage k = Some (c, p) ->
     type m = "auth_response" -> success m = true ->
     let cfg := tstep (start, WsMessage w (Some m)) (s, D) in
     onTime start tr cfg = true ->
     staysConnected c tr cfg.1 = true ->
     forallb (fun te => negb (reauth w te.2)) tr = true ->
     statusOf c cfg.1 = connected /\
     exists n,
       pingTimes w tr cfg.1 = everyPeriod start 30000 1 n /\
       (lastTime start tr <= start + 30000 * Z.of_nat (S n))%Z).
Proof.
  intros s. pose proof (netInv_reachable es) as Hnet. fold s in Hnet.
  destruct (heartbeat_state es) as (H1 & H2 & H3 & H4). fold s in H1, H2, H3, H4.
  split; [exact H1|]. split; [exact H2|]. split; [exact H3|]. split; [exact H4|].
  split; [|split].
  - intros w k c p m Hk Hr Hm Hty Hsu s'.
    destruct (auth_success_net s w k c p m Hnet Hk Hr Hm Hty Hsu)
      as (cl & cl' & Hc & Hc' & Hst' & Hw' & Hp' & Et). fold s' in Hc', Et.
    exists cl, cl'. repeat (split; [done|]). split.
    + rewrite Et, lookup_app_r; rewrite length_stopped; [|done]. by rewrite Nat.sub_diag.
    + intros t Hp. destruct Hnet as [Hti _].
      pose proof (ti_held _ _ Hti c cl t Hc Hp) as Htm.
      rewrite Et, Hp. simpl. rewrite lookup_app_l.
      * by rewrite list_lookup_alter_eq, Htm.
      * rewrite length_alter. by apply lookup_lt_Some in Htm.
  - intros c cl w t e Hc Hst Hw Hp Hre Hs1.
    assert (clientObjs (step e s) !! c = Some cl) as Hc1;
      [|split; [done|];
        by apply (ti_held _ _ (proj1 (netInv_step e s Hnet)) c cl)].
    destruct (keptOrDown_step c e s) as [E|E]; [|congruence|done].
    intros w' k' p' m' -> Hk' Hr' Hm' [Hty Hsu].
    destruct Hnet as [_ Hs].
    destruct (sockInv_attached _ _ w' k' c Hs Hk') as [Hat _]; [eauto|].
    destruct (si_live _ _ Hs w' k' c cl Hk' Hat (or_intror Hr') Hc) as [Hw' _].
    assert (w' = w) as -> by congruence.
    simpl in Hre. by rewrite !bool_decide_eq_true_2, Hsu in Hre.
  - intros w k c p m start D tr Hk Hr Hm Hty Hsu cfg Hon Hsc Hre.
    destruct (auth_success_net s w k c p m Hnet Hk Hr Hm Hty Hsu)
      as (cl & cl' & Hc & Hc' & Hst' & Hw' & Hp' & Et).
    set (s' := step (WsMessage w (Some m)) s) in *.
    assert (cfg.1 = s') as E1 by done.
    assert (cfg.2 !! length (timers s) = Some (start + 30000 * Z.of_nat 1)%Z) as HD.
    { unfold cfg. rewrite tstep_clock. fold s'. unfold arm.
      rewrite Et, length_app, length_stopped. simpl length.
      replace (length (timers s) + 1 - length (timers s)) with 1 by lia. simpl.
      rewrite lookup_app_r; rewrite length_stopped; [|done]. rewrite Nat.sub_diag. simpl.
      rewrite lookup_insert_eq. f_equal. }
    rewrite E1 in *. split; [unfold statusOf; by rewrite Hc'|].
    destruct (cadence_run c cl' w (length (timers s)) start tr Hst' Hw' Hp' s' cfg.2 0 start)
      as (n & Hpt & Hlast); try done; [by apply netInv_step|lia|].
    exists n. by split.
Qed.

(** C5, counterexample.  The client is connected at time 0 and receives a
    second [auth_response] with [success: true] at 20000 ms: the timer is
    cleared and a new one registered, whose first call is due at 50000 ms.
    The run honours [setInterval] and the client is connected throughout,
    but no [ping] is sent in the first 30 seconds, nor before 50000 ms; a
    call of the first timer's callback would do nothing. *)
Lemma C5_counterexample :
  let auth := WsMessage 0 (Some (mkMsg "auth_response" None true None)) in
  let cfg := tstep (0%Z, auth) (handshaking, ∅) in
  let tr := [(20000%Z, auth); (50000%Z, TimerTick 1)] in
  statusOf 0 cfg.1 = connected /\
  onTime 0 tr cfg = true /\ staysConnected 0 tr cfg.1 = true /\
  pingTimes 0 tr cfg.1 = [50000%Z] /\
  timers (step auth cfg.1) = [mkTimer 0 30000 true; mkTimer 0 30000 false] /\
  step (TimerTick 0) (step auth cfg.1) = step auth cfg.1.
Proof. vm_compute. done. Qed.

Lemma C5_heartbeat_witness :
  pingTimes 0
    [(1000%Z, LastConnectedReturned); (30000%Z, TimerTick 0);
     (45000%Z, WsMessage 0 (Some (mkMsg "pong" None false None)));
     (60000%Z, TimerTick 0); (70000%Z, SelectTab 1 None)]
    (tstep (0%Z, WsMessage 0 (Some (mkMsg "auth_response" None true None)))
       (run [OnStateChange; Initialize; InitializeLoaded oneRemote; SelectTab 1 None; WsOpen 0]
          init, ∅)).1 = [30000%Z; 60000%Z] /\
  exists n,
    pingTimes 0
      [(1000%Z, LastConnectedReturned); (30000%Z, TimerTick 0);
       (45000%Z, WsMessage 0 (Some (mkMsg "pong" None false None)));
       (60000%Z, TimerTick 0); (70000%Z, SelectTab 1 None)]
      (tstep (0%Z, WsMessage 0 (Some (mkMsg "auth_response" None true None)))
         (run [OnStateChange; Initialize; InitializeLoaded oneRemote; SelectTab 1 None; WsOpen 0]
            init, ∅)).1 = everyPeriod 0 30000 1 n /\
    (70000 <= 0 + 30000 * Z.of_nat (S n))%Z.
Proof.
  split; [vm_compute; reflexivity|].
  destruct (C5_heartbeat
              [OnStateChange; Initialize; InitializeLoaded oneRemote; SelectTab 1 None; WsOpen 0])
    as (_ & _ & _ & _ & _ & _ & H7).
  destruct (H7 0 (mkSocket ("h1", 8080%Z) (Some 0) (Some (0, 0)) (Some (0, 0)) (Some 0) OPEN
                    false [authMessage "tok"])
              0 0 (mkMsg "auth_response" None true None) 0%Z ∅
              [(1000%Z, LastConnectedReturned); (30000%Z, TimerTick 0);
               (45000%Z, WsMessage 0 (Some (mkMsg "pong" None false None)));
               (60000%Z, TimerTick 0); (70000%Z, SelectTab 1 None)])
    as (_ & n & Hpt & Hlast); try (vm_compute; reflexivity).
  exists n. split; [exact Hpt|exact Hlast].
Defined.
